(* ===== verification/_CoqProject ===== *)
-Q . S2P
Prelude.v
CString.v
Hash.v
ArtNode.v
ArtTree.v
ArtNodeSpec.v
ArtShrink.v
ArtTreeSpec.v
ArtPrefix.v
ArtMap.v
Queue.v
QueueSpec.v
QueueProps.v
DList.v
Blocks.v
DListSpec.v
DListProps.v
DListHistory.v
DListQuery.v
DListFrame.v
Timer.v
Bst.v
BstSpec.v
HyperLogLog.v
HyperLogLogSpec.v
HllFloat.v
Spinlock.v
Perf.v
Mapper.v
Svc.v
Stats.v
StatsSpec.v
StatsDump.v
Database.v
DatabaseSpec.v
Journal.v
CmdManager.v
CmdSpec.v
Executor.v
Psmgr.v
PacketAnalyze.v
PacketSpec.v
CmdStop.v
Mount.v
Commands.v
PacketExec.v
Main.v
MainSpec.v
Pipeline.v
Shutdown.v
