(* ===== verification/Prelude.v ===== *)
(** * Niuchacz: a verified model of a packet capture service

    Niuchacz is a C program that captures network packets, decodes them and
    stores them in SQLite databases.  This library translates its own code,
    the library [src/libalgorithms] and the program [src/src], into Rocq
    functions and step relations, and proves what the parts promise to each
    other, together with the inputs and schedules on which they do not keep
    the promise.

    ** The program and its model

    The library of algorithms, under [src/libalgorithms/src]:
    - [ext/art/art.c], the adaptive radix tree: [ArtNode] (the four node
      layouts, their growth and shrinking), [ArtTree] (search, insertion,
      deletion, iteration, destruction).  [ArtNodeSpec], [ArtShrink] and
      [ArtTreeSpec] relate nodes and trees to finite maps and, for ASCII keys,
      to their order; [ArtPrefix] is about iteration under a prefix; [ArtMap]
      has the theorems and implements the interface [StringMap] of [CString].
    - [algorithms/queue/queue.c], the message queue: [Queue] has each call as
      a function and all calls as a step relation [step], in which any number
      of threads interleave byte by byte; [QueueSpec] the invariant,
      [QueueProps] the theorems.
    - [algorithms/doublylinkedlist]: [DList] on a heap of nodes; [DListSpec]
      (rings), [DListProps] (each call on two lists of entries), [DListHistory]
      (sequences of calls), [DListQuery] (the records of a query), [DListFrame]
      (several lists in one heap).
      [Blocks] has the lemmas on structures in byte buffers.
    - [algorithms/hash/hash.c] and [ext/murmur]: [Hash].
    - [algorithms/timer/timer.c]: [Timer]; [algorithms/tree/bst.c]: [Bst],
      [BstSpec]; [algorithms/stream/cardinality/hyperloglog.c]: [HyperLogLog],
      [HyperLogLogSpec], and [HllFloat] for the estimate in IEEE doubles;
      [algorithms/spinlock/spinlock.c]: [Spinlock]; [algorithms/perf/perf.c]:
      [Perf].

    The program, under [src/src]:
    - [mapper.c], decoding of Ethernet and IP headers: [Mapper].
    - [svc_kernel/svc_lock.c], [svc_update.c], [svc_status.h] and the status
      of the service: [Svc].
    - [svc_kernel/svc_statistics.c], named counters in a radix tree, whose
      cells are memory of the components that own them: [Stats], [StatsSpec] and
      [StatsDump], proved against [StringMap].
    - [svc_kernel/database/database.c]: [Database], [DatabaseSpec] (statements),
      [Mount] (mounting and opening).  SQLite is the class [Sqlite];
      [SqliteLaws], [TxnLaws], [StmtLaws] and [QueryLaws] are documented rules
      the code relies on.  [Journal] records what SQLite was asked for; every
      SQLite can be given such a record.
    - [svc_kernel/execute_unit/cmd_manager.c], commands and jobs: [CmdManager],
      [CmdSpec].  Jobs travel as bytes through a [Queue].  [Executor] is about
      the loop of an executor, against the interface [HandlerLaws] for the
      commands, and [CmdStop] about stopping the manager.
    - [svc_kernel/psmgr/psmgr.c], threads: [Psmgr].  The list of the threads is
      a [DList]; the handshake of a new thread is the relation [hs_step].
    - [packet_analyze.c], the command that stores packets, with its caches of
      addresses over [Bst] and the database: [PacketAnalyze], [PacketSpec] (one
      lookup), [PacketExec] (the whole command and the life of the caches).
    - [import_pcap.c] and [export_file.c]: [Commands].
    - [svc_kernel/svc_kernel.c] and [main.c]: [Main], [MainSpec]; [Pipeline] joins
      the capture thread, the queue, the executor and the commands, which
      implement [HandlerLaws]; [Shutdown] follows the program from its main loop
      to its end.

    The state of the whole is the record [kernel] of [CmdManager] (status,
    counters, databases, queues, and the globals of the commands), which
    [Main] threads through the calls in the order of the code.

    ** Conventions

    A C integer is a [Z] with its wrap-around written out ([wrap], [swrap]).
    Memory is a list of bytes or a heap of nodes, every access is checked, and
    a program fault (out of bounds, null dereference, use after free, signed
    overflow, reading indeterminate memory) is a value [Err f] of the result
    type [res], as is running out of fuel ([Diverges]).  Results of [malloc],
    of the system and of the clock are arguments.  A theorem that a call
    returns states [Ok] with the result.

    Fuel: loops of the doubly linked list get the number of nodes of the heap,
    which suffices on every well formed list ([nodes_fuel]); the dumps of the
    threads and of the statistics get the 4096 bytes of their buffers; the loop of the estimate
    gets the number of registers; stepping a statement gets a bound that the
    laws of SQLite supply.  Loops that wait for other threads run over a list
    of what the environment does, or are steps of a relation.

    ** What the theorems show

    - Refinement: the radix tree behaves as a finite map over any history of
      calls ([art_history], [art_insert_refines], [art_delete_refines]), which
      it iterates in the order of its keys as long as they are ASCII
      ([art_ordered]) and by prefix ([art_iter_prefix_exact]); the linked list,
      over any history of calls, as two lists of entries with exactly their nodes
      in the heap ([dll_history]); the search tree as a map
      ([bst_insert_refines], [bst_delete_refines], [bst_search_refines]), with
      the entries that deletion mixes up.
    - Concurrency: in every interleaving the queue delivers the messages in
      order and intact ([queue_fifo]) and no access leaves the ring
      ([queue_progress]); destruction waits for the clients
      ([queue_destroy_waits]); the spin lock excludes ([spinlock_mutex]); the
      status of the service only goes forward ([kernel_status_forward]); a new
      thread and its creator meet before the creator goes on
      ([psmgr_handshake]).
    - Composition: a job calls the same handler with the same data whether it
      is executed at once or through the queue ([cmd_async_delivers]), also in
      every schedule of the threads at the queue ([interleaved_delivery]); an
      executor serves its queue in order ([executor_serves]), so that captured
      packets are analysed once each in the order of their capture
      ([pipeline_round]); looking up an address runs one transaction, caches exactly
      what was committed and leaves no transaction open but one whose ROLLBACK
      failed ([packet_eth_get]); the packet command keeps its caches well formed
      and its transactions closed in this sense on every frame
      ([packet_exec_sound]), from the creation of the caches on
      ([packet_lifecycle_sound]); every captured packet is counted once
      ([pcap_counts_packets]); the import of the test mode analyzes the packets
      of its file, each once and in order ([test_import_runs]); statements are counted and finalized
      ([db_exec_accounts]); a database of the configuration is mounted with its
      counters and opened by its name ([db_mount_open]).
    - The service as a whole: the main loop ends when the service is told to
      stop, and until then purges the list of threads every second and dumps the
      statistics every 61 seconds ([main_loop_dumps]), each dump complete ([stats_dump_reports]); from there
      the program gets to its end, with the three lists in the heap freed, each
      entry once and nothing else, the queues destroyed and both connections to
      SQLite closed ([service_shutdown]).  What other threads do in the meantime is an argument
      with a contract ([second], [leaves]): they leave the lists and queues and
      touch nothing else.
    - Round trips and equivalences: every header field and the payload of a
      frame are read from their bytes ([map_frame_spec]); the estimate of a sketch equals the one from exact
      sums ([hll_cardinality_value]); merging sketches is union
      ([hll_merge_union]); the hashes separate seeds and single bytes
      ([murmur_seed_injective], [fnv_byte_sensitive]).
    - Defects, as theorems on the model: lost wake-ups of the queue
      ([queue_lost_wakeup], [queue_destroy_stuck]) and a broadcast on a queue that
      may be freed ([queue_free_before_broadcast]), a lost stop request
      ([kernel_stop_lost]), double release and use after free of threads
      ([psmgr_double_release], [psmgr_create_uses_freed]), indeterminate time
      stamps ([packet_first_address_undefined]), addresses that are never
      forgotten ([packet_ip_reloaded]), a wrong minimum of the radix tree with
      bytes above 127 ([art_minimum_wrong]), a crash after a start that fails
      early ([main_failed_start_crashes]) and a program that never ends after one
      that fails late ([start_without_device_hangs]), and the overruns stated in the functional
      theorems of their components.

    ** Not modelled

    The vendored SQLite under [src/sqlite] (a class with its laws stands for
    it), the Oracle scripts, and the test programs.  libpcap, libconfig, PAPI,
    pthreads, the name service, address conversions and [log] are parameters
    or events.  Log output and the macros of [kernel.h] have no effect on the
    state.  The descriptors that [svcKernelInitService] closes and reopens,
    and [pcap_breakloop] in the cancel routines, are left out.  Failing [malloc] in
    the radix tree is left out, as the code does not handle it.

    While the main thread sleeps, other threads change only the list of the
    threads in the model of the main loop ([tick]); what they do to queues and
    databases is in the events of their own loops and in the states of the
    queues while these are destroyed ([destroy_waits]). *)

From Stdlib Require Export ZArith Lia.
From stdpp Require Export base tactics option list list_numbers numbers.
From stdpp Require Import gmap.

#[global] Open Scope Z_scope.
#[export] Set Warnings "-clear-no-such-hyp".

(** ** Machine integers

    A C unsigned integer of [w] bits is a [Z] in [[0, 2^w)]; arithmetic on it
    is arithmetic on [Z] followed by [wrap w].  A signed integer of [w] bits
    is read back from its bit pattern with [swrap w]. *)

Definition wrap (w z : Z) : Z := z mod 2 ^ w.

Definition swrap (w z : Z) : Z := (z + 2 ^ (w - 1)) mod 2 ^ w - 2 ^ (w - 1).

Abbreviation u8 := (wrap 8).
Abbreviation u16 := (wrap 16).
Abbreviation u32 := (wrap 32).
Abbreviation u64 := (wrap 64).
Abbreviation s32 := (swrap 32).

Definition is_u (w z : Z) : Prop := 0 <= z < 2 ^ w.
Abbreviation is_byte := (is_u 8).

#[export] Instance is_u_dec w z : Decision (is_u w z).
Proof. unfold is_u. apply _. Defined.

(** Decide a closed decidable proposition by evaluation. *)
Ltac decide_closed := apply (bool_decide_unpack _); vm_compute; exact I.

Declare Scope machine_scope.
Delimit Scope machine_scope with machine.
Notation "a ·[ w ] b" := (wrap w (a * b))
  (at level 40, left associativity, format "a  ·[ w ]  b") : machine_scope.
Notation "a ⊞[ w ] b" := (wrap w (a + b))
  (at level 50, left associativity, format "a  ⊞[ w ]  b") : machine_scope.
Notation "a ⊻ b" := (Z.lxor a b) (at level 50, left associativity) : machine_scope.

(** Lemmas that discharge the range side conditions of the integer model. *)
Create HintDb machine.

Lemma wrap_range w z : 0 <= w -> is_u w (wrap w z).
Proof. intros. apply Z.mod_pos_bound. lia. Qed.

Lemma wrap_small w z : is_u w z -> wrap w z = z.
Proof. apply Z.mod_small. Qed.

Lemma s32_small z : - 2 ^ 31 <= z < 2 ^ 31 -> s32 z = z.
Proof. intros H. unfold swrap. rewrite Z.mod_small; lia. Qed.

Lemma wrap_wrap w z : wrap w (wrap w z) = wrap w z.
Proof. apply Zmod_mod. Qed.

Lemma wrap_mul_l w a b : wrap w (wrap w a * b) = wrap w (a * b).
Proof. apply Zmult_mod_idemp_l. Qed.

Lemma wrap_mul_r w a b : wrap w (a * wrap w b) = wrap w (a * b).
Proof. apply Zmult_mod_idemp_r. Qed.

Lemma wrap_add_l w a b : wrap w (wrap w a + b) = wrap w (a + b).
Proof. apply Zplus_mod_idemp_l. Qed.

Lemma wrap_sub_l w a b : wrap w (wrap w a - b) = wrap w (a - b).
Proof. apply Zminus_mod_idemp_l. Qed.

(** A number fits in [w] bits iff it has no bit at or above [w]. *)
Lemma is_u_testbit w z :
  0 <= w -> is_u w z <-> (0 <= z /\ forall i, w <= i -> Z.testbit z i = false).
Proof.
  intros Hw. unfold is_u. split.
  - intros [H0 H1]. split; [done|]. intros i Hi.
    destruct (decide (z = 0)) as [->|]; [apply Z.bits_0|].
    apply Z.bits_above_log2; [done|]. apply Z.log2_lt_pow2; [lia|].
    eapply Z.lt_le_trans; [exact H1|]. apply Z.pow_le_mono_r; lia.
  - intros [H0 Hb]. split; [done|].
    destruct (decide (z < 2 ^ w)) as [|Hge]; [done|exfalso].
    assert (0 < z) as Hz.
    { assert (0 < 2 ^ w) by (apply Z.pow_pos_nonneg; lia). lia. }
    assert (w <= Z.log2 z) as Hl by (apply Z.log2_le_pow2; lia).
    specialize (Hb (Z.log2 z) Hl). rewrite Z.bit_log2 in Hb by lia. done.
Qed.

Lemma is_u_lxor w a b : 0 <= w -> is_u w a -> is_u w b -> is_u w (Z.lxor a b).
Proof.
  intros Hw (Ha & Ha')%(is_u_testbit w)  (Hb & Hb')%(is_u_testbit w); [|done..].
  apply is_u_testbit; [done|]. split.
  - apply Z.lxor_nonneg. lia.
  - intros i Hi. rewrite Z.lxor_spec, Ha', Hb'; done.
Qed.

Lemma is_u_shiftr w a n : 0 <= n -> is_u w a -> is_u w (Z.shiftr a n).
Proof.
  intros Hn [H0 H1]. unfold is_u. rewrite Z.shiftr_div_pow2 by done.
  split; [apply Z.div_pos; lia|].
  eapply Z.le_lt_trans; [|exact H1]. apply Z.div_le_upper_bound; [lia|].
  assert (1 <= 2 ^ n) by (change 1 with (2 ^ 0); apply Z.pow_le_mono_r; lia). nia.
Qed.

Lemma is_u_weaken w w' z : 0 <= w <= w' -> is_u w z -> is_u w' z.
Proof.
  intros Hw [H0 H1]. split; [done|]. eapply Z.lt_le_trans; [exact H1|].
  apply Z.pow_le_mono_r; lia.
Qed.

#[export] Hint Resolve wrap_range is_u_lxor is_u_shiftr : machine.
#[export] Hint Extern 5 (_ <= _) => lia : machine.

(** ** Errors

    A C expression whose evaluation is undefined (a read outside an object, a
    dereference of [NULL], ...) is an [Err] of the model, never a default
    value. *)

Inductive cerror : Type :=
| OutOfBounds     (* read or write outside the object *)
| NullDeref       (* dereference of a NULL pointer *)
| UseAfterFree    (* access to a freed object *)
| DoubleFree      (* free of a freed object *)
| Uninitialised   (* use of an indeterminate value *)
| DivByZero
| Overflow        (* signed arithmetic overflow *)
| Diverges.       (* a loop that never terminates *)

#[export] Instance cerror_eq_dec : EqDecision cerror.
Proof. solve_decision. Defined.

Inductive res (A : Type) : Type :=
| Ok (a : A)
| Err (e : cerror).
Arguments Ok {A} a.
Arguments Err {A} e.

#[export] Instance res_ret : MRet res := @Ok.
#[export] Instance res_bind : MBind res := fun A B f m =>
  match m with Ok a => f a | Err e => Err e end.
#[export] Instance res_fmap : FMap res := fun A B f m =>
  match m with Ok a => Ok (f a) | Err e => Err e end.

#[export] Instance res_eq_dec {A} `{EqDecision A} : EqDecision (res A).
Proof. solve_decision. Defined.

(** Reading cell [i] of an object. *)
Definition rd {A} (l : list A) (i : nat) : res A :=
  match l !! i with Some x => Ok x | None => Err OutOfBounds end.

(** Writing cell [i] of an object. *)
Definition wr {A} (l : list A) (i : nat) (x : A) : res (list A) :=
  if decide (i < length l)%nat then Ok (<[i := x]> l) else Err OutOfBounds.

(** Dereferencing a pointer that may be [NULL]. *)
Definition deref {A} (p : option A) : res A :=
  match p with Some x => Ok x | None => Err NullDeref end.

(** Using a value that may be indeterminate. *)
Definition init {A} (p : option A) : res A :=
  match p with Some x => Ok x | None => Err Uninitialised end.

(** [memmove] of [n] cells inside one array, from [src] to [dst]. *)
Definition memmove {A} (l : list A) (dst src n : nat) : res (list A) :=
  if decide (dst + n <= length l /\ src + n <= length l)%nat
  then Ok (take dst l ++ take n (drop src l) ++ drop (dst + n) l)
  else Err OutOfBounds.

(** [memcpy] of [n] cells from offset [soff] of [src] to offset [doff] of [dst]. *)
Definition memcpy {A} (dst : list A) (doff : nat) (src : list A) (soff n : nat) : res (list A) :=
  if decide (doff + n <= length dst /\ soff + n <= length src)%nat
  then Ok (take doff dst ++ take n (drop soff src) ++ drop (doff + n) dst)
  else Err OutOfBounds.

(** Writing [es] into the first cells of an array of [n] cells [d]. *)
Definition fill {A} (n : nat) (d : A) (es : list A) : res (list A) :=
  if decide (length es <= n)%nat
  then Ok (es ++ replicate (n - length es) d)
  else Err OutOfBounds.

Lemma bind_Ok {A B} (m : res A) (f : A -> res B) b :
  (m ≫= f) = Ok b -> exists a, m = Ok a /\ f a = Ok b.
Proof. destruct m; cbn; [eauto|discriminate]. Qed.

Lemma rd_Ok {A} (l : list A) i x : rd l i = Ok x <-> l !! i = Some x.
Proof. unfold rd. destruct (l !! i); naive_solver. Qed.

Lemma rd_lookup {A} (l : list A) i x : l !! i = Some x -> rd l i = Ok x.
Proof. apply rd_Ok. Qed.

Lemma wr_lt {A} (l : list A) i x : (i < length l)%nat -> wr l i x = Ok (<[i := x]> l).
Proof. intros. unfold wr. by rewrite decide_True. Qed.

(** Case analysis on a successful computation in the error monad. *)
Ltac res_inv :=
  repeat match goal with
  | H : (_ ≫= _) = Ok _ |- _ =>
      apply bind_Ok in H; destruct H as (? & ? & H)
  | H : Ok _ = Ok _ |- _ => injection H as H
  | H : Err _ = Ok _ |- _ => discriminate H
  | H : mret _ = Ok _ |- _ => injection H as H
  | H : rd _ _ = Ok _ |- _ => apply rd_Ok in H
  end; simplify_eq.

(** ** Applying a recursive function to a cell of a list

    [nth_with f d l i] is [f x] for the cell [x] at [i] and [d] past the end.
    [f] is fixed outside the recursion, so that a structurally recursive
    function over a tree may call itself through it. *)
Section nth_with.
Context {A B : Type} (f : A -> B) (d : B).

Fixpoint nth_with (l : list A) (i : nat) : B :=
  match l, i with
  | x :: _, O => f x
  | _ :: l', S i' => nth_with l' i'
  | [], _ => d
  end.

Lemma nth_with_lookup l i :
  nth_with l i = match l !! i with Some x => f x | None => d end.
Proof. revert i. induction l as [|x l IH]; intros [|i]; cbn; auto. Qed.
End nth_with.

(** ** Little-endian encoding of integers *)

Fixpoint le_bytes (n : nat) (z : Z) : list Z :=
  match n with
  | O => []
  | S n' => z mod 256 :: le_bytes n' (z / 256)
  end.

Fixpoint le_val (bs : list Z) : Z :=
  match bs with
  | [] => 0
  | b :: bs' => b + 256 * le_val bs'
  end.

Lemma length_le_bytes n z : length (le_bytes n z) = n.
Proof. revert z. induction n; intros; cbn; auto. Qed.

Lemma le_bytes_byte n z : Forall is_byte (le_bytes n z).
Proof.
  revert z. induction n as [|n IH]; intros z; constructor; [|apply IH].
  apply (Z.mod_pos_bound z 256). lia.
Qed.

Lemma le_val_bytes n z : is_u (8 * Z.of_nat n) z -> le_val (le_bytes n z) = z.
Proof.
  revert z. induction n as [|n IH]; intros z [H0 H1]; cbn -[Z.mul].
  - change (2 ^ (8 * Z.of_nat 0)) with 1 in H1. lia.
  - rewrite IH; [pose proof (Z.div_mod z 256); lia|].
    split; [apply Z.div_pos; lia|].
    apply Z.div_lt_upper_bound; [lia|].
    replace (8 * Z.of_nat (S n)) with (8 + 8 * Z.of_nat n) in H1 by lia.
    rewrite Z.pow_add_r in H1 by lia. exact H1.
Qed.

Lemma le_bytes_val bs : Forall is_byte bs -> le_bytes (length bs) (le_val bs) = bs.
Proof.
  induction 1 as [|b bs Hb _ IH]; [done|]. cbn -[Z.mul].
  assert (0 <= b < 256) as Hb' by exact Hb.
  rewrite (Z.mul_comm 256), Z.mod_add, Z.div_add by lia.
  rewrite Z.mod_small, Z.div_small, Z.add_0_l, IH by done. done.
Qed.

Lemma le_val_range bs :
  Forall is_byte bs -> is_u (8 * Z.of_nat (length bs)) (le_val bs).
Proof.
  induction 1 as [|b bs Hb _ IH]; [done|]. cbn [le_val].
  assert (0 <= b < 256) as Hb' by exact Hb. destruct IH as [IH0 IH1].
  unfold is_u. rewrite length_cons.
  replace (8 * Z.of_nat (S (length bs))) with (8 + 8 * Z.of_nat (length bs)) by lia.
  rewrite Z.pow_add_r by lia. change (2 ^ 8) with 256. nia.
Qed.

(** ** Lists *)

Lemma lookup_take_Some_lt {A} (l : list A) n i x :
  take n l !! i = Some x -> (i < n)%nat /\ l !! i = Some x.
Proof.
  intros H. pose proof (lookup_lt_Some _ _ _ H) as Hl.
  rewrite length_take in Hl. split; [lia|].
  rewrite lookup_take_lt in H; [done|lia].
Qed.
