(* ===== verification/CString.v ===== *)
(** * C strings and the interface of a string map

    A C string is a buffer that holds the bytes of a key followed by a NUL.
    [StringMap] is what a component that stores pointers under string names
    (the statistics service) relies on: operations with their C signatures,
    a representation relation to a finite map, and the laws that tie the two.
    The adaptive radix tree is shown to implement it. *)

From Stdlib Require Import Ascii String.
From stdpp Require Import gmap.
From S2P Require Import Prelude.

Module CStr.

Abbreviation akey := (list Z).
Abbreviation amap := (gmap (list Z) Z).

Definition NULL : Z := 0.

Definition key_ok (k : akey) : Prop := Forall (fun b => 0 < b < 256) k.
#[export] Instance key_ok_dec k : Decision (key_ok k).
Proof. unfold key_ok. apply _. Defined.

(** The bytes of the C string: the key and its terminator. *)
Definition term (k : akey) : list Z := k ++ [0].

(** The bytes of a string literal, without and with their terminator. *)
Definition str (s : string) : list Z := (fun c => Z.of_N (N_of_ascii c)) <$> list_ascii_of_string s.
Definition lit (s : string) : list Z := str s ++ [0].

(** The buffer holds the C string [k]. *)
Definition c_string (buf : list Z) (k : akey) : Prop :=
  key_ok k /\ term k `prefix_of` buf /\ Forall is_byte buf.
#[export] Instance c_string_dec buf k : Decision (c_string buf k).
Proof. unfold c_string. apply _. Defined.

(** [strlen]: reading past the buffer is an error. *)
Fixpoint strlen (buf : list Z) : res nat :=
  match buf with
  | [] => Err OutOfBounds
  | b :: buf' => if b =? 0 then Ok O else n ← strlen buf'; Ok (S n)
  end.

Lemma strlen_c_string buf k : c_string buf k -> strlen buf = Ok (length k).
Proof.
  intros (Hok & [r ->] & _). induction Hok as [|b k Hb _ IH]; [done|].
  cbn. destruct (Z.eqb_spec b 0); [lia|]. cbn in IH. unfold term in IH. by rewrite IH.
Qed.

(** ** The interface *)

(** Calling back for each entry in turn until the callback returns non-zero. *)
Section iter_list.
Context {S : Type} (pad : nat) (cb : S -> list Z -> nat -> Z -> S * Z).

Fixpoint iter_list (kvs : list (akey * Z)) (data : S) : S * Z :=
  match kvs with
  | [] => (data, 0)
  | (k, v) :: kvs' =>
      let '(data, r) := cb data (k ++ replicate pad 0) (length k) v in
      if r =? 0 then iter_list kvs' data else (data, r)
  end.
End iter_list.

(** [kvs] lists the entries of [M], each once. *)
Definition enumerates (kvs : list (akey * Z)) (M : amap) : Prop :=
  NoDup kvs.*1 /\ forall k v, (k, v) ∈ kvs <-> M !! k = Some v.

Class StringMap (T : Type) := {
  sm_pad : nat;   (* zero bytes readable behind the keys passed to a callback *)
  sm_init : T;
  sm_size : T -> Z;
  sm_insert : T -> list Z -> nat -> Z -> res (Z * T);
  sm_delete : T -> list Z -> nat -> res (Z * T);
  sm_search : T -> list Z -> nat -> res Z;
  sm_iter : forall S, (S -> list Z -> nat -> Z -> S * Z) -> T -> S -> res (S * Z);
  sm_free : T -> res (list (akey * Z));   (* the entries whose leaves are freed *)
  sm_rep : T -> amap -> Prop;
  (** keys on which a lookup that may fail stays inside its buffers *)
  sm_safe : T -> Prop;

  sm_init_rep : sm_rep sm_init ∅;
  sm_size_rep t M : sm_rep t M -> sm_size t = u64 (Z.of_nat (size M));
  sm_insert_rep t M buf k v :
    sm_rep t M -> c_string buf k ->
    exists t', sm_insert t buf (length k) v = Ok (default NULL (M !! k), t') /\ sm_rep t' (<[k := v]> M);
  sm_delete_rep t M buf k :
    sm_rep t M -> c_string buf k -> is_Some (M !! k) \/ sm_safe t ->
    exists t', sm_delete t buf (length k) = Ok (default NULL (M !! k), t') /\ sm_rep t' (delete k M);
  sm_search_rep t M buf k :
    sm_rep t M -> c_string buf k -> is_Some (M !! k) \/ sm_safe t ->
    sm_search t buf (length k) = Ok (default NULL (M !! k));
  sm_iter_rep t M :
    sm_rep t M -> exists kvs, enumerates kvs M /\
      forall S cb data, sm_iter S cb t data = Ok (iter_list sm_pad cb kvs data);
  sm_free_rep t M :
    sm_rep t M -> exists kvs, sm_free t = Ok kvs /\ enumerates kvs M
}.

End CStr.
