(* ===== verification/Hash.v ===== *)
(** * Hash functions of libalgorithms

    Models [libalgorithms/src/algorithms/hash/hash.c] and the two MurmurHash2
    routines of [libalgorithms/src/ext/murmur].  A buffer is the list of bytes
    readable through the [data] pointer; reading past it is [Err OutOfBounds].
    The theorems show that the four FNV loops are incremental, that every
    routine stays in its word size, and that for fixed data each routine is
    injective in the seed (so distinct seeds never collide), which rests on
    odd multiplication and xor-shift being invertible modulo [2^w]. *)

From S2P Require Import Prelude.

Local Open Scope machine_scope.

Module Hash.

(** ** FNV *)

Definition FNV_32_PRIME : Z := 0x01000193.
Definition FNV_64_PRIME : Z := 0x100000001b3.

(** [hash ^= byte] after [hash *= prime]. *)
Fixpoint fnv1_loop (w prime : Z) (data : list Z) (size : nat) (hashValue : Z) : res Z :=
  match size with
  | O => Ok hashValue
  | S size' =>
      match data with
      | [] => Err OutOfBounds
      | b :: data' =>
          fnv1_loop w prime data' size' ((hashValue ·[w] prime) ⊻ b)
      end
  end.

(** [hash ^= byte] before [hash *= prime]. *)
Fixpoint fnv1a_loop (w prime : Z) (data : list Z) (size : nat) (hashValue : Z) : res Z :=
  match size with
  | O => Ok hashValue
  | S size' =>
      match data with
      | [] => Err OutOfBounds
      | b :: data' =>
          fnv1a_loop w prime data' size' ((hashValue ⊻ b) ·[w] prime)
      end
  end.

Definition hash64FNV1 (data : list Z) (size : nat) (seed : Z) : res Z :=
  fnv1_loop 64 FNV_64_PRIME data size seed.
Definition hash32FNV1 (data : list Z) (size : nat) (seed : Z) : res Z :=
  fnv1_loop 32 FNV_32_PRIME data size seed.
Definition hash64FNV1a (data : list Z) (size : nat) (seed : Z) : res Z :=
  fnv1a_loop 64 FNV_64_PRIME data size seed.
Definition hash32FNV1a (data : list Z) (size : nat) (seed : Z) : res Z :=
  fnv1a_loop 32 FNV_32_PRIME data size seed.

(** ** MurmurHash2, 32 bits *)

Definition mm32 : Z := 0x5bd1e995.
Definition r32 : Z := 24.

Definition murmur32_mix (k : Z) : Z :=
  let k := k ·[32] mm32 in
  let k := k ⊻ (k ≫ r32) in
  k ·[32] mm32.

(** The [while(len >= 4)] loop: one little-endian word at a time.  Returns the
    hash, the rest of the data and the remaining length. *)
Fixpoint murmur32_loop (data : list Z) (len h : Z) {struct data} : res (Z * list Z * Z) :=
  if 4 <=? len then
    match data with
    | b0 :: b1 :: b2 :: b3 :: data' =>
        let k := murmur32_mix (le_val [b0; b1; b2; b3]) in
        murmur32_loop data' (len - 4) ((h ·[32] mm32) ⊻ k)
    | _ => Err OutOfBounds
    end
  else Ok (h, data, len).

(** The [switch(len)] with its fall-through cases. *)
Definition murmur32_tail (data : list Z) (len h : Z) : res Z :=
  h ← (if len =? 3 then d2 ← rd data 2; Ok (h ⊻ (d2 ≪ 16)) else Ok h);
  h ← (if (len =? 3) || (len =? 2) then d1 ← rd data 1; Ok (h ⊻ (d1 ≪ 8)) else Ok h);
  if (len =? 3) || (len =? 2) || (len =? 1) then
    d0 ← rd data 0; Ok ((h ⊻ d0) ·[32] mm32)
  else Ok h.

Definition murmur32_final (h : Z) : Z :=
  let h := h ⊻ (h ≫ 13) in
  let h := h ·[32] mm32 in
  h ⊻ (h ≫ 15).

Definition MurmurHash2_32 (key : list Z) (len seed : Z) : res Z :=
  let h := seed ⊻ u32 len in
  '(h, data, len) ← murmur32_loop key len h;
  h ← murmur32_tail data len h;
  Ok (murmur32_final h).

(** ** MurmurHash2, 64 bits *)

Definition mm64 : Z := 0xc6a4a7935bd1e995.
Definition r64 : Z := 47.

Definition murmur64_mix (k : Z) : Z :=
  let k := k ·[64] mm64 in
  let k := k ⊻ (k ≫ r64) in
  k ·[64] mm64.

(** [while(data != end)], [end] being [words] 8-byte words further. *)
Fixpoint murmur64_loop (words : nat) (data : list Z) (h : Z) : res (Z * list Z) :=
  match words with
  | O => Ok (h, data)
  | S words' =>
      if decide (8 <= length data)%nat then
        let k := murmur64_mix (le_val (take 8 data)) in
        murmur64_loop words' (drop 8 data) ((h ⊻ k) ·[64] mm64)
      else Err OutOfBounds
  end.

(** The fall-through cases [7 .. 1] of [switch(len & 7)]: case [i] xors byte
    [i-1] shifted into place and falls into case [i-1]. *)
Fixpoint murmur64_cases (i : nat) (data : list Z) (h : Z) : res Z :=
  match i with
  | O => Ok h
  | S i' => d ← rd data i'; murmur64_cases i' data (h ⊻ (d ≪ (8 * Z.of_nat i')))
  end.

Definition murmur64_tail (data : list Z) (len7 h : Z) : res Z :=
  if len7 =? 0 then Ok h
  else h ← murmur64_cases (Z.to_nat len7) data h; Ok (h ·[64] mm64).

Definition murmur64_final (h : Z) : Z :=
  let h := h ⊻ (h ≫ r64) in
  let h := h ·[64] mm64 in
  h ⊻ (h ≫ r64).

(** For [len <= -8], [end] lies before [data] and the loop leaves the object;
    [len / 8] rounds towards zero, so from -7 to -1 the loop is not entered and
    the [switch] reads [len & 7] bytes. *)
Definition MurmurHash2_64 (key : list Z) (len seed : Z) : res Z :=
  let h := seed ⊻ u64 (len * mm64) in
  if Z.quot len 8 <? 0 then Err OutOfBounds else
  '(h, data2) ← murmur64_loop (Z.to_nat (Z.quot len 8)) key h;
  h ← murmur64_tail data2 (Z.land len 7) h;
  Ok (murmur64_final h).

(** [size_t size] is converted to the [int len] of the Murmur routines. *)
Definition hash64Murmur (data : list Z) (size seed : Z) : res Z :=
  MurmurHash2_64 data (s32 size) seed.
Definition hash32Murmur (data : list Z) (size seed : Z) : res Z :=
  MurmurHash2_32 data (s32 size) seed.


(** ** Invertible word operations *)

(** A function on [w]-bit words that stays in range and never merges two
    words. *)
Record word_perm (w : Z) (f : Z -> Z) : Prop := {
  wp_range : forall x, is_u w x -> is_u w (f x);
  wp_inj : forall x y, is_u w x -> is_u w y -> f x = f y -> x = y
}.

Lemma word_perm_comp w f g :
  word_perm w f -> word_perm w g -> word_perm w (fun x => g (f x)).
Proof. intros [] []. split; eauto. Qed.

Lemma word_perm_mul w m minv :
  0 <= w -> wrap w (m * minv) = 1 -> word_perm w (fun x => x ·[w] m).
Proof.
  intros Hw Hinv. split; [auto with machine|].
  intros x y Hx Hy Heq.
  assert (forall z, is_u w z -> wrap w (wrap w (z * m) * minv) = z) as Hback.
  { intros z Hz. rewrite wrap_mul_l, <- Z.mul_assoc, <- wrap_mul_r, Hinv.
    rewrite Z.mul_1_r. by apply wrap_small. }
  rewrite <- (Hback x), <- (Hback y), Heq by done. done.
Qed.

Lemma word_perm_xor w c : 0 <= w -> is_u w c -> word_perm w (fun x => x ⊻ c).
Proof.
  intros Hw Hc. split; [auto with machine|]. intros x y _ _ Heq.
  apply (f_equal (fun z => Z.lxor z c)) in Heq.
  by rewrite !Z.lxor_assoc, !Z.lxor_nilpotent, !Z.lxor_0_r in Heq.
Qed.

Lemma shiftr_fixed d r : 0 <= d -> 0 < r -> Z.shiftr d r = d -> d = 0.
Proof.
  intros Hd Hr. rewrite Z.shiftr_div_pow2 by lia. intros Heq.
  destruct (decide (d = 0)) as [|Hne]; [done|].
  assert (d / 2 ^ r < d); [|lia]. apply Z.div_lt; [lia|].
  apply Z.pow_gt_1; lia.
Qed.

Lemma word_perm_xorshift w r :
  0 <= w -> 0 < r -> word_perm w (fun x => x ⊻ (x ≫ r)).
Proof.
  intros Hw Hr. split; [auto with machine|]. intros x y Hx Hy Heq.
  apply Z.lxor_eq. apply (shiftr_fixed _ r); [|done|].
  - destruct Hx, Hy. apply Z.lxor_nonneg. lia.
  - apply Z.lxor_eq. rewrite Z.shiftr_lxor, <- Z.lxor_assoc.
    rewrite (Z.lxor_assoc (x ≫ r)), (Z.lxor_comm (y ≫ r)), <- Z.lxor_assoc.
    rewrite (Z.lxor_comm (x ≫ r)), Heq.
    rewrite Z.lxor_assoc, (Z.lxor_comm (y ≫ r)).
    by rewrite <- Z.lxor_assoc, Z.lxor_assoc, !Z.lxor_nilpotent.
Qed.

Lemma fnv64_perm : word_perm 64 (fun x => x ·[64] FNV_64_PRIME).
Proof. by apply (word_perm_mul _ _ 0xce965057aff6957b). Qed.
Lemma fnv32_perm : word_perm 32 (fun x => x ·[32] FNV_32_PRIME).
Proof. by apply (word_perm_mul _ _ 0x359c449b). Qed.
Lemma mm32_perm : word_perm 32 (fun x => x ·[32] mm32).
Proof. by apply (word_perm_mul _ _ 0xe59b19bd). Qed.
Lemma mm64_perm : word_perm 64 (fun x => x ·[64] mm64).
Proof. by apply (word_perm_mul _ _ 0x5f7a0ea7e59b19bd). Qed.

(** [g] succeeds on every [w]-bit seed and permutes the [w]-bit words. *)
Definition seed_perm (w : Z) (g : Z -> res Z) : Prop :=
  exists f, word_perm w f /\ forall h, is_u w h -> g h = Ok (f h).

Lemma seed_perm_ret w f : word_perm w f -> seed_perm w (fun h => Ok (f h)).
Proof. intros. exists f. auto. Qed.

Lemma seed_perm_step w f g :
  word_perm w f -> seed_perm w g -> seed_perm w (fun h => g (f h)).
Proof.
  intros Hf (k & Hk & Hg). exists (fun h => k (f h)).
  split; [by apply (word_perm_comp w f k)|].
  intros h Hh. apply Hg. by apply Hf.
Qed.

Lemma seed_perm_bind w g1 g2 :
  seed_perm w g1 -> seed_perm w g2 -> seed_perm w (fun h => h ← g1 h; g2 h).
Proof.
  intros (f1 & Hf1 & Hg1) (f2 & Hf2 & Hg2). exists (fun h => f2 (f1 h)).
  split; [by apply (word_perm_comp w f1 f2)|]. intros h Hh.
  rewrite Hg1 by done. cbn. apply Hg2. by apply Hf1.
Qed.

Lemma seed_perm_ext w g g' :
  (forall h, is_u w h -> g h = g' h) -> seed_perm w g -> seed_perm w g'.
Proof. intros He (f & Hf & Hg). exists f. split; [done|]. intros. by rewrite <- He, Hg. Qed.

Lemma word_perm_id w : word_perm w (fun x => x).
Proof. split; auto. Qed.

Lemma seed_perm_distinct w g s1 s2 :
  seed_perm w g -> is_u w s1 -> is_u w s2 -> s1 <> s2 ->
  exists h1 h2, g s1 = Ok h1 /\ g s2 = Ok h2 /\ is_u w h1 /\ is_u w h2 /\ h1 <> h2.
Proof.
  intros (f & [Hr Hi] & Hg) H1 H2 Hne. exists (f s1), (f s2).
  split_and!; auto.
Qed.

(** ** FNV loops *)

Section fnv.
Context (w prime : Z) (Hw : 8 <= w).
Context (Hprime : word_perm w (fun x => x ·[w] prime)).

Lemma fnv_byte_u b : is_byte b -> is_u w b.
Proof. apply is_u_weaken. lia. Qed.

Lemma fnv1_step_perm b : is_byte b -> word_perm w (fun h => (h ·[w] prime) ⊻ b).
Proof.
  intros. apply (word_perm_comp w _ (fun h => h ⊻ b)); [done|].
  apply word_perm_xor; [lia|by apply fnv_byte_u].
Qed.

Lemma fnv1a_step_perm b : is_byte b -> word_perm w (fun h => (h ⊻ b) ·[w] prime).
Proof.
  intros. apply (word_perm_comp w (fun h => h ⊻ b) (fun x => x ·[w] prime)); [|done].
  apply word_perm_xor; [lia|by apply fnv_byte_u].
Qed.

Lemma fnv1_loop_perm data size :
  Forall is_byte data -> (size <= length data)%nat ->
  seed_perm w (fnv1_loop w prime data size).
Proof.
  intros Hb. revert size. induction Hb as [|b data Hb _ IH]; intros [|size] Hs;
    try (apply seed_perm_ret, word_perm_id); [cbn in Hs; lia|].
  apply (seed_perm_step w (fun h => (h ·[w] prime) ⊻ b) (fnv1_loop w prime data size));
    [by apply fnv1_step_perm|]. apply IH. cbn in Hs; lia.
Qed.

Lemma fnv1a_loop_perm data size :
  Forall is_byte data -> (size <= length data)%nat ->
  seed_perm w (fnv1a_loop w prime data size).
Proof.
  intros Hb. revert size. induction Hb as [|b data Hb _ IH]; intros [|size] Hs;
    try (apply seed_perm_ret, word_perm_id); [cbn in Hs; lia|].
  apply (seed_perm_step w (fun h => (h ⊻ b) ·[w] prime) (fnv1a_loop w prime data size));
    [by apply fnv1a_step_perm|]. apply IH. cbn in Hs; lia.
Qed.

Lemma fnv1_loop_app d1 d2 n h :
  fnv1_loop w prime (d1 ++ d2) (length d1 + n) h =
  (h ← fnv1_loop w prime d1 (length d1) h; fnv1_loop w prime d2 n h).
Proof. revert h. induction d1 as [|b d1 IH]; intros h; [done|apply IH]. Qed.

Lemma fnv1a_loop_app d1 d2 n h :
  fnv1a_loop w prime (d1 ++ d2) (length d1 + n) h =
  (h ← fnv1a_loop w prime d1 (length d1) h; fnv1a_loop w prime d2 n h).
Proof. revert h. induction d1 as [|b d1 IH]; intros h; [done|apply IH]. Qed.
End fnv.

(** A hash routine [g data size seed] tells apart two buffers that differ in
    one byte. *)
Definition byte_sensitive (g : list Z -> nat -> Z -> res Z) (w : Z) : Prop :=
  forall pre a b post seed,
    Forall is_byte (pre ++ a :: b :: post) -> is_u w seed -> a <> b ->
    let n := length (pre ++ a :: post) in
    exists h1 h2, g (pre ++ a :: post) n seed = Ok h1
               /\ g (pre ++ b :: post) n seed = Ok h2 /\ h1 <> h2.

Section fnv_sensitive.
Context (g : list Z -> nat -> Z -> res Z) (w : Z) (step : Z -> Z -> Z).
Context (g_app : forall d1 d2 n h,
  g (d1 ++ d2) (length d1 + n)%nat h = (h ← g d1 (length d1) h; g d2 n h)).
Context (g_cons : forall b d n h, g (b :: d) (S n) h = g d n (step h b)).
Context (g_perm : forall d n, Forall is_byte d -> (n <= length d)%nat -> seed_perm w (g d n)).
Context (step_range : forall h b, is_u w h -> is_byte b -> is_u w (step h b)).
Context (step_inj : forall h a b, is_u w h -> is_byte a -> is_byte b ->
  step h a = step h b -> a = b).

Lemma byte_sensitive_intro : byte_sensitive g w.
Proof.
  intros pre a b post seed [Hpre Hrest]%Forall_app Hs Hne n.
  apply Forall_cons_1 in Hrest as [Ha Hrest]. apply Forall_cons_1 in Hrest as [Hb Hpost].
  destruct (g_perm pre (length pre)) as (f & [Hr _] & Hf); [done..|].
  assert (is_u w (f seed)) as Hfs by auto.
  destruct (seed_perm_distinct w (g post (length post)) (step (f seed) a) (step (f seed) b))
    as (h1 & h2 & E1 & E2 & _ & _ & Hd); auto; [intros Heq; by apply Hne, (step_inj (f seed))|].
  exists h1, h2. unfold n. rewrite length_app, length_cons, !g_app, Hf by done.
  cbn. by rewrite !g_cons.
Qed.
End fnv_sensitive.

Lemma lxor_inj_r h a b : Z.lxor h a = Z.lxor h b -> a = b.
Proof.
  intros Heq. apply (f_equal (Z.lxor h)) in Heq.
  by rewrite <- !Z.lxor_assoc, !Z.lxor_nilpotent, !Z.lxor_0_l in Heq.
Qed.

Lemma fnv1_sensitive w prime :
  8 <= w -> word_perm w (fun x => x ·[w] prime) -> byte_sensitive (fnv1_loop w prime) w.
Proof.
  intros Hw Hp. apply (byte_sensitive_intro _ w (fun h b => (h ·[w] prime) ⊻ b)).
  - intros. apply fnv1_loop_app.
  - done.
  - intros. by apply fnv1_loop_perm.
  - intros h b Hh Hb. by apply (wp_range _ _ (fnv1_step_perm w prime Hw Hp b Hb)).
  - intros h a b _ _ _. apply lxor_inj_r.
Qed.

Lemma fnv1a_sensitive w prime :
  8 <= w -> word_perm w (fun x => x ·[w] prime) -> byte_sensitive (fnv1a_loop w prime) w.
Proof.
  intros Hw Hp. apply (byte_sensitive_intro _ w (fun h b => (h ⊻ b) ·[w] prime)).
  - intros. apply fnv1a_loop_app.
  - done.
  - intros. by apply fnv1a_loop_perm.
  - intros h b Hh Hb. by apply (wp_range _ _ (fnv1a_step_perm w prime Hw Hp b Hb)).
  - intros h a b Hh Ha Hb Heq. apply lxor_inj_r with h.
    apply Hp in Heq; [done|apply is_u_lxor..]; try done; try lia; by apply fnv_byte_u.
Qed.

(** ** Murmur loops *)

Lemma murmur32_mix_range k : is_u 32 (murmur32_mix k).
Proof. apply wrap_range. lia. Qed.

Lemma murmur64_mix_range k : is_u 64 (murmur64_mix k).
Proof. apply wrap_range. lia. Qed.

Lemma shiftl_byte_u w n b : is_byte b -> 0 <= n -> 8 + n <= w -> is_u w (b ≪ n).
Proof.
  intros [H0 H1] Hn Hw. rewrite Z.shiftl_mul_pow2 by done.
  assert (0 < 2 ^ n) by (apply Z.pow_pos_nonneg; lia). split; [nia|].
  eapply Z.lt_le_trans with (2 ^ (8 + n)); [|apply Z.pow_le_mono_r; lia].
  rewrite Z.pow_add_r by lia. nia.
Qed.

Lemma word_perm_xor_mul w c m :
  0 <= w -> is_u w c -> word_perm w (fun x => x ·[w] m) ->
  word_perm w (fun h => (h ⊻ c) ·[w] m).
Proof.
  intros. apply (word_perm_comp w (fun h => h ⊻ c) (fun x => x ·[w] m)); [|done].
  by apply word_perm_xor.
Qed.

Lemma murmur64_final_perm : word_perm 64 murmur64_final.
Proof.
  apply (word_perm_comp 64 (fun h => (h ⊻ (h ≫ r64)) ·[64] mm64) (fun h => h ⊻ (h ≫ r64))).
  - apply (word_perm_comp 64 (fun h => h ⊻ (h ≫ r64)) (fun h => h ·[64] mm64));
      [by apply word_perm_xorshift|apply mm64_perm].
  - by apply word_perm_xorshift.
Qed.

Lemma murmur32_final_perm : word_perm 32 murmur32_final.
Proof.
  apply (word_perm_comp 32 (fun h => (h ⊻ (h ≫ 13)) ·[32] mm32) (fun h => h ⊻ (h ≫ 15))).
  - apply (word_perm_comp 32 (fun h => h ⊻ (h ≫ 13)) (fun h => h ·[32] mm32));
      [by apply word_perm_xorshift|apply mm32_perm].
  - by apply word_perm_xorshift.
Qed.

(** The loop runs to completion and leaves fewer than four bytes; the words it
    consumes permute the hash state. *)
Lemma murmur32_loop_spec n data len :
  (length data <= n)%nat -> Forall is_byte data -> 0 <= len <= Z.of_nat (length data) ->
  exists f rest len', word_perm 32 f /\ 0 <= len' < 4
    /\ Forall is_byte rest /\ len' <= Z.of_nat (length rest)
    /\ forall h, is_u 32 h -> murmur32_loop data len h = Ok (f h, rest, len').
Proof.
  revert data len. induction n as [n IH] using lt_wf_ind. intros data len Hn Hb Hlen.
  destruct (Z.leb_spec 4 len) as [Hge|Hlt]; cycle 1.
  { exists (fun h => h), data, len. split_and!; try lia; [apply word_perm_id|done|].
    intros h _. destruct data; cbn [murmur32_loop];
      by rewrite (proj2 (Z.leb_gt 4 len)) by lia. }
  destruct data as [|b0 [|b1 [|b2 [|b3 data]]]]; cbn [length] in *; try lia.
  repeat (apply Forall_cons_1 in Hb as [? Hb]).
  destruct (IH (length data) ltac:(lia) data (len - 4)) as (f & rest & len' & Hf & ? & ? & ? & Heq);
    [done..|lia|].
  exists (fun h => f ((h ·[32] mm32) ⊻ murmur32_mix (le_val [b0; b1; b2; b3]))), rest, len'.
  split_and!; try done; try lia.
  - apply (word_perm_comp 32 (fun h => (h ·[32] mm32) ⊻ murmur32_mix _) f); [|done].
    apply (word_perm_comp 32 (fun h => h ·[32] mm32) (fun h => h ⊻ murmur32_mix _));
      [apply mm32_perm|]. apply word_perm_xor; [lia|apply murmur32_mix_range].
  - intros h Hh. cbn [murmur32_loop]. rewrite (proj2 (Z.leb_le 4 len)) by lia.
    apply Heq. apply is_u_lxor; [lia|apply wrap_range; lia|apply murmur32_mix_range].
Qed.

Lemma byte_at_rd data i :
  Forall is_byte data -> (i < length data)%nat -> exists b, rd data i = Ok b /\ is_byte b.
Proof.
  intros Hb Hi. destruct (lookup_lt_is_Some_2 data i Hi) as [b Hl].
  exists b. split; [by apply rd_lookup|]. by eapply Forall_lookup_1.
Qed.

Lemma murmur32_tail_perm data len :
  Forall is_byte data -> 0 <= len < 4 -> len <= Z.of_nat (length data) ->
  seed_perm 32 (murmur32_tail data len).
Proof.
  intros Hb Hlen Hd. unfold murmur32_tail.
  apply seed_perm_bind; [|apply seed_perm_bind].
  - destruct (Z.eqb_spec len 3); [|apply seed_perm_ret, word_perm_id].
    destruct (byte_at_rd data 2) as (b & -> & ?); [done|lia|].
    apply seed_perm_ret, word_perm_xor; [lia|by apply shiftl_byte_u].
  - destruct ((len =? 3) || (len =? 2)) eqn:E; [|apply seed_perm_ret, word_perm_id].
    destruct (byte_at_rd data 1) as (b & -> & ?); [done|lia|].
    apply seed_perm_ret, word_perm_xor; [lia|by apply shiftl_byte_u].
  - destruct ((len =? 3) || (len =? 2) || (len =? 1)) eqn:E;
      [|apply seed_perm_ret, word_perm_id].
    destruct (byte_at_rd data 0) as (b & -> & ?); [done|lia|].
    apply seed_perm_ret, word_perm_xor_mul; [lia| |apply mm32_perm].
    by eapply is_u_weaken; [|done].
Qed.

Lemma MurmurHash2_32_perm key len :
  Forall is_byte key -> 0 <= len <= Z.of_nat (length key) ->
  seed_perm 32 (MurmurHash2_32 key len).
Proof.
  intros Hb Hlen.
  destruct (murmur32_loop_spec (length key) key len) as (f & rest & len' & Hf & ? & ? & ? & Heq);
    [lia|done..|].
  eapply (seed_perm_ext _ (fun seed => h ← murmur32_tail rest len' (f (seed ⊻ u32 len));
                                        Ok (murmur32_final h))).
  - intros seed Hs. unfold MurmurHash2_32. rewrite Heq; [done|].
    apply is_u_lxor; [lia|done|apply wrap_range; lia].
  - apply (seed_perm_step 32 (fun seed => f (seed ⊻ u32 len))
             (fun h => h ← murmur32_tail rest len' h; Ok (murmur32_final h))).
    + apply (word_perm_comp 32 (fun seed => seed ⊻ u32 len) f); [|done].
      apply word_perm_xor; [lia|apply wrap_range; lia].
    + apply seed_perm_bind; [by apply murmur32_tail_perm|].
      apply seed_perm_ret, murmur32_final_perm.
Qed.

Lemma murmur64_loop_spec words data :
  Forall is_byte data -> (8 * words <= length data)%nat ->
  exists f, word_perm 64 f /\
    forall h, is_u 64 h -> murmur64_loop words data h = Ok (f h, drop (8 * words) data).
Proof.
  revert data. induction words as [|words IH]; intros data Hb Hlen.
  { exists (fun h => h). split; [apply word_perm_id|]. intros. cbn. done. }
  destruct (IH (drop 8 data)) as (f & Hf & Heq);
    [by apply Forall_drop|rewrite length_drop; lia|].
  exists (fun h => f ((h ⊻ murmur64_mix (le_val (take 8 data))) ·[64] mm64)). split.
  - apply (word_perm_comp 64 (fun h => (h ⊻ murmur64_mix _) ·[64] mm64) f); [|done].
    apply word_perm_xor_mul; [lia|apply murmur64_mix_range|apply mm64_perm].
  - intros h Hh. cbn [murmur64_loop]. rewrite decide_True by lia.
    rewrite Heq by (apply wrap_range; lia). rewrite drop_drop.
    do 3 f_equal. lia.
Qed.

Lemma murmur64_cases_perm i data :
  Forall is_byte data -> (i <= length data)%nat -> (i <= 7)%nat ->
  seed_perm 64 (murmur64_cases i data).
Proof.
  intros Hb. induction i as [|i IH]; intros Hl Hi; [apply seed_perm_ret, word_perm_id|].
  cbn [murmur64_cases]. destruct (byte_at_rd data i) as (b & -> & ?); [done|lia|].
  apply (seed_perm_step 64 (fun h => h ⊻ (b ≪ (8 * Z.of_nat i)))); [|apply IH; lia].
  apply word_perm_xor; [lia|]. apply shiftl_byte_u; [done|lia..].
Qed.

Lemma MurmurHash2_64_perm key len :
  Forall is_byte key -> 0 <= len <= Z.of_nat (length key) ->
  seed_perm 64 (MurmurHash2_64 key len).
Proof.
  intros Hb Hlen. unfold MurmurHash2_64. rewrite (proj2 (Z.ltb_ge (Z.quot len 8) 0)) by (apply Z.quot_pos; lia).
  rewrite Z.quot_div_nonneg by lia.
  assert (Z.land len 7 = len mod 8) as Hland by (apply (Z.land_ones len 3); lia).
  pose proof (Z.mod_pos_bound len 8). pose proof (Z.div_mod len 8).
  assert (0 <= len / 8) by (apply Z.div_pos; lia).
  destruct (murmur64_loop_spec (Z.to_nat (len / 8)) key) as (f & Hf & Heq); [done|lia|].
  apply (seed_perm_ext _ (fun seed =>
    h ← murmur64_tail (drop (8 * Z.to_nat (len / 8)) key) (Z.land len 7) (f (seed ⊻ u64 (len * mm64)));
    Ok (murmur64_final h))).
  { intros seed Hs. rewrite Heq; [done|]. apply is_u_lxor; [lia|done|apply wrap_range; lia]. }
  apply (seed_perm_step 64 (fun seed => f (seed ⊻ u64 (len * mm64)))
           (fun h => h ← murmur64_tail _ _ h; Ok (murmur64_final h))).
  - apply (word_perm_comp 64 (fun seed => seed ⊻ u64 (len * mm64)) f); [|done].
    apply word_perm_xor; [lia|apply wrap_range; lia].
  - apply seed_perm_bind; [|apply seed_perm_ret, murmur64_final_perm].
    unfold murmur64_tail. rewrite Hland.
    destruct (len mod 8 =? 0); [apply seed_perm_ret, word_perm_id|].
    apply seed_perm_bind; [|apply seed_perm_ret, mm64_perm].
    apply murmur64_cases_perm; [by apply Forall_drop|rewrite length_drop; lia|lia].
Qed.

(** ** Properties *)

(** C29: for a buffer of [size] readable bytes (and [size] an [int]), both
    Murmur routines succeed and map distinct seeds to distinct hashes of the
    right width. *)
Theorem murmur_seed_injective data size :
  Forall is_byte data -> 0 <= size < 2 ^ 31 -> size <= Z.of_nat (length data) ->
  (forall s1 s2, is_u 64 s1 -> is_u 64 s2 -> s1 <> s2 ->
     exists h1 h2, hash64Murmur data size s1 = Ok h1 /\ hash64Murmur data size s2 = Ok h2
       /\ is_u 64 h1 /\ is_u 64 h2 /\ h1 <> h2) /\
  (forall s1 s2, is_u 32 s1 -> is_u 32 s2 -> s1 <> s2 ->
     exists h1 h2, hash32Murmur data size s1 = Ok h1 /\ hash32Murmur data size s2 = Ok h2
       /\ is_u 32 h1 /\ is_u 32 h2 /\ h1 <> h2).
Proof.
  intros Hb Hs Hl. unfold hash64Murmur, hash32Murmur. rewrite s32_small by lia.
  split; intros; apply seed_perm_distinct; auto.
  - apply MurmurHash2_64_perm; [done|lia].
  - apply MurmurHash2_32_perm; [done|lia].
Qed.

Lemma murmur_seed_injective_witness :
  exists h1 h2, hash64Murmur [1; 2; 3; 4; 5; 6; 7; 8; 9] 9 0 = Ok h1
    /\ hash64Murmur [1; 2; 3; 4; 5; 6; 7; 8; 9] 9 7 = Ok h2 /\ is_u 64 h1 /\ is_u 64 h2 /\ h1 <> h2.
Proof.
  destruct (murmur_seed_injective [1; 2; 3; 4; 5; 6; 7; 8; 9] 9) as [H _];
    [decide_closed..|].
  exact (H 0 7 ltac:(decide_closed) ltac:(decide_closed) ltac:(decide_closed)).
Defined.

(** The four FNV loops tell apart any two buffers that differ in exactly
    one byte, whatever the seed. *)
Theorem fnv_byte_sensitive :
  byte_sensitive hash64FNV1 64 /\ byte_sensitive hash32FNV1 32 /\
  byte_sensitive hash64FNV1a 64 /\ byte_sensitive hash32FNV1a 32.
Proof.
  split_and!.
  - apply (fnv1_sensitive 64); [lia|apply fnv64_perm].
  - apply (fnv1_sensitive 32); [lia|apply fnv32_perm].
  - apply (fnv1a_sensitive 64); [lia|apply fnv64_perm].
  - apply (fnv1a_sensitive 32); [lia|apply fnv32_perm].
Qed.

(** Published FNV test values. *)
Example fnv1a_64_a : hash64FNV1a [0x61] 1 0xcbf29ce484222325 = Ok 0xaf63dc4c8601ec8c.
Proof. reflexivity. Qed.
Example fnv1_32_a : hash32FNV1 [0x61] 1 0x811c9dc5 = Ok 0x050c5d7e.
Proof. reflexivity. Qed.
End Hash.
