(* ===== verification/ArtNode.v ===== *)
(** * Adaptive radix tree: nodes

    Models the data and the node-level routines of
    [libalgorithms/src/ext/art/art.c]: the four node layouts, child lookup,
    adding a child with growth 4 -> 16 -> 48 -> 256, removing a child with
    shrinking and path recompression.  A tree owns its nodes, so a node
    pointer is the node itself ([None] for [NULL]) and [*ref = n] is the node
    returned.  The build is the amd64 one: [NODE16] is searched with the SSE2
    byte comparisons, whose "less than" is signed. *)

From stdpp Require Import gmap.
From S2P Require Import Prelude.

Set Warnings "-register-all".

Module Art.

(** ** Data *)

Definition MAX_PREFIX_LEN : nat := 10.

(** [calloc(1, sizeof(art_leaf)+key_len)] leaves [key_len + 4] bytes behind
    [key]: the structure has size 16 and [key] starts at offset 12. *)
Definition leaf_slack : nat := 4.

Record art_leaf : Type := MkLeaf {
  value : Z;             (* void*, NULL = 0 *)
  key_len : nat;
  lkey : list Z          (* the bytes readable through [key] *)
}.

(** The common header [art_node], without its type tag. *)
Record art_hdr : Type := MkHdr {
  num_children : nat;    (* uint8_t *)
  partial_len : nat;
  partial : list Z       (* unsigned char[MAX_PREFIX_LEN] *)
}.

(** The type tag with the key array of that layout. *)
Inductive art_kind : Type :=
| NODE4 (keys : list Z)
| NODE16 (keys : list Z)
| NODE48 (keys : list nat)   (* 256 entries, child index + 1, 0 if absent *)
| NODE256.

Inductive art_node : Type :=
| Leaf (l : art_leaf)
| Inner (n : art_hdr) (k : art_kind) (children : list (option art_node)).

Definition IS_LEAF (n : art_node) : bool :=
  match n with Leaf _ => true | Inner _ _ _ => false end.

Definition hdr0 : art_hdr := MkHdr 0 0 (replicate MAX_PREFIX_LEN 0).

(** [alloc_node]: a zeroed node of the given type. *)
Definition alloc_node (k : art_kind) : art_hdr * art_kind * list (option art_node) :=
  match k with
  | NODE4 _ => (hdr0, NODE4 (replicate 4 0), replicate 4 None)
  | NODE16 _ => (hdr0, NODE16 (replicate 16 0), replicate 16 None)
  | NODE48 _ => (hdr0, NODE48 (replicate 256 0%nat), replicate 48 None)
  | NODE256 => (hdr0, NODE256, replicate 256 None)
  end.

(** ** Byte comparisons in parallel *)

(** [_mm_movemask_epi8] of a byte-wise comparison: bit [i] is the outcome for
    byte [i]. *)
Fixpoint movemask (f : Z -> bool) (keys : list Z) : Z :=
  match keys with
  | [] => 0
  | k :: keys' => Z.b2z (f k) + 2 * movemask f keys'
  end.

(** [__builtin_ctz] of a non-zero word. *)
Fixpoint pos_ctz (p : positive) : nat :=
  match p with
  | xO q => S (pos_ctz q)
  | _ => O
  end.
Definition ctz (z : Z) : nat := match z with Zpos p => pos_ctz p | _ => O end.

(** [_mm_cmplt_epi8] compares signed bytes. *)
Definition epi8_lt (a b : Z) : bool := swrap 8 a <? swrap 8 b.

(** ** Child lookup *)

(** The [for] loop of [NODE4]. *)
Fixpoint find_child4 (keys : list Z) (c : Z) (i n : nat) : res (option nat) :=
  match n with
  | O => Ok None
  | S n' => k ← rd keys i; if k =? c then Ok (Some i) else find_child4 keys c (S i) n'
  end.

(** The slot of [children] that holds the child for byte [c]. *)
Definition find_child (n : art_hdr) (k : art_kind) (children : list (option art_node))
    (c : Z) : res (option nat) :=
  match k with
  | NODE4 keys => find_child4 keys c 0 (num_children n)
  | NODE16 keys =>
      let mask := Z.shiftl 1 (Z.of_nat (num_children n)) - 1 in
      let bitfield := Z.land (movemask (fun x => c =? x) keys) mask in
      if bitfield =? 0 then Ok None else Ok (Some (ctz bitfield))
  | NODE48 keys =>
      i ← rd keys (Z.to_nat c);
      Ok (match i with O => None | S i' => Some i' end)
  | NODE256 =>
      ch ← rd children (Z.to_nat c);
      Ok (match ch with None => None | Some _ => Some (Z.to_nat c) end)
  end.

(** ** Prefixes and leaves *)

(** [for(; idx < max; idx++) if(a[oa+idx] != b[ob+idx]) return idx; return idx;]
    with [n] iterations left. *)
Fixpoint mismatch_loop (a : list Z) (oa : nat) (b : list Z) (ob idx n : nat) : res nat :=
  match n with
  | O => Ok idx
  | S n' =>
      x ← rd a (oa + idx); y ← rd b (ob + idx);
      if x =? y then mismatch_loop a oa b ob (S idx) n' else Ok idx
  end.

Definition check_prefix (n : art_hdr) (key : list Z) (key_len depth : nat) : res nat :=
  let max_cmp := Nat.min (Nat.min (partial_len n) MAX_PREFIX_LEN) (key_len - depth) in
  mismatch_loop (partial n) 0 key depth 0 max_cmp.

(** [memcmp(a, b, n) == 0] *)
Definition memeq (a b : list Z) (n : nat) : res bool :=
  if decide (n <= length a /\ n <= length b)%nat
  then Ok (bool_decide (take n a = take n b))
  else Err OutOfBounds.

(** [true] when the C function returns 0. *)
Definition leaf_matches (l : art_leaf) (key : list Z) (klen : nat) : res bool :=
  if decide (key_len l = klen) then memeq (lkey l) key klen else Ok false.

Definition make_leaf (key : list Z) (klen : nat) (v : Z) : res art_leaf :=
  if decide (klen <= length key)%nat
  then Ok (MkLeaf v klen (take klen key ++ replicate leaf_slack 0))
  else Err OutOfBounds.

Definition longest_common_prefix (l1 l2 : art_leaf) (depth : nat) : res nat :=
  let max_cmp := (Nat.min (key_len l1) (key_len l2) - depth)%nat in
  mismatch_loop (lkey l1) depth (lkey l2) depth 0 max_cmp.

(** ** Extremal leaves *)

(** [idx=0; while(!f(a[idx])) idx++;] *)
Fixpoint first_set {A} (f : A -> bool) (a : list A) (idx : nat) : res nat :=
  match a with
  | [] => Err OutOfBounds
  | x :: a' => if f x then Ok idx else first_set f a' (S idx)
  end.

(** [idx=255; while(!f(a[idx])) idx--;] over an array of 256 cells. *)
Definition last_set {A} (f : A -> bool) (a : list A) : res nat :=
  i ← first_set f (reverse a) 0; Ok (length a - 1 - i)%nat.

Definition nonzero (i : nat) : bool := negb (i =? 0)%nat.
Definition nonnull {A} (p : option A) : bool := match p with Some _ => true | None => false end.

Definition first_slot (n : art_hdr) (k : art_kind) (children : list (option art_node)) : res nat :=
  match k with
  | NODE4 _ | NODE16 _ => Ok O
  | NODE48 keys => idx ← first_set nonzero keys 0; i ← rd keys idx; Ok (i - 1)%nat
  | NODE256 => first_set nonnull children 0
  end.

Definition last_slot (n : art_hdr) (k : art_kind) (children : list (option art_node)) : res nat :=
  match k with
  | NODE4 _ | NODE16 _ =>
      match num_children n with O => Err OutOfBounds | S i => Ok i end
  | NODE48 keys => idx ← last_set nonzero keys; i ← rd keys idx; Ok (i - 1)%nat
  | NODE256 => last_set nonnull children
  end.

Fixpoint minimum (n : art_node) : res (option art_leaf) :=
  match n with
  | Leaf l => Ok (Some l)
  | Inner h k children =>
      idx ← first_slot h k children;
      nth_with (fun p => match p with Some c => minimum c | None => Ok None end)
        (Err OutOfBounds) children idx
  end.

Fixpoint maximum (n : art_node) : res (option art_leaf) :=
  match n with
  | Leaf l => Ok (Some l)
  | Inner h k children =>
      idx ← last_slot h k children;
      nth_with (fun p => match p with Some c => maximum c | None => Ok None end)
        (Err OutOfBounds) children idx
  end.

(** ** Adding a child *)

Definition copy_header (dest src : art_hdr) : res art_hdr :=
  p ← memcpy (partial dest) 0 (partial src) 0 (Nat.min MAX_PREFIX_LEN (partial_len src));
  Ok (MkHdr (num_children src) (partial_len src) p).

Definition incr_children (n : art_hdr) : art_hdr :=
  MkHdr ((num_children n + 1) mod 256) (partial_len n) (partial n).
Definition decr_children (n : art_hdr) : art_hdr :=
  MkHdr ((num_children n + 255) mod 256) (partial_len n) (partial n).

Definition add_child256 (n : art_hdr) (children : list (option art_node))
    (c : Z) (child : art_node) : res art_node :=
  children ← wr children (Z.to_nat c) (Some child);
  Ok (Inner (incr_children n) NODE256 children).

(** [new_node->children[i] = n->children[n->keys[i] - 1]] for the keys set. *)
Fixpoint spread48 (keys : list nat) (children : list (option art_node))
    : res (list (option art_node)) :=
  match keys with
  | [] => Ok []
  | i :: keys' =>
      p ← (match i with O => Ok None | S i' => rd children i' end);
      ps ← spread48 keys' children;
      Ok (p :: ps)
  end.

Definition add_child48 (n : art_hdr) (keys : list nat) (children : list (option art_node))
    (c : Z) (child : art_node) : res art_node :=
  if (num_children n <? 48)%nat then
    pos ← first_set (fun p => negb (nonnull p)) children 0;
    children ← wr children pos (Some child);
    keys ← wr keys (Z.to_nat c) (S pos);
    Ok (Inner (incr_children n) (NODE48 keys) children)
  else
    let '(h, _, _) := alloc_node NODE256 in
    children ← spread48 keys children;
    h ← copy_header h n;
    add_child256 h children c child.

(** [for(i=0;i<num_children;i++) new_node->keys[n->keys[i]] = i + 1;] *)
Fixpoint index48 (new_keys : list nat) (keys : list Z) (i n : nat) : res (list nat) :=
  match n with
  | O => Ok new_keys
  | S n' =>
      k ← rd keys i;
      new_keys ← wr new_keys (Z.to_nat k) (i + 1)%nat;
      index48 new_keys keys (S i) n'
  end.

(** The shift of keys and children at [idx] and the write of the new pair,
    common to the two sorted layouts. *)
Definition insert_at (n : art_hdr) (keys : list Z) (children : list (option art_node))
    (idx : nat) (c : Z) (child : art_node) : res (list Z * list (option art_node)) :=
  keys ← memmove keys (idx + 1) idx (num_children n - idx);
  children ← memmove children (idx + 1) idx (num_children n - idx);
  keys ← wr keys idx c;
  children ← wr children idx (Some child);
  Ok (keys, children).

Definition add_child16 (n : art_hdr) (keys : list Z) (children : list (option art_node))
    (c : Z) (child : art_node) : res art_node :=
  if (num_children n <? 16)%nat then
    let mask := Z.shiftl 1 (Z.of_nat (num_children n)) - 1 in
    let bitfield := Z.land (movemask (fun x => epi8_lt c x) keys) mask in
    let idx := if bitfield =? 0 then num_children n else ctz bitfield in
    '(keys, children) ← insert_at n keys children idx c child;
    Ok (Inner (incr_children n) (NODE16 keys) children)
  else
    let '(h, _, new_children) := alloc_node (NODE48 []) in
    new_children ← memcpy new_children 0 children 0 (num_children n);
    new_keys ← index48 (replicate 256 0%nat) keys 0 (num_children n);
    h ← copy_header h n;
    add_child48 h new_keys new_children c child.

(** [for(idx=0; idx < num_children; idx++) if(c < keys[idx]) break;] *)
Fixpoint lt_pos (keys : list Z) (c : Z) (idx n : nat) : res nat :=
  match n with
  | O => Ok idx
  | S n' => k ← rd keys idx; if c <? k then Ok idx else lt_pos keys c (S idx) n'
  end.

Definition add_child4 (n : art_hdr) (keys : list Z) (children : list (option art_node))
    (c : Z) (child : art_node) : res art_node :=
  if (num_children n <? 4)%nat then
    idx ← lt_pos keys c 0 (num_children n);
    '(keys, children) ← insert_at n keys children idx c child;
    Ok (Inner (incr_children n) (NODE4 keys) children)
  else
    let '(h, _, new_children) := alloc_node (NODE16 []) in
    new_children ← memcpy new_children 0 children 0 (num_children n);
    new_keys ← memcpy (replicate 16 0) 0 keys 0 (num_children n);
    h ← copy_header h n;
    add_child16 h new_keys new_children c child.

Definition add_child (n : art_hdr) (k : art_kind) (children : list (option art_node))
    (c : Z) (child : art_node) : res art_node :=
  match k with
  | NODE4 keys => add_child4 n keys children c child
  | NODE16 keys => add_child16 n keys children c child
  | NODE48 keys => add_child48 n keys children c child
  | NODE256 => add_child256 n children c child
  end.

(** ** Removing a child *)

(** The children of a [NODE48] or [NODE256] in byte order, as the loops that
    copy them into a smaller node meet them. *)
Fixpoint present48 (keys : list nat) (children : list (option art_node)) (i : nat)
    : res (list (nat * option art_node)) :=
  match keys with
  | [] => Ok []
  | O :: keys' => present48 keys' children (S i)
  | S pos :: keys' =>
      p ← rd children pos;
      es ← present48 keys' children (S i);
      Ok ((i, p) :: es)
  end.

Fixpoint present256 (children : list (option art_node)) (i : nat)
    : list (nat * option art_node) :=
  match children with
  | [] => []
  | None :: children' => present256 children' (S i)
  | Some p :: children' => (i, Some p) :: present256 children' (S i)
  end.

(** [new_node->keys[i] = pos + 1; pos++;] for the given bytes. *)
Fixpoint number48 (new_keys bytes : list nat) (pos : nat) : res (list nat) :=
  match bytes with
  | [] => Ok new_keys
  | i :: bytes' => new_keys ← wr new_keys i (pos + 1)%nat; number48 new_keys bytes' (S pos)
  end.

Definition remove_child256 (n : art_hdr) (children : list (option art_node)) (c : Z)
    : res art_node :=
  children ← wr children (Z.to_nat c) None;
  let n := decr_children n in
  if (num_children n =? 37)%nat then
    let '(h, _, _) := alloc_node (NODE48 []) in
    h ← copy_header h n;
    let es := present256 children 0 in
    new_children ← fill 48 None es.*2;
    new_keys ← number48 (replicate 256 0%nat) es.*1 0;
    Ok (Inner h (NODE48 new_keys) new_children)
  else Ok (Inner n NODE256 children).

Definition remove_child48 (n : art_hdr) (keys : list nat) (children : list (option art_node))
    (c : Z) : res art_node :=
  pos ← rd keys (Z.to_nat c);
  keys ← wr keys (Z.to_nat c) 0%nat;
  match pos with
  | O => Err OutOfBounds       (* children[-1] *)
  | S pos' =>
      children ← wr children pos' None;
      let n := decr_children n in
      if (num_children n =? 12)%nat then
        let '(h, _, _) := alloc_node (NODE16 []) in
        h ← copy_header h n;
        es ← present48 keys children 0;
        new_keys ← fill 16 0 (Z.of_nat <$> es.*1);
        new_children ← fill 16 None es.*2;
        Ok (Inner h (NODE16 new_keys) new_children)
      else Ok (Inner n (NODE48 keys) children)
  end.

(** The shift that closes the gap at [pos], common to the two sorted layouts. *)
Definition remove_at (n : art_hdr) (keys : list Z) (children : list (option art_node))
    (pos : nat) : res (list Z * list (option art_node)) :=
  keys ← memmove keys pos (pos + 1) (num_children n - 1 - pos);
  children ← memmove children pos (pos + 1) (num_children n - 1 - pos);
  Ok (keys, children).

Definition remove_child16 (n : art_hdr) (keys : list Z) (children : list (option art_node))
    (pos : nat) : res art_node :=
  '(keys, children) ← remove_at n keys children pos;
  let n := decr_children n in
  if (num_children n =? 3)%nat then
    let '(h, _, new_children) := alloc_node (NODE4 []) in
    h ← copy_header h n;
    new_keys ← memcpy (replicate 4 0) 0 keys 0 4;
    new_children ← memcpy new_children 0 children 0 4;
    Ok (Inner h (NODE4 new_keys) new_children)
  else Ok (Inner n (NODE16 keys) children).

(** The header of the last child after the parent's prefix and key byte have
    been put in front of its own prefix. *)
Definition concat_prefix (n : art_hdr) (key0 : Z) (child : art_hdr) : res art_hdr :=
  let prefix := partial_len n in
  '(npartial, prefix) ←
    (if (prefix <? MAX_PREFIX_LEN)%nat
     then p ← wr (partial n) prefix key0; Ok (p, prefix + 1)%nat
     else Ok (partial n, prefix));
  '(npartial, prefix) ←
    (if (prefix <? MAX_PREFIX_LEN)%nat
     then
       let sub_prefix := Nat.min (partial_len child) (MAX_PREFIX_LEN - prefix) in
       p ← memcpy npartial prefix (partial child) 0 sub_prefix;
       Ok (p, prefix + sub_prefix)%nat
     else Ok (npartial, prefix));
  p ← memcpy (partial child) 0 npartial 0 (Nat.min prefix MAX_PREFIX_LEN);
  Ok (MkHdr (num_children child) (partial_len child + partial_len n + 1) p).

Definition remove_child4 (n : art_hdr) (keys : list Z) (children : list (option art_node))
    (pos : nat) : res art_node :=
  '(keys, children) ← remove_at n keys children pos;
  let n := decr_children n in
  if (num_children n =? 1)%nat then
    child ← rd children 0;
    match child with
    | None => Err NullDeref
    | Some (Leaf l) => Ok (Leaf l)
    | Some (Inner ch ck cc) =>
        key0 ← rd keys 0;
        ch ← concat_prefix n key0 ch;
        Ok (Inner ch ck cc)
    end
  else Ok (Inner n (NODE4 keys) children).

Definition remove_child (n : art_hdr) (k : art_kind) (children : list (option art_node))
    (c : Z) (pos : nat) : res art_node :=
  match k with
  | NODE4 keys => remove_child4 n keys children pos
  | NODE16 keys => remove_child16 n keys children pos
  | NODE48 keys => remove_child48 n keys children c
  | NODE256 => remove_child256 n children c
  end.

End Art.
