(* ===== verification/ArtTree.v ===== *)
(** * Adaptive radix tree: operations

    Models the tree-level routines of [libalgorithms/src/ext/art/art.c]:
    search, insertion with path splitting, deletion, iteration, prefix
    iteration and destruction.  [key] is the list of bytes readable through
    the caller's pointer, which may be longer than [key_len] (a C string is
    followed by its terminator); every access is bounds checked.  Each C
    recursion follows a child pointer, so the functions are structural.

    Lengths and depths are natural numbers here; in the source [key_len] and
    [depth] are [int]s and [partial_len] is a [uint32_t].  The two agree as long
    as the keys are shorter than 2^31 bytes: the depth at a node never exceeds
    the length of a key below it ([int_keys_fit] in ArtTreeSpec).  [calloc] is
    taken to succeed; the source does not check its result. *)

From stdpp Require Import gmap.
From S2P Require Import Prelude CString ArtNode.

Module ArtOps.
Import CStr Art.

Record art_tree : Type := MkTree {
  root : option art_node;
  t_size : Z               (* the field size, a uint64_t *)
}.

Definition art_tree_init : art_tree := MkTree None 0.

Definition art_size (t : art_tree) : Z := t_size t.

(** ** Search *)

(** The prefix test shared by [art_search] and [recursive_delete]: the depth
    behind the prefix, or [None] when the prefix does not match. *)
Definition pass_prefix (h : art_hdr) (key : list Z) (klen depth : nat) : res (option nat) :=
  if (partial_len h =? 0)%nat then Ok (Some depth)
  else
    prefix_len ← check_prefix h key klen depth;
    if (prefix_len =? Nat.min MAX_PREFIX_LEN (partial_len h))%nat
    then Ok (Some (depth + partial_len h)%nat)
    else Ok None.

Fixpoint search_loop (n : art_node) (key : list Z) (klen depth : nat) : res Z :=
  match n with
  | Leaf l =>
      m ← leaf_matches l key klen;
      Ok (if (m : bool) then value l else NULL)
  | Inner h k children =>
      p ← pass_prefix h key klen depth;
      match p with
      | None => Ok NULL
      | Some depth =>
          c ← rd key depth;
          child ← find_child h k children c;
          match child with
          | None => Ok NULL
          | Some i =>
              nth_with (fun q : option art_node => match q with
                                 | Some n' => search_loop n' key klen (depth + 1)
                                 | None => Ok NULL
                                 end) (Err OutOfBounds) children i
          end
      end
  end.

Definition art_search (t : art_tree) (key : list Z) (klen : nat) : res Z :=
  match root t with
  | None => Ok NULL
  | Some n => search_loop n key klen 0
  end.

Definition art_minimum (t : art_tree) : res (option art_leaf) :=
  match root t with None => Ok None | Some n => minimum n end.
Definition art_maximum (t : art_tree) : res (option art_leaf) :=
  match root t with None => Ok None | Some n => maximum n end.

(** ** Insertion *)

(** [min_leaf] is [minimum(n)] of the node whose header is [h]. *)
Definition prefix_mismatch (h : art_hdr) (min_leaf : res (option art_leaf))
    (key : list Z) (klen depth : nat) : res nat :=
  let max_cmp := Nat.min (Nat.min MAX_PREFIX_LEN (partial_len h)) (klen - depth) in
  idx ← mismatch_loop (partial h) 0 key depth 0 max_cmp;
  if decide (idx = max_cmp) then
    if (MAX_PREFIX_LEN <? partial_len h)%nat then
      l ← min_leaf; l ← deref l;
      let max_cmp := (Nat.min (key_len l) klen - depth)%nat in
      mismatch_loop (lkey l) depth key depth idx (max_cmp - idx)
    else Ok idx
  else Ok idx.

(** A fresh [NODE4] with the given prefix. *)
Definition new_node4 (plen : nat) (src : list Z) (off : nat) : res art_hdr :=
  p ← memcpy (partial hdr0) 0 src off (Nat.min MAX_PREFIX_LEN plen);
  Ok (MkHdr 0 plen p).

(** Two children put into a fresh [NODE4] with header [h]. *)
Definition add_two (h : art_hdr) (c1 : Z) (n1 : art_node) (c2 : Z) (n2 : art_node)
    : res art_node :=
  let '(_, _, children) := alloc_node (NODE4 []) in
  n ← add_child4 h (replicate 4 0) children c1 n1;
  match n with
  | Inner h (NODE4 keys) children => add_child4 h keys children c2 n2
  | _ => Err NullDeref     (* not reached: the first child fits *)
  end.

(** A leaf that has to become a node: the existing value is replaced, or the
    two leaves are put under a common prefix. *)
Definition split_leaf (l : art_leaf) (key : list Z) (klen : nat) (v : Z) (depth : nat)
    : res (Z * bool * art_node) :=
  m ← leaf_matches l key klen;
  if (m : bool) then Ok (value l, true, Leaf (MkLeaf v (key_len l) (lkey l)))
  else
    l2 ← make_leaf key klen v;
    longest_prefix ← longest_common_prefix l l2 depth;
    h ← new_node4 longest_prefix key depth;
    c1 ← rd (lkey l) (depth + longest_prefix);
    c2 ← rd (lkey l2) (depth + longest_prefix);
    n ← add_two h c1 (Leaf l) c2 (Leaf l2);
    Ok (NULL, false, n).

(** The prefix of an inner node differs from the key at [prefix_diff]: a new
    [NODE4] takes the common part, the old node keeps the rest. *)
Definition split_prefix (h : art_hdr) (k : art_kind) (children : list (option art_node))
    (min_leaf : res (option art_leaf)) (prefix_diff : nat)
    (key : list Z) (klen : nat) (v : Z) (depth : nat) : res art_node :=
  nh ← new_node4 prefix_diff (partial h) 0;
  let plen := (partial_len h - (prefix_diff + 1))%nat in
  '(c1, p) ←
    (if (partial_len h <=? MAX_PREFIX_LEN)%nat then
       c1 ← rd (partial h) prefix_diff;
       p ← memmove (partial h) 0 (prefix_diff + 1) (Nat.min MAX_PREFIX_LEN plen);
       Ok (c1, p)
     else
       l ← min_leaf; l ← deref l;
       c1 ← rd (lkey l) (depth + prefix_diff);
       p ← memcpy (partial h) 0 (lkey l) (depth + prefix_diff + 1) (Nat.min MAX_PREFIX_LEN plen);
       Ok (c1, p));
  l ← make_leaf key klen v;
  c2 ← rd key (depth + prefix_diff);
  add_two nh c1 (Inner (MkHdr (num_children h) plen p) k children) c2 (Leaf l).

(** Returns the old value, whether a value was replaced, and the node [*ref]
    holds afterwards.  With enough memory, and for keys of less than 2^31 bytes,
    for which [depth] and [partial_len] stay in range. *)
Fixpoint recursive_insert (n : art_node) (key : list Z) (klen : nat) (v : Z) (depth : nat)
    : res (Z * bool * art_node) :=
  match n with
  | Leaf l => split_leaf l key klen v depth
  | Inner h k children =>
      let min_leaf := minimum n in
      prefix_diff ← (if (partial_len h =? 0)%nat then Ok O
                     else prefix_mismatch h min_leaf key klen depth);
      if (partial_len h <=? prefix_diff)%nat then
        let depth := (depth + partial_len h)%nat in
        c ← rd key depth;
        child ← find_child h k children c;
        match child with
        | Some i =>
            '(old, replaced, n') ←
              nth_with (fun q : option art_node =>
                match q with
                | Some n' => recursive_insert n' key klen v (depth + 1)
                | None => l ← make_leaf key klen v; Ok (NULL, false, Leaf l)
                end) (Err OutOfBounds) children i;
            Ok (old, replaced, Inner h k (<[i := Some n']> children))
        | None =>
            l ← make_leaf key klen v;
            n' ← add_child h k children c (Leaf l);
            Ok (NULL, false, n')
        end
      else
        n' ← split_prefix h k children min_leaf prefix_diff key klen v depth;
        Ok (NULL, false, n')
  end.

Definition art_insert (t : art_tree) (key : list Z) (klen : nat) (v : Z)
    : res (Z * art_tree) :=
  '(old, replaced, n) ←
    (match root t with
     | Some n => recursive_insert n key klen v 0
     | None => l ← make_leaf key klen v; Ok (NULL, false, Leaf l)
     end);
  Ok (old, MkTree (Some n) (if (replaced : bool) then t_size t else u64 (t_size t + 1))).

(** ** Deletion *)

(** Returns the leaf taken out and the node [*ref] holds afterwards. *)
Fixpoint recursive_delete (n : art_node) (key : list Z) (klen depth : nat)
    : res (option art_leaf * option art_node) :=
  match n with
  | Leaf l =>
      m ← leaf_matches l key klen;
      Ok (if (m : bool) then (Some l, None) else (None, Some n))
  | Inner h k children =>
      p ← pass_prefix h key klen depth;
      match p with
      | None => Ok (None, Some n)
      | Some depth =>
          c ← rd key depth;
          child ← find_child h k children c;
          match child with
          | None => Ok (None, Some n)
          | Some i =>
              nth_with (fun q : option art_node =>
                match q with
                | Some (Leaf l) =>
                    m ← leaf_matches l key klen;
                    if (m : bool) then n' ← remove_child h k children c i; Ok (Some l, Some n')
                    else Ok (None, Some n)
                | Some n' =>
                    '(l, q') ← recursive_delete n' key klen (depth + 1);
                    Ok (l, Some (Inner h k (<[i := q']> children)))
                | None => Ok (None, Some n)
                end) (Err OutOfBounds) children i
          end
      end
  end.

Definition art_delete (t : art_tree) (key : list Z) (klen : nat) : res (Z * art_tree) :=
  match root t with
  | None => Ok (NULL, t)
  | Some n =>
      '(l, n') ← recursive_delete n key klen 0;
      match l with
      | Some l => Ok (value l, MkTree n' (u64 (t_size t - 1)))
      | None => Ok (NULL, MkTree n' (t_size t))
      end
  end.

(** ** Iteration *)

(** The slots a traversal visits, in its order: the first [num_children] ones,
    or the ones of the bytes present. *)
Definition slots (h : art_hdr) (k : art_kind) (children : list (option art_node)) : list nat :=
  match k with
  | NODE4 _ | NODE16 _ => seq 0 (num_children h)
  | NODE48 keys => omap (fun i => match i with O => None | S i' => Some i' end) keys
  | NODE256 => (present256 children 0).*1
  end.

Section iter.
(** The callback: it updates its data and returns a stop value. *)
Context {S : Type} (cb : S -> list Z -> nat -> Z -> S * Z).

Fixpoint recursive_iter (n : art_node) (data : S) {struct n} : res (S * Z) :=
  match n with
  | Leaf l => Ok (cb data (lkey l) (key_len l) (value l))
  | Inner h k children =>
      (fix loop (idxs : list nat) (data : S) {struct idxs} : res (S * Z) :=
         match idxs with
         | [] => Ok (data, 0)
         | i :: idxs' =>
             '(data, r) ←
               nth_with (fun q : option art_node => match q with
                                  | Some n' => recursive_iter n' data
                                  | None => Ok (data, 0)
                                  end) (Err OutOfBounds) children i;
             if r =? 0 then loop idxs' data else Ok (data, r)
         end) (slots h k children) data
  end.

Definition art_iter (t : art_tree) (data : S) : res (S * Z) :=
  match root t with None => Ok (data, 0) | Some n => recursive_iter n data end.

(** [true] when the C function returns 0. *)
Definition leaf_prefix_matches (l : art_leaf) (prefix : list Z) (prefix_len : nat) : res bool :=
  if (key_len l <? prefix_len)%nat then Ok false else memeq (lkey l) prefix prefix_len.

Fixpoint iter_prefix_loop (n : art_node) (key : list Z) (klen depth : nat) (data : S)
    {struct n} : res (S * Z) :=
  match n with
  | Leaf l =>
      m ← leaf_prefix_matches l key klen;
      if (m : bool) then Ok (cb data (lkey l) (key_len l) (value l)) else Ok (data, 0)
  | Inner h k children =>
      if (depth =? klen)%nat then
        l ← minimum n; l ← deref l;
        m ← leaf_prefix_matches l key klen;
        if (m : bool) then recursive_iter n data else Ok (data, 0)
      else
        let descend depth :=
          c ← rd key depth;
          child ← find_child h k children c;
          match child with
          | None => Ok (data, 0)
          | Some i =>
              nth_with (fun q : option art_node => match q with
                                 | Some n' => iter_prefix_loop n' key klen (depth + 1) data
                                 | None => Ok (data, 0)
                                 end) (Err OutOfBounds) children i
          end in
        if (partial_len h =? 0)%nat then descend depth
        else
          prefix_len ← prefix_mismatch h (minimum n) key klen depth;
          let prefix_len := Nat.min prefix_len (partial_len h) in
          if (prefix_len =? 0)%nat then Ok (data, 0)
          else if (depth + prefix_len =? klen)%nat then recursive_iter n data
          else descend (depth + partial_len h)%nat
  end.

Definition art_iter_prefix (t : art_tree) (key : list Z) (klen : nat) (data : S) : res (S * Z) :=
  match root t with None => Ok (data, 0) | Some n => iter_prefix_loop n key klen 0 data end.
End iter.

(** ** Destruction *)

(** The objects passed to [free], in order. *)
Fixpoint destroy_node (n : art_node) : res (list art_node) :=
  match n with
  | Leaf l => Ok [Leaf l]
  | Inner h k children =>
      freed ←
        (fix loop (idxs : list nat) : res (list art_node) :=
           match idxs with
           | [] => Ok []
           | i :: idxs' =>
               f1 ← nth_with (fun q : option art_node => match q with
                                       | Some n' => destroy_node n'
                                       | None => Ok []
                                       end) (Err OutOfBounds) children i;
               f2 ← loop idxs';
               Ok (f1 ++ f2)
           end) (slots h k children);
      Ok (freed ++ [n])
  end.

Definition art_tree_destroy (t : art_tree) : res (list art_node) :=
  match root t with None => Ok [] | Some n => destroy_node n end.

End ArtOps.
