(* ===== verification/ArtNodeSpec.v ===== *)
(** * Adaptive radix tree: nodes as maps from bytes to children

    [node_abs h k children m] says that a node of any of the four layouts
    represents the finite map [m] from key bytes to children.  The lemmas give
    the effect of every node routine on [m]: lookup, replacement of a child,
    insertion (with growth) and removal (with shrinking and path
    recompression).  The tree-level proofs use only these lemmas, never a
    layout. *)

From stdpp Require Import gmap sorting.
From S2P Require Import Prelude CString ArtNode ArtTree.

Module ArtSpec.
Import Art ArtOps.

(** ** Parallel comparisons *)

Lemma movemask_nonneg f keys : 0 <= movemask f keys.
Proof. induction keys as [|k keys IH]; cbn -[Z.mul]; [lia|]. destruct (f k); cbn -[Z.mul]; lia. Qed.

Lemma movemask_testbit f keys i :
  Z.testbit (movemask f keys) (Z.of_nat i) =
  match keys !! i with Some k => f k | None => false end.
Proof.
  revert i. induction keys as [|k keys IH]; intros i; [by rewrite Z.bits_0|].
  cbn [movemask]. rewrite Z.add_comm. destruct i as [|i].
  - rewrite Z.testbit_0_r. done.
  - rewrite Nat2Z.inj_succ, Z.testbit_succ_r by lia. apply IH.
Qed.

Lemma movemask_land f keys n :
  Z.land (movemask f keys) (Z.shiftl 1 (Z.of_nat n) - 1) = movemask f (take n keys).
Proof.
  rewrite Z.shiftl_1_l. change (2 ^ Z.of_nat n - 1) with (Z.pred (2 ^ Z.of_nat n)).
  rewrite <- Z.ones_equiv.
  apply Z.bits_inj'. intros i Hi.
  rewrite Z.land_spec. rewrite <- (Z2Nat.id i) by done.
  rewrite !movemask_testbit.
  destruct (decide (Z.to_nat i < n)%nat).
  - rewrite Z.ones_spec_low, andb_true_r by lia. by rewrite lookup_take_lt.
  - rewrite Z.ones_spec_high, andb_false_r by lia. by rewrite lookup_take_ge by lia.
Qed.

Lemma ctz_double z : 0 < z -> ctz (2 * z) = S (ctz z).
Proof. by destruct z. Qed.

(** [ctz] of a non-zero mask is the first position whose test succeeds. *)
Lemma movemask_ctz f keys :
  movemask f keys <> 0 ->
  exists k, keys !! ctz (movemask f keys) = Some k /\ f k = true /\
    forall j k', (j < ctz (movemask f keys))%nat -> keys !! j = Some k' -> f k' = false.
Proof.
  induction keys as [|k keys IH]; [done|]. cbn [movemask]. intros Hne.
  destruct (f k) eqn:Hf; cbn [Z.b2z] in *.
  - exists k. assert (ctz (1 + 2 * movemask f keys) = O) as ->.
    { pose proof (movemask_nonneg f keys). by destruct (movemask f keys). }
    split_and!; [done..|]. intros j k' Hj. lia.
  - rewrite Z.add_0_l in *.
    assert (movemask f keys <> 0) as Hne' by (intros E; rewrite E in Hne; lia).
    destruct (IH Hne') as (k1 & Hk1 & Hf1 & Hlt).
    pose proof (movemask_nonneg f keys). rewrite ctz_double by lia.
    exists k1. split_and!; [done..|]. intros [|j] k' Hj Hl; cbn in Hl; [congruence|].
    apply (Hlt j); [lia|done].
Qed.

Lemma movemask_0 f keys :
  movemask f keys = 0 -> forall j k, keys !! j = Some k -> f k = false.
Proof.
  intros H0 j k Hj. pose proof (movemask_testbit f keys j) as Ht.
  by rewrite H0, Z.bits_0, Hj in Ht.
Qed.

(** ** Abstract children *)

(** The pairs held by the first [num] cells of the sorted layouts. *)
Definition pairs_abs (num : nat) (keys : list Z) (ch : list (option art_node))
    (es : list (Z * art_node)) : Prop :=
  take num keys = es.*1 /\ take num ch = Some <$> es.*2 /\ length es = num.

Definition small_abs (cap num : nat) (keys : list Z) (ch : list (option art_node))
    (m : gmap Z art_node) : Prop :=
  length keys = cap /\ length ch = cap /\
  exists es, pairs_abs num keys ch es /\ NoDup es.*1 /\ m = list_to_map es.

Definition abs48 (num : nat) (keys : list nat) (ch : list (option art_node))
    (m : gmap Z art_node) : Prop :=
  length keys = 256%nat /\ length ch = 48%nat /\ num = size m /\
  (forall c, is_byte c -> exists i, keys !! Z.to_nat c = Some i /\
     match i with
     | O => m !! c = None
     | S j => exists x, ch !! j = Some (Some x) /\ m !! c = Some x
     end) /\
  (forall c c' j, is_byte c -> is_byte c' -> keys !! Z.to_nat c = Some (S j) ->
     keys !! Z.to_nat c' = Some (S j) -> c = c') /\
  (forall j x, ch !! j = Some (Some x) -> exists c, is_byte c /\ keys !! Z.to_nat c = Some (S j)).

Definition abs256 (num : nat) (ch : list (option art_node)) (m : gmap Z art_node) : Prop :=
  length ch = 256%nat /\ num = (size m mod 256)%nat /\
  forall c, is_byte c -> ch !! Z.to_nat c = Some (m !! c).

Definition kind_abs (num : nat) (k : art_kind) (ch : list (option art_node))
    (m : gmap Z art_node) : Prop :=
  match k with
  | NODE4 keys => small_abs 4 num keys ch m
  | NODE16 keys => small_abs 16 num keys ch m
  | NODE48 keys => abs48 num keys ch m
  | NODE256 => abs256 num ch m
  end.

(** The two small layouts keep their bytes in increasing order.  [add_child16]
    compares bytes as signed ones, so the order is only kept among bytes below
    128, the ASCII characters. *)
Definition byte_sorted (num : nat) (k : art_kind) : Prop :=
  match k with
  | NODE4 keys | NODE16 keys => StronglySorted Z.lt (take num keys)
  | NODE48 _ | NODE256 => True
  end.
Definition ascii_byte (c : Z) : Prop := c < 128.
Definition ordered (num : nat) (k : art_kind) (m : gmap Z art_node) : Prop :=
  byte_sorted num k /\ forall c x, m !! c = Some x -> ascii_byte c.

(** The flag [s] says whether the order of the bytes is part of the claim. *)
Record node_abs (s : bool) (h : art_hdr) (k : art_kind) (ch : list (option art_node))
    (m : gmap Z art_node) : Prop := {
  na_partial : length (partial h) = MAX_PREFIX_LEN;
  na_byte : forall c x, m !! c = Some x -> is_byte c;
  na_ordered : s = true -> ordered (num_children h) k m;
  na_kind : kind_abs (num_children h) k ch m
}.

(** How many children a node of each layout holds: a node shrinks before it
    falls below the lower bound. *)
Definition fanout_ok (k : art_kind) (m : gmap Z art_node) : Prop :=
  match k with
  | NODE4 _ => (2 <= size m <= 4)%nat
  | NODE16 _ => (4 <= size m <= 16)%nat
  | NODE48 _ => (13 <= size m <= 48)%nat
  | NODE256 => (38 <= size m <= 256)%nat
  end.

(** ** Pairs *)

Lemma pairs_lookup num keys ch es i c x :
  pairs_abs num keys ch es -> es !! i = Some (c, x) ->
  keys !! i = Some c /\ ch !! i = Some (Some x) /\ (i < num)%nat.
Proof.
  intros (Hk & Hc & Hl) He. pose proof (lookup_lt_Some _ _ _ He) as Hi.
  split_and!; [| |lia].
  - rewrite <- (lookup_take_lt keys num) by lia.
    by rewrite Hk, list_lookup_fmap, He.
  - rewrite <- (lookup_take_lt ch num) by lia.
    by rewrite Hc, !list_lookup_fmap, He.
Qed.

Lemma pairs_key num keys ch es i c :
  pairs_abs num keys ch es -> (i < num)%nat -> keys !! i = Some c ->
  exists x, es !! i = Some (c, x).
Proof.
  intros (Hk & Hc & Hl) Hi Hki. rewrite <- (lookup_take_lt keys num) in Hki by lia.
  rewrite Hk, list_lookup_fmap in Hki. destruct (es !! i) as [[c' x]|]; naive_solver.
Qed.

Lemma pairs_length num keys ch es :
  pairs_abs num keys ch es -> (num <= length keys)%nat /\ (num <= length ch)%nat.
Proof.
  intros (Hk & Hc & Hl). apply (f_equal length) in Hk, Hc.
  rewrite length_take, ?length_fmap in Hk. rewrite length_take, ?length_fmap in Hc. lia.
Qed.

Lemma es_lookup (es : list (Z * art_node)) i c x :
  NoDup es.*1 -> es !! i = Some (c, x) -> (list_to_map es : gmap Z art_node) !! c = Some x.
Proof. intros ? He. apply elem_of_list_to_map_1; [done|]. by eapply list_elem_of_lookup_2. Qed.

Lemma es_key_inj (es : list (Z * art_node)) i j c x y :
  NoDup es.*1 -> es !! i = Some (c, x) -> es !! j = Some (c, y) -> i = j.
Proof.
  intros Hnd Hi Hj. eapply NoDup_lookup; [done| |];
    rewrite list_lookup_fmap; [by rewrite Hi|by rewrite Hj].
Qed.

(** ** Child lookup *)

(** [i] is the slot of byte [c]. *)
Definition slot_of (num : nat) (k : art_kind) (c : Z) (i : nat) : Prop :=
  match k with
  | NODE4 keys | NODE16 keys => (i < num)%nat /\ keys !! i = Some c
  | NODE48 keys => keys !! Z.to_nat c = Some (S i)
  | NODE256 => i = Z.to_nat c
  end.

(** The outcome of a lookup of byte [c]. *)
Definition found (ch : list (option art_node)) (m : gmap Z art_node) (c : Z) (o : option nat) : Prop :=
  match o with
  | Some i => exists x, ch !! i = Some (Some x) /\ m !! c = Some x
  | None => m !! c = None
  end.

Lemma find_child4_spec keys c i n :
  (i + n <= length keys)%nat ->
  exists o, find_child4 keys c i n = Ok o /\
    match o with
    | Some j => (i <= j < i + n)%nat /\ keys !! j = Some c
    | None => forall j k, (i <= j < i + n)%nat -> keys !! j = Some k -> k <> c
    end.
Proof.
  revert i. induction n as [|n IH]; intros i Hl; cbn [find_child4].
  { exists None. split; [done|]. intros. lia. }
  destruct (lookup_lt_is_Some_2 keys i) as [k Hk]; [lia|].
  rewrite (rd_lookup _ _ _ Hk). cbn. destruct (Z.eqb_spec k c) as [->|Hne].
  - exists (Some i). split; [done|]. split; [lia|done].
  - destruct (IH (S i)) as (o & -> & Ho); [lia|]. exists o. split; [done|].
    destruct o as [j|]; [destruct Ho; split; [lia|done]|].
    intros j k' Hj Hk'. destruct (decide (j = i)) as [->|]; [congruence|].
    apply (Ho j); [lia|done].
Qed.

Lemma found_pairs num keys ch es c o :
  pairs_abs num keys ch es -> NoDup es.*1 ->
  match o with
  | Some j => (j < num)%nat /\ keys !! j = Some c
  | None => forall j k, (j < num)%nat -> keys !! j = Some k -> k <> c
  end -> found ch (list_to_map es) c o.
Proof.
  intros Hp Hnd. destruct o as [j|]; cbn.
  - intros [Hj Hk]. destruct (pairs_key _ _ _ _ _ _ Hp Hj Hk) as [x He].
    exists x. split; [by eapply pairs_lookup|by eapply es_lookup].
  - intros Hn. apply not_elem_of_list_to_map_1. intros ((c' & x) & -> & Hin)%list_elem_of_fmap.
    apply list_elem_of_lookup in Hin as [j Hj].
    destruct (pairs_lookup _ _ _ _ _ _ _ Hp Hj) as (Hk & _ & Hlt). by apply (Hn j c').
Qed.

Lemma find_child_spec s h k ch m c :
  node_abs s h k ch m -> is_byte c ->
  exists o, find_child h k ch c = Ok o /\ found ch m c o /\
    match o with Some i => slot_of (num_children h) k c i | None => True end.
Proof.
  intros [_ _ _ Hk] Hc. destruct k as [keys|keys|keys|]; cbn in Hk |- *.
  - destruct Hk as (Hlk & Hlc & es & Hp & Hnd & ->).
    pose proof (pairs_length _ _ _ _ Hp).
    destruct (find_child4_spec keys c 0 (num_children h)) as (o & Ho & Hs); [lia|].
    exists o. split_and!; [done| |by destruct o as [j|]; [destruct Hs; split; [lia|]|]].
    eapply found_pairs; [done..|].
    destruct o; [destruct Hs; split; [lia|done]|]. intros j k Hj. apply Hs. lia.
  - destruct Hk as (Hlk & Hlc & es & Hp & Hnd & ->). rewrite movemask_land.
    set (keys' := take (num_children h) keys) in *.
    destruct (Z.eqb_spec (movemask (fun x => c =? x) keys') 0) as [H0|Hne]; eexists.
    + split_and!; [done| |done]. apply (found_pairs (num_children h) keys); [done..|].
      intros j k Hj Hl. assert (keys' !! j = Some k) as Hl'.
      { unfold keys'. by rewrite lookup_take_lt. }
      pose proof (movemask_0 _ _ H0 _ _ Hl') as E. apply Z.eqb_neq in E. done.
    + destruct (movemask_ctz _ _ Hne) as (k & Hl & Hf & _). apply Z.eqb_eq in Hf as <-.
      apply lookup_take_Some_lt in Hl as [? ?].
      split_and!; [done| |done..]. by apply (found_pairs (num_children h) keys).
  - destruct Hk as (Hlk & Hlc & Hsz & Hall & Hinj & Hsur).
    destruct (Hall c Hc) as (i & Hi & Hm). rewrite (rd_lookup _ _ _ Hi). cbn.
    eexists. split; [done|]. destruct i; done.
  - destruct Hk as (Hlc & Hsz & Hall). rewrite (rd_lookup _ _ _ (Hall c Hc)). cbn.
    eexists. split; [done|]. destruct (m !! c) as [x|] eqn:E; cbn; [|done].
    split; [|done]. exists x. rewrite Hall, E; done.
Qed.

(** ** Replacing, adding and removing a pair *)

Lemma es_delete (es : list (Z * art_node)) i c x :
  NoDup es.*1 -> es !! i = Some (c, x) ->
  NoDup ((delete i es).*1) /\ (c ∉ (delete i es).*1) /\
  (list_to_map es : gmap Z art_node) = <[c := x]> (list_to_map (delete i es)) /\
  (list_to_map (delete i es) : gmap Z art_node) = delete c (list_to_map es).
Proof.
  intros Hnd He. pose proof (delete_Permutation es i (c, x) He) as Hperm.
  assert (NoDup (((c, x) :: delete i es).*1)) as Hnd' by (rewrite <- Hperm; done).
  cbn in Hnd'. inversion Hnd' as [|? ? Hnin Hnd'']; subst.
  assert ((list_to_map es : gmap Z art_node) = <[c := x]> (list_to_map (delete i es))) as Heq.
  { rewrite (list_to_map_proper es ((c, x) :: delete i es)); done. }
  split_and!; [done..|]. rewrite Heq, delete_insert_id; [done|].
  by apply not_elem_of_list_to_map_1.
Qed.

Lemma es_insert (es : list (Z * art_node)) i c x :
  NoDup es.*1 -> (list_to_map es : gmap Z art_node) !! c = None ->
  NoDup ((take i es ++ (c, x) :: drop i es).*1) /\
  (list_to_map (take i es ++ (c, x) :: drop i es) : gmap Z art_node) = <[c := x]> (list_to_map es).
Proof.
  intros Hnd Hc%not_elem_of_list_to_map_2.
  assert (take i es ++ (c, x) :: drop i es ≡ₚ (c, x) :: es) as Hperm.
  { by rewrite <- Permutation_middle, take_drop. }
  assert (NoDup ((take i es ++ (c, x) :: drop i es).*1)) as Hnd'.
  { rewrite Hperm. cbn. by constructor. }
  split; [done|]. rewrite (list_to_map_proper _ ((c, x) :: es)); done.
Qed.

Lemma es_update (es : list (Z * art_node)) i c x y :
  NoDup es.*1 -> es !! i = Some (c, x) ->
  (<[i := (c, y)]> es).*1 = es.*1 /\
  (list_to_map (<[i := (c, y)]> es) : gmap Z art_node) = <[c := y]> (list_to_map es).
Proof.
  intros Hnd He. assert ((<[i := (c, y)]> es).*1 = es.*1) as Hfst.
  { rewrite list_fmap_insert. cbn. apply list_insert_id.
    by rewrite list_lookup_fmap, He. }
  split; [done|].
  assert ((<[i := (c, y)]> es) !! i = Some (c, y)) as He'.
  { apply list_lookup_insert_eq. by eapply lookup_lt_Some. }
  assert (NoDup (<[i := (c, y)]> es).*1) as Hnd' by (by rewrite Hfst).
  destruct (es_delete _ _ _ _ Hnd' He') as (_ & _ & -> & _).
  destruct (es_delete _ _ _ _ Hnd He) as (_ & _ & -> & _).
  rewrite insert_insert_eq. do 2 f_equal.
  rewrite !delete_take_drop. rewrite take_insert_ge, drop_insert_lt by lia. done.
Qed.

(** ** Shifts inside an array *)

Lemma memmove_ok {A} (l : list A) dst src n :
  (dst + n <= length l)%nat -> (src + n <= length l)%nat ->
  memmove l dst src n = Ok (take dst l ++ take n (drop src l) ++ drop (dst + n) l).
Proof. intros. unfold memmove. by rewrite decide_True. Qed.

Lemma memcpy_ok {A} (dst : list A) doff src soff n :
  (doff + n <= length dst)%nat -> (soff + n <= length src)%nat ->
  memcpy dst doff src soff n = Ok (take doff dst ++ take n (drop soff src) ++ drop (doff + n) dst).
Proof. intros. unfold memcpy. by rewrite decide_True. Qed.

(** Making room at [idx] among [num] cells and writing [x] there. *)
Definition opened {A} (l : list A) (idx num : nat) (x : A) : list A :=
  take idx l ++ x :: take (num - idx) (drop idx l) ++ drop (S num) l.

Lemma shift_insert {A} (l l0 : list A) idx num x :
  (idx <= num)%nat -> (num < length l)%nat ->
  memmove l (idx + 1) idx (num - idx) = Ok l0 -> wr l0 idx x = Ok (opened l idx num x).
Proof.
  intros Hi Hn. rewrite memmove_ok by lia. intros [= <-].
  rewrite wr_lt by (rewrite !length_app, !length_take, !length_drop; lia).
  f_equal. destruct (lookup_lt_is_Some_2 l idx) as [y Hy]; [lia|].
  rewrite Nat.add_1_r, (take_S_r _ _ _ Hy), <- !app_assoc. cbn [app].
  rewrite insert_app_r_alt by (rewrite length_take; lia).
  rewrite length_take, Nat.min_l, Nat.sub_diag by lia. cbn.
  unfold opened. do 3 f_equal. f_equal. lia.
Qed.

Lemma length_opened {A} (l : list A) idx num x :
  (idx <= num)%nat -> (num < length l)%nat -> length (opened l idx num x) = length l.
Proof.
  intros. unfold opened. rewrite length_app, length_cons, length_app, !length_take, !length_drop. lia.
Qed.

Lemma take_opened {A} (l : list A) idx num x :
  (idx <= num)%nat -> (num < length l)%nat ->
  take (S num) (opened l idx num x) = take idx (take num l) ++ x :: drop idx (take num l).
Proof.
  intros Hi Hn. unfold opened. rewrite take_take, Nat.min_l by lia.
  rewrite take_app, length_take, Nat.min_l by lia.
  rewrite (take_ge (take idx l)) by (rewrite length_take; lia). f_equal.
  replace (S num - idx)%nat with (S (num - idx)) by lia. cbn. f_equal.
  rewrite take_app_length' by (rewrite length_take, length_drop; lia).
  rewrite take_drop_commute. do 2 f_equal. lia.
Qed.

(** Closing the gap at [pos] among [num] cells. *)
Lemma shift_remove {A} (l : list A) pos num :
  (pos < num)%nat -> (num <= length l)%nat ->
  exists l', memmove l pos (pos + 1) (num - 1 - pos) = Ok l' /\ length l' = length l /\
    take (num - 1) l' = delete pos (take num l).
Proof.
  intros Hp Hn. rewrite memmove_ok by lia. eexists. split_and!; [done| |].
  { rewrite !length_app, !length_take, !length_drop. lia. }
  rewrite app_assoc, take_app_length'
    by (rewrite length_app, !length_take, length_drop; lia).
  rewrite delete_take_drop, take_take, Nat.min_l by lia. f_equal.
  rewrite Nat.add_1_r, take_drop_commute. do 2 f_equal. lia.
Qed.

(** ** Order of the bytes *)

Lemma opened_sorted (l : list Z) idx num c :
  (idx <= num)%nat -> (num < length l)%nat -> StronglySorted Z.lt (take num l) ->
  (forall j k, (j < idx)%nat -> l !! j = Some k -> k < c) ->
  (forall k, (idx < num)%nat -> l !! idx = Some k -> c < k) ->
  StronglySorted Z.lt (take (S num) (opened l idx num c)).
Proof.
  intros Hi Hn Hs Hlo Hhi. rewrite take_opened by done.
  rewrite <- (take_drop idx (take num l)) in Hs.
  apply StronglySorted_app in Hs as (Hlt & Hs1 & Hs2).
  assert (forall x, x ∈ take idx (take num l) -> x < c) as Hx.
  { intros x (j & Hj)%list_elem_of_lookup. apply lookup_take_Some in Hj as [Hj ?].
    apply lookup_take_Some in Hj as [Hj ?]. by eapply Hlo. }
  assert (forall y, y ∈ drop idx (take num l) -> c < y) as Hy.
  { intros y Hin. destruct (drop idx (take num l)) as [|y0 r] eqn:E; [by apply not_elem_of_nil in Hin|].
    assert (take num l !! idx = Some y0) as H0.
    { rewrite <- (Nat.add_0_r idx), <- lookup_drop, E. done. }
    apply lookup_take_Some in H0 as [H0 Hlt0]. specialize (Hhi y0 Hlt0 H0).
    apply elem_of_cons in Hin as [->|Hin]; [done|].
    apply StronglySorted_cons in Hs2 as [Hall _]. rewrite list.Forall_forall in Hall.
    specialize (Hall y Hin). lia. }
  apply StronglySorted_app. split_and!; [|done|apply StronglySorted_cons; by rewrite list.Forall_forall].
  intros x1 x2 H1 [->|H2]%elem_of_cons; [by apply Hx|by apply Hlt].
Qed.

Lemma delete_sorted (l : list Z) pos : StronglySorted Z.lt l -> StronglySorted Z.lt (delete pos l).
Proof.
  intros Hs. rewrite <- (take_drop pos l) in Hs. apply StronglySorted_app in Hs as (Hlt & Hs1 & Hs2).
  rewrite delete_take_drop. rewrite <- (Nat.add_1_r pos), <- drop_drop.
  rewrite <- (take_drop 1 (drop pos l)) in Hs2. apply StronglySorted_app in Hs2 as (_ & _ & Hs3).
  apply StronglySorted_app. split_and!; [|done|done]. intros x1 x2 H1 H2. apply Hlt; [done|].
  rewrite <- (take_drop 1 (drop pos l)). apply elem_of_app. by right.
Qed.

Lemma ordered_set num k (m : gmap Z art_node) c x y :
  m !! c = Some y -> ordered num k m -> ordered num k (<[c := x]> m).
Proof.
  intros Hc [Hs Ha]. split; [done|]. intros c' x' [[<- _]|[_ ?]]%lookup_insert_Some; by eapply Ha.
Qed.

(** The bytes of a node after a fresh one has been added. *)
Lemma ascii_insert (m : gmap Z art_node) c x :
  ascii_byte c -> (forall c x, m !! c = Some x -> ascii_byte c) ->
  forall c' x', <[c := x]> m !! c' = Some x' -> ascii_byte c'.
Proof. intros Hc Ha c' x' [[<- _]|[_ ?]]%lookup_insert_Some; [done|by eapply Ha]. Qed.

Lemma small_abs_key cap num keys ch m j c :
  small_abs cap num keys ch m -> (j < num)%nat -> keys !! j = Some c -> is_Some (m !! c).
Proof.
  intros (_ & _ & es & Hp & Hnd & ->) Hj Hk. destruct (pairs_key _ _ _ _ _ _ Hp Hj Hk) as [x Hx].
  exists x. by eapply es_lookup.
Qed.

Lemma small_opened_sorted cap num keys ch m idx c :
  small_abs cap num keys ch m -> m !! c = None -> (idx <= num)%nat -> (num < cap)%nat ->
  (forall j k, (j < idx)%nat -> keys !! j = Some k -> k <= c) ->
  (forall k, (idx < num)%nat -> keys !! idx = Some k -> c < k) ->
  StronglySorted Z.lt (take num keys) -> StronglySorted Z.lt (take (S num) (opened keys idx num c)).
Proof.
  intros Hsm Hc Hi Hn Hlo Hhi Hs. apply opened_sorted; [done| |done| |done].
  - destruct Hsm as (-> & _). done.
  - intros j k Hj Hk. specialize (Hlo j k Hj Hk). destruct (decide (k = c)) as [->|]; [|lia].
    destruct (small_abs_key _ _ _ _ _ j c Hsm) as [x Hx]; [lia|done|]. congruence.
Qed.

(** ** Replacing a child *)

Lemma set_child_abs s h k ch m c i x :
  node_abs s h k ch m -> is_byte c -> is_Some (m !! c) ->
  slot_of (num_children h) k c i -> node_abs s h k (<[i := Some x]> ch) (<[c := x]> m).
Proof.
  intros [Hp Hb Ho Hk] Hc [y Hy] Hs. split; [done| |by intros Htrue; eapply ordered_set, Ho|].
  { intros c' x' [[-> _]|[_ Hl]]%lookup_insert_Some; [done|]. by eapply Hb. }
  destruct k as [keys|keys|keys|]; cbn in Hk, Hs |- *.
  1,2: destruct Hk as (Hlk & Hlc & es & (Hk1 & Hk2 & Hk3) & Hnd & ->), Hs as [Hi Hki];
    (split_and!; [done|by rewrite length_insert|]);
    destruct (pairs_key _ _ _ _ i c (conj Hk1 (conj Hk2 Hk3)) Hi Hki) as [z Hz];
    destruct (es_update es i c z x Hnd Hz) as [Hf Hm];
    exists (<[i := (c, x)]> es); (split_and!; [split_and!| |done]);
    [by rewrite Hf|rewrite take_insert_lt by done; rewrite Hk2, !list_fmap_insert; done
    |by rewrite length_insert|by rewrite Hf].
  - destruct Hk as (Hlk & Hlc & Hsz & Hall & Hinj & Hsur).
    destruct (Hall c Hc) as (i' & Hi' & Hm). rewrite Hs in Hi'. injection Hi' as <-.
    destruct Hm as (z & Hz & _).
    split_and!; [done|by rewrite length_insert|by rewrite map_size_insert_Some by (by exists y)| |done|].
    + intros c' Hc'. destruct (Hall c' Hc') as (i' & Hi' & Hm'). exists i'. split; [done|].
      destruct (decide (c = c')) as [<-|Hne].
      * rewrite Hs in Hi'. injection Hi' as <-. exists x.
        rewrite lookup_insert_eq, list_lookup_insert_eq; [done|by eapply lookup_lt_Some].
      * destruct i' as [|j]; [by rewrite lookup_insert_ne|].
        destruct Hm' as (x' & Hx' & Hm'). exists x'.
        rewrite lookup_insert_ne, list_lookup_insert_ne; [done| |done].
        intros <-. by apply Hne, (Hinj _ _ i).
    + intros j x' Hj. destruct (decide (i = j)) as [<-|Hne]; [by exists c|].
      rewrite list_lookup_insert_ne in Hj by done. by eapply Hsur.
  - destruct Hk as (Hlc & Hsz & Hall). subst i.
    split_and!; [by rewrite length_insert|by rewrite map_size_insert_Some by (by exists y)|].
    intros c' Hc'. destruct (decide (c = c')) as [<-|Hne].
    + rewrite lookup_insert_eq, list_lookup_insert_eq; [done|].
      rewrite Hlc. destruct Hc as [? Hlt]. change (2 ^ 8) with 256 in Hlt. lia.
    + rewrite lookup_insert_ne, list_lookup_insert_ne, Hall; [done..| |done].
      destruct Hc, Hc'. lia.
Qed.

(** ** Adding a child *)

(** The prefix bytes that count: the first [partial_len], at most ten. *)
Definition stored (h : art_hdr) : list Z := take (Nat.min MAX_PREFIX_LEN (partial_len h)) (partial h).

Definition same_prefix (h h' : art_hdr) : Prop :=
  partial_len h' = partial_len h /\ stored h' = stored h.

#[export] Instance same_prefix_preorder : PreOrder same_prefix.
Proof. split; [done|]. intros h1 h2 h3 [] []. split; congruence. Qed.

Lemma copy_header_spec h :
  length (partial h) = MAX_PREFIX_LEN ->
  exists h', copy_header hdr0 h = Ok h' /\ same_prefix h h' /\
    length (partial h') = MAX_PREFIX_LEN /\ num_children h' = num_children h.
Proof.
  intros Hl. unfold copy_header. rewrite memcpy_ok; [|cbn [partial hdr0]; rewrite ?length_replicate; lia..].
  eexists. split; [done|]. cbn [partial num_children partial_len].
  split_and!; [split; [done|]| |done].
  - unfold stored. cbn [partial partial_len]. rewrite take_0, drop_0, app_nil_l.
    rewrite take_app_le by (rewrite length_take, Hl; unfold MAX_PREFIX_LEN; lia).
    by rewrite take_take, Nat.min_id.
  - cbn [partial hdr0]. rewrite !length_app, !length_take, !length_drop, length_replicate, Hl.
    unfold MAX_PREFIX_LEN. lia.
Qed.

Lemma small_abs_size cap num keys ch m :
  small_abs cap num keys ch m -> size m = num /\ (num <= cap)%nat.
Proof.
  intros (Hlk & Hlc & es & Hp & Hnd & ->).
  pose proof (pairs_length _ _ _ _ Hp). destruct Hp as (_ & _ & Hlen).
  rewrite map_size_list_to_map by done. lia.
Qed.

Lemma insert_at_abs cap h keys ch m idx c x :
  small_abs cap (num_children h) keys ch m -> m !! c = None ->
  (num_children h < cap)%nat -> (idx <= num_children h)%nat ->
  exists keys' ch', insert_at h keys ch idx c x = Ok (keys', ch') /\
    small_abs cap (S (num_children h)) keys' ch' (<[c := x]> m) /\
    keys' = opened keys idx (num_children h) c.
Proof.
  intros (Hlk & Hlc & es & (Hk1 & Hk2 & Hk3) & Hnd & ->) Hc Hn Hi.
  set (num := num_children h) in *. unfold insert_at. fold num.
  destruct (memmove keys (idx + 1) idx (num - idx)) as [keys0|] eqn:E1;
    [|by rewrite memmove_ok in E1 by lia].
  destruct (memmove ch (idx + 1) idx (num - idx)) as [ch0|] eqn:E2;
    [|by rewrite memmove_ok in E2 by lia].
  cbn. rewrite (shift_insert keys keys0 idx num c) by (done || lia). cbn.
  rewrite (shift_insert ch ch0 idx num (Some x)) by (done || lia). cbn.
  eexists _, _. split_and!; [done| |done].
  destruct (es_insert es idx c x Hnd Hc) as [Hnd' Hm].
  split_and!; [rewrite length_opened by lia; done..|].
  exists (take idx es ++ (c, x) :: drop idx es). split_and!; [split_and!|done|done].
  - rewrite take_opened, Hk1 by lia. by rewrite fmap_app, fmap_cons, fmap_take, fmap_drop.
  - rewrite take_opened, Hk2 by lia.
    by rewrite !fmap_app, !fmap_cons, !fmap_take, !fmap_drop.
  - rewrite length_app, length_cons, length_take, length_drop. lia.
Qed.

(** *** Counting bytes *)

Lemma byte_to_nat c : is_byte c -> (Z.to_nat c < 256)%nat /\ Z.of_nat (Z.to_nat c) = c.
Proof. intros [H0 H1]. change (2 ^ 8) with 256 in H1. lia. Qed.

Lemma byte_of_nat i : (i < 256)%nat -> is_byte (Z.of_nat i).
Proof. intros. split; [lia|]. change (2 ^ 8) with 256. lia. Qed.

Lemma byte_map_size (m : gmap Z art_node) :
  (forall c x, m !! c = Some x -> is_byte c) -> (size m <= 256)%nat.
Proof.
  intros Hb. rewrite <- size_dom.
  transitivity (size (list_to_set (seqZ 0 256) : gset Z)).
  - apply subseteq_size. intros c [x Hx]%elem_of_dom. apply elem_of_list_to_set.
    apply Hb in Hx. apply elem_of_seqZ. destruct Hx as [? Hx]. change (2 ^ 8) with 256 in Hx. lia.
  - rewrite size_list_to_set by apply NoDup_seqZ. by rewrite length_seqZ.
Qed.

Lemma insert_bytes (m : gmap Z art_node) c x :
  (forall c x, m !! c = Some x -> is_byte c) -> is_byte c ->
  forall c' x', <[c := x]> m !! c' = Some x' -> is_byte c'.
Proof. intros Hb Hc c' x' [[-> _]|[_ ?]]%lookup_insert_Some; [done|]. by eapply Hb. Qed.

(** *** Growth to 256 *)

Lemma add_child256_spec s h ch m c x :
  node_abs s h NODE256 ch m -> is_byte c -> (s = true -> ascii_byte c) -> m !! c = None ->
  exists h' ch', add_child256 h ch c x = Ok (Inner h' NODE256 ch') /\
    node_abs s h' NODE256 ch' (<[c := x]> m) /\ same_prefix h h'.
Proof.
  intros [Hp Hb Ho (Hlc & Hsz & Hall)] Hc Hasc Hm. destruct (byte_to_nat c Hc).
  unfold add_child256. rewrite wr_lt by lia. eexists _, _. split_and!; [done| |done].
  split; cbn [partial num_children incr_children kind_abs];
    [done|by apply insert_bytes|by intros Ht; split; [|apply ascii_insert; [by apply Hasc|by apply Ho]]|].
  split_and!; [by rewrite length_insert| |].
  - rewrite map_size_insert_None by done. rewrite Hsz, Nat.Div0.add_mod_idemp_l. f_equal. lia.
  - intros c' Hc'. destruct (byte_to_nat c' Hc'). destruct (decide (c = c')) as [<-|Hne].
    + rewrite lookup_insert_eq, list_lookup_insert_eq; [done|lia].
    + rewrite lookup_insert_ne, list_lookup_insert_ne by (done || lia). by apply Hall.
Qed.

Lemma spread48_spec keys ch :
  (forall b j, keys !! b = Some (S j) -> (j < length ch)%nat) ->
  exists ps, spread48 keys ch = Ok ps /\ length ps = length keys /\
    forall b i, keys !! b = Some i ->
      ps !! b = Some (match i with O => None | S j => ch !! j ≫= id end).
Proof.
  induction keys as [|i keys IH]; intros Hk; [by exists []|].
  destruct IH as (ps & Hps & Hl & Hlk). { intros b j Hb. by apply (Hk (S b)). }
  cbn. destruct i as [|j].
  - rewrite Hps. eexists. split_and!; [done|cbn; by rewrite Hl|].
    intros [|b] i Hb; cbn in Hb; [by simplify_eq|]. by apply Hlk.
  - destruct (lookup_lt_is_Some_2 ch j (Hk O j eq_refl)) as [q Hq].
    rewrite (rd_lookup _ _ _ Hq). cbn. rewrite Hps. cbn.
    eexists. split_and!; [done|cbn; by rewrite Hl|].
    intros [|b] i Hb; cbn in Hb; [|by apply Hlk]. simplify_eq. by rewrite Hq.
Qed.

Lemma abs48_ptr num keys ch m b j :
  abs48 num keys ch m -> keys !! b = Some (S j) ->
  exists x, ch !! j = Some (Some x) /\ m !! Z.of_nat b = Some x.
Proof.
  intros (Hlk & Hlc & Hsz & Hall & Hinj & Hsur) Hb.
  pose proof (lookup_lt_Some _ _ _ Hb). rewrite Hlk in *.
  destruct (Hall (Z.of_nat b)) as (i & Hi & Hm); [by apply byte_of_nat|].
  rewrite Nat2Z.id, Hb in Hi. by injection Hi as <-.
Qed.

Lemma grow48_abs keys ch m h :
  abs48 (num_children h) keys ch m -> (num_children h <= 48)%nat ->
  exists ps, spread48 keys ch = Ok ps /\ abs256 (num_children h) ps m.
Proof.
  intros Ha Hn. pose proof Ha as (Hlk & Hlc & Hsz & Hall & Hinj & Hsur).
  destruct (spread48_spec keys ch) as (ps & Hps & Hl & Hlook).
  { intros b j Hbj. destruct (abs48_ptr _ _ _ _ _ _ Ha Hbj) as (x & Hx & _).
    by eapply lookup_lt_Some. }
  exists ps. split; [done|].
  split_and!; [lia|rewrite Nat.mod_small; lia|].
  intros c Hc. destruct (Hall c Hc) as (i & Hi & Hm).
  rewrite (Hlook _ _ Hi). destruct i as [|j]; [by rewrite Hm|].
  destruct Hm as (x & -> & ->). done.
Qed.

(** *** A free slot of a 48-node *)

Lemma first_set_spec {A} (f : A -> bool) (a : list A) i0 :
  match first_set f a i0 with
  | Ok i => exists x, (i0 <= i)%nat /\ a !! (i - i0)%nat = Some x /\ f x = true /\
      forall j y, (j < i - i0)%nat -> a !! j = Some y -> f y = false
  | Err e => e = OutOfBounds /\ forall j y, a !! j = Some y -> f y = false
  end.
Proof.
  revert i0. induction a as [|x a IH]; intros i0; cbn; [done|].
  destruct (f x) eqn:Hf.
  - exists x. rewrite Nat.sub_diag. split_and!; [lia|done..|]. intros. lia.
  - specialize (IH (S i0)). destruct (first_set f a (S i0)) as [i|e].
    + destruct IH as (y & Hi & Hy & Hfy & Hlt). exists y.
      replace (i - i0)%nat with (S (i - S i0)) by lia. split_and!; [lia|done..|].
      intros [|j] z Hj Hz; cbn in Hz; [congruence|]. apply (Hlt j); [lia|done].
    + destruct IH as [-> Hall]. split; [done|]. intros [|j] y Hy; cbn in Hy; [congruence|].
      by eapply Hall.
Qed.

Lemma abs48_full num keys ch m :
  abs48 num keys ch m -> (forall j, (j < 48)%nat -> exists x, ch !! j = Some (Some x)) ->
  (48 <= num)%nat.
Proof.
  intros Ha Hfull. pose proof Ha as (Hlk & Hlc & -> & Hall & Hinj & Hsur).
  assert (exists cs, Forall2 (fun j c => is_byte c /\ keys !! Z.to_nat c = Some (S j)) (seq 0 48) cs)
    as [cs Hcs].
  { apply Forall_exists_Forall2_l, Forall_seq. intros j Hj.
    destruct (Hfull j) as [x Hx]; [lia|]. by apply (Hsur j x). }
  assert (length (seq 0 48) = length cs) as Hlen by (by eapply Forall2_length).
  rewrite length_seq in Hlen.
  rewrite Hlen, <- size_dom.
  rewrite <- (size_list_to_set (C := gset Z) cs).
  - apply subseteq_size. intros c Hc%elem_of_list_to_set.
    apply list_elem_of_lookup in Hc as [j Hj].
    destruct (Forall2_lookup_r _ _ _ _ _ Hcs Hj) as (j' & _ & Hc & Hk).
    destruct (abs48_ptr _ _ _ _ _ _ Ha Hk) as (x & _ & Hm).
    apply elem_of_dom. exists x. by rewrite (proj2 (byte_to_nat c Hc)) in Hm.
  - apply NoDup_alt. intros i j c Hi Hj.
    destruct (Forall2_lookup_r _ _ _ _ _ Hcs Hi) as (i' & Hi' & _ & Hki).
    destruct (Forall2_lookup_r _ _ _ _ _ Hcs Hj) as (j' & Hj' & _ & Hkj).
    apply lookup_seq in Hi', Hj'. rewrite Hki in Hkj. injection Hkj. lia.
Qed.

Lemma abs48_insert num keys ch m c x pos :
  abs48 num keys ch m -> is_byte c -> m !! c = None -> ch !! pos = Some None ->
  abs48 (S num) (<[Z.to_nat c := S pos]> keys) (<[pos := Some x]> ch) (<[c := x]> m).
Proof.
  intros Ha Hc Hm Hpos. pose proof Ha as (Hlk & Hlc & Hsz & Hall & Hinj & Hsur).
  pose proof (lookup_lt_Some _ _ _ Hpos) as Hposlt. destruct (byte_to_nat c Hc) as [Hcn Hcz].
  assert (forall b j, keys !! b = Some (S j) -> j <> pos) as Hfree.
  { intros b j Hb ->. destruct (abs48_ptr _ _ _ _ _ _ Ha Hb) as (y & Hy & _). congruence. }
  split_and!; [by rewrite length_insert..|by rewrite map_size_insert_None, Hsz| | |].
  - intros c' Hc'. destruct (byte_to_nat c' Hc'). destruct (decide (c = c')) as [<-|Hne].
    + exists (S pos). rewrite list_lookup_insert_eq by lia. split; [done|].
      exists x. rewrite lookup_insert_eq, list_lookup_insert_eq by lia. done.
    + destruct (Hall c' Hc') as (i & Hi & Hmi). exists i.
      rewrite list_lookup_insert_ne by lia. split; [done|].
      rewrite lookup_insert_ne by done. destruct i as [|j]; [done|].
      destruct Hmi as (y & Hy & ?). exists y. split; [|done].
      rewrite list_lookup_insert_ne; [done|]. intros <-. by apply (Hfree (Z.to_nat c') pos).
  - intros c1 c2 j H1 H2. destruct (byte_to_nat c1 H1), (byte_to_nat c2 H2).
    intros [(E1 & [= <-] & _)|[_ Hl1]]%list_lookup_insert_Some
      [(E2 & E3 & _)|[_ Hl2]]%list_lookup_insert_Some;
      [lia|by exfalso; eapply Hfree|injection E3 as ->; by exfalso; eapply Hfree|by eapply Hinj].
  - intros j y [(-> & _ & _)|[Hne Hj]]%list_lookup_insert_Some.
    + exists c. split; [done|]. rewrite list_lookup_insert_eq by lia. done.
    + destruct (Hsur j y Hj) as (c' & Hc' & Hk'). exists c'. split; [done|].
      rewrite list_lookup_insert_ne; [done|]. intros Heq.
      destruct (abs48_ptr _ _ _ _ _ _ Ha Hk') as (z & _ & Hz).
      rewrite <- Heq, Hcz in Hz. congruence.
Qed.

Lemma add_child48_spec s h keys ch m c x :
  node_abs s h (NODE48 keys) ch m -> (num_children h <= 48)%nat -> is_byte c ->
  (s = true -> ascii_byte c) -> m !! c = None ->
  exists h' k' ch', add_child48 h keys ch c x = Ok (Inner h' k' ch') /\
    node_abs s h' k' ch' (<[c := x]> m) /\ same_prefix h h' /\
    match k' with NODE48 _ => (num_children h < 48)%nat | NODE256 => num_children h = 48%nat | _ => False end.
Proof.
  intros [Hp Hb Ho Ha] Hn Hc Hasc Hm. cbn [kind_abs] in Ha. unfold add_child48.
  pose proof Ha as (Hlk & Hlc & Hsz & _). destruct (byte_to_nat c Hc).
  destruct (Nat.ltb_spec (num_children h) 48) as [Hlt|Hge].
  - pose proof (first_set_spec (fun p => negb (nonnull p)) ch 0) as Hfs.
    destruct (first_set _ ch 0) as [pos|]; cycle 1.
    { destruct Hfs as [_ Hfull]. assert (48 <= num_children h)%nat; [|lia].
      eapply abs48_full; [done|]. intros j Hj.
      destruct (lookup_lt_is_Some_2 ch j) as [[y|] Hy]; [lia|by exists y|].
      by specialize (Hfull j None Hy). }
    destruct Hfs as (y & _ & Hy & Hny & _). rewrite Nat.sub_0_r in Hy. destruct y; [done|].
    pose proof (lookup_lt_Some _ _ _ Hy). cbn. rewrite wr_lt by lia. cbn. rewrite wr_lt by lia.
    eexists _, _, _. split_and!; [done| |done..].
    split; cbn [partial num_children incr_children kind_abs];
      [done|by apply insert_bytes|by intros Ht; split; [|apply ascii_insert; [by apply Hasc|by apply Ho]]|].
    rewrite Nat.mod_small, Nat.add_1_r by lia. by apply abs48_insert.
  - destruct (grow48_abs keys ch m h) as (ps & Hps & Hn256); [done..|].
    cbn. rewrite Hps. cbn.
    destruct (copy_header_spec h Hp) as (h' & -> & Hpre & Hp' & Hn'). cbn.
    destruct (add_child256_spec s h' ps m c x) as (h2 & ch2 & -> & Ha2 & Hpre2); [|done..|].
    { split; [done..|by intros Ht; split; [|by apply Ho]|]. cbn [kind_abs]. by rewrite Hn'. }
    eexists _, _, _. split_and!; [done|done|by etrans|cbn; lia].
Qed.

(** *** Growth to 48 *)

Lemma index48_spec keys nk i n :
  length nk = 256%nat -> (i + n <= length keys)%nat ->
  (forall j c, (i <= j < i + n)%nat -> keys !! j = Some c -> is_byte c) ->
  (forall j j' c, (i <= j < i + n)%nat -> (i <= j' < i + n)%nat ->
     keys !! j = Some c -> keys !! j' = Some c -> j = j') ->
  exists nk', index48 nk keys i n = Ok nk' /\ length nk' = 256%nat /\
    (forall j c, (i <= j < i + n)%nat -> keys !! j = Some c -> nk' !! Z.to_nat c = Some (S j)) /\
    (forall b, (forall j c, (i <= j < i + n)%nat -> keys !! j = Some c -> Z.to_nat c <> b) ->
       nk' !! b = nk !! b).
Proof.
  revert nk i. induction n as [|n IH]; intros nk i Hl Hk Hb Hnd; cbn [index48].
  { exists nk. split_and!; [done..| |done]. intros. lia. }
  destruct (lookup_lt_is_Some_2 keys i) as [c Hc]; [lia|].
  destruct (byte_to_nat c) as [Hcn Hcz]; [apply (Hb i); [lia|done]|].
  rewrite (rd_lookup _ _ _ Hc). cbn. rewrite wr_lt by lia. cbn.
  destruct (IH (<[Z.to_nat c := (i + 1)%nat]> nk) (S i)) as (nk' & -> & Hl' & Hset & Hother).
  { by rewrite length_insert. }
  { lia. }
  { intros j c' Hj. apply Hb. lia. }
  { intros j j' c' Hj Hj'. apply Hnd; lia. }
  exists nk'. split_and!; [done..| |].
  - intros j c' Hj Hc'. destruct (decide (j = i)) as [->|]; [|apply Hset; [lia|done]].
    simplify_eq. rewrite Hother.
    + rewrite list_lookup_insert_eq by lia. f_equal. lia.
    + intros j c'' Hj' Hc'' Heq.
      assert (c'' = c) as ->.
      { destruct (byte_to_nat c'') as [_ <-]; [apply (Hb j); [lia|done]|]. lia. }
      assert (j = i); [|lia]. apply (Hnd j i c); [lia..|done|done].
  - intros b Hb'. rewrite Hother.
    + apply list_lookup_insert_ne. apply (Hb' i); [lia|done].
    + intros j c' Hj. apply Hb'. lia.
Qed.

(** An index array that numbers the pairs [es] in order, over slots that hold
    their children in order, represents the map of [es]. *)
Lemma numbered_abs48 (es : list (Z * art_node)) nk ch :
  NoDup es.*1 -> Forall is_byte es.*1 -> length nk = 256%nat -> length ch = 48%nat ->
  (forall j c x, es !! j = Some (c, x) -> nk !! Z.to_nat c = Some (S j)) ->
  (forall b, (forall c, c ∈ es.*1 -> Z.to_nat c <> b) -> (b < 256)%nat -> nk !! b = Some O) ->
  (forall j x, ch !! j = Some (Some x) <-> exists c, es !! j = Some (c, x)) ->
  abs48 (length es) nk ch (list_to_map es).
Proof.
  intros Hnd Hby Hlk Hlc Hset Hzero Hch.
  assert (forall c j, is_byte c -> nk !! Z.to_nat c = Some (S j) -> exists x, es !! j = Some (c, x)) as Hinv.
  { intros c j Hc Hj. destruct (byte_to_nat c Hc).
    destruct (decide (c ∈ es.*1)) as [((c' & x) & -> & Hin)%list_elem_of_fmap|Hnin].
    - apply list_elem_of_lookup in Hin as [j' Hj']. exists x. cbn in *.
      rewrite (Hset _ _ _ Hj') in Hj. by injection Hj as <-.
    - rewrite Hzero in Hj; [done| |done]. intros c' Hc' Heq. apply Hnin.
      assert (is_byte c') as Hb' by (rewrite list.Forall_forall in Hby; by apply Hby).
      destruct (byte_to_nat c' Hb'). by assert (c = c') as -> by lia. }
  split_and!; [done..|by rewrite map_size_list_to_map| | |].
  - intros c Hc. destruct (byte_to_nat c Hc).
    destruct (decide (c ∈ es.*1)) as [((c' & x) & -> & Hin)%list_elem_of_fmap|Hnin].
    + apply list_elem_of_lookup in Hin as [j Hj]. cbn in *. exists (S j).
      split; [by eapply Hset|]. exists x.
      split; [apply Hch; by exists c'|exact (es_lookup es j c' x Hnd Hj)].
    + exists O. split; [|by apply not_elem_of_list_to_map_1].
      apply Hzero; [|lia]. intros c' Hc' Heq. apply Hnin.
      assert (is_byte c') as Hb' by (rewrite list.Forall_forall in Hby; by apply Hby).
      destruct (byte_to_nat c' Hb'). by assert (c = c') as -> by lia.
  - intros c c' j Hc Hc' H1 H2. destruct (Hinv c j Hc H1) as [x Hx].
    destruct (Hinv c' j Hc' H2) as [x' Hx']. congruence.
  - intros j x Hj. apply Hch in Hj as [c Hj]. exists c. split; [|by eapply Hset].
    eapply Forall_lookup_1; [exact Hby|]. by rewrite list_lookup_fmap, Hj.
Qed.

(** An array whose first cells hold the children of [es], followed by
    [NULL]s. *)
Lemma filled_children (es : list (Z * art_node)) n j x :
  ((Some <$> es.*2) ++ replicate n None) !! j = Some (Some x) <-> exists c, es !! j = Some (c, x).
Proof.
  split.
  - intros [Hj|[_ Hj]]%lookup_app_Some; [|by apply lookup_replicate in Hj as [? _]].
    rewrite !list_lookup_fmap in Hj. destruct (es !! j) as [[c y]|] eqn:E; [|done].
    cbn in Hj. simplify_eq. by exists c.
  - intros [c Hj]. apply lookup_app_l_Some. by rewrite !list_lookup_fmap, Hj.
Qed.

Lemma grow16_abs s h keys ch m :
  node_abs s h (NODE16 keys) ch m -> num_children h = 16%nat ->
  exists nk ch', memcpy (replicate 48 None) 0 ch 0 (num_children h) = Ok ch' /\
    index48 (replicate 256 0%nat) keys 0 (num_children h) = Ok nk /\
    abs48 (num_children h) nk ch' m.
Proof.
  intros [Hp Hb _ (Hlk & Hlc & es & Hpairs & Hnd & ->)] Hn. set (num := num_children h) in *.
  rewrite memcpy_ok by (rewrite ?length_replicate; lia).
  assert (forall j c, (j < num)%nat -> keys !! j = Some c -> exists x, es !! j = Some (c, x)) as Hes.
  { intros j c Hj. by eapply pairs_key. }
  assert (Forall is_byte es.*1) as Hby.
  { apply list.Forall_forall. intros c ((c' & x) & -> & Hin)%list_elem_of_fmap.
    eapply Hb, elem_of_list_to_map_1; done. }
  destruct (index48_spec keys (replicate 256 0%nat) 0 num) as (nk & -> & Hlnk & Hset & Hother).
  { by rewrite length_replicate. }
  { lia. }
  { intros j c Hj Hc. destruct (Hes j c) as [x Hx]; [lia|done|]. eapply Hb, es_lookup; done. }
  { intros j j' c Hj Hj' Hc Hc'. destruct (Hes j c) as [x Hx]; [lia|done|].
    destruct (Hes j' c) as [x' Hx']; [lia|done|]. by eapply es_key_inj. }
  eexists nk, _. split_and!; [done..|].
  rewrite take_0, drop_0, app_nil_l, Nat.add_0_l. pose proof Hpairs as (Hk1 & Hk2 & Hk3).
  rewrite Hk2, drop_replicate, <- Hk3. apply numbered_abs48; [done..| | | |].
  - rewrite length_app, !length_fmap, length_replicate. lia.
  - intros j c x Hx. destruct (pairs_lookup _ _ _ _ _ _ _ Hpairs Hx) as (? & ? & ?).
    apply Hset; [lia|done].
  - intros b Hnb Hb256. rewrite Hother; [by rewrite lookup_replicate_2|].
    intros j c Hj Hc. apply Hnb. destruct (Hes j c) as [x Hx]; [lia|done|].
    apply list_elem_of_fmap. exists (c, x). split; [done|]. by eapply list_elem_of_lookup_2.
  - intros j x. apply filled_children.
Qed.

(** *** The sorted layouts *)

(** The position [add_child16] inserts at. *)
Definition pos16 (num : nat) (keys : list Z) (c : Z) : nat :=
  let bitfield := movemask (fun x => epi8_lt c x) (take num keys) in
  if bitfield =? 0 then num else ctz bitfield.

Lemma pos16_spec num keys c :
  (num <= length keys)%nat ->
  (pos16 num keys c <= num)%nat /\
  (forall j k, (j < pos16 num keys c)%nat -> keys !! j = Some k -> epi8_lt c k = false) /\
  (forall k, (pos16 num keys c < num)%nat -> keys !! pos16 num keys c = Some k -> epi8_lt c k = true).
Proof.
  intros Hn. unfold pos16.
  destruct (Z.eqb_spec (movemask (fun x => epi8_lt c x) (take num keys)) 0) as [H0|Hne].
  - split_and!; [lia| |lia]. intros j k Hj Hk. apply (movemask_0 _ _ H0 j).
    by rewrite lookup_take_lt.
  - destruct (movemask_ctz _ _ Hne) as (k & Hk & Hf & Hlt).
    apply lookup_take_Some_lt in Hk as [Hk1 Hk2].
    split_and!; [lia| |congruence]. intros j k' Hj Hk'. apply (Hlt j); [done|].
    rewrite lookup_take_lt; [done|lia].
Qed.

(** Among ASCII bytes the signed comparison is the comparison. *)
Lemma epi8_lt_ascii c k : is_byte c -> is_byte k -> ascii_byte c -> ascii_byte k -> epi8_lt c k = (c <? k).
Proof.
  unfold is_u, ascii_byte. intros [H1 _] [H2 _] H3 H4. unfold epi8_lt, swrap.
  change (2 ^ (8 - 1)) with 128. change (2 ^ 8) with 256.
  rewrite !(Z.mod_small (_ + 128)) by lia. f_equal; lia.
Qed.

Lemma pos16_sorted cap num keys ch m c :
  small_abs cap num keys ch m -> (forall c x, m !! c = Some x -> is_byte c) ->
  (forall c x, m !! c = Some x -> ascii_byte c) -> is_byte c -> ascii_byte c -> m !! c = None ->
  (num < cap)%nat -> StronglySorted Z.lt (take num keys) ->
  StronglySorted Z.lt (take (S num) (opened keys (pos16 num keys c) num c)).
Proof.
  intros Hsm Hb Ha Hbc Hac Hc Hn. pose proof Hsm as (Hlk & _).
  destruct (pos16_spec num keys c) as (Hpos & Hlo & Hhi); [lia|].
  assert (forall j k, (j < num)%nat -> keys !! j = Some k -> epi8_lt c k = (c <? k)) as Hcmp.
  { intros j k Hj Hk. destruct (small_abs_key _ _ _ _ _ _ _ Hsm Hj Hk) as [x Hx].
    apply epi8_lt_ascii; eauto. }
  eapply small_opened_sorted; [done..| |].
  - intros j k Hj Hk. specialize (Hlo j k Hj Hk). rewrite (Hcmp j) in Hlo by (done || lia).
    by apply Z.ltb_ge in Hlo.
  - intros k Hlt Hk. specialize (Hhi k Hlt Hk). rewrite (Hcmp _ _ Hlt Hk) in Hhi. by apply Z.ltb_lt in Hhi.
Qed.

Lemma add_child16_spec s h keys ch m c x :
  node_abs s h (NODE16 keys) ch m -> is_byte c -> (s = true -> ascii_byte c) -> m !! c = None ->
  exists h' k' ch', add_child16 h keys ch c x = Ok (Inner h' k' ch') /\
    node_abs s h' k' ch' (<[c := x]> m) /\ same_prefix h h' /\
    match k' with
    | NODE16 keys' => (num_children h < 16)%nat /\
        num_children h' = S (num_children h) /\
        keys' = opened keys (pos16 (num_children h) keys c) (num_children h) c
    | NODE48 _ => num_children h = 16%nat
    | _ => False
    end.
Proof.
  intros Hna Hc Hasc Hm. pose proof Hna as [Hp Hb Ho Hsm]. cbn [kind_abs] in Hsm.
  destruct (small_abs_size _ _ _ _ _ Hsm) as [Hsz Hle]. pose proof Hsm as (Hlk & Hlc & _).
  unfold add_child16. destruct (Nat.ltb_spec (num_children h) 16) as [Hlt|Hge].
  - rewrite movemask_land. fold (pos16 (num_children h) keys c).
    destruct (pos16_spec (num_children h) keys c) as [Hpos _]; [lia|].
    destruct (insert_at_abs 16 h keys ch m (pos16 (num_children h) keys c) c x)
      as (keys' & ch' & -> & Ha & ->); [done..|].
    cbn [mbind res_bind]. eexists _, _, _. split; [done|cbv iota].
    split_and!; [|done|done| |done].
    + split; cbn [partial num_children incr_children kind_abs]; [done|by apply insert_bytes| |];
        rewrite Nat.mod_small, Nat.add_1_r by lia; [|done].
      intros Ht. destruct (Ho Ht) as [Hso Ha'].
      split; [by eapply pos16_sorted; eauto|by apply ascii_insert; [apply Hasc|]].
    + cbn [num_children incr_children]. rewrite Nat.mod_small; lia.
  - assert (num_children h = 16%nat) as Hn by lia.
    destruct (grow16_abs s h keys ch m) as (nk & ch' & E1 & E2 & Ha); [done..|].
    cbn [alloc_node]. rewrite E1. cbn [mbind res_bind]. rewrite E2. cbn [mbind res_bind].
    destruct (copy_header_spec h Hp) as (h' & -> & Hpre & Hp' & Hn'). cbn [mbind res_bind].
    destruct (add_child48_spec s h' nk ch' m c x) as (h2 & k2 & ch2 & -> & Ha2 & Hpre2 & Hk2);
      [split; [done..|by intros Ht; split; [|by apply Ho]|by rewrite Hn']|lia|done..|].
    eexists _, _, _. split_and!; [done|done|by etrans|]. destruct k2; [done..| |]; lia.
Qed.

Lemma lt_pos_spec keys c idx n :
  (idx + n <= length keys)%nat ->
  exists i, lt_pos keys c idx n = Ok i /\ (idx <= i <= idx + n)%nat /\
    (forall j k, (idx <= j < i)%nat -> keys !! j = Some k -> k <= c) /\
    (forall k, (i < idx + n)%nat -> keys !! i = Some k -> c < k).
Proof.
  revert idx. induction n as [|n IH]; intros idx Hl; cbn [lt_pos].
  { exists idx. split_and!; [done|lia..|]. intros; lia. }
  destruct (lookup_lt_is_Some_2 keys idx) as [k Hk]; [lia|].
  rewrite (rd_lookup _ _ _ Hk). cbn. destruct (Z.ltb_spec c k).
  - exists idx. split_and!; [done|lia|lia|intros; lia|]. congruence.
  - destruct (IH (S idx)) as (i & -> & Hi & Hlo & Hhi); [lia|].
    exists i. split_and!; [done|lia|lia| |].
    + intros j k' Hj Hk'. destruct (decide (j = idx)) as [->|]; [simplify_eq; lia|].
      apply (Hlo j); [lia|done].
    + intros k' Hi'. apply Hhi. lia.
Qed.

Lemma grow4_abs s h keys ch m :
  node_abs s h (NODE4 keys) ch m -> num_children h = 4%nat ->
  exists keys' ch', memcpy (replicate 16 None) 0 ch 0 (num_children h) = Ok ch' /\
    memcpy (replicate 16 0) 0 keys 0 (num_children h) = Ok keys' /\
    small_abs 16 (num_children h) keys' ch' m /\ take 4 keys' = take 4 keys.
Proof.
  intros [Hp Hb _ (Hlk & Hlc & es & (Hk1 & Hk2 & Hk3) & Hnd & ->)] Hn.
  rewrite !memcpy_ok by (rewrite ?length_replicate; lia).
  eexists _, _. rewrite !take_0, !drop_0, !app_nil_l, !Nat.add_0_l. split_and!; [done..| |].
  - split_and!; [rewrite length_app, length_take, length_drop, length_replicate; lia..|].
    exists es. split_and!; [split_and!|done..];
      [rewrite take_app_length' by (rewrite length_take; lia); done..|done].
  - rewrite Hn. rewrite take_app_length'; [done|]. rewrite length_take. lia.
Qed.

Lemma add_child4_spec s h keys ch m c x :
  node_abs s h (NODE4 keys) ch m -> is_byte c -> (s = true -> ascii_byte c) -> m !! c = None ->
  exists h' k' ch', add_child4 h keys ch c x = Ok (Inner h' k' ch') /\
    node_abs s h' k' ch' (<[c := x]> m) /\ same_prefix h h' /\
    match k' with
    | NODE4 keys' => (num_children h < 4)%nat /\ num_children h' = S (num_children h) /\
        exists idx, keys' = opened keys idx (num_children h) c /\ (idx <= num_children h)%nat /\
          (forall j k, (j < idx)%nat -> keys !! j = Some k -> k <= c) /\
          (forall k, (idx < num_children h)%nat -> keys !! idx = Some k -> c < k)
    | NODE16 keys' => num_children h = 4%nat /\ num_children h' = 5%nat /\
        exists keys16, take 4 keys16 = take 4 keys /\ (length keys16 = 16)%nat /\
          keys' = opened keys16 (pos16 4 keys16 c) 4 c
    | _ => False
    end.
Proof.
  intros Hna Hc Hasc Hm. pose proof Hna as [Hp Hb Ho Hsm]. cbn [kind_abs] in Hsm.
  destruct (small_abs_size _ _ _ _ _ Hsm) as [Hsz Hle]. pose proof Hsm as (Hlk & Hlc & _).
  unfold add_child4. destruct (Nat.ltb_spec (num_children h) 4) as [Hlt|Hge].
  - destruct (lt_pos_spec keys c 0 (num_children h)) as (idx & -> & Hidx & Hlo & Hhi); [lia|].
    cbn [mbind res_bind].
    destruct (insert_at_abs 4 h keys ch m idx c x) as (keys' & ch' & -> & Ha & ->); [done|done|lia|lia|].
    cbn [mbind res_bind]. eexists _, _, _. split; [done|cbv iota].
    split_and!; [|done|done| |].
    + split; cbn [partial num_children incr_children kind_abs]; [done|by apply insert_bytes| |];
        rewrite Nat.mod_small, Nat.add_1_r by lia; [|done].
      intros Ht. destruct (Ho Ht) as [Hso Ha'].
      split; [|by apply ascii_insert; [apply Hasc|]]. eapply small_opened_sorted; [done|done|lia|lia|..|done];
        [intros j k Hj; apply Hlo; lia|intros k Hi; apply Hhi; lia].
    + cbn [num_children incr_children]. rewrite Nat.mod_small; lia.
    + exists idx. split_and!; [done|lia| |].
      * intros j k Hj. apply Hlo. lia.
      * intros k Hi. apply Hhi. lia.
  - assert (num_children h = 4%nat) as Hn by lia.
    destruct (grow4_abs s h keys ch m) as (keys' & ch' & E1 & E2 & Ha & Htk); [done..|].
    cbn [alloc_node]. rewrite E1. cbn [mbind res_bind]. rewrite E2. cbn [mbind res_bind].
    destruct (copy_header_spec h Hp) as (h' & -> & Hpre & Hp' & Hn'). cbn [mbind res_bind].
    destruct (add_child16_spec s h' keys' ch' m c x) as (h2 & k2 & ch2 & -> & Ha2 & Hpre2 & Hk2);
      [split; [done..| |by rewrite Hn']|done..|].
    { intros Ht. destruct (Ho Ht) as [Hso Ha']. split; [|done]. cbn [byte_sorted] in Hso |- *.
      by rewrite Hn', Hn, Htk, <- Hn. }
    eexists _, _, _. split_and!; [done|done|by etrans|].
    destruct k2; [done| |lia|done]. destruct Hk2 as (_ & Hn2 & ->).
    split_and!; [done|lia|]. exists keys'. rewrite Hn', Hn. split_and!; [done|apply Ha|done].
Qed.

(** Adding a child for a fresh byte, whatever the layout. *)
Lemma add_child_spec s h k ch m c x :
  node_abs s h k ch m -> fanout_ok k m -> is_byte c -> (s = true -> ascii_byte c) -> m !! c = None ->
  exists h' k' ch', add_child h k ch c x = Ok (Inner h' k' ch') /\
    node_abs s h' k' ch' (<[c := x]> m) /\ same_prefix h h' /\ fanout_ok k' (<[c := x]> m).
Proof.
  intros Hna Hf Hc Hasc Hm.
  assert (size (<[c := x]> m) = S (size m)) as Hsz by (by apply map_size_insert_None).
  assert (size (<[c := x]> m) <= 256)%nat as H256.
  { apply byte_map_size, insert_bytes; [|done]. apply Hna. }
  pose proof (na_kind _ _ _ _ _ Hna) as Hk.
  destruct k as [keys|keys|keys|]; cbn [fanout_ok add_child kind_abs] in *.
  - destruct (small_abs_size _ _ _ _ _ Hk) as [Hsm _].
    destruct (add_child4_spec s h keys ch m c x) as (h' & k' & ch' & -> & Ha & Hpre & Hk'); [done..|].
    eexists _, _, _. split_and!; [done..|]. destruct k'; cbn [fanout_ok]; try done; lia.
  - destruct (small_abs_size _ _ _ _ _ Hk) as [Hsm _].
    destruct (add_child16_spec s h keys ch m c x) as (h' & k' & ch' & -> & Ha & Hpre & Hk'); [done..|].
    eexists _, _, _. split_and!; [done..|]. destruct k'; cbn [fanout_ok]; try done; lia.
  - destruct Hk as (_ & _ & Hn & _).
    destruct (add_child48_spec s h keys ch m c x) as (h' & k' & ch' & -> & Ha & Hpre & Hk'); [done|lia|done..|].
    eexists _, _, _. split_and!; [done..|]. destruct k'; cbn [fanout_ok]; try done; lia.
  - destruct (add_child256_spec s h ch m c x) as (h' & ch' & -> & Ha & Hpre); [done..|].
    eexists _, _, _. split_and!; [done..|]. cbn [fanout_ok]. lia.
Qed.

(** ** Children in byte order *)

Definition byte_entry (m : gmap Z art_node) (b : nat) : option (Z * art_node) :=
  pair (Z.of_nat b) <$> m !! Z.of_nat b.
Definition entries_from (m : gmap Z art_node) (i n : nat) : list (Z * art_node) :=
  omap (byte_entry m) (seq i n).
Definition byte_entries (m : gmap Z art_node) : list (Z * art_node) := entries_from m 0 256.

Lemma entries_from_S m i n :
  entries_from m i (S n) =
  match m !! Z.of_nat i with
  | Some x => (Z.of_nat i, x) :: entries_from m (S i) n
  | None => entries_from m (S i) n
  end.
Proof.
  unfold entries_from. cbn. unfold byte_entry at 1. by destruct (m !! Z.of_nat i).
Qed.

Lemma entries_from_elem m i n c x :
  (c, x) ∈ entries_from m i n <-> (Z.of_nat i <= c < Z.of_nat (i + n)) /\ m !! c = Some x.
Proof.
  unfold entries_from. rewrite list_elem_of_omap. split.
  - intros (b & Hb & He). apply elem_of_seq in Hb. unfold byte_entry in He.
    destruct (m !! Z.of_nat b) eqn:E; cbn in He; simplify_eq. split; [lia|done].
  - intros [Hc Hm]. exists (Z.to_nat c). split; [apply elem_of_seq; lia|].
    unfold byte_entry. rewrite Z2Nat.id by lia. by rewrite Hm.
Qed.

Lemma entries_from_sorted m i n : StronglySorted Z.lt (entries_from m i n).*1.
Proof.
  revert i. induction n as [|n IH]; intros i; [constructor|].
  rewrite entries_from_S. destruct (m !! Z.of_nat i) as [x|]; [|apply IH].
  cbn. constructor; [apply IH|]. apply list.Forall_forall.
  intros c ((c' & y) & -> & Hin)%list_elem_of_fmap. apply entries_from_elem in Hin. cbn. lia.
Qed.

Lemma sorted_NoDup (l : list Z) : StronglySorted Z.lt l -> NoDup l.
Proof.
  induction 1 as [|x l _ IH Hall]; constructor; [|done].
  intros Hin. eapply list.Forall_forall in Hall; [|done]. lia.
Qed.

Lemma byte_entries_map m :
  (forall c x, m !! c = Some x -> is_byte c) -> list_to_map (byte_entries m) = m.
Proof.
  intros Hb. assert (NoDup (byte_entries m).*1) as Hnd by apply sorted_NoDup, entries_from_sorted.
  apply map_eq. intros c. apply option_eq. intros x.
  rewrite <- elem_of_list_to_map by done. unfold byte_entries. rewrite entries_from_elem.
  split; [tauto|]. intros Hm. split; [|done]. destruct (byte_to_nat c (Hb _ _ Hm)). lia.
Qed.

Lemma entries_from_bytes m i n :
  (i + n <= 256)%nat -> Forall is_byte (entries_from m i n).*1.
Proof.
  intros Hn. apply list.Forall_forall. intros c ((c' & y) & -> & Hin)%list_elem_of_fmap.
  apply entries_from_elem in Hin as [Hc _]. cbn [fst].
  rewrite <- (Z2Nat.id c') by lia. apply byte_of_nat. lia.
Qed.

Lemma byte_entries_bytes m : Forall is_byte (byte_entries m).*1.
Proof. by apply entries_from_bytes. Qed.

Lemma byte_entries_length m :
  (forall c x, m !! c = Some x -> is_byte c) -> length (byte_entries m) = size m.
Proof.
  intros Hb. rewrite <- (byte_entries_map m Hb) at 2.
  symmetry. apply map_size_list_to_map, sorted_NoDup, entries_from_sorted.
Qed.

(** What the copying loops read off a node. *)
Definition raw_entry (e : Z * art_node) : nat * option art_node := (Z.to_nat e.1, Some e.2).

Lemma present256_entries m ch i :
  (forall j, (j < length ch)%nat -> ch !! j = Some (m !! Z.of_nat (i + j))) ->
  present256 ch i = raw_entry <$> entries_from m i (length ch).
Proof.
  revert i. induction ch as [|q ch IH]; intros i Hch; [done|].
  cbn [length]. rewrite entries_from_S.
  pose proof (Hch O ltac:(cbn; lia)) as H0. rewrite Nat.add_0_r in H0. cbn in H0. injection H0 as H0.
  assert (present256 ch (S i) = raw_entry <$> entries_from m (S i) (length ch)) as Hrec.
  { apply IH. intros j Hj. specialize (Hch (S j) ltac:(cbn; lia)).
    by replace (S i + j)%nat with (i + S j)%nat by lia. }
  cbn. rewrite H0. destruct (m !! Z.of_nat i) as [x|]; [|done].
  rewrite Hrec. unfold raw_entry at 2. cbn. by rewrite Nat2Z.id.
Qed.

Lemma present48_entries m ch keys i :
  (forall b k, keys !! b = Some k ->
     match k with
     | O => m !! Z.of_nat (i + b) = None
     | S j => exists x, ch !! j = Some (Some x) /\ m !! Z.of_nat (i + b) = Some x
     end) ->
  present48 keys ch i = Ok (raw_entry <$> entries_from m i (length keys)) /\
  Forall2 (fun j e => ch !! j = Some (Some e.2))
    (omap (fun k => match k with O => None | S j => Some j end) keys)
    (entries_from m i (length keys)).
Proof.
  revert i. induction keys as [|k keys IH]; intros i Hk; [done|].
  cbn [length]. rewrite entries_from_S.
  destruct (IH (S i)) as [E1 E2].
  { intros b k' Hb. specialize (Hk (S b) k' Hb).
    by replace (S i + b)%nat with (i + S b)%nat by lia. }
  specialize (Hk O k eq_refl). rewrite Nat.add_0_r in Hk. cbn [present48].
  destruct k as [|j]; [by rewrite Hk|]. destruct Hk as (x & Hx & Hm).
  rewrite Hm, (rd_lookup _ _ _ Hx). cbn [mbind res_bind]. rewrite E1. cbn [mbind res_bind].
  split; [cbn; unfold raw_entry at 2; cbn; by rewrite Nat2Z.id|]. cbn. by constructor.
Qed.

Lemma abs48_entries num keys ch m :
  abs48 num keys ch m -> forall b k, keys !! b = Some k ->
  match k with
  | O => m !! Z.of_nat b = None
  | S j => exists x, ch !! j = Some (Some x) /\ m !! Z.of_nat b = Some x
  end.
Proof.
  intros (Hlk & _ & _ & Hall & _) b k Hb. pose proof (lookup_lt_Some _ _ _ Hb).
  destruct (Hall (Z.of_nat b)) as (i & Hi & Hm); [apply byte_of_nat; lia|].
  rewrite Nat2Z.id, Hb in Hi. by injection Hi as <-.
Qed.

(** The facts on [byte_entries], for a list abstracted from its definition. *)
Lemma byte_entries_facts m :
  (forall c x, m !! c = Some x -> is_byte c) ->
  exists es, byte_entries m = es /\ StronglySorted Z.lt es.*1 /\ NoDup es.*1 /\ Forall is_byte es.*1 /\
    length es = size m /\ list_to_map es = m.
Proof.
  intros Hb. eexists. split_and!; [done|apply entries_from_sorted|apply sorted_NoDup, entries_from_sorted
    |apply byte_entries_bytes|by apply byte_entries_length|by apply byte_entries_map].
Qed.

Lemma abs256_present num ch m :
  abs256 num ch m -> present256 ch 0 = raw_entry <$> byte_entries m.
Proof.
  intros (Hl & _ & Hall). unfold byte_entries. rewrite <- Hl. apply present256_entries.
  intros j Hj. pose proof (Hall (Z.of_nat j) (byte_of_nat j ltac:(lia))) as Hj'.
  by rewrite Nat2Z.id in Hj'.
Qed.

Lemma abs48_present num keys ch m :
  abs48 num keys ch m ->
  present48 keys ch 0 = Ok (raw_entry <$> byte_entries m) /\
  Forall2 (fun j e => ch !! j = Some (Some e.2))
    (omap (fun k => match k with O => None | S j => Some j end) keys) (byte_entries m).
Proof.
  intros Ha. unfold byte_entries. rewrite <- (proj1 Ha).
  apply present48_entries. by eapply abs48_entries.
Qed.

(** The lemmas above are all the proofs need; unfolding the definition would
    evaluate 256 lookups. *)
#[global] Opaque byte_entries.

End ArtSpec.
