(* ===== verification/ArtShrink.v ===== *)
(** * Adaptive radix tree: removal of a child and traversal order

    The lemmas on [remove_child] (with the shrinking 256 -> 48 -> 16 -> 4 and
    the path recompression of a node left with one child), on the prefix a
    recompressed child gets, and on the slots a traversal visits, stated over
    the map [m] of [node_abs] like those of the insertion side. *)

From stdpp Require Import gmap sorting.
From S2P Require Import Prelude ArtNode ArtTree ArtNodeSpec.

Module ArtShrink.
Import Art ArtOps ArtSpec.

Lemma fill_ok {A} n (d : A) es :
  (length es <= n)%nat -> fill n d es = Ok (es ++ replicate (n - length es) d).
Proof. intros. unfold fill. by rewrite decide_True. Qed.

Lemma delete_bytes (m : gmap Z art_node) c :
  (forall c x, m !! c = Some x -> is_byte c) ->
  forall c' x', delete c m !! c' = Some x' -> is_byte c'.
Proof. intros Hb c' x' [_ ?]%lookup_delete_Some. by eapply Hb. Qed.

Lemma ordered_delete num k k' num' (m : gmap Z art_node) c :
  byte_sorted num' k' -> ordered num k m -> ordered num' k' (delete c m).
Proof. intros Hs [_ Ha]. split; [done|]. intros c' x [_ ?]%lookup_delete_Some. by eapply Ha. Qed.

Lemma size_delete (m : gmap Z art_node) c x :
  m !! c = Some x -> size (delete c m) = (size m - 1)%nat.
Proof. intros. rewrite map_size_delete_Some by (by exists x). lia. Qed.

Lemma decr_size n : (1 <= n <= 256)%nat -> ((n mod 256 + 255) mod 256)%nat = (n - 1)%nat.
Proof.
  intros Hn. rewrite Nat.Div0.add_mod_idemp_l.
  replace (n + 255)%nat with (n - 1 + 1 * 256)%nat by lia.
  rewrite Nat.Div0.mod_add. apply Nat.mod_small. lia.
Qed.

Lemma decr_children_small h n :
  num_children h = n -> (1 <= n < 256)%nat -> num_children (decr_children h) = (n - 1)%nat.
Proof.
  intros <- Hn. cbn [num_children decr_children]. rewrite <- (Nat.mod_small (num_children h) 256) at 1 by lia.
  apply decr_size. lia.
Qed.

(** ** Numbering the children of a fresh 48-node *)

Lemma number48_index nk keys i :
  number48 nk (Z.to_nat <$> drop i keys) i = index48 nk keys i (length keys - i).
Proof.
  remember (length keys - i)%nat as n eqn:Hn. revert nk i Hn.
  induction n as [|n IH]; intros nk i Hn; cbn [index48].
  { by rewrite drop_ge by lia. }
  destruct (lookup_lt_is_Some_2 keys i) as [k Hk]; [lia|].
  rewrite (rd_lookup _ _ _ Hk), (drop_S _ _ _ Hk). cbn [mbind res_bind fmap list_fmap number48].
  destruct (wr nk (Z.to_nat k) (i + 1)%nat) as [nk'|]; [|done]. cbn [mbind res_bind].
  apply IH. lia.
Qed.

Lemma number48_abs (es : list (Z * art_node)) :
  NoDup es.*1 -> Forall is_byte es.*1 -> (length es <= 48)%nat ->
  exists nk, number48 (replicate 256 0%nat) (Z.to_nat <$> es.*1) 0 = Ok nk /\
    abs48 (length es) nk ((Some <$> es.*2) ++ replicate (48 - length es) None) (list_to_map es).
Proof.
  intros Hnd Hby Hl. rewrite <- (drop_0 es.*1), number48_index.
  rewrite Nat.sub_0_r.
  destruct (index48_spec es.*1 (replicate 256 0%nat) 0 (length es.*1)) as (nk & -> & Hlnk & Hset & Hother).
  { by rewrite length_replicate. }
  { lia. }
  { intros j c _ Hc. by eapply Forall_lookup_1. }
  { intros j j' c _ _ Hc Hc'. by eapply NoDup_lookup. }
  exists nk. split; [done|]. apply numbered_abs48; [done..| | | |].
  - rewrite length_app, !length_fmap, length_replicate. lia.
  - intros j c x Hj. apply Hset; [apply lookup_lt_Some in Hj; rewrite length_fmap; lia|].
    by rewrite list_lookup_fmap, Hj.
  - intros b Hb Hb256. rewrite Hother; [by rewrite lookup_replicate_2|].
    intros j c _ Hc. apply Hb. by eapply list_elem_of_lookup_2.
  - intros j x. apply filled_children.
Qed.

(** ** Removal from the large layouts *)

Lemma raw_entries (es : list (Z * art_node)) :
  (raw_entry <$> es).*1 = Z.to_nat <$> es.*1 /\ (raw_entry <$> es).*2 = Some <$> es.*2.
Proof. rewrite <- !list_fmap_compose. done. Qed.

Lemma raw_entries_bytes (es : list (Z * art_node)) :
  Forall is_byte es.*1 -> Z.of_nat <$> (raw_entry <$> es).*1 = es.*1.
Proof.
  intros Hb. destruct (raw_entries es) as [-> _]. rewrite <- list_fmap_compose.
  rewrite <- (list_fmap_id es.*1) at 2. apply list_fmap_ext. intros i c Hc.
  cbn. eapply Forall_lookup_1 in Hc; [|done]. by destruct (byte_to_nat c Hc).
Qed.

Lemma remove_child256_spec s h ch m c x :
  node_abs s h NODE256 ch m -> fanout_ok NODE256 m -> m !! c = Some x ->
  exists h' k' ch', remove_child256 h ch c = Ok (Inner h' k' ch') /\
    node_abs s h' k' ch' (delete c m) /\ same_prefix h h' /\ fanout_ok k' (delete c m).
Proof.
  intros [Hp Hb Ho (Hlc & Hsz & Hall)] Hf Hm. cbn [fanout_ok] in Hf.
  destruct (byte_to_nat c (Hb _ _ Hm)) as [Hcn Hcz]. pose proof (size_delete m c x Hm) as Hsd.
  unfold remove_child256. rewrite wr_lt by lia. cbn [mbind res_bind].
  assert (num_children (decr_children h) = size (delete c m)) as Hn.
  { cbn [num_children decr_children]. rewrite Hsz, decr_size; lia. }
  assert (abs256 (num_children (decr_children h)) (<[Z.to_nat c := None]> ch) (delete c m)) as Ha.
  { split_and!; [by rewrite length_insert|rewrite Nat.mod_small; lia|]. intros c' Hc'.
    destruct (byte_to_nat c' Hc'). destruct (decide (c = c')) as [<-|Hne].
    - by rewrite lookup_delete_eq, list_lookup_insert_eq by lia.
    - by rewrite lookup_delete_ne, list_lookup_insert_ne, Hall by (done || lia). }
  assert (forall c' x', delete c m !! c' = Some x' -> is_byte c') as Hb' by by apply delete_bytes.
  destruct (Nat.eqb_spec (num_children (decr_children h)) 37) as [H37|H37].
  - cbn [alloc_node]. destruct (copy_header_spec (decr_children h)) as (h' & -> & Hpre & Hp' & Hn'); [done|].
    cbn [mbind res_bind]. rewrite (abs256_present _ _ _ Ha).
    destruct (byte_entries_facts _ Hb') as (es & -> & Hss & Hnd & Hby & Hle & Hmap).
    destruct (raw_entries es) as [-> ->].
    rewrite fill_ok by (rewrite !length_fmap; lia). cbn [mbind res_bind].
    destruct (number48_abs es) as (nk & -> & Ha48); [done|done|lia|].
    cbn [mbind res_bind]. eexists _, _, _. split; [done|cbv iota].
    split_and!; [split; [done..|by intros Ht; eapply ordered_delete; [|apply Ho]|]|done|cbn [fanout_ok]; lia].
    cbn [kind_abs]. rewrite Hn', H37, !length_fmap.
    rewrite Hle, <- Hn, H37, Hmap in Ha48. by rewrite Hle, <- Hn, H37.
  - eexists _, _, _. split; [done|cbv iota]. split_and!; [split; [done..|by intros Ht; eapply ordered_delete; [|apply Ho]|]|done|cbn [fanout_ok]; lia].
    exact Ha.
Qed.

Lemma abs48_delete num keys ch m c x j :
  abs48 num keys ch m -> is_byte c -> m !! c = Some x -> keys !! Z.to_nat c = Some (S j) ->
  abs48 (num - 1) (<[Z.to_nat c := 0%nat]> keys) (<[j := None]> ch) (delete c m).
Proof.
  intros Ha Hc Hm Hj. pose proof Ha as (Hlk & Hlc & Hsz & Hall & Hinj & Hsur).
  destruct (byte_to_nat c Hc). destruct (abs48_ptr _ _ _ _ _ _ Ha Hj) as (y & Hy & _).
  pose proof (lookup_lt_Some _ _ _ Hy).
  split_and!; [by rewrite length_insert..|rewrite (size_delete m c x) by done; lia| | |].
  - intros c' Hc'. destruct (byte_to_nat c' Hc'). destruct (decide (c = c')) as [<-|Hne].
    + exists O. rewrite list_lookup_insert_eq, lookup_delete_eq by lia. done.
    + destruct (Hall c' Hc') as (i & Hi & Hmi). exists i.
      rewrite list_lookup_insert_ne, lookup_delete_ne by (done || lia). split; [done|].
      destruct i as [|j']; [done|]. destruct Hmi as (z & Hz & ?). exists z. split; [|done].
      rewrite list_lookup_insert_ne; [done|]. intros <-. by apply Hne, (Hinj c c' j).
  - intros c1 c2 j' Hb1 Hb2 [(? & ? & _)|[_ Hl1]]%list_lookup_insert_Some
      [(? & ? & _)|[_ Hl2]]%list_lookup_insert_Some; [done..|]. by eapply Hinj.
  - intros j' z [(? & ? & _)|[Hne Hl]]%list_lookup_insert_Some; [done|].
    destruct (Hsur j' z Hl) as (c' & Hc' & Hk'). exists c'. split; [done|].
    rewrite list_lookup_insert_ne; [done|]. intros Heq. rewrite <- Heq in Hk'. congruence.
Qed.

Lemma fill_pairs (es : list (Z * art_node)) cap num :
  NoDup es.*1 -> length es = num -> (num <= cap)%nat ->
  exists nk nch, fill cap 0 es.*1 = Ok nk /\ fill cap None (Some <$> es.*2) = Ok nch /\
    small_abs cap num nk nch (list_to_map es) /\ take num nk = es.*1.
Proof.
  intros Hnd <- Hn. rewrite !fill_ok by (rewrite !length_fmap; lia).
  assert (take (length es) (es.*1 ++ replicate (cap - length es.*1) 0) = es.*1) as Htk.
  { by rewrite take_app_length' by (by rewrite length_fmap). }
  eexists _, _. split_and!; [done..| |done].
  split_and!; [rewrite length_app, !length_fmap, length_replicate; lia..|].
  exists es. split_and!; [split_and!|done..]; [done| |done].
  rewrite take_app_length'; rewrite ?length_fmap; done.
Qed.

Lemma shrink48_abs num keys ch m :
  abs48 num keys ch m -> (forall c x, m !! c = Some x -> is_byte c) -> (num <= 16)%nat ->
  exists es nk nch, present48 keys ch 0 = Ok es /\ fill 16 0 (Z.of_nat <$> es.*1) = Ok nk /\
    fill 16 None es.*2 = Ok nch /\ small_abs 16 num nk nch m /\ StronglySorted Z.lt (take num nk).
Proof.
  intros Ha Hb Hn. destruct (abs48_present _ _ _ _ Ha) as [-> _].
  destruct (byte_entries_facts _ Hb) as (es & -> & Hss & Hnd & Hby & Hle & <-).
  destruct (fill_pairs es 16 num) as (nk & nch & H1 & H2 & H3 & H4); [done| |done|].
  { rewrite Hle. symmetry. apply Ha. }
  exists (raw_entry <$> es), nk, nch. rewrite raw_entries_bytes by done.
  destruct (raw_entries es) as [_ ->]. by rewrite H4.
Qed.

Lemma remove_child48_spec s h keys ch m c x :
  node_abs s h (NODE48 keys) ch m -> fanout_ok (NODE48 keys) m -> m !! c = Some x ->
  exists h' k' ch', remove_child48 h keys ch c = Ok (Inner h' k' ch') /\
    node_abs s h' k' ch' (delete c m) /\ same_prefix h h' /\ fanout_ok k' (delete c m).
Proof.
  intros [Hp Hb Ho Ha] Hf Hm. cbn [kind_abs fanout_ok] in *.
  pose proof Ha as (Hlk & Hlc & Hsz & Hall & _). pose proof (Hb _ _ Hm) as Hc.
  destruct (byte_to_nat c Hc). pose proof (size_delete m c x Hm) as Hsd.
  destruct (Hall c Hc) as ([|j] & Hj & Hmj); [congruence|]. destruct Hmj as (y & Hy & _).
  unfold remove_child48. rewrite (rd_lookup _ _ _ Hj). cbn [mbind res_bind].
  rewrite (wr_lt keys) by lia. cbn [mbind res_bind].
  pose proof (lookup_lt_Some _ _ _ Hy). rewrite (wr_lt ch) by done. cbn [mbind res_bind].
  pose proof (decr_children_small h _ eq_refl ltac:(lia)) as Hn.
  pose proof (abs48_delete _ _ _ _ _ _ _ Ha Hc Hm Hj) as Ha'.
  assert (forall c' x', delete c m !! c' = Some x' -> is_byte c') as Hb' by by apply delete_bytes.
  destruct (Nat.eqb_spec (num_children (decr_children h)) 12) as [H12|H12].
  - cbn [alloc_node]. destruct (copy_header_spec (decr_children h)) as (h' & -> & Hpre & Hp' & Hn'); [done|].
    cbn [mbind res_bind].
    destruct (shrink48_abs _ _ _ _ Ha' Hb') as (es & nk & nch & -> & E1 & E2 & Hs & Hso); [lia|].
    cbn [mbind res_bind]. rewrite E1. cbn [mbind res_bind]. rewrite E2. cbn [mbind res_bind].
    eexists _, _, _. split; [done|cbv iota].
    split_and!; [split; [done..| |]|done|cbn [fanout_ok]; lia]; cbn [kind_abs]; rewrite Hn', Hn; [|done].
    intros Ht. eapply ordered_delete, Ho, Ht. exact Hso.
  - eexists _, _, _. split; [done|cbv iota].
    split_and!; [split; [done..|by intros Ht; eapply ordered_delete; [|apply Ho]|]|done|cbn [fanout_ok]; lia].
    cbn [kind_abs]. by rewrite Hn.
Qed.

(** ** Removal from the sorted layouts *)

Lemma remove_at_abs cap h keys ch m pos c x :
  small_abs cap (num_children h) keys ch m -> (pos < num_children h)%nat ->
  keys !! pos = Some c -> m !! c = Some x ->
  exists keys' ch', remove_at h keys ch pos = Ok (keys', ch') /\
    small_abs cap (num_children h - 1) keys' ch' (delete c m) /\
    take (num_children h - 1) keys' = delete pos (take (num_children h) keys).
Proof.
  intros (Hlk & Hlc & es & Hpairs & Hnd & ->) Hpos Hkey Hm.
  destruct (pairs_length _ _ _ _ Hpairs).
  destruct (pairs_key _ _ _ _ _ _ Hpairs Hpos Hkey) as [y Hy].
  destruct Hpairs as (Hk1 & Hk2 & Hk3).
  destruct (shift_remove keys pos (num_children h)) as (keys' & Ek & Hlk' & Htk); [lia..|].
  destruct (shift_remove ch pos (num_children h)) as (ch' & Ec & Hlc' & Htc); [lia..|].
  unfold remove_at. rewrite Ek. cbn [mbind res_bind]. rewrite Ec. cbn [mbind res_bind].
  eexists _, _. split_and!; [done| |done]. destruct (es_delete es pos c y) as (Hnd' & _ & _ & <-); [done..|].
  split_and!; [lia..|]. exists (delete pos es). split_and!; [split_and!|done..].
  - by rewrite Htk, Hk1, list_fmap_delete.
  - by rewrite Htc, Hk2, !list_fmap_delete.
  - rewrite length_delete by (by exists (c, y)). lia.
Qed.

Lemma small_abs_shrink cap cap' num keys ch m :
  small_abs cap num keys ch m -> (num <= cap' <= cap)%nat ->
  small_abs cap' num (take cap' keys) (take cap' ch) m.
Proof.
  intros (Hlk & Hlc & es & (Hk1 & Hk2 & Hk3) & Hnd & ->) Hn.
  split_and!; [rewrite length_take; lia..|]. exists es.
  split_and!; [split_and!|done..]; [| |done];
    rewrite take_take, Nat.min_l by lia; done.
Qed.

Lemma remove_child16_spec s h keys ch m c x pos :
  node_abs s h (NODE16 keys) ch m -> fanout_ok (NODE16 keys) m -> m !! c = Some x ->
  (pos < num_children h)%nat -> keys !! pos = Some c ->
  exists h' k' ch', remove_child16 h keys ch pos = Ok (Inner h' k' ch') /\
    node_abs s h' k' ch' (delete c m) /\ same_prefix h h' /\ fanout_ok k' (delete c m).
Proof.
  intros [Hp Hb Ho Hs] Hf Hm Hpos Hkey. cbn [kind_abs fanout_ok] in *.
  destruct (small_abs_size _ _ _ _ _ Hs) as [Hsz Hcap]. pose proof (size_delete m c x Hm) as Hsd.
  destruct (remove_at_abs 16 h keys ch m pos c x) as (keys' & ch' & E & Hs' & Htk); [done..|].
  unfold remove_child16. rewrite E. cbn [mbind res_bind].
  pose proof (decr_children_small h _ eq_refl ltac:(lia)) as Hn.
  pose proof (delete_bytes m c Hb) as Hb'. pose proof Hs' as (Hlk & Hlc & _).
  assert (s = true -> StronglySorted Z.lt (take (num_children h - 1) keys')) as Hso.
  { intros Ht. rewrite Htk. by apply delete_sorted, Ho. }
  destruct (Nat.eqb_spec (num_children (decr_children h)) 3) as [H3|H3].
  - cbn [alloc_node]. destruct (copy_header_spec (decr_children h)) as (h' & -> & Hpre & Hp' & Hn'); [done|].
    cbn [mbind res_bind].
    rewrite !memcpy_ok by (rewrite ?length_replicate; lia). cbn [mbind res_bind].
    rewrite !take_0, !drop_0, !app_nil_l, !Nat.add_0_l, !drop_ge, !app_nil_r by (by rewrite length_replicate).
    eexists _, _, _. split; [done|cbv iota].
    split_and!; [split; [done..| |]|done|cbn [fanout_ok]; lia]; cbn [kind_abs]; rewrite Hn', Hn.
    + intros Ht. eapply ordered_delete, Ho, Ht. cbn [byte_sorted].
      rewrite take_take, Nat.min_l by lia. by apply Hso.
    + eapply small_abs_shrink; [done|lia].
  - eexists _, _, _. split; [done|cbv iota].
    split_and!; [split; [done..| |]|done|cbn [fanout_ok]; lia]; cbn [kind_abs]; rewrite Hn; [|done].
    intros Ht. eapply ordered_delete, Ho, Ht. by apply Hso.
Qed.

(** ** Path recompression *)

(** The node's compressed path is [q]; the header keeps its first ten bytes. *)
Definition prefix_is (h : art_hdr) (q : list Z) : Prop :=
  partial_len h = length q /\ stored h = take MAX_PREFIX_LEN q.

Lemma prefix_is_stored h q n :
  prefix_is h q -> (n <= MAX_PREFIX_LEN)%nat -> (n <= length q)%nat -> take n (partial h) = take n q.
Proof.
  intros [Hl Hs] Hn Hq. unfold stored in Hs. apply (f_equal (take n)) in Hs.
  by rewrite !take_take, !Nat.min_l in Hs by lia.
Qed.

Lemma prefix_is_intro h q :
  partial_len h = length q ->
  take (Nat.min MAX_PREFIX_LEN (length q)) (partial h) = take (Nat.min MAX_PREFIX_LEN (length q)) q ->
  prefix_is h q.
Proof.
  intros Hl Ht. split; [done|]. unfold stored. rewrite Hl, Ht.
  by rewrite <- take_take, firstn_all.
Qed.

Lemma same_prefix_is h h' q : same_prefix h h' -> prefix_is h q -> prefix_is h' q.
Proof. intros [H1 H2] [H3 H4]. split; congruence. Qed.

(** The prefix buffer [concat_prefix] builds before it copies it to the child. *)
Lemma concat_buffer n key0 child q qc :
  length (partial n) = MAX_PREFIX_LEN -> length (partial child) = MAX_PREFIX_LEN ->
  prefix_is n q -> prefix_is child qc -> (length q < MAX_PREFIX_LEN)%nat ->
  let sub := Nat.min (length qc) (MAX_PREFIX_LEN - (length q + 1)) in
  exists buf, memcpy (<[length q := key0]> (partial n)) (length q + 1) (partial child) 0 sub = Ok buf /\
    length buf = MAX_PREFIX_LEN /\ take (length q + 1 + sub) buf = take (length q + 1 + sub) (q ++ key0 :: qc).
Proof.
  intros Hln Hlc Hq Hqc Hlt sub.
  rewrite memcpy_ok by (rewrite ?length_insert; unfold sub; lia).
  eexists. split_and!; [done| |].
  { rewrite !length_app, !length_take, !length_drop, length_insert. unfold sub. lia. }
  assert (take (length q + 1) (<[length q := key0]> (partial n)) = q ++ [key0]) as ->.
  { rewrite Nat.add_1_r, (take_S_r _ _ key0) by (apply list_lookup_insert_eq; lia).
    rewrite take_insert_ge by lia. rewrite (prefix_is_stored n q) by (done || lia).
    by rewrite firstn_all. }
  rewrite drop_0, (prefix_is_stored child qc) by (done || (unfold sub; lia)).
  rewrite app_assoc, take_app_le by (rewrite !length_app, length_take; cbn; unfold sub; lia).
  replace (q ++ key0 :: qc) with ((q ++ [key0]) ++ qc) by (by rewrite <- app_assoc).
  assert (length (q ++ [key0]) = (length q + 1)%nat) as Hl by (by rewrite length_app).
  rewrite !take_app, Hl, take_take. f_equal. f_equal. lia.
Qed.

Lemma concat_prefix_spec n key0 child q qc :
  length (partial n) = MAX_PREFIX_LEN -> length (partial child) = MAX_PREFIX_LEN ->
  prefix_is n q -> prefix_is child qc ->
  exists h', concat_prefix n key0 child = Ok h' /\ prefix_is h' (q ++ key0 :: qc) /\
    length (partial h') = MAX_PREFIX_LEN /\ num_children h' = num_children child.
Proof.
  intros Hln Hlc Hq Hqc. pose proof Hq as [Hpn _]. pose proof Hqc as [Hpc _].
  assert (forall buf p, length buf = MAX_PREFIX_LEN ->
    Nat.min p MAX_PREFIX_LEN = Nat.min MAX_PREFIX_LEN (length q + S (length qc)) ->
    take (Nat.min p MAX_PREFIX_LEN) buf = take (Nat.min p MAX_PREFIX_LEN) (q ++ key0 :: qc) ->
    exists h', (p' ← memcpy (partial child) 0 buf 0 (Nat.min p MAX_PREFIX_LEN);
        Ok (MkHdr (num_children child) (partial_len child + partial_len n + 1) p')) = Ok h' /\
      prefix_is h' (q ++ key0 :: qc) /\ length (partial h') = MAX_PREFIX_LEN /\
      num_children h' = num_children child) as Hcopy.
  { intros buf p Hlb Hp Htk. rewrite memcpy_ok by lia. eexists. split; [done|]. cbn [partial num_children].
    split_and!; [apply prefix_is_intro; cbn [partial_len partial]| |done].
    - rewrite length_app. cbn. lia.
    - rewrite length_app. cbn [length]. rewrite <- Hp, take_0, drop_0, app_nil_l, Htk.
      rewrite take_app_le by (rewrite length_take, length_app; cbn [length]; lia).
      by rewrite take_take, Nat.min_id.
    - rewrite !length_app, !length_take, !length_drop. lia. }
  unfold concat_prefix. rewrite Hpn, Hpc.
  destruct (Nat.ltb_spec (length q) MAX_PREFIX_LEN) as [Hlt|Hge].
  - rewrite wr_lt by lia. cbn [mbind res_bind].
    destruct (Nat.ltb_spec (length q + 1) MAX_PREFIX_LEN) as [Hlt'|Hge'].
    + destruct (concat_buffer n key0 child q qc) as (buf & -> & Hlb & Htk); [done..|].
      cbn [mbind res_bind]. rewrite <- Hpn, <- Hpc. apply Hcopy; [done|lia|].
      by rewrite Nat.min_l, Hpc, Hpn by lia.
    + cbn [mbind res_bind]. rewrite <- Hpn, <- Hpc.
      apply Hcopy; [by rewrite length_insert|lia|]. rewrite Hpn, Nat.min_l by lia.
      rewrite Nat.add_1_r, (take_S_r _ _ key0), (take_S_r _ _ key0);
        [|by apply list_lookup_middle|apply list_lookup_insert_eq; lia].
      rewrite take_insert_ge, (prefix_is_stored n q) by (done || lia).
      by rewrite take_app_length, firstn_all.
  - cbn [mbind res_bind]. rewrite (proj2 (Nat.ltb_ge _ _) Hge). cbn [mbind res_bind].
    rewrite <- Hpn, <- Hpc. apply Hcopy; [done|lia|].
    rewrite Hpn, Nat.min_r by lia. rewrite take_app_le by lia. by apply prefix_is_stored.
Qed.

(** What a node left with the children [m'] becomes: a node for [m'], or, when
    one child is left, that child with the path to it put in front of its own. *)
Inductive shrunk (s : bool) (h : art_hdr) (m' : gmap Z art_node) : art_node -> Prop :=
| shrunk_node h' k' ch' :
    node_abs s h' k' ch' m' -> same_prefix h h' -> fanout_ok k' m' -> shrunk s h m' (Inner h' k' ch')
| shrunk_leaf c l : m' = {[ c := Leaf l ]} -> shrunk s h m' (Leaf l)
| shrunk_inner c ch ck cc ch' :
    m' = {[ c := Inner ch ck cc ]} ->
    (forall q qc, prefix_is h q -> prefix_is ch qc -> length (partial ch) = MAX_PREFIX_LEN ->
       prefix_is ch' (q ++ c :: qc) /\ length (partial ch') = MAX_PREFIX_LEN /\
       num_children ch' = num_children ch) ->
    shrunk s h m' (Inner ch' ck cc).

Lemma small_abs_single cap keys ch m :
  small_abs cap 1 keys ch m ->
  exists c x, keys !! O = Some c /\ ch !! O = Some (Some x) /\ m = {[ c := x ]}.
Proof.
  intros (Hlk & Hlc & es & Hpairs & Hnd & ->). pose proof Hpairs as (_ & _ & Hl).
  destruct es as [|[c x] [|]]; [done| |done]. exists c, x.
  destruct (pairs_lookup _ _ _ _ O c x Hpairs) as (? & ? & _); done.
Qed.

Lemma remove_child4_spec s h keys ch m c x pos :
  node_abs s h (NODE4 keys) ch m -> fanout_ok (NODE4 keys) m -> m !! c = Some x ->
  (pos < num_children h)%nat -> keys !! pos = Some c ->
  (forall c' ch ck cc, m !! c' = Some (Inner ch ck cc) ->
     length (partial ch) = MAX_PREFIX_LEN /\ exists qc, prefix_is ch qc) ->
  (exists q, prefix_is h q) ->
  exists n', remove_child4 h keys ch pos = Ok n' /\ shrunk s h (delete c m) n'.
Proof.
  intros [Hp Hb Ho Hs] Hf Hm Hpos Hkey Hin [q Hq]. cbn [kind_abs fanout_ok] in *.
  destruct (small_abs_size _ _ _ _ _ Hs) as [Hsz Hcap]. pose proof (size_delete m c x Hm) as Hsd.
  destruct (remove_at_abs 4 h keys ch m pos c x) as (keys' & ch' & E & Hs' & Htk); [done..|].
  unfold remove_child4. rewrite E. cbn [mbind res_bind].
  pose proof (decr_children_small h _ eq_refl ltac:(lia)) as Hn.
  pose proof (delete_bytes m c Hb) as Hb'.
  destruct (Nat.eqb_spec (num_children (decr_children h)) 1) as [H1|H1]; cycle 1.
  { eexists. split; [done|]. apply shrunk_node; [split; [done..| |]|done|cbn [fanout_ok]; lia];
      cbn [kind_abs]; rewrite Hn; [|done].
    intros Ht. eapply ordered_delete, Ho, Ht. cbn [byte_sorted]. rewrite Htk. by apply delete_sorted, Ho. }
  rewrite <- Hn, H1 in Hs'. destruct (small_abs_single _ _ _ _ Hs') as (c0 & x0 & Hk0 & Hc0 & Hm0).
  rewrite (rd_lookup _ _ _ Hc0). cbn [mbind res_bind].
  destruct x0 as [l|ch0 ck0 cc0]; [eexists; split; [done|by eapply shrunk_leaf]|].
  rewrite (rd_lookup _ _ _ Hk0). cbn [mbind res_bind].
  destruct (Hin c0 ch0 ck0 cc0) as [Hl0 [qc Hqc]].
  { assert (delete c m !! c0 = Some (Inner ch0 ck0 cc0)) as E0 by (by rewrite Hm0, lookup_singleton_eq).
    by apply lookup_delete_Some in E0 as [_ ?]. }
  destruct (concat_prefix_spec (decr_children h) c0 ch0 q qc) as (h' & -> & Hpre & Hl' & Hn'); [done..|].
  eexists. split; [done|]. eapply shrunk_inner; [done|]. intros q' qc' [Hq1 Hq2] [Hqc1 Hqc2] _.
  split; [|done]. destruct Hpre as [Hpl Hst], Hq as [Hq3 Hq4], Hqc as [Hqc3 Hqc4].
  split; [rewrite Hpl, !length_app; cbn; lia|]. rewrite Hst, !take_app. f_equal; [congruence|].
  replace (length q') with (length q) by lia.
  destruct (MAX_PREFIX_LEN - length q)%nat as [|n] eqn:En; [done|]. cbn. f_equal.
  assert (n <= MAX_PREFIX_LEN)%nat by lia.
  rewrite <- (Nat.min_l n MAX_PREFIX_LEN), <- !take_take by lia. congruence.
Qed.

(** Removing the child of byte [c], whatever the layout. *)
Lemma remove_child_spec s h k ch m c x pos :
  node_abs s h k ch m -> fanout_ok k m -> m !! c = Some x -> slot_of (num_children h) k c pos ->
  (forall c' ch ck cc, m !! c' = Some (Inner ch ck cc) ->
     length (partial ch) = MAX_PREFIX_LEN /\ exists qc, prefix_is ch qc) ->
  (exists q, prefix_is h q) ->
  exists n', remove_child h k ch c pos = Ok n' /\ shrunk s h (delete c m) n'.
Proof.
  intros Hna Hf Hm Hs Hin Hq. destruct k as [keys|keys|keys|]; cbn [remove_child slot_of] in *.
  - destruct Hs. by eapply remove_child4_spec.
  - destruct Hs, (remove_child16_spec s h keys ch m c x pos) as (? & ? & ? & -> & ? & ? & ?); [done..|].
    eexists. split; [done|]. by apply shrunk_node.
  - destruct (remove_child48_spec s h keys ch m c x) as (? & ? & ? & -> & ? & ? & ?); [done..|].
    eexists. split; [done|]. by apply shrunk_node.
  - destruct (remove_child256_spec s h ch m c x) as (? & ? & ? & -> & ? & ? & ?); [done..|].
    eexists. split; [done|]. by apply shrunk_node.
Qed.

(** ** A fresh node with two children *)

Lemma new_node4_spec plen src off :
  (off + Nat.min MAX_PREFIX_LEN plen <= length src)%nat ->
  exists h, new_node4 plen src off = Ok h /\ num_children h = 0%nat /\ partial_len h = plen /\
    length (partial h) = MAX_PREFIX_LEN /\ stored h = take (Nat.min MAX_PREFIX_LEN plen) (drop off src).
Proof.
  intros Hl. unfold new_node4.
  rewrite memcpy_ok by (cbn [partial hdr0]; rewrite ?length_replicate; lia). eexists. split; [done|].
  cbn [num_children partial_len partial hdr0]. split_and!; [done..| |].
  - rewrite !length_app, !length_take, !length_drop, length_replicate. lia.
  - unfold stored. cbn [partial partial_len]. rewrite take_0, app_nil_l.
    rewrite take_app_le by (rewrite length_take, length_drop; lia). by rewrite take_take, Nat.min_id.
Qed.

Lemma add_two_spec s h c1 n1 c2 n2 :
  num_children h = 0%nat -> length (partial h) = MAX_PREFIX_LEN ->
  is_byte c1 -> is_byte c2 -> (s = true -> ascii_byte c1 /\ ascii_byte c2) -> c1 <> c2 ->
  exists h' k ch, add_two h c1 n1 c2 n2 = Ok (Inner h' k ch) /\
    node_abs s h' k ch (<[c2 := n2]> {[ c1 := n1 ]}) /\ same_prefix h h' /\
    fanout_ok k (<[c2 := n2]> {[ c1 := n1 ]}).
Proof.
  intros Hn Hp H1 H2 Hasc Hne. unfold add_two. cbn [alloc_node].
  assert (node_abs s h (NODE4 (replicate 4 0)) (replicate 4 None) ∅) as H0.
  { split; [done|by intros| |]; [intros _; split; [cbn; rewrite Hn; constructor|by intros]|]. cbn [kind_abs]. rewrite Hn. split_and!; [done..|]. exists []. split_and!; [done|constructor|done]. }
  destruct (add_child4_spec s h _ _ ∅ c1 n1 H0) as (h' & k' & ch' & -> & Ha & Hpre & Hk'); [done|by apply Hasc|done|].
  cbn [mbind res_bind]. rewrite Hn in Hk'.
  destruct k' as [keys'|keys'|keys'|]; [|lia|done..]. destruct Hk' as (_ & Hn' & _).
  destruct (add_child4_spec s h' _ _ _ c2 n2 Ha) as (h2 & k2 & ch2 & -> & Ha2 & Hpre2 & Hk2);
    [done|by apply Hasc|by rewrite lookup_insert_ne|].
  rewrite insert_empty in Ha2. eexists _, _, _. split_and!; [done|done|by etrans|].
  assert (size (<[c2 := n2]> {[ c1 := n1 ]} : gmap Z art_node) = 2%nat) as Hsz.
  { rewrite map_size_insert_None, map_size_singleton; [done|by rewrite lookup_singleton_ne]. }
  destruct k2; cbn [fanout_ok]; [lia|lia|done..].
Qed.

(** ** Traversal *)

(** The slots visited hold the children of [m], each exactly once. *)
Lemma slots_spec s h k ch m :
  node_abs s h k ch m ->
  exists es, Forall2 (fun i e => ch !! i = Some (Some e.2)) (slots h k ch) es /\
    NoDup es.*1 /\ list_to_map es = m /\ (s = true -> StronglySorted Z.lt es.*1).
Proof.
  intros [_ Hb Ho Hk]. destruct k as [keys|keys|keys|]; cbn [slots kind_abs] in *.
  1,2: destruct Hk as (_ & _ & es & Hpairs & Hnd & ->); exists es; pose proof Hpairs as (Hk1 & _ & Hl);
    (split_and!; [|done..|by intros Ht; rewrite <- Hk1; apply Ho]); apply Forall2_same_length_lookup; rewrite length_seq;
    split; [done|intros i j [c x] [-> _]%lookup_seq He; by eapply pairs_lookup].
  - destruct (abs48_present _ _ _ _ Hk) as [_ Hf].
    destruct (byte_entries_facts _ Hb) as (es & E & Hss & Hnd & Hby & Hle & Hmap). rewrite E in Hf.
    by exists es.
  - rewrite (abs256_present _ _ _ Hk).
    destruct (byte_entries_facts _ Hb) as (es & -> & Hss & Hnd & Hby & Hle & Hmap).
    exists es. split_and!; [|done..]. destruct (raw_entries es) as [-> _].
    rewrite !Forall2_fmap_l. apply Forall_Forall2_diag, list.Forall_forall. intros [c x] Hin.
    destruct Hk as (_ & _ & Hall). cbn. rewrite Hall.
    + f_equal. rewrite <- Hmap. by apply elem_of_list_to_map_1.
    + rewrite list.Forall_forall in Hby. apply Hby, list_elem_of_fmap. by exists (c, x).
Qed.

(** A search of an array that contains a cell satisfying [f] finds the first
    one, or the last one. *)
Lemma first_set_some {A} (f : A -> bool) (a : list A) j y :
  a !! j = Some y -> f y = true ->
  exists i x, first_set f a 0 = Ok i /\ a !! i = Some x /\ f x = true /\
    Forall (fun y => f y = false) (take i a).
Proof.
  intros Hj Hf. pose proof (first_set_spec f a 0) as Hs. destruct (first_set f a 0) as [i|e].
  - destruct Hs as (x & _ & Hx & Hfx & Hlt). rewrite Nat.sub_0_r in Hx, Hlt. exists i, x.
    split_and!; [done..|]. apply Forall_lookup_2. intros j' y' [Hj' ?]%lookup_take_Some. by eapply Hlt.
  - destruct Hs as [_ Hno]. by rewrite (Hno _ _ Hj) in Hf.
Qed.

Lemma last_set_some {A} (f : A -> bool) (a : list A) j y :
  a !! j = Some y -> f y = true ->
  exists i x, last_set f a = Ok i /\ a !! i = Some x /\ f x = true /\
    Forall (fun y => f y = false) (drop (S i) a).
Proof.
  intros Hj Hf. pose proof (lookup_lt_Some _ _ _ Hj).
  destruct (first_set_some f (reverse a) (length a - 1 - j) y) as (i & x & Hi & Hx & Hfx & Hlt); [|done|].
  { rewrite reverse_lookup by lia. replace (length a - S (length a - 1 - j))%nat with j by lia. done. }
  apply reverse_lookup_Some in Hx as [Hx ?].
  unfold last_set. rewrite Hi. cbn [mbind res_bind]. eexists _, x.
  replace (length a - 1 - i)%nat with (length a - S i)%nat by lia. split_and!; [done..|].
  apply list.Forall_forall. intros z (n & Hn)%list_elem_of_lookup. rewrite lookup_drop in Hn.
  rewrite list.Forall_forall in Hlt. apply Hlt. apply list_elem_of_lookup.
  pose proof (lookup_lt_Some _ _ _ Hn). exists (length a - S (S (length a - S i) + n))%nat.
  rewrite lookup_take_lt by lia. rewrite reverse_lookup by lia. rewrite <- Hn. f_equal. lia.
Qed.

(** The first and the last slot of a layout whose slots are read off an array
    from left to right. *)
Lemma extremal_omap {A B} (g : A -> option B) (f : A -> bool) (a : list A) i x b :
  (forall y, f y = false -> g y = None) -> a !! i = Some x -> g x = Some b ->
  (Forall (fun y => f y = false) (take i a) -> head (omap g a) = Some b) /\
  (Forall (fun y => f y = false) (drop (S i) a) -> list.last (omap g a) = Some b).
Proof.
  intros Hf Hx Hg. assert (forall l, Forall (fun y => f y = false) l -> omap g l = []) as Hnil.
  { induction 1 as [|y l Hy _ IH]; [done|]. cbn. by rewrite (Hf y Hy). }
  rewrite <- (take_drop_middle _ _ _ Hx) at 2 4. rewrite omap_app. cbn. rewrite Hg.
  split; intros Hall; rewrite (Hnil _ Hall); [done|]. apply last_snoc.
Qed.

Lemma present256_app a b i : present256 (a ++ b) i = present256 a i ++ present256 b (i + length a).
Proof.
  revert i. induction a as [|q a IH]; intros i; cbn [app present256 length]; [by rewrite Nat.add_0_r|].
  rewrite IH, <- Nat.add_succ_comm. by destruct q.
Qed.

Lemma present256_nil a i : Forall (fun q => nonnull q = false) a -> present256 a i = [].
Proof. intros Ha. revert i. induction Ha as [|[q|] a Hq _ IH]; intros i; [done..|]. apply IH. Qed.

Lemma extremal_present256 ch i q :
  ch !! i = Some q -> nonnull q = true ->
  (Forall (fun y => nonnull y = false) (take i ch) -> head (present256 ch 0).*1 = Some i) /\
  (Forall (fun y => nonnull y = false) (drop (S i) ch) -> list.last (present256 ch 0).*1 = Some i).
Proof.
  intros Hi Hq. destruct q as [x|]; [|done]. pose proof (lookup_lt_Some _ _ _ Hi) as Hl.
  rewrite <- (take_drop_middle _ _ _ Hi) at 2 4. rewrite present256_app, length_take. cbn [present256].
  rewrite Nat.min_l, Nat.add_0_l by lia.
  split; intros Hall; rewrite (present256_nil _ _ Hall); [done|]. rewrite fmap_app. apply last_snoc.
Qed.

(** The routines that pick the first and the last child pick the first and the
    last slot of the traversal. *)
Lemma extremal_slots s h k ch m :
  node_abs s h k ch m -> fanout_ok k m ->
  (exists i, first_slot h k ch = Ok i /\ head (slots h k ch) = Some i) /\
  (exists i, last_slot h k ch = Ok i /\ list.last (slots h k ch) = Some i).
Proof.
  intros [_ Hb _ Hk] Hf.
  assert (exists c x, m !! c = Some x) as (c & x & Hm).
  { destruct (map_choose m) as (c & x & ?); [|by eexists _, _]. intros ->.
    destruct k; cbn [fanout_ok] in Hf; rewrite map_size_empty in Hf; lia. }
  pose proof (Hb _ _ Hm) as Hc.
  destruct k as [keys|keys|keys|]; cbn [first_slot last_slot slots kind_abs fanout_ok] in *.
  1,2: destruct (small_abs_size _ _ _ _ _ Hk) as [Hsz _]; destruct (num_children h) as [|n]; [lia|];
    split; [by exists O|exists n; split; [done|by rewrite seq_S, last_snoc]].
  - destruct Hk as (Hlk & Hlc & Hsz & Hall & _). destruct (Hall c Hc) as ([|j] & Hj & Hmj); [congruence|]. split.
    + destruct (first_set_some nonzero keys _ _ Hj eq_refl) as (b & [|i] & -> & Hb' & Hi & Hall'); [done|].
      cbn [mbind res_bind]. rewrite (rd_lookup _ _ _ Hb'). cbn [mbind res_bind]. exists i.
      split; [f_equal; lia|]. eapply (extremal_omap _ nonzero); [by intros []|done|done|done].
    + destruct (last_set_some nonzero keys _ _ Hj eq_refl) as (b & [|i] & -> & Hb' & Hi & Hall'); [done|].
      cbn [mbind res_bind]. rewrite (rd_lookup _ _ _ Hb'). cbn [mbind res_bind]. exists i.
      split; [f_equal; lia|]. eapply (extremal_omap _ nonzero); [by intros []|done|done|done].
  - destruct Hk as (Hlc & Hsz & Hall). pose proof (Hall c Hc) as Hch. rewrite Hm in Hch. split.
    + destruct (first_set_some nonnull ch _ _ Hch eq_refl) as (i & q & -> & Hi & Hq & Hall').
      exists i. split; [done|]. by eapply extremal_present256.
    + destruct (last_set_some nonnull ch _ _ Hch eq_refl) as (i & q & -> & Hi & Hq & Hall').
      exists i. split; [done|]. by eapply extremal_present256.
Qed.

(** Every slot visited holds a child. *)
Lemma slot_child s h k ch m i :
  node_abs s h k ch m -> i ∈ slots h k ch -> exists c x, ch !! i = Some (Some x) /\ m !! c = Some x.
Proof.
  intros Hna (n & Hn)%list_elem_of_lookup. destruct (slots_spec s h k ch m Hna) as (es & Hes & Hnd & <- & _).
  destruct (Forall2_lookup_l _ _ _ _ _ Hes Hn) as ([c x] & He & Hx). exists c, x.
  split; [done|]. by eapply es_lookup.
Qed.

End ArtShrink.
