(* ===== verification/ArtTreeSpec.v ===== *)
(** * Adaptive radix tree: the tree as a finite map

    [tree s p n M] says that the node [n], reached over the key bytes [p],
    represents the finite map [M] from keys to values.  Keys are C strings:
    they hold no NUL and the callers pass a terminated buffer, so the byte
    behind a key is the terminator.  Search, insertion, deletion and iteration
    are shown to refine the operations of [M]. *)

From stdpp Require Import gmap sorting.
From S2P Require Import Prelude CString ArtNode ArtTree ArtNodeSpec ArtShrink.

Module ArtTreeSpec.
Import CStr Art ArtOps ArtSpec ArtShrink.

(** ** Keys *)

Definition leaf_of (k : akey) (v : Z) : art_leaf :=
  MkLeaf v (length k) (k ++ replicate leaf_slack 0).

Definition kv_leaf (kv : akey * Z) : art_leaf := leaf_of kv.1 kv.2.

(** The keys whose byte at depth [d] is [c]. *)
Definition sub (d : nat) (c : Z) (M : amap) : amap :=
  filter (fun kv => term kv.1 !! d = Some c) M.

(** With the flag [s] set the keys are ASCII strings and the small nodes hold
    their bytes in increasing order. *)
Definition ascii_key (k : akey) : Prop := Forall ascii_byte k.

Inductive tree (s : bool) : list Z -> art_node -> amap -> Prop :=
| tree_leaf p k v :
    key_ok k -> (s = true -> ascii_key k) -> p `prefix_of` term k -> tree s p (Leaf (leaf_of k v)) {[ k := v ]}
| tree_inner p q h kd ch m M :
    node_abs s h kd ch m -> fanout_ok kd m -> prefix_is h q ->
    (forall k v, M !! k = Some v ->
       key_ok k /\ (p ++ q) `prefix_of` term k /\
       exists c, term k !! length (p ++ q) = Some c /\ is_Some (m !! c)) ->
    (forall c x, m !! c = Some x -> tree s (p ++ q ++ [c]) x (sub (length (p ++ q)) c M)) ->
    tree s p (Inner h kd ch) M.

(** *** Terminated keys *)

Lemma term_inj k k' : term k = term k' -> k = k'.
Proof. apply app_inj_tail. Qed.

Lemma length_term k : length (term k) = S (length k).
Proof. unfold term. rewrite length_app. cbn. lia. Qed.

Lemma term_lookup_lt k i : (i < length k)%nat -> term k !! i = k !! i.
Proof. apply lookup_app_l. Qed.

Lemma term_lookup_end k : term k !! length k = Some 0.
Proof. by apply list_lookup_middle. Qed.

Lemma key_ok_lookup k i b : key_ok k -> k !! i = Some b -> 0 < b < 256.
Proof. intros Hk Hi. exact (Forall_lookup_1 _ _ _ _ Hk Hi). Qed.

Lemma term_byte k i b : key_ok k -> term k !! i = Some b -> is_byte b.
Proof.
  intros Hk [Hi|[_ Hi]]%lookup_app_Some.
  - eapply key_ok_lookup in Hi; [|done]. split; [lia|]. change (2 ^ 8) with 256. lia.
  - apply list_lookup_singleton_Some in Hi as [_ <-]. done.
Qed.

Lemma term_ascii k i b : ascii_key k -> term k !! i = Some b -> ascii_byte b.
Proof.
  intros Hk [Hi|[_ Hi]]%lookup_app_Some; [exact (Forall_lookup_1 _ _ _ _ Hk Hi)|].
  by apply list_lookup_singleton_Some in Hi as [_ <-].
Qed.

Lemma term_zero k i : key_ok k -> term k !! i = Some 0 -> i = length k.
Proof.
  intros Hk Hi. pose proof (lookup_lt_Some _ _ _ Hi) as Hl. rewrite length_term in Hl.
  destruct (decide (i < length k)%nat); [|lia].
  rewrite term_lookup_lt in Hi by done. eapply key_ok_lookup in Hi; [lia|done].
Qed.

(** Of two different keys neither, terminated, is a prefix of the other. *)
Lemma term_prefix_free k k' : key_ok k -> key_ok k' -> term k `prefix_of` term k' -> k = k'.
Proof.
  intros Hk Hk' Hp. assert (term k' !! length k = Some 0) as Hz.
  { eapply prefix_lookup_Some; [apply term_lookup_end|done]. }
  apply term_zero in Hz; [|done]. apply term_inj. apply prefix_length_eq in Hp; [done|].
  rewrite !length_term. lia.
Qed.

(** A proper prefix of a terminated key is a prefix of the key. *)
Lemma proper_prefix p k c :
  p `prefix_of` term k -> term k !! length p = Some c -> p `prefix_of` k /\ (length p <= length k)%nat.
Proof.
  intros [r Hr] Hc. pose proof (lookup_lt_Some _ _ _ Hc) as Hl. rewrite length_term in Hl.
  split; [|lia]. exists (take (length k - length p) r).
  apply (f_equal (take (length k))) in Hr. unfold term in Hr.
  rewrite take_app_length in Hr. rewrite Hr at 1. rewrite take_app, take_ge by lia. done.
Qed.

Lemma prefix_snoc_lookup p (l : list Z) c :
  p `prefix_of` l -> l !! length p = Some c -> (p ++ [c]) `prefix_of` l.
Proof.
  intros [r ->] Hc. rewrite lookup_app_r, Nat.sub_diag in Hc by lia.
  destruct r as [|c' r]; [done|]. injection Hc as ->. exists r. by rewrite <- app_assoc.
Qed.

Lemma snoc_prefix_lookup p (l : list Z) c :
  (p ++ [c]) `prefix_of` l -> p `prefix_of` l /\ l !! length p = Some c.
Proof.
  intros [r ->]. rewrite <- app_assoc. split; [by eexists|]. by apply list_lookup_middle.
Qed.

Lemma prefix_eq_lookup (p q l : list Z) :
  p `prefix_of` l -> q `prefix_of` l -> length p = length q -> p = q.
Proof.
  intros [r ->] [r' Hr] Hl. apply app_inj_1 in Hr as [? _]; done.
Qed.

(** *** Sub-maps *)

Lemma sub_lookup (d : nat) (c : Z) M k v :
  sub d c M !! k = Some v <-> M !! k = Some v /\ term k !! d = Some c.
Proof. apply map_lookup_filter_Some. Qed.

Lemma sub_lookup_at (d : nat) (c : Z) (M : amap) k : term k !! d = Some c -> sub d c M !! k = M !! k.
Proof.
  intros Hk. apply option_eq. intros v. rewrite sub_lookup. split; [by intros []|eauto].
Qed.

Lemma sub_insert_same (d : nat) (c : Z) (M : amap) k v :
  term k !! d = Some c -> sub d c (<[k := v]> M) = <[k := v]> (sub d c M).
Proof. intros Hk. unfold sub. by apply map_filter_insert_True. Qed.

Lemma sub_insert_other (d : nat) (c : Z) (M : amap) k v :
  term k !! d <> Some c -> sub d c (<[k := v]> M) = sub d c M.
Proof. intros Hk. unfold sub. by apply map_filter_insert_not. Qed.

Lemma sub_delete_same (d : nat) (c : Z) (M : amap) k : sub d c (delete k M) = delete k (sub d c M).
Proof. apply map_filter_delete. Qed.

Lemma sub_delete_other (d : nat) (c : Z) (M : amap) k :
  term k !! d <> Some c -> sub d c (delete k M) = sub d c M.
Proof.
  intros Hk. rewrite sub_delete_same. apply delete_id.
  destruct (sub d c M !! k) as [v|] eqn:E; [|done]. by apply sub_lookup in E as [_ ?].
Qed.

Lemma sub_all (d : nat) (c : Z) (M : amap) :
  (forall k v, M !! k = Some v -> term k !! d = Some c) -> sub d c M = M.
Proof.
  intros HM. apply map_eq. intros k. apply option_eq. intros v. rewrite sub_lookup. split; [by intros []|eauto].
Qed.

Lemma sub_none (d : nat) (c : Z) (M : amap) :
  (forall k v, M !! k = Some v -> term k !! d <> Some c) -> sub d c M = ∅.
Proof.
  intros HM. apply map_empty. intros k. apply eq_None_not_Some. intros [v [Hv Hd]%sub_lookup].
  by eapply HM.
Qed.

(** *** What a tree holds *)

Lemma tree_keys {s} p n M k v : tree s p n M -> M !! k = Some v -> key_ok k /\ p `prefix_of` term k.
Proof.
  intros Ht Hk. destruct Ht as [p k' v' Hok Hasc' Hp|p q h kd ch m M Hna Hf Hq Hkeys Hch].
  - by apply lookup_singleton_Some in Hk as [<- _].
  - apply Hkeys in Hk as (? & Hp & _). split; [done|]. etrans; [|exact Hp]. by eexists.
Qed.

Lemma tree_ascii {s} p n M k v : tree s p n M -> s = true -> M !! k = Some v -> ascii_key k.
Proof.
  intros Ht Hs. induction Ht as [p k' v' Hok Hasc Hp|p q h kd ch m M Hna Hf Hq Hkeys Hch IH]; intros Hk.
  - apply lookup_singleton_Some in Hk as [<- _]. by apply Hasc.
  - destruct (Hkeys k v Hk) as (_ & _ & c & Hc & [x Hx]). eapply (IH c x Hx). by apply sub_lookup.
Qed.

Lemma fanout_two k m : fanout_ok k m -> (2 <= size m)%nat.
Proof. destruct k; cbn; lia. Qed.

Lemma tree_nonempty {s} p n M : tree s p n M -> exists k v, M !! k = Some v.
Proof.
  induction 1 as [p k v Hok Hasc Hp|p q h kd ch m M Hna Hf Hq Hkeys Hch IH].
  - exists k, v. apply lookup_singleton_eq.
  - destruct (map_choose m) as (c & x & Hx).
    { intros ->. apply fanout_two in Hf. rewrite map_size_empty in Hf. lia. }
    destruct (IH c x Hx) as (k & v & [Hk _]%sub_lookup). by exists k, v.
Qed.

(** A map with two entries has one different from a given key. *)
Lemma size_two (m : gmap Z art_node) c :
  (2 <= size m)%nat -> exists c' x, c' <> c /\ m !! c' = Some x.
Proof.
  intros Hs. destruct (map_choose (delete c m)) as (c' & x & [Hne Hx]%lookup_delete_Some); [|by exists c', x].
  intros E. apply (f_equal size) in E. rewrite map_size_empty in E.
  destruct (m !! c) eqn:Hc.
  - rewrite map_size_delete_Some in E by done. lia.
  - rewrite map_size_delete_None in E by done. lia.
Qed.

(** An inner node holds a key other than any given one. *)
Lemma inner_other {s} p h kd ch M k :
  tree s p (Inner h kd ch) M -> exists k' v, k' <> k /\ M !! k' = Some v.
Proof.
  intros Ht. inversion Ht as [|? q ? ? ? m ? Hna Hf Hq Hkeys Hch]; subst.
  destruct (M !! k) as [v|] eqn:Hk; cycle 1.
  { destruct (tree_nonempty _ _ _ Ht) as (k' & v & ?). exists k', v. split; [congruence|done]. }
  destruct (Hkeys k v Hk) as (_ & _ & c & Hc & _).
  destruct (size_two m c (fanout_two _ _ Hf)) as (c' & x & Hne & Hx).
  destruct (tree_nonempty _ _ _ (Hch c' x Hx)) as (k' & v' & [Hk' Hc']%sub_lookup).
  exists k', v'. split; [congruence|done].
Qed.

(** ** Comparison loops *)

Lemma mismatch_loop_spec a oa b ob idx n :
  (n = 0 \/ oa + idx + n <= length a)%nat -> (n = 0 \/ ob + idx + n <= length b)%nat ->
  exists i, mismatch_loop a oa b ob idx n = Ok i /\ (idx <= i <= idx + n)%nat /\
    (forall j, (idx <= j < i)%nat -> a !! (oa + j)%nat = b !! (ob + j)%nat) /\
    ((i < idx + n)%nat -> a !! (oa + i)%nat <> b !! (ob + i)%nat).
Proof.
  revert idx. induction n as [|n IH]; intros idx Ha Hb; cbn [mismatch_loop].
  { exists idx. split_and!; [done|lia..]. }
  destruct (lookup_lt_is_Some_2 a (oa + idx)) as [x Hx]; [lia|].
  destruct (lookup_lt_is_Some_2 b (ob + idx)) as [y Hy]; [lia|].
  rewrite (rd_lookup _ _ _ Hx), (rd_lookup _ _ _ Hy). cbn [mbind res_bind].
  destruct (Z.eqb_spec x y) as [<-|Hne].
  - destruct (IH (S idx)) as (i & -> & Hi & Heq & Hdiff); [lia..|].
    exists i. split_and!; [done|lia..| |intros; apply Hdiff; lia].
    intros j Hj. destruct (decide (j = idx)) as [->|]; [congruence|]. apply Heq. lia.
  - exists idx. split_and!; [done|lia|lia|intros; lia|congruence].
Qed.

(** Equality of two lists on their first [n] cells, cell by cell. *)
Lemma take_eq_lookup (a b : list Z) n :
  (forall j, (j < n)%nat -> a !! j = b !! j) -> take n a = take n b.
Proof.
  intros Hj. apply list_eq. intros i. destruct (decide (i < n)%nat) as [Hi|].
  - by rewrite !lookup_take_lt, Hj.
  - by rewrite !lookup_take_ge by lia.
Qed.

Lemma c_string_take buf k : c_string buf k -> take (length k) buf = k /\ (S (length k) <= length buf)%nat.
Proof.
  intros (_ & [r ->] & _). unfold term. rewrite <- app_assoc.
  split; [by rewrite take_app_length|]. rewrite length_app. cbn. lia.
Qed.

Lemma c_string_lookup buf k i c : c_string buf k -> term k !! i = Some c -> buf !! i = Some c.
Proof. intros (_ & Hp & _) Hi. by eapply prefix_lookup_Some. Qed.

Lemma leaf_matches_spec k' v buf k :
  c_string buf k -> leaf_matches (leaf_of k' v) buf (length k) = Ok (bool_decide (k' = k)).
Proof.
  intros Hs. destruct (c_string_take _ _ Hs) as [Ht Hl].
  unfold leaf_matches. cbn [key_len leaf_of lkey].
  destruct (decide (length k' = length k)) as [Hlen|Hlen].
  - unfold memeq. rewrite decide_True by (rewrite length_app; lia).
    f_equal. rewrite Ht, <- Hlen, take_app_length. done.
  - rewrite bool_decide_eq_false_2; [done|congruence].
Qed.

Lemma make_leaf_spec buf k v : c_string buf k -> make_leaf buf (length k) v = Ok (leaf_of k v).
Proof.
  intros Hs. destruct (c_string_take _ _ Hs) as [Ht Hl].
  unfold make_leaf. rewrite decide_True by lia. by rewrite Ht.
Qed.

(** The prefix test looks at no more than ten bytes: it is exact for short
    prefixes and only necessary for long ones. *)
Lemma pass_prefix_spec h q buf k d :
  prefix_is h q -> length (partial h) = MAX_PREFIX_LEN -> c_string buf k ->
  exists o, pass_prefix h buf (length k) d = Ok o /\
    match o with
    | None => ~ q `prefix_of` drop d k
    | Some d' => d' = (d + length q)%nat /\
        ((length q <= MAX_PREFIX_LEN)%nat -> q `prefix_of` drop d k)
    end.
Proof.
  intros Hq Hp Hs. pose proof Hq as [Hlen _]. destruct (c_string_take _ _ Hs) as [Ht Hl].
  unfold pass_prefix. rewrite Hlen.
  destruct (Nat.eqb_spec (length q) 0) as [H0|H0].
  { exists (Some d). apply nil_length_inv in H0 as ->. split_and!; [done|cbn; lia|].
    intros _. apply prefix_nil. }
  unfold check_prefix. rewrite Hlen.
  set (mc := Nat.min (Nat.min (length q) MAX_PREFIX_LEN) (length k - d)).
  destruct (mismatch_loop_spec (partial h) 0 buf d 0 mc) as (i & -> & Hi & Heq & Hdiff);
    [unfold mc; lia..|]. cbn [mbind res_bind].
  assert (take i q = take i (drop d k)) as Htk.
  { apply take_eq_lookup. intros j Hj. rewrite lookup_drop.
    rewrite <- (lookup_take_lt q i), <- (prefix_is_stored h q i) by (done || (unfold mc in *; lia)).
    rewrite lookup_take_lt by done. pose proof (Heq j ltac:(lia)) as E. cbn in E. rewrite E.
    rewrite <- Ht, lookup_take_lt; [done|unfold mc in *; lia]. }
  destruct (Nat.eqb_spec i (Nat.min MAX_PREFIX_LEN (length q))) as [Hi'|Hi'].
  - eexists. split; [done|]. cbn. split; [done|]. intros Hshort.
    rewrite (take_ge q) in Htk by lia. rewrite Htk. exists (drop i (drop d k)). by rewrite take_drop.
  - eexists. split; [done|]. cbn. intros [r Hr].
    assert (length q <= length k - d)%nat as Hlq.
    { apply (f_equal length) in Hr. rewrite length_drop, length_app in Hr. lia. }
    apply Hdiff; [unfold mc in *; lia|]. cbn [Nat.add].
    assert (i < length q)%nat by (unfold mc in *; lia).
    transitivity (q !! i).
    { rewrite <- (lookup_take_lt (partial h) (S i)), (prefix_is_stored h q (S i)) by (done || (unfold mc in *; lia)).
      by rewrite lookup_take_lt by lia. }
    rewrite <- (lookup_app_l q r) by done. rewrite <- Hr, lookup_drop, <- Ht, lookup_take_lt; [done|lia].
Qed.

(** ** Search *)

Lemma search_loop_spec {s} p n M buf k :
  tree s p n M -> c_string buf k ->
  match search_loop n buf (length k) (length p) with
  | Ok r => r = default NULL (M !! k)
  | Err _ => M !! k = None
  end.
Proof.
  intros Ht Hs. induction Ht as [p k' v Hok Hasc' Hp|p q h kd ch m M Hna Hf Hq Hkeys Hch IH]; cbn [search_loop].
  { rewrite leaf_matches_spec by done. cbn [mbind res_bind]. destruct (bool_decide_reflect (k' = k)) as [->|Hne].
    - by rewrite lookup_singleton_eq.
    - by rewrite lookup_singleton_ne. }
  assert (forall v, M !! k = Some v -> exists c, term k !! length (p ++ q) = Some c /\ buf !! length (p ++ q) = Some c /\
    is_Some (m !! c) /\ (p ++ q) `prefix_of` k) as Hin.
  { intros v Hv. destruct (Hkeys k v Hv) as (_ & Hpq & c & Hc & Hm). exists c.
    split_and!; [done|by eapply c_string_lookup|done|]. by eapply proper_prefix. }
  destruct (pass_prefix_spec h q buf k (length p)) as (o & -> & Ho); [done|apply Hna|done|].
  cbn [mbind res_bind]. destruct o as [d|]; cycle 1.
  { destruct (M !! k) as [v|] eqn:Hv; [exfalso|done]. destruct (Hin v eq_refl) as (_ & _ & _ & _ & [r ->]).
    apply Ho. rewrite <- app_assoc, drop_app_length. by eexists. }
  destruct Ho as [-> _]. rewrite length_app in Hin.
  unfold rd. destruct (buf !! (length p + length q)%nat) as [c|] eqn:Hc; cbn [mbind res_bind]; cycle 1.
  { destruct (M !! k) as [v|] eqn:Hv; [exfalso|done]. by destruct (Hin v eq_refl) as (c & _ & ? & _). }
  destruct (find_child_spec s h kd ch m c) as (o & -> & Hfound & _); [done|by eapply Forall_lookup_1; [apply Hs|]|].
  cbn [mbind res_bind]. destruct o as [i|]; cbn in Hfound; cycle 1.
  { destruct (M !! k) as [v|] eqn:Hv; [exfalso|done].
    destruct (Hin v eq_refl) as (c' & _ & ? & [? ?] & _). congruence. }
  destruct Hfound as (x & Hx & Hm). rewrite nth_with_lookup, Hx.
  specialize (IH c x Hm). rewrite !length_app in IH. cbn [length] in IH. rewrite Nat.add_assoc in IH.
  assert (default NULL (sub (length p + length q) c M !! k) = default NULL (M !! k) /\
    (sub (length p + length q) c M !! k = None -> M !! k = None)) as [Heq Hnone].
  { destruct (M !! k) as [v|] eqn:Hv.
    - destruct (Hin v eq_refl) as (c' & Ht' & ? & _). assert (c' = c) as -> by congruence.
      rewrite sub_lookup_at, Hv by done. done.
    - split; [|done]. destruct (sub _ c M !! k) eqn:E; [|done]. apply sub_lookup in E as [? _]. congruence. }
  destruct (search_loop x buf (length k) (length p + length q + 1)); [by rewrite <- Heq|auto].
Qed.

(** Every compressed path fits in its header. *)
Fixpoint short_paths (n : art_node) : bool :=
  match n with
  | Leaf _ => true
  | Inner h k ch =>
      (partial_len h <=? MAX_PREFIX_LEN)%nat &&
      (fix loop (idxs : list nat) : bool :=
         match idxs with
         | [] => true
         | i :: idxs' =>
             nth_with (fun q => match q with Some n' => short_paths n' | None => true end) true ch i
             && loop idxs'
         end) (slots h k ch)
  end.

(** The conjuncts of [short_paths] for the children a traversal meets. *)
Lemma short_paths_inner h kd ch (es : list (Z * art_node)) :
  Forall2 (fun i e => ch !! i = Some (Some e.2)) (slots h kd ch) es ->
  short_paths (Inner h kd ch) = true <->
  (partial_len h <= MAX_PREFIX_LEN)%nat /\ Forall (fun e => short_paths e.2 = true) es.
Proof.
  intros Hes. cbn [short_paths]. rewrite andb_true_iff, Nat.leb_le. apply and_iff_compat_l.
  induction Hes as [|i e idxs es Hi _ IH]; [by split|].
  rewrite andb_true_iff, IH, nth_with_lookup, Hi, list.Forall_cons. done.
Qed.

Lemma short_paths_child {s} h kd ch m c x :
  node_abs s h kd ch m -> short_paths (Inner h kd ch) = true -> m !! c = Some x ->
  short_paths x = true /\ (partial_len h <= MAX_PREFIX_LEN)%nat.
Proof.
  intros Hna Hs Hm. destruct (slots_spec s _ _ _ _ Hna) as (es & Hes & Hnd & <- & _).
  apply (short_paths_inner _ _ _ _ Hes) in Hs as [Hp Hall]. split; [|done].
  apply elem_of_list_to_map_2 in Hm. rewrite list.Forall_forall in Hall. by apply (Hall (c, x)).
Qed.

(** Keys of at most ten bytes only have short paths. *)
Lemma short_keys_paths {s} p n M :
  tree s p n M -> (forall k v, M !! k = Some v -> (length k <= MAX_PREFIX_LEN)%nat) -> short_paths n = true.
Proof.
  induction 1 as [p k v Hok Hasc Hp|p q h kd ch m M Hna Hf Hq Hkeys Hch IH]; intros Hlen; [done|].
  destruct (slots_spec s _ _ _ _ Hna) as (es & Hes & Hnd & Hmap & Hso).
  apply (short_paths_inner _ _ _ _ Hes). split.
  - destruct (tree_nonempty (s := s) p (Inner h kd ch) M) as (k & v & Hk); [by econstructor|].
    destruct (Hkeys k v Hk) as (_ & Hpq & c & Hc & _). specialize (Hlen k v Hk).
    destruct (proper_prefix _ _ _ Hpq Hc) as [_ Hl]. rewrite length_app in Hl. rewrite (proj1 Hq). lia.
  - apply list.Forall_forall. intros [c x] Hin. apply (IH c x).
    + rewrite <- Hmap. by apply elem_of_list_to_map_1.
    + intros k v [Hk _]%sub_lookup. by eapply Hlen.
Qed.

(** The integers of the tree fit in the C types: at every inner node that is
    reached at [depth], the depth behind its compressed path is an [int] and the
    length of the path a [uint32_t]; the length of every key is an [int]. *)
Definition is_int (n : nat) : bool := Z.of_nat n <? 2 ^ 31.

Fixpoint ints_fit (n : art_node) (depth : nat) : bool :=
  match n with
  | Leaf l => is_int (key_len l)
  | Inner h k ch =>
      is_int (depth + partial_len h) &&
      (fix loop (idxs : list nat) : bool :=
         match idxs with
         | [] => true
         | i :: idxs' =>
             nth_with (fun q => match q with Some n' => ints_fit n' (depth + partial_len h + 1) | None => true end) true ch i
             && loop idxs'
         end) (slots h k ch)
  end.

Lemma ints_fit_inner h kd ch (es : list (Z * art_node)) d :
  Forall2 (fun i e => ch !! i = Some (Some e.2)) (slots h kd ch) es ->
  ints_fit (Inner h kd ch) d = true <->
  is_int (d + partial_len h) = true /\ Forall (fun e => ints_fit e.2 (d + partial_len h + 1) = true) es.
Proof.
  intros Hes. cbn [ints_fit]. rewrite andb_true_iff. apply and_iff_compat_l.
  induction Hes as [|i e idxs es Hi _ IH]; [by split|].
  rewrite andb_true_iff, IH, nth_with_lookup, Hi, list.Forall_cons. done.
Qed.

(** Keys of less than 2^31 bytes keep every integer in range. *)
Lemma int_keys_fit {s} p n M :
  tree s p n M -> (forall k v, M !! k = Some v -> is_int (length k) = true) -> ints_fit n (length p) = true.
Proof.
  induction 1 as [p k v Hok Hasc Hp|p q h kd ch m M Hna Hf Hq Hkeys Hch IH]; intros Hlen.
  { apply (Hlen k v), lookup_singleton_eq. }
  destruct (slots_spec s _ _ _ _ Hna) as (es & Hes & Hnd & Hmap & Hso).
  apply (ints_fit_inner _ _ _ _ _ Hes). split.
  - destruct (tree_nonempty (s := s) p (Inner h kd ch) M) as (k & v & Hk); [by econstructor|].
    destruct (Hkeys k v Hk) as (_ & Hpq & c & Hc & _). specialize (Hlen k v Hk).
    destruct (proper_prefix _ _ _ Hpq Hc) as [_ Hl]. rewrite length_app in Hl. rewrite (proj1 Hq).
    unfold is_int in *. apply Z.ltb_lt. apply Z.ltb_lt in Hlen. lia.
  - apply list.Forall_forall. intros [c x] Hin. cbn [snd].
    replace (length p + partial_len h + 1)%nat with (length (p ++ q ++ [c]))
      by (rewrite (proj1 Hq), !length_app; cbn; lia).
    apply (IH c x).
    + rewrite <- Hmap. by apply elem_of_list_to_map_1.
    + intros k v [Hk _]%sub_lookup. by eapply Hlen.
Qed.

Lemma drop_prefix (p q k : list Z) :
  p `prefix_of` k -> q `prefix_of` drop (length p) k -> (p ++ q) `prefix_of` k.
Proof.
  intros [r ->]. rewrite drop_app_length. intros [r' ->]. exists r'. by rewrite app_assoc.
Qed.

(** The path to an inner node holds no terminator. *)
Lemma inner_path {s} p h kd ch M k :
  tree s p (Inner h kd ch) M -> p `prefix_of` term k -> p `prefix_of` k.
Proof.
  intros Ht Hp. destruct (tree_nonempty _ _ _ Ht) as (k' & v & Hk').
  inversion Ht as [|? q ? ? ? m ? Hna Hf Hq Hkeys Hch]; subst.
  destruct (Hkeys k' v Hk') as (Hok & Hpq & c & Hc & _).
  destruct (proper_prefix _ _ _ Hpq Hc) as [[r Hr] Hlen].
  destruct Hp as [t Ht']. destruct t as [|b t] using rev_ind.
  - rewrite app_nil_r in Ht'. exfalso.
    assert ((p ++ q ++ r) !! length k = Some 0) as Hz.
    { rewrite lookup_app_l by (rewrite <- Ht', length_term; lia).
      rewrite <- Ht'. apply term_lookup_end. }
    rewrite app_assoc, <- Hr in Hz. eapply key_ok_lookup in Hz; [lia|done].
  - rewrite app_assoc in Ht'. apply app_inj_tail in Ht' as [-> _]. by eexists.
Qed.

Lemma search_loop_short {s} p n M buf k :
  tree s p n M -> c_string buf k -> p `prefix_of` term k -> short_paths n = true ->
  exists r, search_loop n buf (length k) (length p) = Ok r.
Proof.
  intros Ht Hs.
  induction Ht as [p k' v Hok Hasc' Hp|p q h kd ch m M Hna Hf Hq Hkeys Hch IH]; intros Hpk Hshort; cbn [search_loop].
  { rewrite leaf_matches_spec by done. by eexists. }
  assert (p `prefix_of` k) as Hpk' by (eapply inner_path; [by econstructor|done]).
  destruct (pass_prefix_spec h q buf k (length p)) as (o & -> & Ho); [done|apply Hna|done|].
  cbn [mbind res_bind]. destruct o as [d|]; [|by eexists]. destruct Ho as [-> Ho].
  assert ((p ++ q) `prefix_of` k) as Hpq.
  { apply drop_prefix; [done|]. apply Ho. rewrite <- (proj1 Hq).
    cbn in Hshort. by apply andb_prop in Hshort as [?%Nat.leb_le _]. }
  destruct (lookup_lt_is_Some_2 (term k) (length p + length q)) as [c Hc].
  { apply prefix_length in Hpq. rewrite length_app in Hpq. rewrite length_term. lia. }
  rewrite (rd_lookup buf _ c) by (by eapply c_string_lookup). cbn [mbind res_bind].
  destruct (find_child_spec s h kd ch m c) as (o & -> & Hfound & _); [done|by eapply term_byte; [apply Hs|]|].
  cbn [mbind res_bind]. destruct o as [i|]; [|by eexists]. destruct Hfound as (x & Hx & Hm).
  rewrite nth_with_lookup, Hx.
  destruct (IH c x Hm) as [r Hr].
  - rewrite app_assoc. apply prefix_snoc_lookup; [|by rewrite length_app].
    etrans; [exact Hpq|]. by eexists.
  - by eapply short_paths_child.
  - rewrite !length_app in Hr. cbn [length] in Hr. rewrite Nat.add_assoc in Hr. by exists r.
Qed.

(** ** Extremal leaves *)

Lemma extremal_leaf {s} p n M :
  tree s p n M ->
  (exists k v, minimum n = Ok (Some (leaf_of k v)) /\ M !! k = Some v) /\
  (exists k v, maximum n = Ok (Some (leaf_of k v)) /\ M !! k = Some v).
Proof.
  induction 1 as [p k v Hok Hasc Hp|p q h kd ch m M Hna Hf Hq Hkeys Hch IH]; cbn [minimum maximum].
  { split; exists k, v; (split; [done|apply lookup_singleton_eq]). }
  destruct (extremal_slots s h kd ch m Hna Hf) as [(i & -> & Hi) (i' & -> & Hi')].
  destruct (slot_child s h kd ch m i) as (c & x & Hx & Hm); [done|by apply head_Some_elem_of|].
  destruct (slot_child s h kd ch m i') as (c' & x' & Hx' & Hm'); [done|by apply last_Some_elem_of|].
  cbn [mbind res_bind]. rewrite !nth_with_lookup, Hx, Hx'. split.
  - destruct (IH c x Hm) as [(k & v & Hmin & [Hk _]%sub_lookup) _]. by exists k, v.
  - destruct (IH c' x' Hm') as [_ (k & v & Hmax & [Hk _]%sub_lookup)]. by exists k, v.
Qed.

(** ** Insertion *)

(** Where the path [q] of a node and the rest of the key part. *)
Definition parts_at (p q k : list Z) (i : nat) : Prop :=
  if (length q <=? i)%nat then (p ++ q) `prefix_of` k
  else (p ++ take i q) `prefix_of` k /\
    exists c1 c2, q !! i = Some c1 /\ term k !! (length p + i)%nat = Some c2 /\ c1 <> c2.

Lemma parts_intro p q k0 k i :
  (p ++ q) `prefix_of` k0 -> key_ok k0 -> p `prefix_of` k -> (i <= length k - length p)%nat ->
  (forall j, (j < i)%nat -> (j < length q)%nat -> q !! j = k !! (length p + j)%nat) ->
  ((i < length q)%nat -> i = (length k - length p)%nat \/ q !! i <> k !! (length p + i)%nat) ->
  parts_at p q k i.
Proof.
  intros [r0 Hr0] Hok [r ->] Hi Heq Hdiff. unfold parts_at. rewrite length_app in *.
  assert (forall n, (n <= i)%nat -> (n <= length q)%nat -> (p ++ take n q) `prefix_of` (p ++ r)) as Hpre.
  { intros n Hn Hq. apply prefix_app. rewrite (take_eq_lookup q r n).
    - exists (drop n r). by rewrite take_drop.
    - intros j Hj. rewrite Heq by lia. rewrite lookup_app_r by lia. f_equal. lia. }
  destruct (Nat.leb_spec (length q) i) as [Hq|Hq].
  { rewrite <- (firstn_all q). by apply Hpre. }
  split; [apply Hpre; lia|].
  destruct (lookup_lt_is_Some_2 q i) as [c1 Hc1]; [done|].
  destruct (lookup_lt_is_Some_2 (term (p ++ r)) (length p + i)) as [c2 Hc2].
  { rewrite length_term, length_app. lia. }
  exists c1, c2. split_and!; [done..|]. intros <-.
  destruct (Hdiff Hq) as [->|Hne].
  - replace (length p + (length p + length r - length p))%nat with (length (p ++ r)) in Hc2
      by (rewrite length_app; lia). rewrite term_lookup_end in Hc2. injection Hc2 as <-.
    assert (k0 !! (length p + (length p + length r - length p))%nat = Some 0) as Hz.
    { rewrite Hr0, <- app_assoc, lookup_app_r by lia. apply lookup_app_l_Some.
      rewrite <- Hc1. f_equal. lia. }
    eapply key_ok_lookup in Hz; [lia|done].
  - destruct (decide (i < length r)%nat).
    + rewrite term_lookup_lt in Hc2 by (rewrite length_app; lia). congruence.
    + replace (length p + i)%nat with (length (p ++ r)) in Hc2 by (rewrite length_app; lia).
      rewrite term_lookup_end in Hc2. injection Hc2 as <-.
      assert (k0 !! (length p + i)%nat = Some 0) as Hz.
      { rewrite Hr0, <- app_assoc, lookup_app_r by lia. apply lookup_app_l_Some.
        rewrite <- Hc1. f_equal. lia. }
      eapply key_ok_lookup in Hz; [lia|done].
Qed.

(** The length of the common prefix, as [recursive_insert] computes it. *)
Definition prefix_diff (h : art_hdr) (min_leaf : res (option art_leaf)) (buf : list Z) (klen d : nat)
    : res nat :=
  if (partial_len h =? 0)%nat then Ok O else prefix_mismatch h min_leaf buf klen d.

Lemma prefix_diff_spec h p q k0 v0 buf k :
  prefix_is h q -> length (partial h) = MAX_PREFIX_LEN ->
  (p ++ q) `prefix_of` k0 -> key_ok k0 -> c_string buf k -> p `prefix_of` k ->
  exists i, prefix_diff h (Ok (Some (leaf_of k0 v0))) buf (length k) (length p) = Ok i /\
    parts_at p q k i.
Proof.
  intros Hq Hp Hpq Hok Hs Hpk. pose proof Hq as [Hlen _]. destruct (c_string_take _ _ Hs) as [Htk Hl].
  unfold prefix_diff. rewrite Hlen. destruct (Nat.eqb_spec (length q) 0) as [H0|H0].
  { exists O. split; [done|]. apply nil_length_inv in H0 as ->. unfold parts_at. by rewrite app_nil_r. }
  unfold prefix_mismatch. rewrite Hlen. pose proof (prefix_length _ _ Hpq) as Hl0. rewrite length_app in Hl0.
  pose proof (prefix_length _ _ Hpk) as Hlp.
  set (mc := Nat.min (Nat.min MAX_PREFIX_LEN (length q)) (length k - length p)).
  destruct (mismatch_loop_spec (partial h) 0 buf (length p) 0 mc) as (i & -> & Hi & Heq & Hdiff);
    [unfold mc; lia..|]. cbn [mbind res_bind Nat.add] in *.
  assert (forall j, (length p + j < length k)%nat -> buf !! (length p + j)%nat = k !! (length p + j)%nat) as Hbuf.
  { intros j Hj. rewrite <- Htk, lookup_take_lt; done. }
  assert (forall j, (j < Nat.min MAX_PREFIX_LEN (length q))%nat -> partial h !! j = q !! j) as Hpart.
  { intros j Hj. rewrite <- (lookup_take_lt (partial h) (S j)), (prefix_is_stored h q (S j)) by (done || lia).
    by rewrite lookup_take_lt by lia. }
  assert (forall j, (j < i)%nat -> q !! j = k !! (length p + j)%nat) as Heq'.
  { intros j Hj. rewrite <- Hpart, Heq, Hbuf by (unfold mc in *; lia). done. }
  destruct (decide (i = mc)) as [->|Hne]; cycle 1.
  { exists i. split; [done|]. apply parts_intro with k0; [done..|unfold mc in *; lia|auto|].
    intros _. right. rewrite <- Hpart, <- Hbuf by (unfold mc in *; lia). apply Hdiff. unfold mc in *; lia. }
  destruct (Nat.ltb_spec MAX_PREFIX_LEN (length q)) as [Hlong|Hshort]; cycle 1.
  { eexists. split; [done|]. apply parts_intro with k0; [done..|unfold mc in *; lia|auto|].
    intros ?. left. unfold mc in *. lia. }
  cbn [mbind res_bind deref key_len leaf_of lkey].
  assert (forall j, (j < length q)%nat -> (k0 ++ replicate leaf_slack 0) !! (length p + j)%nat = q !! j) as Hk0.
  { intros j Hj. destruct Hpq as [r ->]. rewrite <- !app_assoc, lookup_app_r by lia.
    rewrite lookup_app_l by lia. f_equal. lia. }
  destruct (mismatch_loop_spec (k0 ++ replicate leaf_slack 0) (length p) buf (length p) mc
    (Nat.min (length k0) (length k) - length p - mc)) as (i2 & -> & Hi2 & Heq2 & Hdiff2);
    [rewrite ?length_app; lia..|].
  exists i2. split; [done|]. apply parts_intro with k0; [done..|unfold mc in *; lia| |].
  - intros j Hj Hjq. destruct (decide (j < mc)%nat); [by apply Heq'|].
    rewrite <- Hk0, Heq2, Hbuf by lia. done.
  - intros Hiq. destruct (decide (i2 < mc + (Nat.min (length k0) (length k) - length p - mc))%nat).
    + right. rewrite <- Hk0, <- Hbuf by lia. by apply Hdiff2.
    + left. unfold mc in *. lia.
Qed.

(** *** A new node over an old subtree and a new leaf *)

Lemma tree_two {s} p q h kd ch c1 x1 c2 k v M1 :
  node_abs s h kd ch (<[c2 := Leaf (leaf_of k v)]> {[ c1 := x1 ]}) ->
  fanout_ok kd (<[c2 := Leaf (leaf_of k v)]> {[ c1 := x1 ]}) -> prefix_is h q -> c1 <> c2 ->
  tree s (p ++ q ++ [c1]) x1 M1 -> key_ok k -> (s = true -> ascii_key k) -> (p ++ q) `prefix_of` term k ->
  term k !! length (p ++ q) = Some c2 -> tree s p (Inner h kd ch) (<[k := v]> M1).
Proof.
  intros Hna Hf Hq Hne Ht Hok Hasc Hpq Hc2.
  assert (forall k' v', M1 !! k' = Some v' ->
    key_ok k' /\ (p ++ q) `prefix_of` term k' /\ term k' !! length (p ++ q) = Some c1) as HM1.
  { intros k' v' Hk'. destruct (tree_keys _ _ _ _ _ Ht Hk') as [? Hp].
    rewrite app_assoc in Hp. by apply snoc_prefix_lookup in Hp as [? ?]. }
  eapply tree_inner; [done..| |].
  - intros k' v' [[<- _]|[_ Hk']]%lookup_insert_Some.
    + split_and!; [done..|]. exists c2. by rewrite lookup_insert_eq.
    + destruct (HM1 _ _ Hk') as (? & ? & ?). split_and!; [done..|]. exists c1.
      by rewrite lookup_insert_ne, lookup_singleton_eq by done.
  - intros c x [[<- <-]|[Hne' Hx]]%lookup_insert_Some.
    + rewrite sub_insert_same, sub_none, insert_empty; [|intros k' v' Hk'; apply HM1 in Hk' as (_ & _ & ->); congruence|done].
      apply tree_leaf; [done|done|]. rewrite app_assoc. by apply prefix_snoc_lookup.
    + apply lookup_singleton_Some in Hx as [<- <-].
      rewrite sub_insert_other, sub_all; [done|intros k' v' Hk'; by apply HM1 in Hk' as (_ & _ & ?)|congruence].
Qed.

Lemma slack_lookup k i :
  (i <= length k)%nat -> (k ++ replicate leaf_slack 0) !! i = term k !! i.
Proof.
  intros Hi. unfold term. destruct (decide (i < length k)%nat).
  - by rewrite !lookup_app_l.
  - by rewrite !lookup_app_r, (proj2 (Nat.sub_0_le _ _)) by lia.
Qed.

Lemma lookup_prefix (l p : list Z) j :
  p `prefix_of` l -> (j < length p)%nat -> l !! j = p !! j.
Proof. intros [r ->] Hj. by rewrite lookup_app_l. Qed.

Lemma prefix_take_eq (l l' : list Z) n :
  (forall j, (j < n)%nat -> l !! j = l' !! j) -> take n l `prefix_of` l'.
Proof. intros Hj. rewrite (take_eq_lookup l l' n Hj). exists (drop n l'). by rewrite take_drop. Qed.

(** Two different keys differ at or before the terminator of the shorter. *)
Lemma term_agree k k' :
  key_ok k -> key_ok k' ->
  (forall j, (j <= Nat.min (length k) (length k'))%nat -> term k !! j = term k' !! j) -> k = k'.
Proof.
  intros Hk Hk' Hj. destruct (decide (length k <= length k')%nat).
  - apply term_prefix_free; [done..|]. rewrite <- (firstn_all (term k)).
    apply prefix_take_eq. intros j. rewrite length_term. intros. apply Hj. lia.
  - symmetry. apply term_prefix_free; [done..|]. rewrite <- (firstn_all (term k')).
    apply prefix_take_eq. intros j. rewrite length_term. intros. symmetry. apply Hj. lia.
Qed.

Lemma lcp_spec p k0 v0 k v :
  key_ok k0 -> key_ok k -> p `prefix_of` term k0 -> p `prefix_of` term k -> k0 <> k ->
  exists i c1 c2, longest_common_prefix (leaf_of k0 v0) (leaf_of k v) (length p) = Ok i /\
    (length p + i <= length k0)%nat /\ (length p + i <= length k)%nat /\
    (forall j, (j < length p + i)%nat -> term k0 !! j = term k !! j) /\
    term k0 !! (length p + i)%nat = Some c1 /\ term k !! (length p + i)%nat = Some c2 /\ c1 <> c2.
Proof.
  intros Hok0 Hok Hp0 Hp Hne. unfold longest_common_prefix. cbn [key_len leaf_of lkey].
  assert (forall j, (j < length p)%nat -> term k0 !! j = term k !! j) as Hpj.
  { intros j Hj. by rewrite (lookup_prefix (term k0) p), (lookup_prefix (term k) p). }
  assert (length p <= Nat.min (length k0) (length k))%nat as Hlp.
  { destruct (decide (length p <= Nat.min (length k0) (length k))%nat); [done|exfalso].
    apply Hne, term_agree; [done..|]. intros j Hj. apply Hpj. lia. }
  destruct (mismatch_loop_spec (k0 ++ replicate leaf_slack 0) (length p) (k ++ replicate leaf_slack 0) (length p) 0
    (Nat.min (length k0) (length k) - length p)) as (i & -> & Hi & Heq & Hdiff); [rewrite length_app; lia..|].
  assert (forall j, (j < length p + i)%nat -> term k0 !! j = term k !! j) as Hall.
  { intros j Hj. destruct (decide (j < length p)%nat); [by apply Hpj|].
    pose proof (Heq (j - length p)%nat ltac:(lia)) as E. rewrite !slack_lookup in E by lia.
    by replace (length p + (j - length p))%nat with j in E by lia. }
  destruct (lookup_lt_is_Some_2 (term k0) (length p + i)) as [c1 Hc1]; [rewrite length_term; lia|].
  destruct (lookup_lt_is_Some_2 (term k) (length p + i)) as [c2 Hc2]; [rewrite length_term; lia|].
  exists i, c1, c2. split_and!; [done|lia|lia|done..|]. intros <-.
  destruct (decide (i < 0 + (Nat.min (length k0) (length k) - length p))%nat) as [Hlt|].
  - apply (Hdiff Hlt). rewrite !slack_lookup by lia. congruence.
  - apply Hne, term_agree; [done..|]. intros j Hj.
    destruct (decide (j = length p + i)%nat) as [->|]; [congruence|]. apply Hall. lia.
Qed.

Lemma take_drop_buf buf k d n :
  c_string buf k -> (d + n <= length k)%nat -> take n (drop d buf) = take n (drop d k).
Proof.
  intros Hs Hn. apply take_eq_lookup. intros j Hj. rewrite !lookup_drop.
  destruct (c_string_take _ _ Hs) as [Ht _]. rewrite <- Ht, lookup_take_lt; [done|lia].
Qed.

Lemma split_leaf_spec {s} p k0 v0 buf k v :
  key_ok k0 -> (s = true -> ascii_key k0) -> p `prefix_of` term k0 ->
  c_string buf k -> (s = true -> ascii_key k) -> p `prefix_of` term k ->
  exists n', split_leaf (leaf_of k0 v0) buf (length k) v (length p) =
      Ok (default NULL (({[ k0 := v0 ]} : amap) !! k), bool_decide (is_Some (({[ k0 := v0 ]} : amap) !! k)), n') /\
    tree s p n' (<[k := v]> {[ k0 := v0 ]}).
Proof.
  intros Hok0 Hasc0 Hp0 Hs Hasc Hp. unfold split_leaf. rewrite leaf_matches_spec by done. cbn [mbind res_bind].
  destruct (bool_decide_reflect (k0 = k)) as [->|Hne].
  { rewrite lookup_singleton_eq, insert_singleton_eq. eexists. split; [done|]. by apply tree_leaf. }
  rewrite lookup_singleton_ne, make_leaf_spec by done. cbn [mbind res_bind].
  destruct (lcp_spec p k0 v0 k v) as (i & c1 & c2 & -> & Hi0 & Hi & Hall & Hc1 & Hc2 & Hc); [done|apply Hs|done..|].
  cbn [mbind res_bind]. destruct (c_string_take _ _ Hs) as [Ht Hl].
  destruct (new_node4_spec i buf (length p)) as (h & -> & Hn & Hpl & Hpar & Hst); [lia|].
  cbn [mbind res_bind lkey leaf_of].
  rewrite (rd_lookup (k0 ++ _) _ c1) by (by rewrite slack_lookup). cbn [mbind res_bind].
  rewrite (rd_lookup (k ++ _) _ c2) by (by rewrite slack_lookup). cbn [mbind res_bind].
  destruct (add_two_spec s h c1 (Leaf (leaf_of k0 v0)) c2 (Leaf (leaf_of k v))) as (h' & kd & ch & E & Hna & Hpre & Hf);
    [done|done|exact (term_byte k0 _ _ Hok0 Hc1)|exact (term_byte k _ _ (proj1 Hs) Hc2)
    |by intros Hst'; split; [eapply (term_ascii k0), Hc1|eapply (term_ascii k), Hc2]; auto|done|].
  unfold leaf_of in E |- *. rewrite E. cbn [mbind res_bind]. eexists. split; [done|].
  set (q := take i (drop (length p) k)).
  assert (length q = i) as Hlq by (unfold q; rewrite length_take, length_drop; lia).
  assert (p ++ q = take (length p + i) (term k)) as Hpq.
  { destruct (lookup_lt_is_Some_2 (term k) (length p)) as [c Hc']; [rewrite length_term; lia|].
    destruct (proper_prefix p k c) as [[r Hr] _]; [done..|]. unfold q, term.
    rewrite take_app_le by lia. by rewrite Hr, drop_app_length, take_app_add. }
  assert (length (p ++ q) = (length p + i)%nat) as Hlpq by (rewrite length_app; lia).
  eapply (tree_two p q _ _ _ c1 _ c2); [exact Hna|exact Hf| |done| |apply Hs|done| |by rewrite Hlpq].
  - eapply same_prefix_is; [done|]. split; [lia|]. rewrite Hst, (take_drop_buf _ k) by (done || lia).
    unfold q. by rewrite take_take.
  - apply tree_leaf; [done|done|]. rewrite app_assoc. apply prefix_snoc_lookup; [|by rewrite Hlpq].
    rewrite Hpq. apply prefix_take_eq. intros j Hj. symmetry. by apply Hall.
  - rewrite Hpq. by apply prefix_take_eq.
Qed.

(** *** Splitting a compressed path *)

(** The path of the old node below the new one: the byte it parts at and the
    rest of the old path. *)
Lemma split_rest h p q k0 v0 i c1 :
  prefix_is h q -> length (partial h) = MAX_PREFIX_LEN -> (p ++ q) `prefix_of` k0 -> q !! i = Some c1 ->
  let plen := (partial_len h - (i + 1))%nat in
  exists buf,
    (if (partial_len h <=? MAX_PREFIX_LEN)%nat then
       c1 ← rd (partial h) i;
       p ← memmove (partial h) 0 (i + 1) (Nat.min MAX_PREFIX_LEN plen);
       Ok (c1, p)
     else
       l ← Ok (Some (leaf_of k0 v0)); l ← deref l;
       c1 ← rd (lkey l) (length p + i);
       p ← memcpy (partial h) 0 (lkey l) (length p + i + 1) (Nat.min MAX_PREFIX_LEN plen);
       Ok (c1, p)) = Ok (c1, buf) /\
    length buf = MAX_PREFIX_LEN /\ prefix_is (MkHdr (num_children h) plen buf) (drop (S i) q).
Proof.
  intros Hq Hp [r Hr] Hi plen. pose proof Hq as [Hlen _]. pose proof (lookup_lt_Some _ _ _ Hi) as Hil.
  assert (forall buf, take (Nat.min MAX_PREFIX_LEN plen) buf = take (Nat.min MAX_PREFIX_LEN plen) (drop (S i) q) ->
    prefix_is (MkHdr (num_children h) plen buf) (drop (S i) q)) as Hpre.
  { intros buf Hb. assert (length (drop (S i) q) = plen) as Hl by (rewrite length_drop; unfold plen; lia).
    apply prefix_is_intro; cbn [partial_len partial]; [done|]. by rewrite Hl. }
  destruct (Nat.leb_spec (partial_len h) MAX_PREFIX_LEN) as [Hs|Hs].
  - assert (take (length q) (partial h) = q) as Htk.
    { rewrite (prefix_is_stored h q) by (done || lia). by rewrite firstn_all. }
    rewrite (rd_lookup (partial h) i c1); cycle 1.
    { rewrite <- Hi, <- Htk at 1. rewrite lookup_take_lt by done. done. }
    cbn [mbind res_bind]. rewrite memmove_ok by (unfold plen; lia).
    eexists. split_and!; [done| |].
    + rewrite !length_app, !length_take, !length_drop. unfold plen. lia.
    + apply Hpre. rewrite take_0, app_nil_l.
      rewrite take_app_le by (rewrite length_take, length_drop; unfold plen; lia).
      rewrite take_take, Nat.min_id, Nat.add_1_r. apply take_eq_lookup. intros j Hj.
      rewrite !lookup_drop. rewrite <- Htk, lookup_take_lt; [done|unfold plen in *; lia].
  - cbn [mbind res_bind deref lkey leaf_of].
    assert (forall j, (j < length q)%nat -> (k0 ++ replicate leaf_slack 0) !! (length p + j)%nat = q !! j) as Hk0.
    { intros j Hj. rewrite Hr, <- !app_assoc, lookup_app_r by lia.
      rewrite lookup_app_l by lia. f_equal. lia. }
    rewrite (rd_lookup _ _ c1) by (by rewrite Hk0). cbn [mbind res_bind].
    rewrite memcpy_ok by (rewrite ?Hr, ?length_app; unfold plen; lia).
    eexists. split_and!; [done| |].
    + rewrite !length_app, !length_take, !length_drop, Hr, !length_app. unfold plen. lia.
    + apply Hpre. rewrite take_0, app_nil_l.
      rewrite take_app_le by (rewrite length_take, length_drop, Hr, !length_app; unfold plen; lia).
      rewrite take_take, Nat.min_id. apply take_eq_lookup. intros j Hj.
      rewrite !lookup_drop. rewrite <- Hk0 by (unfold plen in *; lia). f_equal. lia.
Qed.

Lemma split_path (p q : list Z) i c1 :
  q !! i = Some c1 -> (p ++ take i q ++ [c1]) ++ drop (S i) q = p ++ q.
Proof.
  intros Hi. rewrite <- !app_assoc. f_equal. cbn [app]. by apply take_drop_middle.
Qed.

Lemma split_prefix_spec {s} p q h kd ch m M k0 v0 i buf k v c1 c2 :
  node_abs s h kd ch m -> fanout_ok kd m -> prefix_is h q ->
  (forall k v, M !! k = Some v -> key_ok k /\ (p ++ q) `prefix_of` term k /\
     exists c, term k !! length (p ++ q) = Some c /\ is_Some (m !! c)) ->
  (forall c x, m !! c = Some x -> tree s (p ++ q ++ [c]) x (sub (length (p ++ q)) c M)) ->
  (p ++ q) `prefix_of` k0 -> c_string buf k -> (s = true -> ascii_key k) ->
  (p ++ take i q) `prefix_of` k -> q !! i = Some c1 -> term k !! (length p + i)%nat = Some c2 -> c1 <> c2 ->
  exists n', split_prefix h kd ch (Ok (Some (leaf_of k0 v0))) i buf (length k) v (length p) = Ok n' /\
    tree s p n' (<[k := v]> M).
Proof.
  intros Hna Hf Hq Hkeys Hch Hk0 Hs Hasc Hpk Hc1 Hc2 Hne. pose proof (lookup_lt_Some _ _ _ Hc1) as Hil.
  pose proof (na_partial _ _ _ _ _ Hna) as Hp. unfold split_prefix.
  destruct (new_node4_spec i (partial h) 0) as (nh & -> & Hn & Hpl & Hpar & Hst); [lia|]. cbn [mbind res_bind].
  destruct (split_rest h p q k0 v0 i c1) as (pb & E & Hlp & Hpre1); [done..|].
  cbn [mbind res_bind] in E. rewrite E. cbn [mbind res_bind]. rewrite make_leaf_spec by done. cbn [mbind res_bind].
  rewrite (rd_lookup buf _ c2) by (by eapply c_string_lookup). cbn [mbind res_bind].
  destruct (tree_nonempty (s := s) p (Inner h kd ch) M) as (k1 & v1 & Hk1); [by econstructor|].
  destruct (Hkeys k1 v1 Hk1) as (Hok1 & Hp1 & _).
  assert (term k1 !! (length p + i)%nat = Some c1) as Hk1c.
  { eapply prefix_lookup_Some; [|exact Hp1]. rewrite lookup_app_r by lia. rewrite <- Hc1. f_equal. lia. }
  pose proof (term_byte k1 _ _ Hok1 Hk1c) as Hb1.
  assert (s = true -> ascii_byte c1 /\ ascii_byte c2) as Hasc12.
  { intros Ht. split; [eapply term_ascii, Hk1c; eapply (tree_ascii p (Inner h kd ch)); [by econstructor|done..]
      |eapply term_ascii, Hc2; auto]. }
  pose proof (term_byte k _ _ (proj1 Hs) Hc2) as Hb2.
  destruct (add_two_spec s nh c1 (Inner (MkHdr (num_children h) (partial_len h - (i + 1)) pb) kd ch)
    c2 (Leaf (leaf_of k v))) as (h' & kd' & ch' & -> & Hna' & Hpre & Hf'); [done..|].
  eexists. split; [done|].
  assert (length (p ++ take i q) = (length p + i)%nat) as Hl by (rewrite length_app, length_take; lia).
  eapply (tree_two p (take i q) _ _ _ c1 _ c2); [done..| |done| |apply Hs|done| |by rewrite Hl].
  - eapply same_prefix_is; [done|]. split; [rewrite length_take; lia|].
    rewrite Hst, drop_0, (prefix_is_stored h q), take_take by (done || lia). done.
  - apply tree_inner with (q := drop (S i) q) (m := m); [|done|done| |];
      rewrite ?(split_path p q i c1) by done.
    + destruct Hna. by split.
    + done.
    + intros c x Hx. rewrite app_assoc, (split_path p q i c1) by done. rewrite <- app_assoc. by apply Hch.
  - etrans; [exact Hpk|]. by eexists.
Qed.

(** *** The recursion *)

(** [M] is spread over the children [m] below the path [p ++ q]. *)
Definition spread (s : bool) (p q : list Z) (m : gmap Z art_node) (M : amap) : Prop :=
  (forall k v, M !! k = Some v -> key_ok k /\ (p ++ q) `prefix_of` term k /\
     exists c, term k !! length (p ++ q) = Some c /\ is_Some (m !! c)) /\
  (forall c x, m !! c = Some x -> tree s (p ++ q ++ [c]) x (sub (length (p ++ q)) c M)).

Lemma spread_insert {s} p q m M c n' k v :
  spread s p q m M -> key_ok k -> (p ++ q) `prefix_of` term k -> term k !! length (p ++ q) = Some c ->
  tree s (p ++ q ++ [c]) n' (<[k := v]> (sub (length (p ++ q)) c M)) ->
  spread s p q (<[c := n']> m) (<[k := v]> M).
Proof.
  intros [Hkeys Hch] Hok Hp Hc Ht. split.
  - intros k' v' [[<- _]|[_ Hk']]%lookup_insert_Some.
    + split_and!; [done..|]. exists c. by rewrite lookup_insert_eq.
    + destruct (Hkeys k' v' Hk') as (? & ? & c' & ? & Hm). split_and!; [done..|]. exists c'. split; [done|].
      by apply lookup_insert_is_Some'; right.
  - intros c' x' [[<- <-]|[Hne Hx']]%lookup_insert_Some.
    + by rewrite sub_insert_same.
    + rewrite sub_insert_other by congruence. by apply Hch.
Qed.

Lemma spread_update {s} p q m M c n' k :
  spread s p q m M -> term k !! length (p ++ q) = Some c ->
  tree s (p ++ q ++ [c]) n' (delete k (sub (length (p ++ q)) c M)) ->
  spread s p q (<[c := n']> m) (delete k M).
Proof.
  intros [Hkeys Hch] Hc Ht. split.
  - intros k' v' [_ Hk']%lookup_delete_Some. destruct (Hkeys k' v' Hk') as (? & ? & c' & ? & Hm').
    split_and!; [done..|]. exists c'. split; [done|]. by apply lookup_insert_is_Some'; right.
  - intros c' x' [[<- <-]|[Hne Hx']]%lookup_insert_Some.
    + by rewrite sub_delete_same.
    + rewrite sub_delete_other by congruence. by apply Hch.
Qed.

(** A node keeps its kind and its path when one of its children is replaced. *)
Lemma tree_set_child {s} p q h kd ch m M c i x n' :
  node_abs s h kd ch m -> fanout_ok kd m -> prefix_is h q -> is_byte c ->
  slot_of (num_children h) kd c i -> m !! c = Some x ->
  spread s p q (<[c := n']> m) M -> tree s p (Inner h kd (<[i := Some n']> ch)) M.
Proof.
  intros Hna Hf Hq Hb Hslot Hm [Hkeys Hch].
  apply tree_inner with (q := q) (m := <[c := n']> m); [by apply set_child_abs| |done..].
  destruct kd; cbn [fanout_ok] in *; by rewrite map_size_insert_Some.
Qed.

(** The byte of the key has no child: a leaf for the key is added. *)
Lemma add_leaf_tree {s} p q h kd ch m M k v c :
  node_abs s h kd ch m -> fanout_ok kd m -> prefix_is h q -> spread s p q m M -> key_ok k ->
  (s = true -> ascii_key k) -> (p ++ q) `prefix_of` term k -> term k !! length (p ++ q) = Some c -> m !! c = None ->
  exists n', add_child h kd ch c (Leaf (leaf_of k v)) = Ok n' /\ tree s p n' (<[k := v]> M) /\ M !! k = None.
Proof.
  intros Hna Hf Hq Hsp Hok Hasc Hpq Hc Hm. pose proof (term_byte k _ _ Hok Hc) as Hb.
  assert (forall k2 v2, M !! k2 = Some v2 -> term k2 !! length (p ++ q) <> Some c) as Hnone.
  { intros k2 v2 Hk2 Hc2. destruct (proj1 Hsp k2 v2 Hk2) as (_ & _ & c2 & ? & [? ?]). congruence. }
  destruct (add_child_spec s h kd ch m c (Leaf (leaf_of k v))) as (h' & k' & ch' & -> & Hna' & Hpre & Hf');
    [done..|by intros Ht1; eapply term_ascii, Hc; auto|done|].
  eexists. split; [done|]. split; [|destruct (M !! k) eqn:Hk; [by apply Hnone in Hk|done]].
  destruct (spread_insert (s := s) p q m M c (Leaf (leaf_of k v)) k v) as [Hk1 Hc1]; [done..| |
    by eapply tree_inner; [done|done|by eapply same_prefix_is|done|done]].
  rewrite sub_none, insert_empty by done. apply tree_leaf; [done|done|].
  rewrite app_assoc. by apply prefix_snoc_lookup.
Qed.

Lemma recursive_insert_spec {s} p n M buf k v :
  tree s p n M -> c_string buf k -> (s = true -> ascii_key k) -> p `prefix_of` term k ->
  exists n', recursive_insert n buf (length k) v (length p) =
      Ok (default NULL (M !! k), bool_decide (is_Some (M !! k)), n') /\
    tree s p n' (<[k := v]> M).
Proof.
  intros Ht Hs Hasc. induction Ht as [p k' v' Hok Hasc' Hp|p q h kd ch m M Hna Hf Hq Hkeys Hch IH]; intros Hpk.
  { by apply split_leaf_spec. }
  assert (tree s p (Inner h kd ch) M) as Ht by (by econstructor).
  pose proof (inner_path _ _ _ _ _ _ Ht Hpk) as Hpk'.
  destruct (extremal_leaf _ _ _ Ht) as [(k0 & v0 & Hmin & Hk0) _].
  destruct (Hkeys k0 v0 Hk0) as (Hok0 & Hpq0 & c0 & Hc0 & _).
  destruct (proper_prefix _ _ _ Hpq0 Hc0) as [Hpq0' _].
  cbn [recursive_insert]. cbn [minimum] in Hmin |- *. rewrite Hmin.
  destruct (prefix_diff_spec h p q k0 v0 buf k) as (i & Hi & Hparts); [done|apply Hna|done..|].
  unfold prefix_diff in Hi. rewrite Hi. cbn [mbind res_bind]. unfold parts_at in Hparts.
  rewrite (proj1 Hq). destruct (Nat.leb_spec (length q) i) as [Hqi|Hqi]; cycle 1.
  { destruct Hparts as (Hpi & c1 & c2 & Hc1 & Hc2 & Hne).
    destruct (split_prefix_spec (s := s) p q h kd ch m M k0 v0 i buf k v c1 c2) as (n' & -> & Ht'); [done..|].
    cbn [mbind res_bind]. exists n'. split; [|done].
    assert (M !! k = None) as ->; [|done]. destruct (M !! k) as [w|] eqn:Hw; [exfalso|done].
    destruct (Hkeys k w Hw) as (_ & Hpq & _).
    rewrite (lookup_prefix (term k) (p ++ q)) in Hc2 by (done || (rewrite length_app; lia)).
    rewrite lookup_app_r in Hc2 by lia. replace (length p + i - length p)%nat with i in Hc2 by lia. congruence. }
  assert (length (p ++ q) = (length p + length q)%nat) as Hlpq by apply length_app.
  destruct (lookup_lt_is_Some_2 (term k) (length p + length q)) as [c Hc].
  { apply prefix_length in Hparts. rewrite length_term. lia. }
  rewrite (rd_lookup buf _ c) by (by eapply c_string_lookup). cbn [mbind res_bind].
  pose proof (term_byte k _ _ (proj1 Hs) Hc) as Hb. rewrite <- Hlpq in Hc.
  assert ((p ++ q) `prefix_of` term k) as Hpq by (etrans; [exact Hparts|by eexists]).
  destruct (find_child_spec s h kd ch m c) as (o & -> & Hfound & Hslot); [done..|]. cbn [mbind res_bind].
  destruct o as [j|]; cbn [found] in Hfound.
  - destruct Hfound as (x & Hx & Hm). rewrite nth_with_lookup, Hx.
    destruct (IH c x Hm) as (n' & E & Ht').
    { rewrite app_assoc. by apply prefix_snoc_lookup. }
    rewrite !length_app in E. cbn [length] in E. rewrite Nat.add_assoc in E. rewrite E.
    cbn [mbind res_bind]. rewrite <- Hlpq, sub_lookup_at by done. eexists. split; [done|].
    eapply tree_set_child; [done..|]. apply spread_insert; [by split|apply Hs|done..].
  - rewrite make_leaf_spec by done. cbn [mbind res_bind].
    destruct (add_leaf_tree (s := s) p q h kd ch m M k v c) as (n' & -> & Ht' & ->); [done|done|done|by split|apply Hs|done..|].
    cbn [mbind res_bind]. by eexists.
Qed.

(** ** Deletion *)

Lemma leaf_of_inj k v k' v' : leaf_of k v = leaf_of k' v' -> k = k' /\ v = v'.
Proof.
  unfold leaf_of. intros [= Hv Hlen Hl]. apply (f_equal (take (length k))) in Hl.
  rewrite take_app_length, Hlen, take_app_length in Hl. done.
Qed.

Lemma tree_leaf_inv {s} p l M :
  tree s p (Leaf l) M ->
  exists k v, l = leaf_of k v /\ key_ok k /\ p `prefix_of` term k /\ M = {[ k := v ]} /\ (s = true -> ascii_key k).
Proof. inversion 1 as [? k v Hok Hasc Hp|]; subst. by exists k, v. Qed.

Lemma tree_header {s} p n M h kd ch :
  tree s p n M -> n = Inner h kd ch -> length (partial h) = MAX_PREFIX_LEN /\ exists q, prefix_is h q.
Proof.
  intros Ht ->. inversion Ht as [|? q ? ? ? m ? Hna Hf Hq Hkeys Hch]; subst. split; [apply Hna|by exists q].
Qed.

Lemma spread_single {s} p q c x M : spread s p q {[ c := x ]} M -> tree s (p ++ q ++ [c]) x M.
Proof.
  intros [Hkeys Hch]. specialize (Hch c x (lookup_singleton_eq _ _)).
  rewrite sub_all in Hch; [done|]. intros k v Hk.
  destruct (Hkeys k v Hk) as (_ & _ & c' & Hc' & [y Hy]). by apply lookup_singleton_Some in Hy as [<- _].
Qed.

(** The node that is left when a child has been removed represents what is left
    of the map. *)
Lemma shrunk_tree {s} p q h m' M n' :
  shrunk s h m' n' -> prefix_is h q -> spread s p q m' M -> tree s p n' M.
Proof.
  intros Hsh Hq Hspread. destruct Hsh as [h' k' ch' Hna Hpre Hf|c l ->|c ch ck cc ch' -> Hcat].
  - destruct Hspread. eapply tree_inner; [done|done|by eapply same_prefix_is|done|done].
  - apply spread_single, tree_leaf_inv in Hspread as (k & v & -> & Hok & Hp & -> & Hasc).
    apply tree_leaf; [done|done|]. etrans; [|exact Hp]. by eexists.
  - apply spread_single in Hspread. inversion Hspread as [|? qc ? ? ? m ? Hna Hf Hqc Hkeys Hch]; subst.
    destruct (Hcat q qc Hq Hqc) as (Hq' & Hl' & Hn'); [apply Hna|].
    assert (p ++ q ++ c :: qc = (p ++ q ++ [c]) ++ qc) as Hpath by (by rewrite <- !app_assoc).
    apply tree_inner with (q := q ++ c :: qc) (m := m); [|done|done| |].
    + destruct Hna as [_ Hb Ho Hk]. split; [done|done|..]; by rewrite Hn'.
    + by rewrite Hpath.
    + intros c' x' Hx'. rewrite Hpath. specialize (Hch c' x' Hx').
      by replace (p ++ (q ++ c :: qc) ++ [c']) with ((p ++ q ++ [c]) ++ qc ++ [c']) by (by rewrite <- !app_assoc).
Qed.

Lemma spread_delete {s} p q m M k v c :
  spread s p q m M -> m !! c = Some (Leaf (leaf_of k v)) ->
  term k !! length (p ++ q) = Some c -> spread s p q (delete c m) (delete k M).
Proof.
  intros [Hkeys Hch] Hc Hkc. pose proof (Hch c _ Hc) as Hleaf.
  destruct (tree_leaf_inv _ _ _ Hleaf) as (k1 & v1 & [<- <-]%leaf_of_inj & Hok & _ & HM & _).
  split.
  - intros k' v' [Hne Hk']%lookup_delete_Some.
    destruct (Hkeys k' v' Hk') as (? & ? & c' & Hc' & Hm). split_and!; [done..|]. exists c'. split; [done|].
    rewrite lookup_delete_ne; [done|]. intros <-.
    assert (sub (length (p ++ q)) c M !! k' = Some v') as E by (by apply sub_lookup).
    rewrite HM in E. by apply lookup_singleton_Some in E as [? _].
  - intros c' x' [Hne Hx']%lookup_delete_Some. rewrite sub_delete_other by congruence. by apply Hch.
Qed.

Definition deleted (s : bool) (p : list Z) (n : art_node) (M : amap) (k : akey) (r : res (option art_leaf * option art_node)) : Prop :=
  match r with
  | Ok (o, n') =>
      match M !! k with
      | Some v => o = Some (leaf_of k v) /\
          match n' with None => delete k M = ∅ | Some n1 => tree s p n1 (delete k M) end
      | None => o = None /\ n' = Some n
      end
  | Err _ => M !! k = None
  end.

(** The key is below a child that is an inner node: the child is replaced. *)
Lemma deleted_inner {s} p q h kd ch m M k c i ch1 ck1 cc1 r :
  node_abs s h kd ch m -> fanout_ok kd m -> prefix_is h q -> spread s p q m M -> is_byte c ->
  slot_of (num_children h) kd c i -> m !! c = Some (Inner ch1 ck1 cc1) -> ch !! i = Some (Some (Inner ch1 ck1 cc1)) ->
  (forall v, M !! k = Some v -> term k !! length (p ++ q) = Some c) ->
  deleted s (p ++ q ++ [c]) (Inner ch1 ck1 cc1) (sub (length (p ++ q)) c M) k r ->
  deleted s p (Inner h kd ch) M k ('(l, q') ← r; Ok (l, Some (Inner h kd (<[i := q']> ch)))).
Proof.
  intros Hna Hf Hq Hsp Hb Hslot Hm Hx Hkc IH. pose proof (proj2 Hsp c _ Hm) as Hcx.
  destruct (inner_other _ _ _ _ _ k Hcx) as (k2 & v2 & Hne2 & Hk2).
  destruct (M !! k) as [v|] eqn:Hv; cycle 1.
  - assert (sub (length (p ++ q)) c M !! k = None) as Hn.
    { destruct (sub _ c M !! k) eqn:E; [|done]. apply sub_lookup in E as [? _]. congruence. }
    destruct r as [[o n1]|e]; cbn [mbind res_bind deleted] in *; rewrite Hv; [|done].
    rewrite Hn in IH. destruct IH as [-> ->]. by rewrite list_insert_id.
  - specialize (Hkc v eq_refl). assert (sub (length (p ++ q)) c M !! k = Some v) as Hs by (by rewrite sub_lookup_at).
    destruct r as [[o n1]|e]; cbn [mbind res_bind deleted] in *; rewrite Hs in IH; [|done].
    rewrite Hv. destruct IH as [-> IH]. split; [done|]. destruct n1 as [n1|]; cycle 1.
    { assert (delete k (sub (length (p ++ q)) c M) !! k2 = Some v2) as E by (by rewrite lookup_delete_ne).
      by rewrite IH in E. }
    eapply tree_set_child; [done..|]. by apply spread_update.
Qed.

(** The key is below a child that is a leaf: the child is removed when it is the
    leaf of the key. *)
Lemma deleted_leaf {s} p q h kd ch m M buf k c i l :
  node_abs s h kd ch m -> prefix_is h q -> spread s p q m M -> c_string buf k -> is_byte c ->
  slot_of (num_children h) kd c i -> m !! c = Some (Leaf l) -> ch !! i = Some (Some (Leaf l)) ->
  fanout_ok kd m -> (forall v, M !! k = Some v -> term k !! length (p ++ q) = Some c) ->
  deleted s p (Inner h kd ch) M k
    (b ← leaf_matches l buf (length k);
     if (b : bool) then n' ← remove_child h kd ch c i; Ok (Some l, Some n') else Ok (None, Some (Inner h kd ch))).
Proof.
  intros Hna Hq Hsp Hs Hb Hslot Hm Hx Hf Hkc.
  destruct (tree_leaf_inv _ _ _ (proj2 Hsp c _ Hm)) as (k1 & v1 & -> & Hok1 & _ & HM1 & _).
  rewrite leaf_matches_spec by done. cbn [mbind res_bind].
  destruct (bool_decide_reflect (k1 = k)) as [->|Hne]; cycle 1.
  { cbn. destruct (M !! k) as [v|] eqn:Hv; [exfalso|done]. specialize (Hkc v eq_refl).
    assert (sub (length (p ++ q)) c M !! k = Some v) as E by (by rewrite sub_lookup_at).
    rewrite HM1 in E. by rewrite lookup_singleton_ne in E. }
  destruct (remove_child_spec s h kd ch m c (Leaf (leaf_of k v1)) i) as (n' & -> & Hsh); [done..| |by exists q|].
  { intros c' ch' ck cc Hc'. eapply tree_header; [by apply (proj2 Hsp c')|done]. }
  cbn [mbind res_bind deleted].
  assert (sub (length (p ++ q)) c M !! k = Some v1) as [Hv Hkd]%sub_lookup by (by rewrite HM1, lookup_singleton_eq).
  rewrite Hv. split; [done|]. eapply shrunk_tree; [done..|]. by eapply spread_delete.
Qed.

Lemma recursive_delete_spec {s} p n M buf k :
  tree s p n M -> c_string buf k -> deleted s p n M k (recursive_delete n buf (length k) (length p)).
Proof.
  intros Ht Hs. induction Ht as [p k' v Hok Hasc' Hp|p q h kd ch m M Hna Hf Hq Hkeys Hch IH]; cbn [recursive_delete].
  { rewrite leaf_matches_spec by done. cbn [mbind res_bind]. destruct (bool_decide_reflect (k' = k)) as [->|Hne]; cbn.
    - rewrite lookup_singleton_eq. split; [done|]. apply delete_singleton_eq.
    - by rewrite lookup_singleton_ne. }
  assert (forall v, M !! k = Some v -> exists c, term k !! length (p ++ q) = Some c /\ buf !! length (p ++ q) = Some c /\
    is_Some (m !! c) /\ (p ++ q) `prefix_of` k) as Hin.
  { intros v Hv. destruct (Hkeys k v Hv) as (_ & Hpq & c & Hc & Hm). exists c.
    split_and!; [done|by eapply c_string_lookup|done|]. by eapply proper_prefix. }
  destruct (pass_prefix_spec h q buf k (length p)) as (o & -> & Ho); [done|apply Hna|done|].
  cbn [mbind res_bind]. destruct o as [d|]; cycle 1.
  { cbn. destruct (M !! k) as [v|] eqn:Hv; [exfalso|done]. destruct (Hin v eq_refl) as (_ & _ & _ & _ & [r ->]).
    apply Ho. rewrite <- app_assoc, drop_app_length. by eexists. }
  destruct Ho as [-> _]. rewrite length_app in Hin.
  unfold rd. destruct (buf !! (length p + length q)%nat) as [c|] eqn:Hc; cbn [mbind res_bind]; cycle 1.
  { cbn. destruct (M !! k) as [v|] eqn:Hv; [exfalso|done]. by destruct (Hin v eq_refl) as (c & _ & ? & _). }
  assert (is_byte c) as Hb by (by eapply Forall_lookup_1; [apply Hs|]).
  destruct (find_child_spec s h kd ch m c) as (o & -> & Hfound & Hslot); [done..|].
  cbn [mbind res_bind]. destruct o as [i|]; cbn [found] in Hfound; cycle 1.
  { cbn. destruct (M !! k) as [v|] eqn:Hv; [exfalso|done].
    destruct (Hin v eq_refl) as (c' & _ & ? & [? ?] & _). congruence. }
  destruct Hfound as (x & Hx & Hm). rewrite nth_with_lookup, Hx.
  assert (forall v, M !! k = Some v -> term k !! length (p ++ q) = Some c) as Hkc.
  { intros v Hv. destruct (Hin v Hv) as (c' & ? & ? & _). rewrite length_app. congruence. }
  destruct x as [l|ch1 ck1 cc1].
  - by eapply deleted_leaf.
  - eapply deleted_inner; [done..|]. specialize (IH c _ Hm).
    replace (length p + length q + 1)%nat with (length (p ++ q ++ [c])) by (rewrite !length_app; cbn; lia). done.
Qed.

Lemma recursive_delete_short {s} p n M buf k :
  tree s p n M -> c_string buf k -> p `prefix_of` term k -> short_paths n = true ->
  exists r, recursive_delete n buf (length k) (length p) = Ok r.
Proof.
  intros Ht Hs. pose proof (recursive_delete_spec p n M buf k Ht Hs) as Hspec.
  induction Ht as [p k' v Hok Hasc' Hp|p q h kd ch m M Hna Hf Hq Hkeys Hch IH]; intros Hpk Hshort; cbn [recursive_delete].
  { rewrite leaf_matches_spec by done. by eexists. }
  assert (p `prefix_of` k) as Hpk' by (eapply inner_path; [by econstructor|done]).
  destruct (pass_prefix_spec h q buf k (length p)) as (o & -> & Ho); [done|apply Hna|done|].
  cbn [mbind res_bind]. destruct o as [d|]; [|by eexists]. destruct Ho as [-> Ho].
  assert ((p ++ q) `prefix_of` k) as Hpq.
  { apply drop_prefix; [done|]. apply Ho. rewrite <- (proj1 Hq).
    cbn in Hshort. by apply andb_prop in Hshort as [?%Nat.leb_le _]. }
  destruct (lookup_lt_is_Some_2 (term k) (length p + length q)) as [c Hc].
  { apply prefix_length in Hpq. rewrite length_app in Hpq. rewrite length_term. lia. }
  rewrite (rd_lookup buf _ c) by (by eapply c_string_lookup). cbn [mbind res_bind].
  destruct (find_child_spec s h kd ch m c) as (o & -> & Hfound & Hslot); [done|by eapply term_byte; [apply Hs|]|].
  cbn [mbind res_bind]. destruct o as [i|]; [|by eexists]. destruct Hfound as (x & Hx & Hm).
  rewrite nth_with_lookup, Hx. pose proof (Hch c x Hm) as Hcx.
  destruct x as [l|ch1 ck1 cc1].
  - destruct (tree_leaf_inv _ _ _ Hcx) as (k1 & v1 & -> & Hok1 & _ & HM1 & _).
    rewrite leaf_matches_spec by done. cbn [mbind res_bind]. case_bool_decide; [|by eexists].
    destruct (remove_child_spec s h kd ch m c (Leaf (leaf_of k1 v1)) i) as (n' & -> & Hsh); [done..| |by exists q|by eexists].
    intros c' ch' ck cc Hc'. eapply tree_header; [by apply (Hch c')|done].
  - destruct (IH c _ Hm) as [[o q'] Hr].
    + by apply recursive_delete_spec.
    + rewrite app_assoc. apply prefix_snoc_lookup; [|by rewrite length_app].
      etrans; [exact Hpq|]. by eexists.
    + by eapply short_paths_child.
    + rewrite !length_app in Hr. cbn [length] in Hr. rewrite Nat.add_assoc in Hr. rewrite Hr. by eexists.
Qed.

(** ** Traversal *)

Section iter_list.
Context {S : Type} (cb : S -> list Z -> nat -> Z -> S * Z).

Lemma iter_list_app a b data :
  iter_list leaf_slack cb (a ++ b) data =
  let '(data, r) := iter_list leaf_slack cb a data in
  if r =? 0 then iter_list leaf_slack cb b data else (data, r).
Proof.
  revert data. induction a as [|[k v] a IH]; intros data; [done|]. cbn [iter_list app].
  destruct (cb data (k ++ replicate leaf_slack 0) (length k) v) as [data' r].
  destruct (r =? 0) eqn:E; [apply IH|]. by rewrite E.
Qed.
End iter_list.

(** The key and value of a leaf. *)
Definition leaf_kv (n : art_node) : option (akey * Z) :=
  match n with
  | Leaf l => Some (take (key_len l) (lkey l), value l)
  | Inner _ _ _ => None
  end.

(** *** The order of keys *)

(** The order of [strcmp] on keys: a key comes before its extensions. *)
Fixpoint key_ltb (a b : akey) : bool :=
  match a, b with
  | _, [] => false
  | [], _ :: _ => true
  | x :: a', y :: b' => (x <? y) || ((x =? y) && key_ltb a' b')
  end.
Definition key_lt (a b : akey) : Prop := key_ltb a b = true.
#[export] Instance key_lt_dec a b : Decision (key_lt a b).
Proof. unfold key_lt. apply _. Defined.

(** Keys that share a path compare by the byte behind it. *)
Lemma key_lt_branch p k k' c c' :
  key_ok k -> key_ok k' -> p `prefix_of` term k -> p `prefix_of` term k' ->
  term k !! length p = Some c -> term k' !! length p = Some c' -> c < c' -> key_lt k k'.
Proof.
  unfold key_lt. revert k k'. induction p as [|a p IH]; intros k k' Hk Hk' Hp Hp' Hc Hc' Hlt.
  - destruct k as [|x k], k' as [|y k']; cbn in Hc, Hc' |- *; simplify_eq; [lia|done| |].
    + apply (key_ok_lookup _ 0 c) in Hk; [lia|done].
    + apply orb_true_iff. left. by apply Z.ltb_lt.
  - destruct k as [|x k].
    { destruct p; [done|]. destruct Hp as [r Hr]. cbn in Hr. by injection Hr. }
    destruct k' as [|y k'].
    { destruct p; [done|]. destruct Hp' as [r Hr]. cbn in Hr. by injection Hr. }
    apply list.Forall_cons in Hk as [_ Hk], Hk' as [_ Hk'].
    unfold term in Hp, Hp'. cbn in Hp, Hp', Hc, Hc'.
    pose proof (prefix_cons_inv_1 _ _ _ _ Hp) as <-. pose proof (prefix_cons_inv_1 _ _ _ _ Hp') as <-.
    apply prefix_cons_inv_2 in Hp, Hp'. cbn. rewrite Z.eqb_refl, Z.ltb_irrefl. cbn. by apply IH.
Qed.

Lemma sorted_concat (d : nat) (M : amap) (es : list (Z * art_node)) (kvss : list (list (akey * Z))) (p : list Z) :
  length p = d -> (forall k v, M !! k = Some v -> key_ok k /\ p `prefix_of` term k) ->
  StronglySorted Z.lt es.*1 ->
  Forall2 (fun e kvs => enumerates kvs (sub d e.1 M) /\ StronglySorted key_lt kvs.*1) es kvss ->
  StronglySorted key_lt (concat kvss).*1.
Proof.
  intros Hd HM Hes Hall. induction Hall as [|[c x] kvs es kvss [[_ He] Hs] Hall IH]; [constructor|].
  cbn in Hes. apply StronglySorted_cons in Hes as [Hlt Hes]. cbn [concat]. rewrite fmap_app.
  apply StronglySorted_app. split_and!; [|done|by apply IH].
  intros k k' ((k1 & v1) & -> & Hin)%list_elem_of_fmap ((k2 & v2) & -> & Hin2)%list_elem_of_fmap. cbn [fst].
  apply He, sub_lookup in Hin as [Hk1 Hd1].
  apply list_elem_of_In, in_concat in Hin2 as (kvs2 & Hkvs2%list_elem_of_In & Hin2%list_elem_of_In).
  apply list_elem_of_lookup in Hkvs2 as [j Hj].
  destruct (Forall2_lookup_r _ _ _ _ _ Hall Hj) as ([c2 x2] & Hj2 & [_ He2] & _).
  rewrite He2, sub_lookup in Hin2. destruct Hin2 as [Hk2 Hd2]. cbn [fst] in Hd1, Hd2.
  destruct (HM _ _ Hk1), (HM _ _ Hk2). rewrite <- Hd in Hd1, Hd2. eapply key_lt_branch; [done..|].
  rewrite list.Forall_forall in Hlt. apply Hlt, list_elem_of_fmap. exists (c2, x2).
  split; [done|]. by eapply list_elem_of_lookup_2.
Qed.

(** [kvs] is the order in which iteration visits, and destruction frees, the
    leaves below [n]; [minimum] and [maximum] find its ends. *)
Definition traversal (n : art_node) (kvs : list (akey * Z)) : Prop :=
  (forall S (cb : S -> list Z -> nat -> Z -> S * Z) data,
     recursive_iter cb n data = Ok (iter_list leaf_slack cb kvs data)) /\
  (exists freed, destroy_node n = Ok (freed ++ [n]) /\ omap leaf_kv (freed ++ [n]) = kvs) /\
  minimum n = Ok (kv_leaf <$> head kvs) /\
  maximum n = Ok (kv_leaf <$> list.last kvs) /\ kvs <> [].

Lemma enumerates_concat (d : nat) (M : amap) (es : list (Z * art_node)) (kvss : list (list (akey * Z))) :
  NoDup es.*1 -> Forall2 (fun e kvs => enumerates kvs (sub d e.1 M)) es kvss ->
  (forall k v, M !! k = Some v -> exists c, term k !! d = Some c /\ c ∈ es.*1) ->
  enumerates (concat kvss) M.
Proof.
  intros Hnd Hall HM. split.
  - clear HM. induction Hall as [|[c x] kvs es kvss [Hn He] Hall IH]; [constructor|].
    cbn in Hnd. inversion Hnd as [|? ? Hc Hnd']; subst. cbn. rewrite fmap_app. apply list.NoDup_app. split_and!; [done| |by apply IH].
    intros k ((k1 & v1) & -> & Hin)%list_elem_of_fmap ((k2 & v2) & Heq & Hin2)%list_elem_of_fmap. cbn in Heq. subst k2.
    apply He, sub_lookup in Hin as [_ Hd]. apply Hc.
    apply list_elem_of_In, in_concat in Hin2 as (kvs2 & Hkvs2%list_elem_of_In & Hin2%list_elem_of_In).
    apply list_elem_of_lookup in Hkvs2 as [j Hj].
    destruct (Forall2_lookup_r _ _ _ _ _ Hall Hj) as ([c2 x2] & Hj2 & _ & He2).
    rewrite He2, sub_lookup in Hin2. destruct Hin2 as [_ Hd2]. cbn in Hd, Hd2. assert (c2 = c) as -> by congruence.
    apply list_elem_of_fmap. exists (c, x2). split; [done|]. by eapply list_elem_of_lookup_2.
  - intros k v. rewrite list_elem_of_In, in_concat. split.
    + intros (kvs & Hkvs%list_elem_of_In & Hin%list_elem_of_In). apply list_elem_of_lookup in Hkvs as [j Hj].
      destruct (Forall2_lookup_r _ _ _ _ _ Hall Hj) as ([c x] & _ & _ & He).
      rewrite He, sub_lookup in Hin. by destruct Hin.
    + intros Hk. destruct (HM k v Hk) as (c & Hc & ((c' & x) & -> & Hin)%list_elem_of_fmap).
      apply list_elem_of_lookup in Hin as [j Hj].
      destruct (Forall2_lookup_l _ _ _ _ _ Hall Hj) as (kvs & Hj' & _ & He). exists kvs.
      rewrite <- !list_elem_of_In. split; [by eapply list_elem_of_lookup_2|]. by apply He, sub_lookup.
Qed.

Lemma traversal_extremes ch idxs (es : list (Z * art_node)) kvss h kd i i' :
  Forall2 (fun i e => ch !! i = Some (Some e.2)) idxs es ->
  Forall2 (fun e kvs => traversal e.2 kvs) es kvss ->
  first_slot h kd ch = Ok i -> head idxs = Some i -> last_slot h kd ch = Ok i' -> list.last idxs = Some i' ->
  minimum (Inner h kd ch) = Ok (kv_leaf <$> head (concat kvss)) /\
  maximum (Inner h kd ch) = Ok (kv_leaf <$> list.last (concat kvss)) /\ concat kvss <> [].
Proof.
  intros Hidx Htr Hf Hi Hl Hi'. cbn [minimum maximum]. rewrite Hf, Hl. cbn [mbind res_bind].
  rewrite !nth_with_lookup. split_and!.
  - destruct Hidx as [|i0 [c x] idxs es Hx Hidx]; [done|]. injection Hi as ->. rewrite Hx.
    inversion Htr as [|? kvs ? kvss' (_ & _ & Hmin & _ & Hne) Htr']; subst. cbn in Hmin |- *.
    rewrite Hmin. by destruct kvs.
  - apply last_Some in Hi' as [idxs' ->].
    apply Forall2_app_inv_l in Hidx as (es1 & es2 & Hidx1 & Hidx2 & ->).
    inversion Hidx2 as [|? [c x] ? ? Hx Hnil]; subst. inversion Hnil; subst. rewrite Hx.
    apply Forall2_app_inv_l in Htr as (kvss1 & kvss2 & Htr1 & Htr2 & ->).
    inversion Htr2 as [|? kvs ? ? (_ & _ & _ & Hmax & Hne) Hnil']; subst. inversion Hnil'; subst.
    cbn in Hmax. cbn [snd]. rewrite Hmax, concat_app. cbn. rewrite app_nil_r, last_app.
    destruct (list.last kvs) as [kv|] eqn:E; [done|]. by apply last_None in E.
  - destruct Hidx as [|i0 [c x] idxs es Hx Hidx]; [done|].
    inversion Htr as [|? kvs ? kvss' (_ & _ & _ & _ & Hne) Htr']; subst. cbn. by destruct kvs.
Qed.

Lemma traversal_concat ch idxs (es : list (Z * art_node)) kvss h kd i i' :
  Forall2 (fun i e => ch !! i = Some (Some e.2)) idxs es ->
  Forall2 (fun e kvs => traversal e.2 kvs) es kvss -> slots h kd ch = idxs ->
  first_slot h kd ch = Ok i -> head idxs = Some i -> last_slot h kd ch = Ok i' -> list.last idxs = Some i' ->
  traversal (Inner h kd ch) (concat kvss).
Proof.
  intros Hidx Htr Hsl Hf Hi Hl Hi'. split_and!; [| |by eapply traversal_extremes..].
  all: clear i i' Hf Hi Hl Hi'.
  - intros S cb data. cbn [recursive_iter]. rewrite Hsl. clear Hsl. revert kvss Htr data.
    induction Hidx as [|i [c x] idxs es Hi _ IH]; intros kvss Htr data;
      inversion Htr as [|? kvs ? kvss' Hx Htr']; subst; [done|].
    rewrite nth_with_lookup, Hi. cbn [snd]. destruct Hx as [Hx _]. rewrite Hx. cbn [mbind res_bind concat].
    rewrite iter_list_app. destruct (iter_list leaf_slack cb kvs data) as [data' r].
    destruct (r =? 0); [|done]. by apply IH.
  - cbn [destroy_node]. rewrite Hsl. clear Hsl. revert kvss Htr.
    induction Hidx as [|i [c x] idxs es Hi _ IH]; intros kvss Htr;
      inversion Htr as [|? kvs ? kvss' Hx Htr']; subst; [by exists []|].
    rewrite nth_with_lookup, Hi. cbn [snd]. destruct Hx as (_ & (fx & Hfx & Ho) & _). cbn [snd] in Hfx, Ho. rewrite Hfx. cbn [mbind res_bind].
    destruct (IH _ Htr') as (fr & Hfr & Hor). apply bind_Ok in Hfr as (fr' & -> & Hfr'). injection Hfr' as Hfr'.
    apply app_inj_tail in Hfr' as [-> _]. cbn [mbind res_bind]. eexists. split; [done|].
    rewrite <- app_assoc, omap_app, Ho, Hor. done.
Qed.

Lemma tree_traversal {s} p n M :
  tree s p n M ->
  exists kvs, enumerates kvs M /\ traversal n kvs /\ (s = true -> StronglySorted key_lt kvs.*1).
Proof.
  induction 1 as [p k v Hok Hasc Hp|p q h kd ch m M Hna Hf Hq Hkeys Hch IH].
  { exists [(k, v)]. split_and!; [split; [apply NoDup_singleton|]|split_and!; [| |done..]|by repeat constructor].
    - intros k' v'. rewrite list_elem_of_singleton, lookup_singleton_Some.
      split; [by intros [= -> ->]|by intros [-> ->]].
    - intros S cb data. cbn. destruct (cb data _ _ _) as [data' r]. destruct (Z.eqb_spec r 0) as [->|]; done.
    - exists []. split; [done|]. cbn. by rewrite take_app_length. }
  destruct (slots_spec s h kd ch m Hna) as (es & Hes & Hnd & Hmap & Hso).
  assert (exists kvss, Forall2 (fun e kvs => enumerates kvs (sub (length (p ++ q)) e.1 M) /\ traversal e.2 kvs /\
    (s = true -> StronglySorted key_lt kvs.*1)) es kvss) as [kvss Hkvss].
  { apply Forall_exists_Forall2_l, list.Forall_forall. intros [c x] Hin. apply (IH c x).
    rewrite <- Hmap. by apply elem_of_list_to_map_1. }
  exists (concat kvss). split_and!.
  - apply (enumerates_concat (length (p ++ q)) M es); [done| |].
    + eapply list.Forall2_impl; [exact Hkvss|]. by intros ? ? [].
    + intros k v Hk. destruct (Hkeys k v Hk) as (_ & _ & c & Hc & [x Hx]). exists c. split; [done|].
      rewrite <- Hmap in Hx. apply elem_of_list_to_map_2 in Hx. apply list_elem_of_fmap. by exists (c, x).
  - destruct (extremal_slots s h kd ch m Hna Hf) as [(i & Hi1 & Hi2) (i' & Hi3 & Hi4)].
    eapply traversal_concat; [done| |done..]. eapply list.Forall2_impl; [exact Hkvss|]. by intros ? ? (? & ? & ?).
  - intros Ht. eapply (sorted_concat _ M es kvss (p ++ q)); [done| |by apply Hso|].
    + intros k v Hk. by destruct (Hkeys k v Hk) as (? & ? & _).
    + eapply list.Forall2_impl; [exact Hkvss|]. intros ? ? (? & ? & ?). auto.
Qed.

End ArtTreeSpec.
