(* ===== verification/ArtPrefix.v ===== *)
(** * Adaptive radix tree: iteration over the keys with a prefix

    [art_iter_prefix] follows the bytes of the prefix.  When some key of the
    tree starts with it, it calls back for exactly the entries whose keys do. *)

From stdpp Require Import gmap sorting.
From S2P Require Import Prelude CString ArtNode ArtTree ArtNodeSpec ArtShrink ArtTreeSpec.

Module ArtPrefix.
Import CStr Art ArtOps ArtSpec ArtShrink ArtTreeSpec.

(** The entries whose keys start with [pfx]. *)
Definition with_prefix (pfx : akey) (M : amap) : amap := filter (fun kv => pfx `prefix_of` kv.1) M.

Lemma leaf_prefix_spec k v buf pfx :
  c_string buf pfx -> leaf_prefix_matches (leaf_of k v) buf (length pfx) = Ok (bool_decide (pfx `prefix_of` k)).
Proof.
  intros Hs. destruct (c_string_take _ _ Hs) as [Ht Hl]. unfold leaf_prefix_matches. cbn [key_len leaf_of lkey].
  destruct (Nat.ltb_spec (length k) (length pfx)) as [Hlt|Hge].
  - rewrite bool_decide_eq_false_2; [done|]. intros Hp%prefix_length. lia.
  - unfold memeq. rewrite decide_True by (rewrite length_app; lia). f_equal.
    rewrite Ht, take_app_le by done. apply bool_decide_ext. split.
    + intros <-. apply prefix_take.
    + intros [r ->]. by rewrite take_app_length.
Qed.

(** The whole subtree, when all its keys start with the prefix. *)
Lemma whole_subtree {s} p n M pfx :
  tree s p n M -> (forall k v, M !! k = Some v -> pfx `prefix_of` k) ->
  exists kvs, enumerates kvs (with_prefix pfx M) /\
    forall S (cb : S -> list Z -> nat -> Z -> S * Z) data, recursive_iter cb n data = Ok (iter_list leaf_slack cb kvs data).
Proof.
  intros Ht Hall. destruct (tree_traversal _ _ _ Ht) as (kvs & He & (Hit & _) & _). exists kvs. split; [|done].
  unfold with_prefix. rewrite map_filter_id; [done|]. intros k v Hk. by eapply Hall.
Qed.

Lemma with_prefix_sub d c pfx M :
  (forall k v, M !! k = Some v -> pfx `prefix_of` k -> term k !! d = Some c) ->
  with_prefix pfx (sub d c M) = with_prefix pfx M.
Proof.
  intros H. apply map_eq. intros k. apply option_eq. intros v. unfold with_prefix.
  rewrite !map_lookup_filter_Some, sub_lookup. cbn. naive_solver.
Qed.

(** The outcome of an iteration that visits [M]'s entries with the prefix. *)
Definition visits_prefix (pfx : akey) (M : amap) (run : forall S, (S -> list Z -> nat -> Z -> S * Z) -> S -> res (S * Z)) : Prop :=
  exists kvs, enumerates kvs (with_prefix pfx M) /\
    forall S (cb : S -> list Z -> nat -> Z -> S * Z) data, run S cb data = Ok (iter_list leaf_slack cb kvs data).

(** Where the path of a node and the prefix part, for a key that has both. *)
Lemma parts_prefix p q pfx k0 i :
  (p ++ q) `prefix_of` k0 -> pfx `prefix_of` k0 -> p `prefix_of` pfx -> parts_at p q pfx i ->
  if (length q <=? i)%nat then (p ++ q) `prefix_of` pfx
  else (length p + i)%nat = length pfx /\ pfx `prefix_of` (p ++ q).
Proof.
  unfold parts_at. intros Hpq Hpfx Hp. destruct (Nat.leb_spec (length q) i) as [Hle|Hlt]; [done|].
  intros (Htk & c1 & c2 & Hc1 & Hc2 & Hne).
  assert (length (p ++ take i q) = (length p + i)%nat) as Hl by (rewrite length_app, length_take; lia).
  assert ((length p + i)%nat = length pfx) as Hi.
  { pose proof (prefix_length _ _ Htk) as Hle'. rewrite Hl in Hle'.
    destruct (decide (length p + i < length pfx)%nat) as [Hs|]; [exfalso|lia].
    rewrite term_lookup_lt in Hc2 by done. apply Hne.
    assert (k0 !! (length p + i)%nat = Some c1) as H1.
    { eapply prefix_lookup_Some, Hpq. rewrite lookup_app_r by lia. rewrite <- Hc1. f_equal. lia. }
    assert (k0 !! (length p + i)%nat = Some c2) as H2 by (by eapply prefix_lookup_Some, Hpfx). congruence. }
  split; [done|]. assert (p ++ take i q = pfx) as <-.
  { apply prefix_length_eq; [done|]. lia. }
  apply prefix_app. apply prefix_take.
Qed.

Section inner_node.
(** An inner node below the path [p], and a key [k0] with the prefix. *)
Context {s : bool} (p q : list Z) (h : art_hdr) (kd : art_kind) (ch : list (option art_node)) (m : gmap Z art_node) (M : amap).
Context (Hna : node_abs s h kd ch m) (Ht : tree s p (Inner h kd ch) M).
Context (Hall : forall k v, M !! k = Some v -> (p ++ q) `prefix_of` k).
Context (buf : list Z) (pfx k0 : akey) (v0 : Z) (Hs : c_string buf pfx).
Context (Hk0 : M !! k0 = Some v0) (Hok0 : key_ok k0) (Hpk0 : pfx `prefix_of` k0).

Lemma inner_whole :
  pfx `prefix_of` (p ++ q) -> visits_prefix pfx M (fun S cb data => recursive_iter cb (Inner h kd ch) data).
Proof.
  intros Hpre. apply (whole_subtree p _ M pfx Ht). intros k v Hk. etrans; [exact Hpre|by eapply Hall].
Qed.

(** Following one more byte of the prefix. *)
Context (c : Z) (x : art_node) (Hc : term k0 !! length (p ++ q) = Some c) (Hx : m !! c = Some x).
Context (IH : (p ++ q ++ [c]) `prefix_of` pfx -> sub (length (p ++ q)) c M !! k0 = Some v0 ->
  visits_prefix pfx (sub (length (p ++ q)) c M)
    (fun S cb data => iter_prefix_loop cb x buf (length pfx) (length (p ++ q ++ [c])) data)).

Lemma inner_descend :
  (p ++ q) `prefix_of` pfx -> (length (p ++ q) < length pfx)%nat ->
  visits_prefix pfx M (fun S cb data =>
    c ← rd buf (length (p ++ q)); child ← find_child h kd ch c;
    match child with
    | None => Ok (data, 0)
    | Some i => nth_with (fun o : option art_node => match o with
                   | Some n' => iter_prefix_loop cb n' buf (length pfx) (length (p ++ q) + 1) data
                   | None => Ok (data, 0)
                   end) (Err OutOfBounds) ch i
    end).
Proof.
  intros Hpq Hlt. destruct (lookup_lt_is_Some_2 pfx (length (p ++ q)) Hlt) as [c' Hc'].
  assert (forall k, pfx `prefix_of` k -> term k !! length (p ++ q) = Some c') as Hbyte.
  { intros k Hk. assert (k !! length (p ++ q) = Some c') as E by (by eapply prefix_lookup_Some).
    by apply lookup_app_l_Some. }
  assert (c' = c) as -> by (specialize (Hbyte k0 Hpk0); congruence).
  destruct IH as (kvs & He & Hit).
  { rewrite app_assoc. by apply prefix_snoc_lookup. }
  { by rewrite sub_lookup_at by (by apply Hbyte). }
  exists kvs. split; [by rewrite with_prefix_sub in He by (intros; by apply Hbyte)|]. intros S cb data.
  rewrite (rd_lookup buf _ c) by (eapply c_string_lookup; [done|]; by rewrite term_lookup_lt). cbn [mbind res_bind].
  destruct (find_child_spec s h kd ch m c) as (o & -> & Hfound & _); [done|by eapply term_byte|].
  cbn [mbind res_bind]. destruct o as [i|]; cbn [found] in Hfound; [|congruence].
  destruct Hfound as (x' & Hx' & Hm'). simplify_eq. rewrite nth_with_lookup, Hx'.
  rewrite <- Hit. f_equal. rewrite !length_app. cbn. lia.
Qed.
End inner_node.

Lemma iter_prefix_spec {s} p n M buf pfx k0 v0 :
  tree s p n M -> c_string buf pfx -> p `prefix_of` pfx -> M !! k0 = Some v0 -> pfx `prefix_of` k0 ->
  visits_prefix pfx M (fun S cb data => iter_prefix_loop cb n buf (length pfx) (length p) data).
Proof.
  intros Ht Hs. induction Ht as [p k v Hok Hasc Hp|p q h kd ch m M Hna Hf Hq Hkeys Hch IH]; intros Hpp Hk0 Hpk0.
  { apply lookup_singleton_Some in Hk0 as [-> ->]. exists [(k0, v0)]. split.
    - unfold with_prefix. rewrite map_filter_singleton_True by done. split; [apply NoDup_singleton|].
      intros k' v'. rewrite list_elem_of_singleton, lookup_singleton_Some. naive_solver.
    - intros S cb data. cbn [iter_prefix_loop]. rewrite leaf_prefix_spec, bool_decide_eq_true_2 by done.
      cbn. destruct (cb data _ _ _) as [data' r]. by destruct (Z.eqb_spec r 0) as [->|]. }
  assert (tree s p (Inner h kd ch) M) as Ht by (by econstructor).
  assert (Hall : forall k v, M !! k = Some v -> (p ++ q) `prefix_of` k).
  { intros k v Hk. destruct (Hkeys k v Hk) as (_ & Hpq & c & Hc & _). by eapply proper_prefix. }
  pose proof (inner_whole p q h kd ch M Ht Hall pfx) as Hwhole.
  destruct (extremal_leaf _ _ _ Ht) as [(k1 & v1 & Hmin & Hk1) _].
  destruct (Hkeys k0 v0 Hk0) as (Hok0 & _ & c & Hc & [x Hx]).
  pose proof (inner_descend p q h kd ch m M Hna buf pfx k0 v0 Hs Hk0 Hok0 Hpk0 c x Hc Hx (fun Hp Hk => IH c x Hx Hp Hk Hpk0)) as Hdeep.
  unfold visits_prefix. cbn [iter_prefix_loop].
  destruct (Nat.eqb_spec (length p) (length pfx)) as [Hd|Hd].
  { assert (p = pfx) as -> by (apply prefix_length_eq; [done|lia]).
    destruct Hwhole as (kvs & He & Hit); [by eexists|].
    exists kvs. split; [done|]. intros S cb data. rewrite Hmin.
    cbn [mbind res_bind deref]. rewrite leaf_prefix_spec by done. rewrite bool_decide_eq_true_2; [apply Hit|].
    etrans; [|by eapply Hall]. by eexists. }
  pose proof (prefix_length _ _ Hpp) as Hlpp. rewrite (proj1 Hq).
  destruct (Nat.eqb_spec (length q) 0) as [H0|H0].
  { apply nil_length_inv in H0 as ->. rewrite app_nil_r in Hdeep. apply Hdeep; [done|lia]. }
  destruct (prefix_diff_spec h p q k1 v1 buf pfx) as (i & Hi & Hparts);
    [done|apply Hna|by eapply Hall|by apply (Hkeys k1 v1)|done|done|].
  unfold prefix_diff in Hi. rewrite (proj1 Hq), (proj2 (Nat.eqb_neq _ _) H0) in Hi.
  apply (parts_prefix p q pfx k0 i (Hall _ _ Hk0) Hpk0 Hpp) in Hparts.
  rewrite Hmin, Hi. cbn [mbind res_bind].
  destruct (Nat.leb_spec (length q) i) as [Hle|Hlt].
  - rewrite Nat.min_r, (proj2 (Nat.eqb_neq _ _) H0) by done.
    destruct (Nat.eqb_spec (length p + length q) (length pfx)) as [He|He].
    + apply Hwhole. assert (p ++ q = pfx) as <-; [|done]. apply prefix_length_eq; [done|]. rewrite length_app. lia.
    + rewrite <- length_app in *. apply Hdeep; [done|]. apply prefix_length in Hparts. lia.
  - destruct Hparts as [Hi' Hpre]. rewrite Nat.min_l by lia.
    rewrite (proj2 (Nat.eqb_neq i 0)) by lia. rewrite Hi', Nat.eqb_refl. by apply Hwhole.
Qed.

End ArtPrefix.
