(* ===== verification/ArtMap.v ===== *)
(** * Adaptive radix tree: the public operations refine a finite map

    The theorems on [art_insert], [art_search], [art_delete], [art_iter] and
    [art_tree_destroy] for trees keyed by C strings, the history theorem that
    chains them, the instance of [StringMap], and the inputs on which the C
    code leaves its buffers or visits the wrong entries. *)

From stdpp Require Import gmap sorting.
From S2P Require Import Prelude CString ArtNode ArtTree ArtNodeSpec ArtShrink ArtTreeSpec ArtPrefix.

Module ArtMap.
Import CStr Art ArtOps ArtTreeSpec ArtPrefix.

(** The tree represents the map [M], and its counter the number of entries. *)
Definition tree_rep (s : bool) (t : art_tree) (M : amap) : Prop :=
  match root t with None => M = ∅ | Some n => tree s [] n M end /\
  t_size t = u64 (Z.of_nat (size M)).

(** The map alone, without the order of the bytes. *)
Definition tree_ok : art_tree -> amap -> Prop := tree_rep false.

Definition short_tree (t : art_tree) : bool :=
  match root t with None => true | Some n => short_paths n end.

Lemma tree_rep_init s : tree_rep s art_tree_init ∅.
Proof. done. Qed.

Lemma tree_rep_size s t M : tree_rep s t M -> art_size t = u64 (Z.of_nat (size M)).
Proof. intros [_ H]. exact H. Qed.

Lemma size_succ (M : amap) k v :
  u64 (if bool_decide (is_Some (M !! k)) then Z.of_nat (size M) else Z.of_nat (size M) + 1) =
  u64 (Z.of_nat (size (<[k := v]> M))).
Proof.
  case_bool_decide as Hk.
  - by rewrite map_size_insert_Some.
  - rewrite map_size_insert_None by (by apply eq_None_not_Some). f_equal. lia.
Qed.

Lemma insert_rep s t M buf k v :
  tree_rep s t M -> c_string buf k -> (s = true -> ascii_key k) ->
  exists t', art_insert t buf (length k) v = Ok (default NULL (M !! k), t') /\ tree_rep s t' (<[k := v]> M).
Proof.
  intros [Hroot Hsize] Hs Hasc. unfold art_insert. destruct (root t) as [n|].
  - destruct (recursive_insert_spec [] n M buf k v Hroot) as (n' & E & Ht); [done|done|apply prefix_nil|].
    cbn [length] in E. rewrite E. cbn [mbind res_bind]. eexists. split; [done|]. split; [done|].
    cbn [t_size]. rewrite <- (size_succ M k v), Hsize. case_bool_decide; [done|]. by rewrite wrap_add_l.
  - subst M. rewrite make_leaf_spec by done. cbn [mbind res_bind]. rewrite lookup_empty.
    eexists. split; [done|]. split.
    + cbn [root]. rewrite insert_empty. apply tree_leaf; [apply Hs|done|apply prefix_nil].
    + cbn [t_size]. rewrite Hsize, wrap_add_l, <- (size_succ ∅ k v), lookup_empty. done.
Qed.

Lemma insert_ok t M buf k v :
  tree_ok t M -> c_string buf k ->
  exists t', art_insert t buf (length k) v = Ok (default NULL (M !! k), t') /\ tree_ok t' (<[k := v]> M).
Proof. intros Ht Hs. by apply insert_rep. Qed.

(** The integers of the whole tree. *)
Definition int_tree (t : art_tree) : bool :=
  match root t with None => true | Some n => ints_fit n 0 end.

Lemma int_tree_ok s t M :
  tree_rep s t M -> (forall k v, M !! k = Some v -> is_int (length k) = true) -> int_tree t = true.
Proof.
  intros [Hroot _] Hlen. unfold int_tree. destruct (root t) as [n|]; [|done]. exact (int_keys_fit [] n M Hroot Hlen).
Qed.

Lemma search_rep s t M buf k :
  tree_rep s t M -> c_string buf k -> is_Some (M !! k) \/ short_tree t = true ->
  art_search t buf (length k) = Ok (default NULL (M !! k)).
Proof.
  intros [Hroot _] Hs Hsafe. unfold art_search, short_tree in *. destruct (root t) as [n|]; [|by subst].
  pose proof (search_loop_spec [] n M buf k Hroot Hs) as Hspec. cbn [length] in Hspec.
  destruct (search_loop n buf (length k) 0) as [r|e] eqn:E; [by f_equal|].
  destruct Hsafe as [[v Hv]|Hshort]; [congruence|].
  destruct (search_loop_short [] n M buf k Hroot) as [r Hr]; [done|apply prefix_nil|done|].
  cbn [length] in Hr. congruence.
Qed.

Lemma delete_rep s t M buf k :
  tree_rep s t M -> c_string buf k -> is_Some (M !! k) \/ short_tree t = true ->
  exists t', art_delete t buf (length k) = Ok (default NULL (M !! k), t') /\ tree_rep s t' (delete k M).
Proof.
  intros [Hroot Hsize] Hs Hsafe. unfold art_delete, short_tree in *. destruct (root t) as [n|] eqn:Hrt; cycle 1.
  { subst M. exists t. rewrite lookup_empty, delete_empty. split; [done|]. split; [by rewrite Hrt|done]. }
  pose proof (recursive_delete_spec [] n M buf k Hroot Hs) as Hspec. cbn [length] in Hspec.
  destruct (recursive_delete n buf (length k) 0) as [[o n']|e] eqn:E; cycle 1.
  { destruct Hsafe as [[v Hv]|Hshort]; [cbn in Hspec; congruence|].
    destruct (recursive_delete_short [] n M buf k Hroot) as [r Hr]; [done|apply prefix_nil|done|].
    cbn [length] in Hr. congruence. }
  cbn [mbind res_bind deleted] in *. destruct (M !! k) as [v|] eqn:Hv.
  - destruct Hspec as [-> Hn']. eexists. split; [done|]. split; [by destruct n'|].
    cbn [t_size]. rewrite Hsize, wrap_sub_l, map_size_delete_Some by done. f_equal.
    assert (size M <> 0)%nat; [|lia]. intros H0%map_size_empty_inv. subst M. by rewrite lookup_empty in Hv.
  - destruct Hspec as [-> ->]. eexists. split; [done|]. rewrite delete_id by done. by split.
Qed.

(** One order of the entries serves iteration, destruction and the ends of the
    tree; it is the order of the keys when the bytes are kept in order. *)
Lemma traversal_rep s t M :
  tree_rep s t M -> exists kvs, enumerates kvs M /\
    (forall S (cb : S -> list Z -> nat -> Z -> S * Z) data,
      art_iter cb t data = Ok (iter_list leaf_slack cb kvs data)) /\
    (exists freed, art_tree_destroy t = Ok freed /\ omap leaf_kv freed = kvs) /\
    art_minimum t = Ok (kv_leaf <$> head kvs) /\
    art_maximum t = Ok (kv_leaf <$> list.last kvs) /\
    (s = true -> StronglySorted key_lt kvs.*1).
Proof.
  intros [Hroot _]. unfold art_iter, art_tree_destroy, art_minimum, art_maximum. destruct (root t) as [n|].
  - destruct (tree_traversal _ _ _ Hroot) as (kvs & He & (Hit & (fr & Hfr & Hkv) & Hmin & Hmax & _) & Hs).
    exists kvs. split_and!; [done|done|by eexists|done|done|done].
  - subst M. exists []. split_and!; [|done|by exists []|done|done|constructor].
    split; [constructor|]. intros k v. rewrite lookup_empty. split; [|done]. by intros ?%not_elem_of_nil.
Qed.

Lemma iter_ok t M :
  tree_ok t M -> exists kvs, enumerates kvs M /\
    forall S (cb : S -> list Z -> nat -> Z -> S * Z) data,
      art_iter cb t data = Ok (iter_list leaf_slack cb kvs data).
Proof. intros (kvs & He & Hit & _)%traversal_rep. by exists kvs. Qed.

Lemma destroy_ok t M :
  tree_ok t M -> exists freed, art_tree_destroy t = Ok freed /\ enumerates (omap leaf_kv freed) M.
Proof. intros (kvs & He & _ & (fr & Hfr & <-) & _)%traversal_rep. by exists fr. Qed.

Lemma short_keys_tree s t M :
  tree_rep s t M -> (forall k v, M !! k = Some v -> (length k <= MAX_PREFIX_LEN)%nat) -> short_tree t = true.
Proof.
  intros [Hroot _] Hlen. unfold short_tree. destruct (root t); [|done]. by eapply short_keys_paths.
Qed.

(** The entries whose leaves [art_tree_destroy] frees. *)
Definition destroy_entries (t : art_tree) : res (list (akey * Z)) :=
  freed ← art_tree_destroy t; Ok (omap leaf_kv (freed : list art_node)).

Lemma destroy_entries_ok t M :
  tree_ok t M -> exists kvs, destroy_entries t = Ok kvs /\ enumerates kvs M.
Proof.
  intros Ht. destruct (destroy_ok t M Ht) as (freed & E & He). unfold destroy_entries.
  rewrite E. by eexists.
Qed.

(** The interface of the statistics service. *)
#[export] Instance art_string_map : StringMap art_tree := {
  sm_pad := leaf_slack;
  sm_init := art_tree_init;
  sm_size := art_size;
  sm_insert := art_insert;
  sm_delete := art_delete;
  sm_search := art_search;
  sm_iter := fun S cb t data => art_iter cb t data;
  sm_free := destroy_entries;
  sm_rep := tree_ok;
  sm_safe := fun t => short_tree t = true;
  sm_init_rep := tree_rep_init false;
  sm_size_rep := tree_rep_size false;
  sm_insert_rep := insert_ok;
  sm_delete_rep := delete_rep false;
  sm_search_rep := search_rep false;
  sm_iter_rep := iter_ok;
  sm_free_rep := destroy_entries_ok
}.

(** ** Histories *)

Inductive art_op : Type :=
| OpInsert (k : akey) (v : Z)
| OpSearch (k : akey)
| OpDelete (k : akey)
| OpSize.

Definition op_key (o : art_op) : akey :=
  match o with OpInsert k _ | OpSearch k | OpDelete k => k | OpSize => [] end.

(** One call of the C interface on a terminated key. *)
Definition art_exec (o : art_op) (t : art_tree) : res (Z * art_tree) :=
  match o with
  | OpInsert k v => art_insert t (term k) (length k) v
  | OpSearch k => r ← art_search t (term k) (length k); Ok (r, t)
  | OpDelete k => art_delete t (term k) (length k)
  | OpSize => Ok (art_size t, t)
  end.

Fixpoint art_run (os : list art_op) (t : art_tree) : res (list Z * art_tree) :=
  match os with
  | [] => Ok ([], t)
  | o :: os' =>
      '(r, t) ← art_exec o t;
      '(rs, t) ← art_run os' t;
      Ok (r :: rs, t)
  end.

(** The same call on a finite map. *)
Definition map_exec (o : art_op) (M : amap) : Z * amap :=
  match o with
  | OpInsert k v => (default NULL (M !! k), <[k := v]> M)
  | OpSearch k => (default NULL (M !! k), M)
  | OpDelete k => (default NULL (M !! k), delete k M)
  | OpSize => (u64 (Z.of_nat (size M)), M)
  end.

Fixpoint map_run (os : list art_op) (M : amap) : list Z * amap :=
  match os with
  | [] => ([], M)
  | o :: os' =>
      let '(r, M) := map_exec o M in
      let '(rs, M) := map_run os' M in
      (r :: rs, M)
  end.

Definition op_ok (o : art_op) : Prop :=
  key_ok (op_key o) /\ (length (op_key o) <= MAX_PREFIX_LEN)%nat.
#[export] Instance op_ok_dec o : Decision (op_ok o).
Proof. unfold op_ok. apply _. Defined.

Lemma c_string_term k : key_ok k -> c_string (term k) k.
Proof.
  intros Hk. split_and!; [done..|]. apply list.Forall_app. split; [|by repeat constructor].
  eapply list.Forall_impl; [exact Hk|]. intros b Hb. unfold is_u. change (2 ^ 8) with 256. cbn in Hb. lia.
Qed.

Lemma exec_refines s o t M :
  tree_rep s t M -> op_ok o -> (s = true -> ascii_key (op_key o)) ->
  (forall k v, M !! k = Some v -> (length k <= MAX_PREFIX_LEN)%nat) ->
  exists t', art_exec o t = Ok ((map_exec o M).1, t') /\ tree_rep s t' (map_exec o M).2 /\
    (forall k v, (map_exec o M).2 !! k = Some v -> (length k <= MAX_PREFIX_LEN)%nat).
Proof.
  intros Ht [Hk Hl] Hasc Hlen. pose proof (c_string_term _ Hk) as Hs.
  pose proof (short_keys_tree _ _ _ Ht Hlen) as Hsh.
  destruct o as [k v|k|k|]; cbn [art_exec map_exec op_key fst snd] in *.
  - destruct (insert_rep s t M (term k) k v) as (t' & -> & Ht'); [done..|]. exists t'. split_and!; [done..|].
    intros k' v' [[<- _]|[_ ?]]%lookup_insert_Some; [done|by eapply Hlen].
  - rewrite (search_rep s t M) by auto. exists t. done.
  - destruct (delete_rep s t M (term k) k) as (t' & -> & Ht'); [auto..|]. exists t'. split_and!; [done..|].
    intros k' v' [_ ?]%lookup_delete_Some. by eapply Hlen.
  - exists t. split_and!; [|done..]. by rewrite (tree_rep_size _ _ _ Ht).
Qed.

Lemma run_refines s os t M :
  tree_rep s t M -> Forall op_ok os -> Forall (fun o => s = true -> ascii_key (op_key o)) os ->
  (forall k v, M !! k = Some v -> (length k <= MAX_PREFIX_LEN)%nat) ->
  exists t', art_run os t = Ok ((map_run os M).1, t') /\ tree_rep s t' (map_run os M).2.
Proof.
  intros Ht Hos Hasc. revert t M Ht. induction Hos as [|o os Ho _ IH]; intros t M Ht Hlen; [by exists t|].
  apply list.Forall_cons in Hasc as [Ha Hasc].
  destruct (exec_refines s o t M) as (t1 & E1 & Ht1 & Hlen1); [done..|]. cbn [art_run map_run].
  rewrite E1. cbn [mbind res_bind]. destruct (map_exec o M) as [r M1]. cbn [fst snd] in *.
  destruct (IH Hasc t1 M1 Ht1 Hlen1) as (t' & -> & Ht'). cbn [mbind res_bind].
  destruct (map_run os M1) as [rs M2]. by exists t'.
Qed.

(** ** Properties *)

(** Two keys of a statistics list, for the witnesses. *)
Definition key_a : akey := [112; 99; 97; 112; 46; 97].        (* pcap.a *)
Definition key_b : akey := [112; 99; 97; 112; 46; 98].        (* pcap.b *)
Definition key_c : akey := [112; 99].                         (* pc *)
(** Keys of twenty bytes that differ in the last one. *)
Definition long_key (last : Z) : akey := (Z.of_nat <$> seq 97 19) ++ [last].

(** A tree with the two entries, reached by insertion. *)
Lemma sample_tree : exists t, tree_ok t (<[key_b := 8]> {[ key_a := 7 ]}).
Proof.
  destruct (insert_ok art_tree_init ∅ (term key_a) key_a 7) as (t1 & _ & Ht1);
    [done|decide_closed|]. rewrite insert_empty in Ht1.
  destruct (insert_ok t1 _ (term key_b) key_b 8 Ht1) as (t2 & _ & Ht2); [decide_closed|].
  by exists t2.
Qed.

(** C1: any sequence of insertions, searches, deletions and size queries on C
    strings of at most ten bytes, run from the empty tree, executes without
    leaving a buffer and returns exactly what the same sequence returns on a
    finite map; the final tree represents the final map. *)
Theorem art_history os :
  Forall op_ok os ->
  exists t, art_run os art_tree_init = Ok ((map_run os ∅).1, t) /\ tree_ok t (map_run os ∅).2.
Proof.
  intros Hos. apply run_refines; [done|done| |by intros ? ? ?%lookup_empty_Some].
  by apply list.Forall_forall.
Qed.

Lemma art_history_witness :
  let os := [OpInsert key_a 7; OpInsert key_b 8; OpInsert key_c 9; OpDelete key_a;
             OpSearch key_b; OpSearch key_a; OpSize] in
  (map_run os ∅).1 = [0; 0; 0; 7; 8; 0; 2] /\
  exists t, art_run os art_tree_init = Ok ([0; 0; 0; 7; 8; 0; 2], t) /\ tree_ok t (map_run os ∅).2.
Proof.
  intros os. split; [vm_compute; reflexivity|].
  exact (art_history os ltac:(decide_closed)).
Defined.

(** C12: inserting a C string of less than 2^31 bytes into a well-formed tree of
    such strings, when memory is available: the call succeeds, returns the value
    that was stored under the key ([NULL] when there was none), and the new tree
    represents the updated map; the size counter is only incremented for a new
    key.  In the new tree every depth and every length of a compressed path or a
    key still fits in the [int] or [uint32_t] that holds it, so the recursion can
    go on to any leaf. *)
Theorem art_insert_refines t M buf k v :
  tree_ok t M -> c_string buf k ->
  (forall k' v', M !! k' = Some v' -> is_int (length k') = true) -> is_int (length k) = true ->
  int_tree t = true /\
  exists t', art_insert t buf (length k) v = Ok (default NULL (M !! k), t') /\
    tree_ok t' (<[k := v]> M) /\ int_tree t' = true.
Proof.
  intros Ht Hs HM Hk. split; [by eapply int_tree_ok|]. destruct (insert_ok t M buf k v Ht Hs) as (t' & E & Ht').
  exists t'. split; [done|]. split; [done|]. eapply int_tree_ok; [exact Ht'|].
  intros k' v' [[<- _]|[_ H]]%lookup_insert_Some; [done|by eapply HM].
Qed.

Lemma art_insert_refines_witness :
  exists t, tree_ok t (<[key_b := 8]> {[ key_a := 7 ]}) /\
  exists t', art_insert t (term key_c) 2 9 = Ok (0, t') /\
    tree_ok t' (<[key_c := 9]> (<[key_b := 8]> {[ key_a := 7 ]})).
Proof.
  destruct sample_tree as [t Ht]. exists t. split; [exact Ht|].
  destruct (art_insert_refines t _ (term key_c) key_c 9 Ht ltac:(decide_closed)) as (_ & t' & E & Ht' & _).
  - intros k' v' H. apply lookup_insert_Some in H as [[<- _]|[_ H]]; [reflexivity|].
    apply lookup_singleton_Some in H as [<- _]. reflexivity.
  - reflexivity.
  - exists t'. split; [exact E|exact Ht'].
Defined.

(** C25: a search never returns a wrong value: when it returns, the result is
    the stored value or [NULL] for an absent key; and it does return when the
    key is present, or when every compressed path of the tree fits in its
    header. *)
Theorem art_search_correct t M buf k :
  tree_ok t M -> c_string buf k ->
  (forall r, art_search t buf (length k) = Ok r -> r = default NULL (M !! k)) /\
  (is_Some (M !! k) \/ short_tree t = true -> art_search t buf (length k) = Ok (default NULL (M !! k))).
Proof.
  intros Ht Hs. split; [|by apply (search_rep false)]. intros r Hr. destruct Ht as [Hroot _].
  unfold art_search in Hr. destruct (root t) as [n|]; [|subst M; by injection Hr as <-].
  pose proof (search_loop_spec [] n M buf k Hroot Hs) as Hspec. cbn [length] in Hspec. by rewrite Hr in Hspec.
Qed.

Lemma art_search_correct_witness :
  exists t, tree_ok t (<[key_b := 8]> {[ key_a := 7 ]}) /\ art_search t (term key_a) 6 = Ok 7.
Proof.
  destruct sample_tree as [t Ht]. exists t. split; [exact Ht|].
  destruct (art_search_correct t _ (term key_a) key_a Ht ltac:(decide_closed)) as [_ H].
  apply H. left. vm_compute. eexists. reflexivity.
Defined.

(** C13: deleting a key returns the value stored under it, removes exactly that
    entry and decrements the size counter; deleting an absent key (in a tree
    whose compressed paths fit in their headers) changes nothing. *)
Theorem art_delete_refines t M buf k :
  tree_ok t M -> c_string buf k -> is_Some (M !! k) \/ short_tree t = true ->
  exists t', art_delete t buf (length k) = Ok (default NULL (M !! k), t') /\ tree_ok t' (delete k M).
Proof. apply delete_rep. Qed.

Lemma art_delete_refines_witness :
  exists t, tree_ok t (<[key_b := 8]> {[ key_a := 7 ]}) /\
  exists t', art_delete t (term key_a) 6 = Ok (7, t') /\
    tree_ok t' (delete key_a (<[key_b := 8]> {[ key_a := 7 ]})).
Proof.
  destruct sample_tree as [t Ht]. exists t. split; [exact Ht|].
  apply (art_delete_refines t _ (term key_a) key_a Ht); [decide_closed|].
  left. vm_compute. eexists. reflexivity.
Defined.

(** Iteration calls the callback for the entries of the map, each exactly
    once, passing key, key length and value, in an order that does not depend
    on the callback, and stops at the first non-zero result. *)
Theorem art_iter_visits t M :
  tree_ok t M ->
  exists kvs, enumerates kvs M /\
    forall S (cb : S -> list Z -> nat -> Z -> S * Z) data,
      art_iter cb t data = Ok (iter_list leaf_slack cb kvs data).
Proof. apply iter_ok. Qed.

Lemma art_iter_visits_witness :
  exists t kvs, tree_ok t (<[key_b := 8]> {[ key_a := 7 ]}) /\
    enumerates kvs (<[key_b := 8]> {[ key_a := 7 ]}) /\
    art_iter (fun n _ _ v => (n + v, 0)) t 0 = Ok (iter_list leaf_slack (fun n _ _ v => (n + v, 0)) kvs 0).
Proof.
  destruct sample_tree as [t Ht]. destruct (art_iter_visits t _ Ht) as (kvs & He & Hit).
  exists t, kvs. split; [exact Ht|]. split; [exact He|]. apply Hit.
Defined.

(** C24: when some key starts with the prefix, prefix iteration calls the callback
    for exactly the entries whose keys start with it, each once, and stops at
    the first non-zero result. *)
Theorem art_iter_prefix_exact t M buf pfx k0 v0 :
  tree_ok t M -> c_string buf pfx -> M !! k0 = Some v0 -> pfx `prefix_of` k0 ->
  exists kvs, enumerates kvs (with_prefix pfx M) /\
    forall S (cb : S -> list Z -> nat -> Z -> S * Z) data,
      art_iter_prefix cb t buf (length pfx) data = Ok (iter_list leaf_slack cb kvs data).
Proof.
  intros [Hroot _] Hs Hk0 Hp. unfold art_iter_prefix. destruct (root t) as [n|]; [|by subst M].
  exact (iter_prefix_spec [] n M buf pfx k0 v0 Hroot Hs (prefix_nil _) Hk0 Hp).
Qed.

Lemma art_iter_prefix_exact_witness :
  exists t kvs, tree_ok t (<[key_b := 8]> {[ key_a := 7 ]}) /\
    enumerates kvs (with_prefix [112; 99; 97] (<[key_b := 8]> {[ key_a := 7 ]})) /\
    art_iter_prefix (fun n _ _ v => (n + v, 0)) t [112; 99; 97; 0] 3 0 = Ok (iter_list leaf_slack (fun n _ _ v => (n + v, 0)) kvs 0).
Proof.
  destruct sample_tree as [t Ht].
  destruct (art_iter_prefix_exact t _ [112; 99; 97; 0] [112; 99; 97] key_b 8 Ht ltac:(decide_closed) ltac:(vm_compute; reflexivity)
    ltac:(decide_closed)) as (kvs & He & Hit).
  exists t, kvs. split; [exact Ht|]. split; [exact He|]. apply Hit.
Defined.

(** C26: destroying a tree succeeds and frees the leaf of every entry exactly
    once. *)
Theorem art_destroy_frees t M :
  tree_ok t M -> exists freed, art_tree_destroy t = Ok freed /\ enumerates (omap leaf_kv freed) M.
Proof. apply destroy_ok. Qed.

Lemma art_destroy_frees_witness :
  exists t freed, tree_ok t (<[key_b := 8]> {[ key_a := 7 ]}) /\ art_tree_destroy t = Ok freed /\
    enumerates (omap leaf_kv freed) (<[key_b := 8]> {[ key_a := 7 ]}).
Proof.
  destruct sample_tree as [t Ht]. destruct (art_destroy_frees t _ Ht) as (freed & E & He).
  exists t, freed. split; [exact Ht|]. split; [exact E|exact He].
Defined.

(** C10: after any sequence of insertions, searches and deletions of ASCII strings
    of at most ten bytes the tree is ordered: iteration visits the entries in
    increasing order of their keys (the order of strcmp), and art_minimum and
    art_maximum return the leaves of the least and of the greatest key, NULL
    for an empty tree. *)
Theorem art_ordered os :
  Forall op_ok os -> Forall (fun o => ascii_key (op_key o)) os ->
  exists t kvs, art_run os art_tree_init = Ok ((map_run os ∅).1, t) /\
    enumerates kvs (map_run os ∅).2 /\ StronglySorted key_lt kvs.*1 /\
    (forall S (cb : S -> list Z -> nat -> Z -> S * Z) data,
       art_iter cb t data = Ok (iter_list leaf_slack cb kvs data)) /\
    art_minimum t = Ok (kv_leaf <$> head kvs) /\
    art_maximum t = Ok (kv_leaf <$> list.last kvs).
Proof.
  intros Hos Hasc. destruct (run_refines true os art_tree_init ∅) as (t & E & Ht);
    [done|done|by eapply list.Forall_impl|by intros ? ? ?%lookup_empty_Some|].
  destruct (traversal_rep _ _ _ Ht) as (kvs & He & Hit & _ & Hmin & Hmax & Hs).
  exists t, kvs. auto 10.
Qed.

Lemma art_ordered_witness :
  exists t kvs, let os := [OpInsert key_b 8; OpInsert key_a 7; OpInsert key_c 9; OpInsert [120] 1; OpDelete key_c] in
    art_run os art_tree_init = Ok ([0; 0; 0; 0; 9], t) /\ StronglySorted key_lt kvs.*1 /\
    enumerates kvs (map_run os ∅).2 /\ art_minimum t = Ok (kv_leaf <$> head kvs).
Proof.
  destruct (art_ordered [OpInsert key_b 8; OpInsert key_a 7; OpInsert key_c 9; OpInsert [120] 1; OpDelete key_c]
    ltac:(decide_closed) ltac:(decide_closed)) as (t & kvs & E & He & Hs & _ & Hmin & _).
  exists t, kvs. split; [exact E|]. split; [exact Hs|]. split; [exact He|exact Hmin].
Defined.

(** Above 127 the order breaks: a NODE16 compares bytes as signed ones, so with
    the keys "a" to "d" and one of the single byte 200 the tree returns the last
    one as its minimum, although it is the greatest, and "d" as its maximum. *)
Theorem art_minimum_wrong :
  exists t, art_run [OpInsert [97] 1; OpInsert [98] 2; OpInsert [99] 3; OpInsert [100] 4; OpInsert [200] 5]
      art_tree_init = Ok ([0; 0; 0; 0; 0], t) /\
    art_minimum t = Ok (Some (leaf_of [200] 5)) /\ art_maximum t = Ok (Some (leaf_of [100] 4)) /\
    key_lt [97] [200] /\ key_lt [100] [200].
Proof. eexists. split_and!; vm_compute; reflexivity. Qed.

(** With two keys that share more than ten bytes, searching a shorter key
    that agrees with the ten stored prefix bytes reads behind the end of the
    caller's string. *)
Theorem art_search_overread :
  exists t, art_run [OpInsert (long_key 65) 1; OpInsert (long_key 66) 2] art_tree_init = Ok ([0; 0], t) /\
    tree_ok t (<[long_key 66 := 2]> {[ long_key 65 := 1 ]}) /\
    art_search t (term (take 12 (long_key 65))) 12 = Err OutOfBounds.
Proof.
  destruct (insert_ok art_tree_init ∅ (term (long_key 65)) (long_key 65) 1) as (t1 & E1 & Ht1);
    [done|decide_closed|]. rewrite insert_empty in Ht1.
  destruct (insert_ok t1 _ (term (long_key 66)) (long_key 66) 2 Ht1) as (t2 & E2 & Ht2); [decide_closed|].
  vm_compute in E1. injection E1 as <-. vm_compute in E2. injection E2 as <-.
  eexists. split; [vm_compute; reflexivity|]. split; [exact Ht2|]. vm_compute. reflexivity.
Qed.

(** After a mismatch inside a compressed path prefix iteration descends
    as if the path had matched: with the keys "abcefg", "abcefh" and "abd" the
    iteration for the prefix "azcef" visits the first two, which do not start
    with it. *)
Theorem art_iter_prefix_wrong :
  exists t, art_run [OpInsert [97; 98; 99; 101; 102; 103] 1; OpInsert [97; 98; 99; 101; 102; 104] 2;
                     OpInsert [97; 98; 100] 3] art_tree_init = Ok ([0; 0; 0], t) /\
    art_iter_prefix (fun l k n v => (l ++ [take n k], 0)) t (term [97; 122; 99; 101; 102]) 5 [] =
      Ok ([[97; 98; 99; 101; 102; 103]; [97; 98; 99; 101; 102; 104]], 0).
Proof. eexists. split; vm_compute; reflexivity. Qed.

End ArtMap.
