(* ===== verification/Queue.v ===== *)
(** * The message queue

    Models [libalgorithms/src/algorithms/queue/queue.c]: a ring buffer of
    bytes shared by producers and consumers.  Each message is stored as a
    16-byte header (size, CRC-32C, four bytes of padding) followed by its
    data.  [queue_write] and [queue_read] are given twice: as functions in
    which the environment supplies what happens during each wait, and as the
    step relation [step] in which calls of any number of threads interleave at
    the granularity of single bytes and of single accesses to the shared
    counters. *)

From stdpp Require Import gmap.
From S2P Require Import Prelude.

Module Queue.

(** ** CRC-32C as [_mm_crc32_u8] computes it *)

Definition crc_poly : Z := 0x82F63B78.

Definition crc_bit (crc : Z) : Z :=
  if Z.testbit crc 0 then Z.lxor (Z.shiftr crc 1) crc_poly else Z.shiftr crc 1.

Definition mm_crc32_u8 (crc b : Z) : Z := Nat.iter 8 crc_bit (Z.lxor crc b).

Definition sse42_crc32 (bytes : list Z) : Z := fold_left mm_crc32_u8 bytes 0xffffffff.

(** ** Data *)

Record queue_t : Type := MkQueue {
  ring : list Z;            (* the bytes between _leftborder and _rightborder *)
  head : nat;               (* _head - _leftborder *)
  tail : nat;
  consumers : Z;
  producers : Z;
  isActive : bool;
  entriesCurrent : Z;       (* size_t counters *)
  entriesMax : Z;
  memUsageCurrent : Z;
  memUsageMax : Z;
  memSizeCurrent : Z
}.

Definition set_ring (q : queue_t) (r : list Z) (h t : nat) : queue_t :=
  MkQueue r h t (consumers q) (producers q) (isActive q) (entriesCurrent q) (entriesMax q)
    (memUsageCurrent q) (memUsageMax q) (memSizeCurrent q).
Definition set_entries (q : queue_t) (cur mx : Z) : queue_t :=
  MkQueue (ring q) (head q) (tail q) (consumers q) (producers q) (isActive q) cur mx
    (memUsageCurrent q) (memUsageMax q) (memSizeCurrent q).
Definition set_usage (q : queue_t) (cur mx : Z) : queue_t :=
  MkQueue (ring q) (head q) (tail q) (consumers q) (producers q) (isActive q)
    (entriesCurrent q) (entriesMax q) cur mx (memSizeCurrent q).
Definition set_clients (q : queue_t) (c p : Z) (a : bool) : queue_t :=
  MkQueue (ring q) (head q) (tail q) c p a (entriesCurrent q) (entriesMax q)
    (memUsageCurrent q) (memUsageMax q) (memSizeCurrent q).

Definition QUEUE_RET_ERROR : Z := -1.
Definition QUEUE_RET_TIMEOUT : Z := -2.
Definition QUEUE_RET_DESTROYING : Z := -3.

(** [sizeof(queue_entry_t)] *)
Definition hdr_size : nat := 16.

(** The bytes of a header: [_size], [_crc32] and the padding, whose content is
    that of the stack. *)
Definition header_bytes (size crc : Z) (pad : list Z) : list Z :=
  le_bytes 8 size ++ le_bytes 4 crc ++ pad.

Definition header_size (h : list Z) : Z := le_val (take 8 h).
Definition header_crc (h : list Z) : Z := le_val (take 4 (drop 8 h)).

(** ** The ring *)

Definition advance (q : queue_t) (p : nat) : nat :=
  if (S p =? length (ring q))%nat then O else S p.

(** One iteration of the loop of [i_queue_write]. *)
Definition put_byte (q : queue_t) (b : Z) : res queue_t :=
  r ← wr (ring q) (head q) b;
  Ok (set_ring q r (advance q (head q)) (tail q)).

Fixpoint i_queue_write (q : queue_t) (src : list Z) : res queue_t :=
  match src with
  | [] => Ok q
  | b :: src' => q ← put_byte q b; i_queue_write q src'
  end.

(** One iteration of the loop of [i_queue_read]. *)
Definition get_byte (q : queue_t) : res (Z * queue_t) :=
  b ← rd (ring q) (tail q);
  Ok (b, set_ring q (ring q) (head q) (advance q (tail q))).

Fixpoint i_queue_read (q : queue_t) (size : nat) : res (list Z * queue_t) :=
  match size with
  | O => Ok ([], q)
  | S size' =>
      '(b, q) ← get_byte q;
      '(bs, q) ← i_queue_read q size';
      Ok (b :: bs, q)
  end.

(** ** Creation and registration *)

(** [malloc_ok]: the allocation succeeds; [mutexes_ok]: all four
    [pthread_*_init] calls return 0. *)
Definition queue_create (size : nat) (malloc_ok mutexes_ok : bool) : option queue_t :=
  if malloc_ok then
    if mutexes_ok then
      Some (MkQueue (replicate size 0) 0 0 0 0 true 0 0 0 0 (Z.of_nat size))
    else None
  else None.

Definition queue_consumer_new (q : queue_t) : bool * queue_t :=
  if isActive q then (true, set_clients q (s32 (consumers q + 1)) (producers q) (isActive q))
  else (false, q).
Definition queue_consumer_free (q : queue_t) : queue_t :=
  set_clients q (s32 (consumers q - 1)) (producers q) (isActive q).
Definition queue_producer_new (q : queue_t) : bool * queue_t :=
  if isActive q then (true, set_clients q (consumers q) (s32 (producers q + 1)) (isActive q))
  else (false, q).
Definition queue_producer_free (q : queue_t) : queue_t :=
  set_clients q (consumers q) (s32 (producers q - 1)) (isActive q).

(** ** Guards and counter updates *)

Definition entry_size (nBytes : Z) : Z := u64 (nBytes + Z.of_nat hdr_size).

(** [entrySize >= _stats_MemSizeCurrent] *)
Definition too_big (q : queue_t) (nBytes : Z) : bool := memSizeCurrent q <=? entry_size nBytes.

(** [_stats_MemSizeCurrent - _stats_MemUsageCurrent < entrySize] *)
Definition no_room (q : queue_t) (nBytes : Z) : bool :=
  u64 (memSizeCurrent q - memUsageCurrent q) <? entry_size nBytes.

Definition is_empty (q : queue_t) : bool := memUsageCurrent q =? 0.

Definition count_entry (q : queue_t) : queue_t :=
  let n := u64 (entriesCurrent q + 1) in
  set_entries q n (if entriesMax q <? n then n else entriesMax q).
Definition charge (q : queue_t) (nBytes : Z) : queue_t :=
  let n := u64 (memUsageCurrent q + entry_size nBytes) in
  set_usage q n (if memUsageMax q <? n then n else memUsageMax q).
Definition uncount_entry (q : queue_t) : queue_t :=
  set_entries q (u64 (entriesCurrent q - 1)) (entriesMax q).
Definition discharge (q : queue_t) (nBytes : Z) : queue_t :=
  set_usage q (u64 (memUsageCurrent q - entry_size nBytes)) (memUsageMax q).

(** ** The calls, with the waits supplied by the environment *)

(** What a wait returned: the queue as the other threads left it, and whether
    the wait timed out. *)
Definition wait_t : Type := queue_t * bool.

Inductive outcome (A : Type) : Type :=
| Returned (ret : Z) (out : A) (q : queue_t)
| Blocked (q : queue_t).       (* still waiting after the given waits *)
Arguments Returned {A} ret out q.
Arguments Blocked {A} q.

(** The copy phase of [queue_write] and the counters. *)
Definition write_entry (q : queue_t) (data pad : list Z) : res queue_t :=
  let nBytes := Z.of_nat (length data) in
  q ← i_queue_write q (header_bytes nBytes (sse42_crc32 data) pad);
  q ← i_queue_write q data;
  Ok (charge (count_entry q) nBytes).

Fixpoint write_loop (q : queue_t) (data pad : list Z) (waits : list wait_t)
    : res (outcome unit) :=
  let nBytes := Z.of_nat (length data) in
  if no_room q nBytes then
    match waits with
    | [] => Ok (Blocked q)
    | (q, timed_out) :: waits =>
        if negb (isActive q) then Ok (Returned QUEUE_RET_DESTROYING tt q)
        else if (timed_out : bool) then Ok (Returned QUEUE_RET_TIMEOUT tt q)
        else write_loop q data pad waits
    end
  else
    q ← write_entry q data pad;
    Ok (Returned (s32 nBytes) tt q).

Definition queue_write (q : queue_t) (data pad : list Z) (waits : list wait_t)
    : res (outcome unit) :=
  if too_big q (Z.of_nat (length data)) then Ok (Returned QUEUE_RET_ERROR tt q)
  else write_loop q data pad waits.

(** The copy phase of [queue_read], the counters and the check. *)
Definition read_entry (q : queue_t) : res (outcome (list Z)) :=
  '(h, q) ← i_queue_read q hdr_size;
  '(data, q) ← i_queue_read q (Z.to_nat (header_size h));
  let q := discharge (uncount_entry q) (header_size h) in
  Ok (Returned (if sse42_crc32 data =? header_crc h then s32 (header_size h) else QUEUE_RET_ERROR) data q).

Fixpoint queue_read (q : queue_t) (waits : list wait_t) : res (outcome (list Z)) :=
  if is_empty q then
    match waits with
    | [] => Ok (Blocked q)
    | (q, timed_out) :: waits =>
        if negb (isActive q) then Ok (Returned QUEUE_RET_DESTROYING [] q)
        else if (timed_out : bool) then Ok (Returned QUEUE_RET_TIMEOUT [] q)
        else queue_read q waits
    end
  else read_entry q.

(** A loop of [queue_destroy]: it waits while [clients] are registered.
    [waits]: the queue as the other threads left it after each wait.  The flag
    says whether they are gone. *)
Fixpoint await (clients : queue_t -> Z) (q : queue_t) (waits : list queue_t) : queue_t * bool :=
  if 0 <? clients q then
    match waits with
    | [] => (q, false)
    | q :: waits => await clients q waits
    end
  else (q, true).

(** [writes], [reads]: the waits for the producers and for the consumers.
    [Some]: the call still waits. *)
Definition queue_destroy (pqueue : option queue_t) (writes reads : list queue_t) : option queue_t :=
  match pqueue with
  | None => None
  | Some q =>
      let q := set_clients q (consumers q) (producers q) false in
      let '(q, gone) := await producers q writes in
      if negb gone then Some q
      else
        let '(q, gone) := await consumers q reads in
        if negb gone then Some q else None
  end.

(** ** Interleaved calls

    The two mutexes are the slots [wm] and [rm]: a slot holds the program
    counter of the thread that owns the mutex.  Threads that sleep on a
    condition variable, that were woken and compete for the mutex, and that
    have released a mutex but not yet broadcast are counted outside. *)

Record entry : Type := MkEntry { e_data : list Z; e_pad : list Z }.

Definition e_len (e : entry) : Z := Z.of_nat (length (e_data e)).
Definition e_head (e : entry) : list Z := header_bytes (e_len e) (sse42_crc32 (e_data e)) (e_pad e).
(** The bytes an entry occupies in the ring. *)
Definition enc (e : entry) : list Z := e_head e ++ e_data e.

(** A thread inside [queue_write]; the flag says whether it passed a timeout. *)
Inductive wpc : Type :=
| WCheck (e : entry) (timed : bool)     (* at the [while] condition *)
| WSleep (e : entry) (timed : bool)     (* about to wait *)
| WCopy (e : entry) (rest : list Z)     (* bytes still to copy *)
| WCharge (e : entry)                   (* entry counted, memory not yet charged *)
| WUnlock.

(** A thread inside [queue_read]. *)
Inductive rpc : Type :=
| RCheck (timed : bool)
| RSleep (timed : bool)
| RHead (acc : list Z)                  (* header bytes copied so far *)
| RData (h acc : list Z)                (* header, data bytes copied so far *)
| RDischarge (h data : list Z)          (* entry uncounted, memory not yet discharged *)
| RUnlock.

(** The thread inside [queue_destroy]. *)
Inductive dpc : Type :=
| DNone | DLockW | DWaitW | DLockR | DWaitR | DFreed.

Record core : Type := MkCore {
  cq : queue_t;
  wm : option wpc;
  rm : option rpc;
  written : list entry;                 (* entries charged so far *)
  got : list (Z * list Z)               (* return value and data of the reads discharged so far *)
}.

Record sched : Type := MkSched {
  wwait : list (entry * bool);          (* asleep on _writeCondVariable *)
  wready : list (entry * bool * bool);  (* woken, with the timed-out flag *)
  rwait : list bool;
  rready : list (bool * bool);
  rnotify : nat;                        (* writers that still have to broadcast *)
  wnotify : nat;                        (* readers that still have to broadcast *)
  destroyer : dpc
}.

Definition set_q (c : core) (q : queue_t) : core := MkCore q (wm c) (rm c) (written c) (got c).
Definition set_wm (c : core) (w : option wpc) : core := MkCore (cq c) w (rm c) (written c) (got c).
Definition set_rm (c : core) (r : option rpc) : core := MkCore (cq c) (wm c) r (written c) (got c).

(** The result of a read, from the header and the data copied out. *)
Definition read_result (h data : list Z) : Z * list Z :=
  (if sse42_crc32 data =? header_crc h then s32 (header_size h) else QUEUE_RET_ERROR, data).

(** A writer or a reader that owns its mutex and does not wait. *)
Inductive cstep : core -> core -> Prop :=
| w_room c e tm : wm c = Some (WCheck e tm) -> no_room (cq c) (e_len e) = false ->
    cstep c (set_wm c (Some (WCopy e (enc e))))
| w_full c e tm : wm c = Some (WCheck e tm) -> no_room (cq c) (e_len e) = true ->
    cstep c (set_wm c (Some (WSleep e tm)))
| w_put c e b rest q : wm c = Some (WCopy e (b :: rest)) -> put_byte (cq c) b = Ok q ->
    cstep c (set_wm (set_q c q) (Some (WCopy e rest)))
| w_count c e : wm c = Some (WCopy e []) ->
    cstep c (set_wm (set_q c (count_entry (cq c))) (Some (WCharge e)))
| w_charge c e : wm c = Some (WCharge e) ->
    cstep c (MkCore (charge (cq c) (e_len e)) (Some WUnlock) (rm c) (written c ++ [e]) (got c))
| r_data c tm : rm c = Some (RCheck tm) -> is_empty (cq c) = false ->
    cstep c (set_rm c (Some (RHead [])))
| r_empty c tm : rm c = Some (RCheck tm) -> is_empty (cq c) = true ->
    cstep c (set_rm c (Some (RSleep tm)))
| r_head c acc b q : rm c = Some (RHead acc) -> (length acc < hdr_size)%nat ->
    get_byte (cq c) = Ok (b, q) -> cstep c (set_rm (set_q c q) (Some (RHead (acc ++ [b]))))
| r_size c acc : rm c = Some (RHead acc) -> length acc = hdr_size ->
    cstep c (set_rm c (Some (RData acc [])))
| r_get c h acc b q : rm c = Some (RData h acc) -> (length acc < Z.to_nat (header_size h))%nat ->
    get_byte (cq c) = Ok (b, q) -> cstep c (set_rm (set_q c q) (Some (RData h (acc ++ [b]))))
| r_uncount c h acc : rm c = Some (RData h acc) -> length acc = Z.to_nat (header_size h) ->
    cstep c (set_rm (set_q c (uncount_entry (cq c))) (Some (RDischarge h acc)))
| r_discharge c h data : rm c = Some (RDischarge h data) ->
    cstep c (MkCore (discharge (cq c) (header_size h)) (wm c) (Some RUnlock) (written c)
               (got c ++ [read_result h data])).

(** What a caller of [queue_write] passes: bytes of one object (objects are
    smaller than [2^63] bytes), and the padding its stack happens to hold. *)
Definition entry_ok (e : entry) : Prop :=
  Forall is_byte (e_data e) /\ e_len e < 2 ^ 63 /\ length (e_pad e) = 4%nat.
#[export] Instance entry_ok_dec e : Decision (entry_ok e).
Proof. unfold entry_ok. apply _. Defined.

(** The condition variables, the mutexes and the threads around the copying. *)
Definition wake_writers (s : sched) : sched :=
  MkSched [] (wready s ++ ((fun w => (w, false)) <$> wwait s)) (rwait s) (rready s) (rnotify s) (wnotify s)
    (match destroyer s with DWaitW => DLockW | d => d end).
Definition wake_readers (s : sched) : sched :=
  MkSched (wwait s) (wready s) [] (rready s ++ ((fun t => (t, false)) <$> rwait s)) (rnotify s) (wnotify s)
    (match destroyer s with DWaitR => DLockR | d => d end).
Definition set_wq (s : sched) ww wr := MkSched ww wr (rwait s) (rready s) (rnotify s) (wnotify s) (destroyer s).
Definition set_rq (s : sched) rw rr := MkSched (wwait s) (wready s) rw rr (rnotify s) (wnotify s) (destroyer s).
Definition set_notify (s : sched) rn wn := MkSched (wwait s) (wready s) (rwait s) (rready s) rn wn (destroyer s).
Definition set_destroyer (s : sched) d := MkSched (wwait s) (wready s) (rwait s) (rready s) (rnotify s) (wnotify s) d.

(** The steps of the threads.  A freed queue has no steps: a state in which it
    is freed and a thread still has something to do with it ([uses_freed]) is
    one from which that thread goes on in freed memory. *)
Inductive step : core * sched -> core * sched -> Prop :=
| s_core c c' s : destroyer s <> DFreed -> cstep c c' -> step (c, s) (c', s)
(* queue_write *)
| s_w_lock c s e tm : destroyer s <> DFreed -> wm c = None -> entry_ok e -> too_big (cq c) (e_len e) = false ->
    step (c, s) (set_wm c (Some (WCheck e tm)), s)
| s_w_sleep c s e tm : destroyer s <> DFreed -> wm c = Some (WSleep e tm) ->
    step (c, s) (set_wm c None, set_wq s (wwait s ++ [(e, tm)]) (wready s))
| s_w_wakeup c s l1 e tm l2 : destroyer s <> DFreed -> wwait s = l1 ++ (e, tm) :: l2 ->   (* spurious *)
    step (c, s) (c, set_wq s (l1 ++ l2) (wready s ++ [(e, tm, false)]))
| s_w_timeout c s l1 e l2 : destroyer s <> DFreed -> wwait s = l1 ++ (e, true) :: l2 ->
    step (c, s) (c, set_wq s (l1 ++ l2) (wready s ++ [(e, true, true)]))
| s_w_relock c s l1 e tm timed_out l2 : destroyer s <> DFreed -> wm c = None ->
    wready s = l1 ++ (e, tm, timed_out) :: l2 ->
    step (c, s)
      (set_wm c (if negb (isActive (cq c)) then None             (* returns QUEUE_RET_DESTROYING *)
                 else if (timed_out : bool) then None            (* returns QUEUE_RET_TIMEOUT *)
                 else Some (WCheck e tm)), set_wq s (wwait s) (l1 ++ l2))
| s_w_unlock c s : destroyer s <> DFreed -> wm c = Some WUnlock ->
    step (c, s) (set_wm c None, set_notify s (S (rnotify s)) (wnotify s))
| s_w_broadcast c s n : destroyer s <> DFreed -> rnotify s = S n ->
    step (c, s) (c, wake_readers (set_notify s n (wnotify s)))
(* queue_read *)
| s_r_lock c s tm : destroyer s <> DFreed -> rm c = None -> step (c, s) (set_rm c (Some (RCheck tm)), s)
| s_r_sleep c s tm : destroyer s <> DFreed -> rm c = Some (RSleep tm) ->
    step (c, s) (set_rm c None, set_rq s (rwait s ++ [tm]) (rready s))
| s_r_wakeup c s l1 tm l2 : destroyer s <> DFreed -> rwait s = l1 ++ tm :: l2 ->         (* spurious *)
    step (c, s) (c, set_rq s (l1 ++ l2) (rready s ++ [(tm, false)]))
| s_r_timeout c s l1 l2 : destroyer s <> DFreed -> rwait s = l1 ++ true :: l2 ->
    step (c, s) (c, set_rq s (l1 ++ l2) (rready s ++ [(true, true)]))
| s_r_relock c s l1 tm timed_out l2 : destroyer s <> DFreed -> rm c = None ->
    rready s = l1 ++ (tm, timed_out) :: l2 ->
    step (c, s)
      (set_rm c (if negb (isActive (cq c)) then None
                 else if (timed_out : bool) then None
                 else Some (RCheck tm)), set_rq s (rwait s) (l1 ++ l2))
| s_r_unlock c s : destroyer s <> DFreed -> rm c = Some RUnlock ->
    step (c, s) (set_rm c None, set_notify s (rnotify s) (S (wnotify s)))
| s_r_broadcast c s n : destroyer s <> DFreed -> wnotify s = S n ->
    step (c, s) (c, wake_writers (set_notify s (rnotify s) n))
(* registration, short of an overflow of the counters; the broadcast after it *)
| s_p_new c s : destroyer s <> DFreed -> wm c = None -> producers (cq c) < 2 ^ 31 - 1 ->
    step (c, s) (set_q c (queue_producer_new (cq c)).2, s)
| s_p_free c s : destroyer s <> DFreed -> wm c = None -> 0 < producers (cq c) ->
    step (c, s) (set_q c (queue_producer_free (cq c)), set_notify s (rnotify s) (S (wnotify s)))
| s_c_new c s : destroyer s <> DFreed -> rm c = None -> consumers (cq c) < 2 ^ 31 - 1 ->
    step (c, s) (set_q c (queue_consumer_new (cq c)).2, s)
| s_c_free c s : destroyer s <> DFreed -> rm c = None -> 0 < consumers (cq c) ->
    step (c, s) (set_q c (queue_consumer_free (cq c)), set_notify s (S (rnotify s)) (wnotify s))
(* queue_destroy *)
| s_d_start c s : destroyer s = DNone ->
    step (c, s) (set_q c (set_clients (cq c) (consumers (cq c)) (producers (cq c)) false), set_destroyer s DLockW)
| s_d_writers c s : destroyer s = DLockW -> wm c = None ->
    step (c, s) (c, set_destroyer s (if 0 <? producers (cq c) then DWaitW else DLockR))
| s_d_readers c s : destroyer s = DLockR -> rm c = None ->
    step (c, s) (c, set_destroyer s (if 0 <? consumers (cq c) then DWaitR else DFreed))
| s_d_wakeup c s : destroyer s = DWaitW \/ destroyer s = DWaitR ->                        (* spurious *)
    step (c, s) (c, set_destroyer s (match destroyer s with DWaitW => DLockW | _ => DLockR end)).

(** A thread is in or before one of its accesses although the queue is freed:
    inside a section, asleep, woken, or before its broadcast. *)
Definition uses_freed (x : core * sched) : Prop :=
  destroyer x.2 = DFreed /\
  (is_Some (wm x.1) \/ is_Some (rm x.1) \/ wwait x.2 <> [] \/ wready x.2 <> [] \/ rwait x.2 <> [] \/ rready x.2 <> [] \/
   rnotify x.2 <> O \/ wnotify x.2 <> O).

Definition sched0 : sched := MkSched [] [] [] [] 0 0 DNone.
Definition core0 (q : queue_t) : core := MkCore q None None [] [].

(** The states the calls of any threads can lead to. *)
Definition reachable (q : queue_t) (x : core * sched) : Prop := rtc step (core0 q, sched0) x.

End Queue.
