(* ===== verification/QueueSpec.v ===== *)
(** * The message queue: FIFO delivery under interleaving

    The invariant [cinv] follows the bytes of the queue by their absolute
    position in the stream of everything ever written: byte [i] of the stream
    lives in ring cell [i mod N] as long as it has not been discharged.  Every
    step of every thread preserves it, so the messages read are the messages
    written, in order and intact, and a writer never overwrites an unread
    byte. *)

From stdpp Require Import gmap.
From S2P Require Import Prelude Queue.

Module QueueSpec.
Import Queue.

(** ** Positions modulo the size of the ring *)

Lemma mod_neq N lo i hi :
  (lo <= i < hi)%nat -> (hi - lo < N)%nat -> (i mod N <> hi mod N)%nat.
Proof.
  intros Hi HN Heq. pose proof (Nat.div_mod_eq i N). pose proof (Nat.div_mod_eq hi N).
  rewrite Heq in *. assert (hi - i = N * (hi / N - i / N))%nat by nia. nia.
Qed.

Lemma mod_succ N p :
  (0 < N)%nat -> (if S (p mod N) =? N then 0 else S (p mod N))%nat = (S p mod N)%nat.
Proof.
  intros HN. pose proof (Nat.mod_upper_bound p N ltac:(lia)).
  rewrite <- Nat.add_1_r, <- (Nat.add_1_r p), <- (Nat.Div0.add_mod_idemp_l p 1 N).
  destruct (Nat.eqb_spec (p mod N + 1) N) as [E|E].
  - by rewrite E, Nat.Div0.mod_same.
  - rewrite (Nat.mod_small (p mod N + 1)) by lia. done.
Qed.

(** The bytes of [stream] from [lo] on are in their cells. *)
Definition window (r : list Z) (lo : nat) (stream : list Z) : Prop :=
  forall i b, (lo <= i)%nat -> stream !! i = Some b -> r !! (i mod length r)%nat = Some b.

Lemma window_put r lo stream b :
  window r lo stream -> (lo <= length stream)%nat -> (length stream - lo < length r)%nat ->
  window (<[(length stream mod length r)%nat := b]> r) lo (stream ++ [b]).
Proof.
  intros Hw Hlo Hroom i x Hi Hx. rewrite length_insert.
  apply lookup_app_Some in Hx as [Hx|[Hge Hx]].
  - pose proof (lookup_lt_Some _ _ _ Hx). rewrite list_lookup_insert_ne; [by apply Hw|].
    apply not_eq_sym, (mod_neq _ lo); [lia|done].
  - apply list_lookup_singleton_Some in Hx as [Hi0 <-].
    replace i with (length stream) by lia. apply list_lookup_insert_eq. apply Nat.mod_upper_bound. lia.
Qed.

Lemma window_advance r lo lo' stream : window r lo stream -> (lo <= lo')%nat -> window r lo' stream.
Proof. intros Hw Hlo i b Hi. apply Hw. lia. Qed.

(** ** Entries *)

Lemma length_e_head e : entry_ok e -> length (e_head e) = hdr_size.
Proof.
  intros (_ & _ & Hp). unfold e_head, header_bytes. rewrite !length_app, !length_le_bytes, Hp. done.
Qed.

Lemma length_enc e : entry_ok e -> length (enc e) = (hdr_size + length (e_data e))%nat.
Proof. intros He. unfold enc. by rewrite length_app, length_e_head. Qed.

Lemma crc_bit_u32 crc : is_u 32 crc -> is_u 32 (crc_bit crc).
Proof.
  intros Hc. unfold crc_bit. destruct (Z.testbit crc 0); [apply is_u_lxor; [lia| |split; [done|reflexivity]]|];
    by apply is_u_shiftr.
Qed.

Lemma iter_u32 n crc : is_u 32 crc -> is_u 32 (Nat.iter n crc_bit crc).
Proof. intros Hc. induction n; cbn; [done|by apply crc_bit_u32]. Qed.

Lemma crc_u32 data : Forall is_byte data -> is_u 32 (sse42_crc32 data).
Proof.
  unfold sse42_crc32. assert (is_u 32 0xffffffff) as H0 by (split; [lia|reflexivity]).
  intros Hd. revert H0. generalize 0xffffffff. induction Hd as [|b data Hb _ IH]; intros crc Hc; [done|].
  cbn [fold_left]. apply IH. unfold mm_crc32_u8. apply iter_u32, is_u_lxor; [lia|done|].
  eapply is_u_weaken; [|done]. lia.
Qed.

(** A header written by a writer is read back. *)
Lemma header_roundtrip size crc pad :
  is_u 64 size -> is_u 32 crc ->
  header_size (header_bytes size crc pad) = size /\ header_crc (header_bytes size crc pad) = crc.
Proof.
  intros Hs Hc. unfold header_size, header_crc, header_bytes.
  rewrite take_app_length' by (by rewrite length_le_bytes). rewrite le_val_bytes by exact Hs. split; [done|].
  rewrite drop_app_length' by (by rewrite length_le_bytes).
  rewrite take_app_length' by (by rewrite length_le_bytes). by apply le_val_bytes.
Qed.

Definition small (N : nat) (e : entry) : Prop := (length (enc e) < N)%nat.

Lemma e_len_u64 N e : entry_ok e -> small N e -> Z.of_nat N < 2 ^ 63 -> is_u 64 (e_len e).
Proof.
  intros He Hs HN. unfold small in Hs. rewrite length_enc in Hs by done. unfold e_len. split; [lia|].
  change (2 ^ 64) with (2 * 2 ^ 63). lia.
Qed.

Lemma e_head_size N e :
  entry_ok e -> small N e -> Z.of_nat N < 2 ^ 63 ->
  header_size (e_head e) = e_len e /\ header_crc (e_head e) = sse42_crc32 (e_data e).
Proof. intros He Hs HN. apply header_roundtrip; [by eapply e_len_u64|apply crc_u32, He]. Qed.

Lemma entry_size_enc N e :
  entry_ok e -> small N e -> Z.of_nat N < 2 ^ 63 -> entry_size (e_len e) = Z.of_nat (length (enc e)).
Proof.
  intros He Hs HN. unfold small in Hs. unfold entry_size. rewrite length_enc in * by done.
  rewrite wrap_small; [unfold e_len; lia|]. unfold e_len. split; [lia|].
  change (2 ^ 64) with (2 * 2 ^ 63). lia.
Qed.

Definition enc_all (es : list entry) : list Z := concat (enc <$> es).

Lemma enc_all_app es es' : enc_all (es ++ es') = enc_all es ++ enc_all es'.
Proof. unfold enc_all. by rewrite fmap_app, concat_app. Qed.

Lemma enc_all_cons e es : enc_all (e :: es) = enc e ++ enc_all es.
Proof. done. Qed.

Lemma enc_all_snoc es e : enc_all (es ++ [e]) = enc_all es ++ enc e.
Proof. rewrite enc_all_app, enc_all_cons. f_equal. apply app_nil_r. Qed.

#[local] Arguments enc : simpl never.
#[local] Arguments enc_all : simpl never.

Lemma enc_all_split es k : enc_all es = enc_all (take k es) ++ enc_all (drop k es).
Proof. by rewrite <- enc_all_app, take_drop. Qed.

(** ** The invariant *)

(** Bytes of the entry in flight that a writer has copied. *)
Definition wpart (w : option wpc) : list Z :=
  match w with
  | Some (WCopy e rest) => take (length (enc e) - length rest) (enc e)
  | Some (WCharge e) => enc e
  | _ => []
  end.
(** Room the writer has found. *)
Definition wres (w : option wpc) : nat :=
  match w with
  | Some (WCopy e _) | Some (WCharge e) => length (enc e)
  | _ => O
  end.
(** Bytes a reader has copied out. *)
Definition rprog (r : option rpc) : nat :=
  match r with
  | Some (RHead acc) => length acc
  | Some (RData h acc) | Some (RDischarge h acc) => (length h + length acc)%nat
  | _ => O
  end.

Definition winv (N : nat) (w : option wpc) : Prop :=
  match w with
  | Some (WCheck e _) | Some (WSleep e _) | Some (WCharge e) => entry_ok e /\ small N e
  | Some (WCopy e rest) => entry_ok e /\ small N e /\ exists pre, enc e = pre ++ rest
  | _ => True
  end.
Definition rinv (next : option entry) (r : option rpc) : Prop :=
  match r with
  | Some (RHead acc) => exists e, next = Some e /\ acc `prefix_of` e_head e
  | Some (RData h acc) => exists e, next = Some e /\ h = e_head e /\ acc `prefix_of` e_data e
  | Some (RDischarge h data) => exists e, next = Some e /\ h = e_head e /\ data = e_data e
  | _ => True
  end.

Definition in_flight (c : core) : Z :=
  (match wm c with Some (WCharge _) => 1 | _ => 0 end) -
  (match rm c with Some (RDischarge _ _) => 1 | _ => 0 end).

(** Entries written and not yet discharged. *)
Definition pending (c : core) : list entry := drop (length (got c)) (written c).
Definition consumed (c : core) : list entry := take (length (got c)) (written c).

(** What a completed read of [e] returns. *)
Definition delivered (e : entry) : Z * list Z := (s32 (e_len e), e_data e).

Record cinv (N : nat) (c : core) : Prop := {
  ci_len : length (ring (cq c)) = N;
  ci_mem : memSizeCurrent (cq c) = Z.of_nat N;
  ci_bound : Z.of_nat N < 2 ^ 63;
  ci_count : (length (got c) <= length (written c))%nat;
  ci_usage : memUsageCurrent (cq c) = Z.of_nat (length (enc_all (pending c)));
  ci_room : (length (enc_all (pending c)) + wres (wm c) <= N)%nat;
  ci_head : head (cq c) = ((length (enc_all (written c)) + length (wpart (wm c))) mod N)%nat;
  ci_tail : tail (cq c) = ((length (enc_all (consumed c)) + rprog (rm c)) mod N)%nat;
  ci_window : window (ring (cq c)) (length (enc_all (consumed c))) (enc_all (written c) ++ wpart (wm c));
  ci_written : Forall (fun e => entry_ok e /\ small N e) (written c);
  ci_w : winv N (wm c);
  ci_r : rinv (pending c !! O) (rm c);
  ci_got : got c = delivered <$> consumed c;
  ci_entries : entriesCurrent (cq c) = u64 (Z.of_nat (length (pending c)) + in_flight c)
}.

(** *** Pending entries *)

Lemma pending_head c e :
  pending c !! O = Some e ->
  written c !! length (got c) = Some e /\ (length (got c) < length (written c))%nat /\
  consumed c ++ [e] = take (S (length (got c))) (written c) /\
  pending c = e :: drop (S (length (got c))) (written c).
Proof.
  unfold pending, consumed. rewrite lookup_drop, Nat.add_0_r. intros He.
  pose proof (lookup_lt_Some _ _ _ He). split_and!; [done..| |].
  - symmetry. by apply take_S_r.
  - by apply drop_S.
Qed.

Lemma pending_byte c e j x :
  pending c !! O = Some e -> enc e !! j = Some x ->
  (enc_all (written c) ++ wpart (wm c)) !! (length (enc_all (consumed c)) + j)%nat = Some x.
Proof.
  intros He Hj. destruct (pending_head c e He) as (_ & _ & _ & Hp). apply lookup_app_l_Some.
  rewrite (enc_all_split (written c) (length (got c))), lookup_app_r by (unfold consumed; lia).
  fold (pending c). rewrite Hp. unfold consumed. rewrite Nat.add_comm, Nat.add_sub.
  rewrite enc_all_cons. by apply lookup_app_l_Some.
Qed.

Lemma pending_ok N c e : cinv N c -> pending c !! O = Some e -> entry_ok e /\ small N e.
Proof.
  intros Hc He. destruct (pending_head c e He) as (Hw & _). pose proof (ci_written _ _ Hc) as Hall.
  by apply (Forall_lookup_1 _ _ _ _ Hall Hw).
Qed.

Lemma pending_nonempty N c : cinv N c -> is_empty (cq c) = false -> exists e, pending c !! O = Some e.
Proof.
  intros Hc He. unfold is_empty in He. rewrite (ci_usage _ _ Hc) in He. apply Z.eqb_neq in He.
  destruct (pending c) as [|e es]; [done|]. by exists e.
Qed.

(** The byte a reader copies next. *)
Lemma get_byte_spec N c e j b q :
  cinv N c -> pending c !! O = Some e -> rprog (rm c) = j -> (j < length (enc e))%nat ->
  get_byte (cq c) = Ok (b, q) ->
  enc e !! j = Some b /\ q = set_ring (cq c) (ring (cq c)) (head (cq c)) (S (length (enc_all (consumed c)) + j) mod N)%nat.
Proof.
  intros Hc He Hj Hlt Hg. destruct (lookup_lt_is_Some_2 _ _ Hlt) as [x Hx].
  pose proof (pending_ok N c e Hc He) as [_ Hsm]. unfold small in Hsm.
  unfold get_byte in Hg. res_inv. rewrite (ci_tail _ _ Hc) in *.
  pose proof (ci_window _ _ Hc _ _ (Nat.le_add_r _ _) (pending_byte c e _ x He Hx)) as Hcell.
  rewrite (ci_len _ _ Hc) in Hcell. split; [congruence|].
  unfold advance. rewrite (ci_len _ _ Hc), mod_succ by lia. done.
Qed.

Lemma get_byte_ok N c e :
  cinv N c -> pending c !! O = Some e -> (rprog (rm c) < length (enc e))%nat ->
  exists b q, get_byte (cq c) = Ok (b, q).
Proof.
  intros Hc He Hlt. destruct (lookup_lt_is_Some_2 _ _ Hlt) as [x Hx]. unfold get_byte.
  pose proof (ci_window _ _ Hc _ _ (Nat.le_add_r _ _) (pending_byte c e _ x He Hx)) as Hcell.
  rewrite (ci_len _ _ Hc), <- (ci_tail _ _ Hc) in Hcell. rewrite (rd_lookup _ _ _ Hcell). by eexists _, _.
Qed.

(** *** Steps of the writer *)

Lemma wcopy_part e b rest pre :
  enc e = pre ++ b :: rest ->
  wpart (Some (WCopy e (b :: rest))) = pre /\ wpart (Some (WCopy e rest)) = pre ++ [b].
Proof.
  intros He. cbn. rewrite He, !length_app. cbn [length]. split.
  - replace (length pre + S (length rest) - S (length rest))%nat with (length pre) by lia. apply take_app_length.
  - replace (length pre + S (length rest) - length rest)%nat with (length (pre ++ [b]))
      by (rewrite length_app; cbn; lia).
    replace (pre ++ b :: rest) with ((pre ++ [b]) ++ rest) by (by rewrite <- app_assoc). apply take_app_length.
Qed.

Lemma inv_w_room N c e tm :
  cinv N c -> wm c = Some (WCheck e tm) -> no_room (cq c) (e_len e) = false ->
  cinv N (set_wm c (Some (WCopy e (enc e)))).
Proof.
  intros Hc Hw Hr. pose proof (ci_w _ _ Hc) as Hwi. rewrite Hw in Hwi. destruct Hwi as [He Hs].
  unfold no_room in Hr. rewrite (ci_mem _ _ Hc), (ci_usage _ _ Hc), (entry_size_enc N) in Hr by (done || apply Hc).
  pose proof (ci_room _ _ Hc) as Hroom. pose proof (ci_bound _ _ Hc) as HN. apply Z.ltb_ge in Hr.
  rewrite wrap_small in Hr by (split; [lia|change (2 ^ 64) with (2 * 2 ^ 63); lia]).
  assert (wpart (Some (WCopy e (enc e))) = []) as Hwp by (cbn; by rewrite Nat.sub_diag).
  destruct Hc as [H1 H2 H3 H4 H5 H6 H7 H8 H9 H10 H11 H12 H13 H14]. rewrite Hw in *.
  split; try done; cbn [set_wm cq wm rm written got].
  - change (pending (set_wm c (Some (WCopy e (enc e))))) with (pending c). cbn [wres]. lia.
  - rewrite H7, Hwp. done.
  - rewrite Hwp. done.
  - split_and!; [done..|]. by exists [].
  - rewrite H14. unfold in_flight. cbn [set_wm wm rm]. by rewrite Hw.
Qed.

Lemma inv_w_put N c e b rest q :
  cinv N c -> wm c = Some (WCopy e (b :: rest)) -> put_byte (cq c) b = Ok q ->
  cinv N (set_wm (set_q c q) (Some (WCopy e rest))).
Proof.
  intros Hc Hw Hp. pose proof (ci_w _ _ Hc) as Hwi. rewrite Hw in Hwi. destruct Hwi as (He & Hs & pre & Hpre).
  destruct (wcopy_part e b rest pre Hpre) as [Hp1 Hp2].
  unfold put_byte, wr in Hp. destruct (decide _) as [Hlt|]; [|done]. cbn in Hp. injection Hp as <-.
  pose proof (ci_room _ _ Hc) as Hroom. destruct Hc as [H1 H2 H3 H4 H5 H6 H7 H8 H9 H10 H11 H12 H13 H14].
  rewrite Hw in *. rewrite Hp1 in *. cbn [wres] in Hroom.
  assert (length (enc e) = length pre + S (length rest))%nat as Hle by (by rewrite Hpre, length_app).
  pose proof (enc_all_split (written c) (length (got c))) as Hsplit. apply (f_equal length) in Hsplit.
  rewrite length_app in Hsplit. fold (pending c) (consumed c) in Hsplit.
  split; try done; cbn [set_wm set_q set_ring cq wm rm written got ring head tail memUsageCurrent entriesCurrent].
  - by rewrite length_insert.
  - rewrite Hp2, length_app. unfold advance. rewrite H1, H7, mod_succ by lia. f_equal. cbn. lia.
  - change (consumed (set_wm _ _)) with (consumed c).
    rewrite H7, Hp2, app_assoc. rewrite <- H1 at 1. rewrite <- (length_app (enc_all (written c)) pre).
    apply window_put; [done|rewrite length_app; lia|rewrite length_app; lia].
  - split_and!; [done..|]. exists (pre ++ [b]). by rewrite <- app_assoc.
  - rewrite H14. unfold in_flight. cbn [set_wm set_q wm rm]. by rewrite Hw.
Qed.

Lemma put_byte_ok N c e b rest :
  cinv N c -> wm c = Some (WCopy e (b :: rest)) -> exists q, put_byte (cq c) b = Ok q.
Proof.
  intros Hc Hw. pose proof (ci_w _ _ Hc) as Hwi. rewrite Hw in Hwi. destruct Hwi as (He & Hs & _).
  unfold small in Hs. unfold put_byte. rewrite wr_lt; [by eexists|].
  rewrite (ci_len _ _ Hc), (ci_head _ _ Hc). apply Nat.mod_upper_bound. lia.
Qed.

Lemma inv_w_count N c e :
  cinv N c -> wm c = Some (WCopy e []) -> cinv N (set_wm (set_q c (count_entry (cq c))) (Some (WCharge e))).
Proof.
  intros Hc Hw. destruct Hc as [H1 H2 H3 H4 H5 H6 H7 H8 H9 H10 H11 H12 H13 H14]. rewrite Hw in *.
  assert (wpart (Some (WCopy e [])) = enc e) as Hwp by (cbn; by rewrite Nat.sub_0_r, firstn_all).
  rewrite Hwp in *. destruct H11 as (He & Hs & _).
  split; try done. cbn [set_wm set_q cq count_entry set_entries entriesCurrent]. rewrite H14, wrap_add_l.
  change (pending (set_wm _ _)) with (pending c). f_equal. unfold in_flight. cbn [set_wm set_q wm rm].
  rewrite Hw. lia.
Qed.

Lemma inv_w_charge N c e :
  cinv N c -> wm c = Some (WCharge e) ->
  cinv N (MkCore (charge (cq c) (e_len e)) (Some WUnlock) (rm c) (written c ++ [e]) (got c)).
Proof.
  intros Hc Hw. destruct Hc as [H1 H2 H3 H4 H5 H6 H7 H8 H9 H10 H11 H12 H13 H14]. rewrite Hw in *.
  destruct H11 as [He Hs]. set (c' := MkCore _ _ _ _ _).
  assert (pending c' = pending c ++ [e]) as Hpend.
  { unfold pending, c'. cbn [got written]. by rewrite drop_app_le. }
  assert (consumed c' = consumed c) as Hcons.
  { unfold consumed, c'. cbn [got written]. by rewrite take_app_le. }
  assert (enc_all (written c ++ [e]) = enc_all (written c) ++ enc e) as Henc.
  { apply enc_all_snoc. }
  assert (enc_all (pending c ++ [e]) = enc_all (pending c) ++ enc e) as Henc2.
  { apply enc_all_snoc. }
  cbn [wres wpart] in *.
  split; try done; rewrite ?Hpend, ?Hcons; cbn [c' cq wm rm written got charge set_usage ring head tail memUsageCurrent entriesCurrent wpart wres].
  - rewrite length_app. lia.
  - rewrite H5, (entry_size_enc N) by done. rewrite Henc2, length_app.
    rewrite wrap_small; [lia|]. split; [lia|]. change (2 ^ 64) with (2 * 2 ^ 63). lia.
  - rewrite Henc2, length_app. lia.
  - rewrite H7, Henc, length_app, Nat.add_0_r. done.
  - done.
  - rewrite Henc, app_nil_r. done.
  - apply list.Forall_app. split; [done|]. constructor; [done|constructor].
  - destruct (pending c) as [|e0 es]; [|done].
    destruct (rm c) as [[| | | | |]|]; cbn [rinv] in *; try done;
      destruct H12 as (e1 & He1 & _); done.
  - done.
  - rewrite H14, length_app. f_equal. unfold in_flight. cbn [c' wm rm]. rewrite Hw. cbn [length].
    destruct (rm c) as [[]|]; lia.
Qed.

(** *** Steps of the reader *)

Lemma inv_r_data N c tm :
  cinv N c -> rm c = Some (RCheck tm) -> is_empty (cq c) = false -> cinv N (set_rm c (Some (RHead []))).
Proof.
  intros Hc Hr Hne. destruct (pending_nonempty N c Hc Hne) as [e He].
  destruct Hc as [H1 H2 H3 H4 H5 H6 H7 H8 H9 H10 H11 H12 H13 H14]. rewrite Hr in *.
  split; try done; cbn [set_rm rm].
  - exists e. split; [done|apply prefix_nil].
  - cbn [set_rm cq]. rewrite H14. unfold in_flight. cbn [set_rm wm rm]. by rewrite Hr.
Qed.

(** Copying one byte out moves only the tail. *)
Lemma inv_r_byte N c e j b q r :
  cinv N c -> pending c !! O = Some e -> rprog (rm c) = j -> (j < length (enc e))%nat ->
  get_byte (cq c) = Ok (b, q) -> rprog (Some r) = S j -> rinv (Some e) (Some r) ->
  in_flight (set_rm c (Some r)) = in_flight c -> cinv N (set_rm (set_q c q) (Some r)).
Proof.
  intros Hc He Hj Hlt Hg Hr Hri Hfl. destruct (get_byte_spec N c e j b q) as [_ ->]; [done..|].
  destruct Hc as [H1 H2 H3 H4 H5 H6 H7 H8 H9 H10 H11 H12 H13 H14].
  split; try done; cbn [set_rm set_q set_ring cq wm rm written got ring head tail memUsageCurrent entriesCurrent].
  - change (consumed (set_rm _ _)) with (consumed c). rewrite Hr. f_equal. lia.
  - change (pending (set_rm _ _)) with (pending c). by rewrite He.
  - rewrite H14. by rewrite <- Hfl.
Qed.

Lemma prefix_snoc (l acc : list Z) b j :
  acc `prefix_of` l -> length acc = j -> l !! j = Some b -> (acc ++ [b]) `prefix_of` l.
Proof.
  intros [r ->] Hj Hb. rewrite lookup_app_r in Hb by lia. replace (j - length acc)%nat with O in Hb by lia.
  destruct r as [|b' r]; [done|]. injection Hb as ->. exists r. by rewrite <- app_assoc.
Qed.

Lemma inv_r_head N c acc b q :
  cinv N c -> rm c = Some (RHead acc) -> (length acc < hdr_size)%nat -> get_byte (cq c) = Ok (b, q) ->
  cinv N (set_rm (set_q c q) (Some (RHead (acc ++ [b])))).
Proof.
  intros Hc Hr Hlt Hg. pose proof (ci_r _ _ Hc) as Hri. rewrite Hr in Hri. destruct Hri as (e & He & Hacc).
  destruct (pending_ok N c e Hc He) as [Hok Hs].
  assert (rprog (rm c) = length acc) as Hj by (by rewrite Hr).
  assert (length acc < length (enc e))%nat as Hlt' by (rewrite length_enc by done; lia).
  destruct (get_byte_spec N c e _ b q Hc He Hj Hlt' Hg) as [Hb _].
  eapply inv_r_byte; [done..| | |].
  - cbn. rewrite length_app. cbn. lia.
  - exists e. split; [done|]. apply (prefix_snoc _ _ _ (length acc)); [done..|]. unfold enc in Hb.
    by rewrite lookup_app_l in Hb by (rewrite length_e_head; done).
  - unfold in_flight. cbn [set_rm wm rm]. by rewrite Hr.
Qed.

Lemma inv_r_size N c acc :
  cinv N c -> rm c = Some (RHead acc) -> length acc = hdr_size -> cinv N (set_rm c (Some (RData acc []))).
Proof.
  intros Hc Hr Hlen. pose proof (ci_r _ _ Hc) as Hri. rewrite Hr in Hri. destruct Hri as (e & He & Hacc).
  destruct (pending_ok N c e Hc He) as [Hok Hs].
  assert (acc = e_head e) as -> by (apply prefix_length_eq; [done|rewrite length_e_head; [lia|done]]).
  destruct Hc as [H1 H2 H3 H4 H5 H6 H7 H8 H9 H10 H11 H12 H13 H14]. rewrite Hr in *.
  split; try done; cbn [set_rm cq rm].
  - rewrite H8. cbn [rprog length]. by rewrite Nat.add_0_r.
  - exists e. split_and!; [done..|apply prefix_nil].
  - rewrite H14. unfold in_flight. cbn [set_rm wm rm]. by rewrite Hr.
Qed.

Lemma inv_r_get N c h acc b q :
  cinv N c -> rm c = Some (RData h acc) -> (length acc < Z.to_nat (header_size h))%nat ->
  get_byte (cq c) = Ok (b, q) -> cinv N (set_rm (set_q c q) (Some (RData h (acc ++ [b])))).
Proof.
  intros Hc Hr Hlt Hg. pose proof (ci_r _ _ Hc) as Hri. rewrite Hr in Hri. destruct Hri as (e & He & -> & Hacc).
  destruct (pending_ok N c e Hc He) as [Hok Hs].
  rewrite (proj1 (e_head_size N e Hok Hs (ci_bound _ _ Hc))) in Hlt. unfold e_len in Hlt. rewrite Nat2Z.id in Hlt.
  assert (rprog (rm c) = (hdr_size + length acc)%nat) as Hj by (rewrite Hr; cbn [rprog]; by rewrite length_e_head).
  assert (hdr_size + length acc < length (enc e))%nat as Hlt' by (rewrite length_enc by done; lia).
  destruct (get_byte_spec N c e _ b q Hc He Hj Hlt' Hg) as [Hb _].
  eapply inv_r_byte; [done..| | |].
  - cbn [rprog]. rewrite length_app, length_e_head by done. cbn [length]. lia.
  - exists e. split_and!; [done..|]. apply (prefix_snoc _ _ _ (length acc)); [done..|]. unfold enc in Hb.
    rewrite lookup_app_r in Hb by (rewrite length_e_head; [lia|done]).
    rewrite length_e_head in Hb by done. by replace (hdr_size + length acc - hdr_size)%nat with (length acc) in Hb by lia.
  - unfold in_flight. cbn [set_rm wm rm]. by rewrite Hr.
Qed.

Lemma inv_r_uncount N c h acc :
  cinv N c -> rm c = Some (RData h acc) -> length acc = Z.to_nat (header_size h) ->
  cinv N (set_rm (set_q c (uncount_entry (cq c))) (Some (RDischarge h acc))).
Proof.
  intros Hc Hr Hlen. pose proof (ci_r _ _ Hc) as Hri. rewrite Hr in Hri. destruct Hri as (e & He & -> & Hacc).
  destruct (pending_ok N c e Hc He) as [Hok Hs].
  rewrite (proj1 (e_head_size N e Hok Hs (ci_bound _ _ Hc))) in Hlen. unfold e_len in Hlen. rewrite Nat2Z.id in Hlen.
  assert (acc = e_data e) as -> by (apply prefix_length_eq; [done|lia]).
  destruct Hc as [H1 H2 H3 H4 H5 H6 H7 H8 H9 H10 H11 H12 H13 H14]. rewrite Hr in *.
  split; try done; cbn [set_rm set_q cq rm].
  - by exists e.
  - cbn [uncount_entry set_entries entriesCurrent]. rewrite H14, wrap_sub_l. f_equal.
    change (pending (set_rm _ _)) with (pending c). unfold in_flight. cbn [set_rm set_q wm rm]. rewrite Hr. lia.
Qed.

Lemma inv_r_discharge N c h data :
  cinv N c -> rm c = Some (RDischarge h data) ->
  cinv N (MkCore (discharge (cq c) (header_size h)) (wm c) (Some RUnlock) (written c)
            (got c ++ [read_result h data])).
Proof.
  intros Hc Hr. pose proof (ci_r _ _ Hc) as Hri. rewrite Hr in Hri. destruct Hri as (e & He & -> & ->).
  destruct (pending_ok N c e Hc He) as [Hok Hs].
  destruct (e_head_size N e Hok Hs (ci_bound _ _ Hc)) as [Hhs Hhc].
  destruct (pending_head c e He) as (_ & Hlt & Hcons & Hpend).
  assert (read_result (e_head e) (e_data e) = delivered e) as ->.
  { unfold read_result, delivered. by rewrite Hhc, Z.eqb_refl, Hhs. }
  set (c' := MkCore _ _ _ _ _).
  assert (length (got c ++ [delivered e]) = S (length (got c))) as Hlg by (rewrite length_app; cbn; lia).
  assert (consumed c' = consumed c ++ [e]) as Hcons'.
  { unfold consumed at 1, c'. cbn [got written]. by rewrite Hlg. }
  assert (pending c = e :: pending c') as Hpend'.
  { unfold pending at 2, c'. cbn [got written]. by rewrite Hlg. }
  destruct Hc as [H1 H2 H3 H4 H5 H6 H7 H8 H9 H10 H11 H12 H13 H14]. rewrite Hr in *.
  rewrite Hpend', enc_all_cons, length_app in H5, H6. rewrite Hpend' in H14.
  split; try done; rewrite ?Hcons'; cbn [c' cq wm rm written got discharge set_usage ring head tail memUsageCurrent entriesCurrent].
  - by rewrite Hlg.
  - rewrite H5, Hhs, (entry_size_enc N) by done.
    rewrite wrap_small; [lia|]. split; [lia|]. change (2 ^ 64) with (2 * 2 ^ 63). lia.
  - lia.
  - rewrite H8, enc_all_snoc, length_app. cbn [rprog]. f_equal. rewrite length_enc, length_e_head by done. lia.
  - rewrite enc_all_snoc, length_app. eapply window_advance; [done|lia].
  - by rewrite fmap_app, H13.
  - rewrite H14. f_equal. unfold in_flight. cbn [c' wm rm length]. rewrite Hr. destruct (wm c) as [[]|]; lia.
Qed.

(** *** All steps *)

(** A step of the bookkeeping around the copying leaves the data alone. *)
Lemma inv_quiet N c w r a p n :
  cinv N c -> winv N w -> rinv (pending c !! O) r ->
  wpart w = wpart (wm c) -> wres w = wres (wm c) -> rprog r = rprog (rm c) ->
  in_flight (MkCore (cq c) w r (written c) (got c)) = in_flight c ->
  cinv N (MkCore (set_clients (cq c) a p n) w r (written c) (got c)).
Proof.
  intros Hc Hw Hr H1 H2 H3 H4. destruct Hc.
  split; try done; cbn [cq wm rm written got set_clients head tail entriesCurrent].
  - by rewrite H2.
  - by rewrite H1.
  - by rewrite H3.
  - by rewrite H1.
  - by rewrite ci_entries0, <- H4.
Qed.

Lemma inv_pcs N c w r :
  cinv N c -> winv N w -> rinv (pending c !! O) r ->
  wpart w = wpart (wm c) -> wres w = wres (wm c) -> rprog r = rprog (rm c) ->
  in_flight (MkCore (cq c) w r (written c) (got c)) = in_flight c ->
  cinv N (MkCore (cq c) w r (written c) (got c)).
Proof.
  intros. replace (cq c) with (set_clients (cq c) (consumers (cq c)) (producers (cq c)) (isActive (cq c)))
    by (by destruct (cq c)). by apply inv_quiet.
Qed.

Lemma inv_clients N c a p n :
  cinv N c -> cinv N (set_q c (set_clients (cq c) a p n)).
Proof. intros Hc. apply inv_quiet; [done|apply Hc|apply Hc|done..]. Qed.

(** Changes of the program counters that touch no data. *)
Ltac quiet Hc E :=
  apply inv_pcs; [exact Hc| | | | | |];
  [try apply Hc|try apply Hc|try rewrite E..|unfold in_flight; cbn [wm rm]; rewrite E]; try done.

Lemma cstep_inv N c c' : cinv N c -> cstep c c' -> cinv N c'.
Proof.
  intros Hc Hs. destruct Hs as [c e tm Hw Hr|c e tm Hw Hr|c e b rest q Hw Hp|c e Hw|c e Hw|c tm Hr He|c tm Hr He
    |c acc b q Hr Hl Hg|c acc Hr Hl|c h acc b q Hr Hl Hg|c h acc Hr Hl|c h data Hr].
  - by eapply inv_w_room.
  - pose proof (ci_w _ _ Hc) as Hwi. rewrite Hw in Hwi. by quiet Hc Hw.
  - by eapply inv_w_put.
  - by apply inv_w_count.
  - by apply inv_w_charge.
  - by eapply inv_r_data.
  - by quiet Hc Hr.
  - by eapply inv_r_head.
  - by eapply inv_r_size.
  - by eapply inv_r_get.
  - by eapply inv_r_uncount.
  - by eapply inv_r_discharge.
Qed.

(** The entries held by sleeping and woken writers. *)
Definition sinv (N : nat) (s : sched) : Prop :=
  Forall (fun w => entry_ok w.1 /\ small N w.1) (wwait s) /\
  Forall (fun w => entry_ok w.1.1 /\ small N w.1.1) (wready s).

Lemma too_big_small N e q :
  entry_ok e -> memSizeCurrent q = Z.of_nat N -> too_big q (e_len e) = false -> small N e.
Proof.
  intros He Hm Ht. unfold too_big in Ht. apply Z.leb_gt in Ht. rewrite Hm in Ht. unfold small.
  rewrite length_enc by done. destruct He as (_ & Hl & _). unfold entry_size, e_len, hdr_size in *.
  rewrite wrap_small in Ht; [lia|]. split; [lia|]. change (2 ^ 64) with (2 * 2 ^ 63). lia.
Qed.

Definition inv (N : nat) (x : core * sched) : Prop := cinv N x.1 /\ sinv N x.2.

Lemma step_inv N x y : inv N x -> step x y -> inv N y.
Proof.
  intros [Hc [Hww Hwr]] Hs. destruct Hs; cbn [fst snd] in *; (split; cbn [fst snd]); try done.
  all: try by eapply cstep_inv.
  all: try by apply inv_clients.
  all: rewrite ?list.Forall_app in *.
  (* queue_write: lock, wait, relock, unlock *)
  - assert (small N e) by (eapply too_big_small; [done|apply Hc|done]). by quiet Hc H0.
  - pose proof (ci_w _ _ Hc) as Hwi. rewrite H0 in Hwi. by quiet Hc H0.
  - pose proof (ci_w _ _ Hc) as Hwi. rewrite H0 in Hwi. split; [|done]. cbn [set_wq wwait].
    apply list.Forall_app. split; [done|]. constructor; [done|constructor].
  - rewrite H0 in Hww. apply list.Forall_app in Hww as [? [? ?]%list.Forall_cons].
    split; cbn [set_wq wwait wready]; apply list.Forall_app; [done|]. split; [done|]. constructor; [done|constructor].
  - rewrite H0 in Hww. apply list.Forall_app in Hww as [? [? ?]%list.Forall_cons].
    split; cbn [set_wq wwait wready]; apply list.Forall_app; [done|]. split; [done|]. constructor; [done|constructor].
  - rewrite H1 in Hwr. apply list.Forall_app in Hwr as [_ [[? ?] _]%list.Forall_cons].
    destruct (negb (isActive (cq c))); [by quiet Hc H0|]. destruct timed_out; by quiet Hc H0.
  - rewrite H1 in Hwr. apply list.Forall_app in Hwr as [? [? ?]%list.Forall_cons].
    split; [done|]. cbn [set_wq wready]. by apply list.Forall_app.
  - by quiet Hc H0.
  (* queue_read *)
  - by quiet Hc H0.
  - by quiet Hc H0.
  - destruct (negb (isActive (cq c))); [by quiet Hc H0|]. destruct timed_out; by quiet Hc H0.
  - by quiet Hc H0.
  (* broadcasts and registration *)
  - split; [constructor|]. cbn [wake_writers set_notify wready wwait]. apply list.Forall_app. split; [done|].
    by apply list.Forall_fmap.
  - unfold queue_producer_new. destruct (isActive (cq c)); cbn [snd]; [by apply inv_clients|by destruct c].
  - unfold queue_consumer_new. destruct (isActive (cq c)); cbn [snd]; [by apply inv_clients|by destruct c].
Qed.

Lemma init_inv N q :
  queue_create N true true = Some q -> Z.of_nat N < 2 ^ 63 -> inv N (core0 q, sched0).
Proof.
  intros [= <-] HN. split; [|by split; constructor]. cbn [fst].
  split; cbn; try done; try lia; rewrite ?length_replicate, ?Nat.Div0.mod_0_l; try done.
  cbn [enc_all length]. unfold enc_all. cbn. lia.
Qed.

Lemma reachable_inv N q x :
  queue_create N true true = Some q -> Z.of_nat N < 2 ^ 63 -> reachable q x -> inv N x.
Proof.
  intros Hq HN Hr. eapply (rtc_ind_r (inv N)); [by eapply init_inv| |exact Hr].
  intros y z _ Hs Hy. by eapply step_inv.
Qed.

(** ** The sequential calls *)

(** Outside the critical sections the queue [q] holds the entries [es]. *)
Definition holds (N : nat) (q : queue_t) (es : list entry) : Prop :=
  exists c, cinv N c /\ cq c = q /\ wm c = None /\ rm c = None /\ pending c = es.

Lemma write_bytes N c e bs rest :
  cinv N c -> wm c = Some (WCopy e (bs ++ rest)) ->
  exists q, i_queue_write (cq c) bs = Ok q /\ cinv N (set_wm (set_q c q) (Some (WCopy e rest))).
Proof.
  revert c. induction bs as [|b bs IH]; intros c Hc Hw; cbn [i_queue_write].
  - exists (cq c). split; [done|]. destruct c. cbn in *. by subst.
  - destruct (put_byte_ok N c e b (bs ++ rest) Hc Hw) as [q Hq]. rewrite Hq. cbn [mbind res_bind].
    pose proof (inv_w_put N c e b (bs ++ rest) q Hc Hw Hq) as Hc'.
    destruct (IH _ Hc' eq_refl) as (q' & Hq' & Hc''). by exists q'.
Qed.

Lemma write_entry_spec N q es e :
  holds N q es -> entry_ok e -> small N e -> no_room q (e_len e) = false ->
  exists q', write_entry q (e_data e) (e_pad e) = Ok q' /\ holds N q' (es ++ [e]).
Proof.
  intros (c & Hc & <- & Hw & Hr & <-) He Hs Hroom.
  assert (cinv N (set_wm c (Some (WCheck e false)))) as H1 by (by quiet Hc Hw).
  pose proof (inv_w_room N _ e false H1 eq_refl Hroom) as H2.
  assert (enc e = e_head e ++ e_data e ++ []) as Henc by (by rewrite app_nil_r).
  rewrite Henc in H2. destruct (write_bytes N _ e _ _ H2 eq_refl) as (q1 & E1 & H3).
  destruct (write_bytes N _ e _ _ H3 eq_refl) as (q2 & E2 & H4).
  cbn [set_wm set_q cq] in E1, E2. unfold write_entry. fold (e_len e). fold (e_head e).
  rewrite E1. cbn [mbind res_bind]. rewrite E2. cbn [mbind res_bind]. eexists. split; [done|].
  pose proof (inv_w_count N _ e H4 eq_refl) as H5. pose proof (inv_w_charge N _ e H5 eq_refl) as H6.
  assert (forall c', cinv N c' -> wm c' = Some WUnlock -> cinv N (set_wm c' None)) as Hun.
  { intros c' Hc' Hw'. by quiet Hc' Hw'. }
  pose proof (Hun _ H6 eq_refl) as H7. eexists. split; [exact H7|]. split_and!; [done..|].
  unfold pending. cbn [set_wm set_q written got]. rewrite drop_app_le; [done|apply Hc].
Qed.

Lemma read_bytes N c e n :
  cinv N c -> pending c !! O = Some e ->
  (forall acc, rm c = Some (RHead acc) -> (length acc + n <= hdr_size)%nat ->
     exists bs q, i_queue_read (cq c) n = Ok (bs, q) /\ length bs = n /\
       cinv N (set_rm (set_q c q) (Some (RHead (acc ++ bs))))) /\
  (forall acc, rm c = Some (RData (e_head e) acc) -> (length acc + n <= length (e_data e))%nat ->
     exists bs q, i_queue_read (cq c) n = Ok (bs, q) /\ length bs = n /\
       cinv N (set_rm (set_q c q) (Some (RData (e_head e) (acc ++ bs))))).
Proof.
  revert c. induction n as [|n IH]; intros c Hc He; cbn [i_queue_read].
  { split; intros acc Hr _; exists [], (cq c); (split_and!; [done..|]); rewrite app_nil_r; destruct c; cbn in *; by subst. }
  destruct (pending_ok N c e Hc He) as [Hok Hs]. split; intros acc Hr Hl.
  - destruct (get_byte_ok N c e Hc He) as (b & q & Hg); [rewrite Hr, length_enc by done; cbn [rprog]; lia|].
    rewrite Hg. cbn [mbind res_bind].
    pose proof (inv_r_head N c acc b q Hc Hr ltac:(lia) Hg) as Hc'.
    destruct (IH _ Hc' He) as [IH1 _].
    destruct (IH1 _ eq_refl) as (bs & q' & E & Hlb & Hc''); [rewrite length_app; cbn; lia|].
    cbn [set_rm set_q cq] in E. rewrite E. cbn [mbind res_bind]. exists (b :: bs), q'.
    split_and!; [done|cbn; lia|]. by rewrite <- app_assoc in Hc''.
  - destruct (get_byte_ok N c e Hc He) as (b & q & Hg).
    { rewrite Hr, length_enc by done. cbn [rprog]. rewrite length_e_head by done. lia. }
    rewrite Hg. cbn [mbind res_bind].
    assert (length acc < Z.to_nat (header_size (e_head e)))%nat as Hlt.
    { rewrite (proj1 (e_head_size N e Hok Hs (ci_bound _ _ Hc))). unfold e_len. lia. }
    pose proof (inv_r_get N c _ acc b q Hc Hr Hlt Hg) as Hc'.
    destruct (IH _ Hc' He) as [_ IH2].
    destruct (IH2 _ eq_refl) as (bs & q' & E & Hlb & Hc''); [rewrite length_app; cbn; lia|].
    cbn [set_rm set_q cq] in E. rewrite E. cbn [mbind res_bind]. exists (b :: bs), q'.
    split_and!; [done|cbn; lia|]. by rewrite <- app_assoc in Hc''.
Qed.

Lemma read_entry_spec N q e es :
  holds N q (e :: es) ->
  exists q', read_entry q = Ok (Returned (s32 (e_len e)) (e_data e) q') /\ holds N q' es.
Proof.
  intros (c & Hc & <- & Hw & Hr & Hp). assert (pending c !! O = Some e) as He by (by rewrite Hp).
  destruct (pending_ok N c e Hc He) as [Hok Hs].
  destruct (e_head_size N e Hok Hs (ci_bound _ _ Hc)) as [Hhs Hhc].
  assert (cinv N (set_rm c (Some (RCheck false)))) as H1 by (by quiet Hc Hr).
  assert (is_empty (cq c) = false) as Hne.
  { unfold is_empty. rewrite (ci_usage _ _ Hc), Hp, enc_all_cons, length_app, length_enc by done.
    apply Z.eqb_neq. unfold hdr_size. lia. }
  pose proof (inv_r_data N _ false H1 eq_refl Hne) as H2.
  destruct (read_bytes N _ e hdr_size H2 He) as [Hh _].
  destruct (Hh [] eq_refl) as (h & q1 & E1 & Hlh & H3); [done|]. cbn [set_rm set_q cq app] in E1, H3.
  pose proof (ci_r _ _ H3) as Hri. destruct Hri as (e' & He' & Hpre). assert (e' = e) as ->.
  { change (pending (set_rm _ _)) with (pending c) in He'. congruence. }
  assert (h = e_head e) as -> by (apply prefix_length_eq; [done|rewrite length_e_head; [lia|done]]).
  pose proof (inv_r_size N _ _ H3 eq_refl Hlh) as H4.
  destruct (read_bytes N _ e (length (e_data e)) H4 He) as [_ Hd].
  destruct (Hd [] eq_refl) as (data & q2 & E2 & Hld & H5); [done|]. cbn [set_rm set_q cq app] in E2, H5.
  pose proof (ci_r _ _ H5) as Hri. destruct Hri as (e' & He'' & _ & Hpre'). assert (e' = e) as ->.
  { change (pending (set_rm _ _)) with (pending c) in He''. congruence. }
  assert (data = e_data e) as -> by (apply prefix_length_eq; [done|lia]).
  unfold read_entry. rewrite E1. cbn [mbind res_bind]. rewrite Hhs.
  assert (Z.to_nat (e_len e) = length (e_data e)) as Hn by apply Nat2Z.id. rewrite Hn, E2.
  cbn [mbind res_bind]. rewrite Hhc, Z.eqb_refl. eexists. split; [done|].
  pose proof (inv_r_uncount N _ _ _ H5 eq_refl) as H6. rewrite Hhs, Hn in H6.
  specialize (H6 eq_refl).
  pose proof (inv_r_discharge N _ _ _ H6 eq_refl) as H7. rewrite Hhs in H7.
  assert (forall c', cinv N c' -> rm c' = Some RUnlock -> cinv N (set_rm c' None)) as Hun.
  { intros c' Hc' Hr'. by quiet Hc' Hr'. }
  pose proof (Hun _ H7 eq_refl) as H8. eexists. split; [exact H8|]. split_and!; [done..|].
  unfold pending. cbn [set_rm set_q written got]. rewrite length_app, Nat.add_1_r.
  destruct (pending_head c e He) as (_ & _ & _ & Hp'). rewrite Hp' in Hp. by injection Hp.
Qed.

End QueueSpec.
