(* ===== verification/QueueProps.v ===== *)
(** * The message queue: properties

    FIFO delivery and memory safety for every interleaving, the sequential
    contracts of the calls, what [queue_destroy] waits for, and two schedules
    in which threads stay asleep. *)

From stdpp Require Import gmap.
From S2P Require Import Prelude Queue QueueSpec.

Module QueueProps.
Import Queue QueueSpec.

(** ** Running one thread until it leaves its critical section *)

Definition wnext (c : core) : option core :=
  match wm c with
  | Some (WCheck e tm) =>
      Some (set_wm c (Some (if no_room (cq c) (e_len e) then WSleep e tm else WCopy e (enc e))))
  | Some (WCopy e (b :: rest)) =>
      match put_byte (cq c) b with
      | Ok q => Some (set_wm (set_q c q) (Some (WCopy e rest)))
      | Err _ => None
      end
  | Some (WCopy e []) => Some (set_wm (set_q c (count_entry (cq c))) (Some (WCharge e)))
  | Some (WCharge e) =>
      Some (MkCore (charge (cq c) (e_len e)) (Some WUnlock) (rm c) (written c ++ [e]) (got c))
  | _ => None
  end.

Lemma wnext_step c c' : wnext c = Some c' -> cstep c c'.
Proof.
  unfold wnext. destruct (wm c) as [[e tm|e tm|e [|b rest]|e|]|] eqn:Hw; try done.
  - intros [= <-]. destruct (no_room (cq c) (e_len e)) eqn:Hr; [by apply w_full|by eapply w_room].
  - intros [= <-]. by apply w_count.
  - destruct (put_byte (cq c) b) eqn:Hp; [|done]. intros [= <-]. by eapply w_put.
  - intros [= <-]. by apply w_charge.
Qed.

Fixpoint wrun (n : nat) (c : core) : core :=
  match n with
  | O => c
  | S n' => match wnext c with Some c' => wrun n' c' | None => c end
  end.

Lemma wrun_steps n c s : destroyer s <> DFreed -> rtc step (c, s) (wrun n c, s).
Proof.
  intros Hd. revert c. induction n as [|n IH]; intros c; cbn; [constructor|].
  destruct (wnext c) as [c'|] eqn:E; [|constructor]. eapply rtc_l; [|apply IH].
  apply s_core; [done|]. by apply wnext_step.
Qed.

Definition rnext (c : core) : option core :=
  match rm c with
  | Some (RCheck tm) => Some (set_rm c (Some (if is_empty (cq c) then RSleep tm else RHead [])))
  | Some (RHead acc) =>
      if (length acc <? hdr_size)%nat then
        match get_byte (cq c) with Ok (b, q) => Some (set_rm (set_q c q) (Some (RHead (acc ++ [b])))) | Err _ => None end
      else if (length acc =? hdr_size)%nat then Some (set_rm c (Some (RData acc []))) else None
  | Some (RData h acc) =>
      if (length acc <? Z.to_nat (header_size h))%nat then
        match get_byte (cq c) with Ok (b, q) => Some (set_rm (set_q c q) (Some (RData h (acc ++ [b])))) | Err _ => None end
      else if (length acc =? Z.to_nat (header_size h))%nat then
        Some (set_rm (set_q c (uncount_entry (cq c))) (Some (RDischarge h acc)))
      else None
  | Some (RDischarge h data) =>
      Some (MkCore (discharge (cq c) (header_size h)) (wm c) (Some RUnlock) (written c) (got c ++ [read_result h data]))
  | _ => None
  end.

Lemma rnext_step c c' : rnext c = Some c' -> cstep c c'.
Proof.
  unfold rnext. destruct (rm c) as [[tm|tm|acc|h acc|h data|]|] eqn:Hr; try done.
  - intros [= <-]. destruct (is_empty (cq c)) eqn:He; [by apply r_empty|by eapply r_data].
  - destruct (Nat.ltb_spec (length acc) hdr_size).
    + destruct (get_byte (cq c)) as [[b q]|] eqn:Hg; [|done]. intros [= <-]. by eapply r_head.
    + destruct (Nat.eqb_spec (length acc) hdr_size); [|done]. intros [= <-]. by apply r_size.
  - destruct (Nat.ltb_spec (length acc) (Z.to_nat (header_size h))).
    + destruct (get_byte (cq c)) as [[b q]|] eqn:Hg; [|done]. intros [= <-]. by eapply r_get.
    + destruct (Nat.eqb_spec (length acc) (Z.to_nat (header_size h))); [|done]. intros [= <-]. by apply r_uncount.
  - intros [= <-]. by apply r_discharge.
Qed.

Fixpoint rrun (n : nat) (c : core) : core :=
  match n with
  | O => c
  | S n' => match rnext c with Some c' => rrun n' c' | None => c end
  end.

Lemma rrun_steps n c s : destroyer s <> DFreed -> rtc step (c, s) (rrun n c, s).
Proof.
  intros Hd. revert c. induction n as [|n IH]; intros c; cbn; [constructor|].
  destruct (rnext c) as [c'|] eqn:E; [|constructor]. eapply rtc_l; [|apply IH].
  apply s_core; [done|]. by apply rnext_step.
Qed.

(** ** The destruction protocol *)

Definition dinv (x : core * sched) : Prop :=
  let q := cq x.1 in
  0 <= producers q < 2 ^ 31 /\ 0 <= consumers q < 2 ^ 31 /\
  match destroyer x.2 with
  | DNone => True
  | DLockW | DWaitW => isActive q = false
  | DLockR | DWaitR => isActive q = false /\ producers q = 0
  | DFreed => producers q = 0 /\ consumers q = 0
  end.

(** The copying steps change neither the registrations nor the flag. *)
Lemma cstep_clients c c' :
  cstep c c' -> producers (cq c') = producers (cq c) /\ consumers (cq c') = consumers (cq c) /\
    isActive (cq c') = isActive (cq c).
Proof.
  destruct 1 as [| |c e b rest q _ Hp| | | | |c acc b q _ _ Hg| |c h acc b q _ _ Hg| |]; try done.
  - unfold put_byte in Hp. res_inv. done.
  - unfold get_byte in Hg. res_inv. done.
  - unfold get_byte in Hg. res_inv. done.
Qed.

Lemma step_dinv x y : dinv x -> step x y -> dinv y.
Proof.
  intros (Hp & Hc & Hd) Hs. destruct Hs as [c c' s Hf Hst| | | | | | | | | | | | | | | | | | | | | | ];
    unfold dinv; cbn [fst snd] in *; try exact (conj Hp (conj Hc Hd)).
  - destruct (cstep_clients c c' Hst) as (-> & -> & ->). done.
  - refine (conj Hp (conj Hc _)). cbn. destruct (destroyer s); done.
  - refine (conj Hp (conj Hc _)). cbn. destruct (destroyer s); done.
  - unfold queue_producer_new. destruct (isActive (cq c)) eqn:Ha; cbn; [|by rewrite Ha].
    rewrite s32_small by lia. split; [lia|]. split; [lia|]. destruct (destroyer s); try done; try congruence; by destruct Hd; congruence.
  - cbn. rewrite s32_small by lia. split; [lia|]. split; [lia|]. destruct (destroyer s); try done; destruct Hd; split; done || lia.
  - unfold queue_consumer_new. destruct (isActive (cq c)) eqn:Ha; cbn; [|by rewrite Ha].
    rewrite s32_small by lia. split; [lia|]. split; [lia|]. destruct (destroyer s); try done; try congruence; by destruct Hd; congruence.
  - cbn. rewrite s32_small by lia. split; [lia|]. split; [lia|]. destruct (destroyer s); try done; destruct Hd; split; done || lia.
  - refine (conj Hp (conj Hc _)). by cbn.
  - refine (conj Hp (conj Hc _)). cbn. rewrite H in Hd.
    destruct (Z.ltb_spec 0 (producers (cq c))); [done|]. split; [done|lia].
  - refine (conj Hp (conj Hc _)). cbn. rewrite H in Hd. destruct Hd as [? ?].
    destruct (Z.ltb_spec 0 (consumers (cq c))); [done|]. split; [done|lia].
  - refine (conj Hp (conj Hc _)). cbn. destruct H as [H|H]; rewrite H in *; done.
Qed.

Lemma reachable_dinv N q x : queue_create N true true = Some q -> reachable q x -> dinv x.
Proof.
  intros [= <-] Hr. eapply (rtc_ind_r dinv); [|intros; by eapply step_dinv|exact Hr].
  split; [cbn; lia|]. split; [cbn; lia|done].
Qed.

(** ** Properties *)

(** C2: in every interleaving of any number of threads reading from and
    writing to the queue, the reads completed so far have returned exactly the
    first messages written, in order, each with its length as the result and
    never with a CRC error; the memory accounted is that of the messages not
    yet read and never exceeds the ring, and the entry counter counts them up
    to the calls between the two counter updates. *)
Theorem queue_fifo N q c s :
  queue_create N true true = Some q -> Z.of_nat N < 2 ^ 63 -> reachable q (c, s) ->
  got c = delivered <$> take (length (got c)) (written c) /\
  memUsageCurrent (cq c) = Z.of_nat (length (enc_all (drop (length (got c)) (written c)))) /\
  memUsageCurrent (cq c) <= Z.of_nat N /\
  entriesCurrent (cq c) = u64 (Z.of_nat (length (written c) - length (got c)) + in_flight c).
Proof.
  intros Hq HN Hr. destruct (reachable_inv N q _ Hq HN Hr) as [Hc _]. cbn [fst] in Hc.
  split_and!; [apply Hc|apply Hc| |].
  - rewrite (ci_usage _ _ Hc). pose proof (ci_room _ _ Hc). lia.
  - rewrite (ci_entries _ _ Hc). unfold pending. by rewrite length_drop.
Qed.

Definition msg : entry := MkEntry [104; 105] [0; 0; 0; 0].

Lemma reach_written :
  exists q s, queue_create 64 true true = Some q /\
    reachable q (wrun 40 (set_wm (core0 q) (Some (WCheck msg false))), s).
Proof.
  eexists _, sched0. split; [reflexivity|]. eapply rtc_l; [|by apply wrun_steps].
  apply s_w_lock; [done|done|decide_closed|reflexivity].
Qed.

Lemma queue_fifo_witness :
  exists q c s, queue_create 64 true true = Some q /\ reachable q (c, s) /\
    written c = [msg] /\ got c = delivered <$> take (length (got c)) (written c).
Proof.
  destruct reach_written as (q & s & Hq & Hr). eexists q, _, s. split; [exact Hq|]. split; [exact Hr|].
  split; [injection Hq as <-; vm_compute; reflexivity|].
  exact (proj1 (queue_fifo 64 q _ s Hq eq_refl Hr)).
Defined.

(** C27: no interleaving makes a thread leave the ring: whenever a writer or a
    reader that owns its mutex is about to copy a byte, the access is inside
    the buffer, so every thread inside a critical section can take its next
    step. *)
Theorem queue_progress N q c s :
  queue_create N true true = Some q -> Z.of_nat N < 2 ^ 63 -> reachable q (c, s) ->
  destroyer s <> DFreed ->
  (wm c <> None -> exists c' s', step (c, s) (c', s') /\ wm c' <> wm c) /\
  (rm c <> None -> exists c' s', step (c, s) (c', s') /\ rm c' <> rm c).
Proof.
  intros Hq HN Hr Hd. destruct (reachable_inv N q _ Hq HN Hr) as [Hc _]. cbn [fst] in Hc. split.
  - destruct (wm c) as [w|] eqn:Hw; [intros _|done]. destruct w as [e tm|e tm|e [|b rest]|e|].
    + destruct (no_room (cq c) (e_len e)) eqn:Hn; eexists _, s.
      * split; [by apply s_core, (w_full c e tm)|done].
      * split; [by apply s_core, (w_room c e tm)|done].
    + eexists _, _. split; [by eapply s_w_sleep|done].
    + eexists _, s. split; [by apply s_core, w_count|done].
    + destruct (put_byte_ok N c e b rest Hc Hw) as [q' Hp]. eexists _, s.
      split; [by eapply s_core, w_put|]. cbn. intros [= E]. apply (f_equal length) in E. cbn in E. lia.
    + eexists _, s. split; [by apply s_core, w_charge|done].
    + eexists _, _. split; [by apply s_w_unlock|done].
  - destruct (rm c) as [r|] eqn:Hrm; [intros _|done]. pose proof (ci_r _ _ Hc) as Hri. rewrite Hrm in Hri.
    destruct r as [tm|tm|acc|h acc|h data|].
    + destruct (is_empty (cq c)) eqn:He; eexists _, s.
      * split; [by apply s_core, (r_empty c tm)|done].
      * split; [by apply s_core, (r_data c tm)|done].
    + eexists _, _. split; [by eapply s_r_sleep|done].
    + destruct Hri as (e & He & Hpre). destruct (pending_ok N c e Hc He) as [Hok Hs].
      pose proof (prefix_length _ _ Hpre) as Hl. rewrite length_e_head in Hl by done.
      destruct (decide (length acc = hdr_size)) as [Hl'|Hl'].
      * eexists _, s. split; [by apply s_core, r_size|done].
      * destruct (get_byte_ok N c e Hc He) as (b & q' & Hg); [rewrite Hrm, length_enc by done; cbn [rprog]; lia|].
        eexists _, s. split; [eapply s_core, r_head; [done|done|lia|done]|].
        cbn. intros [= E]. apply (f_equal length) in E. rewrite length_app in E. cbn in E. lia.
    + destruct Hri as (e & He & -> & Hpre). destruct (pending_ok N c e Hc He) as [Hok Hs].
      pose proof (prefix_length _ _ Hpre) as Hl. destruct (e_head_size N e Hok Hs (ci_bound _ _ Hc)) as [Hhs _].
      assert (Z.to_nat (header_size (e_head e)) = length (e_data e)) as Hn by (rewrite Hhs; apply Nat2Z.id).
      destruct (decide (length acc = length (e_data e))) as [Hl'|Hl'].
      * eexists _, s. split; [apply s_core, r_uncount; [done..|lia]|done].
      * destruct (get_byte_ok N c e Hc He) as (b & q' & Hg).
        { rewrite Hrm, length_enc by done. cbn [rprog]. rewrite length_e_head by done. lia. }
        eexists _, s. split; [eapply s_core, r_get; [done|done|lia|done]|].
        cbn. intros [= E]. apply (f_equal length) in E. rewrite length_app in E. cbn in E. lia.
    + eexists _, s. split; [by apply s_core, r_discharge|done].
    + eexists _, _. split; [by apply s_r_unlock|done].
Qed.

Lemma queue_progress_witness :
  exists q c s, queue_create 64 true true = Some q /\ reachable q (c, s) /\
    wm c = Some WUnlock /\ exists c' s', step (c, s) (c', s') /\ wm c' <> wm c.
Proof.
  assert (Hq : queue_create 64 true true = Some (MkQueue (replicate 64 0) 0 0 0 0 true 0 0 0 0 64)) by reflexivity.
  pose (c := wrun 40 (set_wm (core0 (MkQueue (replicate 64 0) 0 0 0 0 true 0 0 0 0 64)) (Some (WCheck msg false)))).
  assert (Hr : reachable (MkQueue (replicate 64 0) 0 0 0 0 true 0 0 0 0 64) (c, sched0)).
  { eapply rtc_l; [|apply wrun_steps; discriminate].
    apply s_w_lock; [discriminate|reflexivity|decide_closed|reflexivity]. }
  assert (Hw : wm c = Some WUnlock) by (vm_compute; reflexivity).
  exists (MkQueue (replicate 64 0) 0 0 0 0 true 0 0 0 0 64), c, sched0. split; [exact Hq|]. split; [exact Hr|]. split; [exact Hw|].
  apply (proj1 (queue_progress 64 _ c sched0 Hq eq_refl Hr ltac:(discriminate))).
  rewrite Hw. discriminate.
Defined.

Lemma queue_write_ok N q es e waits :
  holds N q es -> entry_ok e ->
  if too_big q (e_len e)
  then queue_write q (e_data e) (e_pad e) waits = Ok (Returned QUEUE_RET_ERROR tt q)
  else no_room q (e_len e) = false ->
    exists q', queue_write q (e_data e) (e_pad e) waits = Ok (Returned (s32 (e_len e)) tt q') /\
      holds N q' (es ++ [e]).
Proof.
  intros Hh He. unfold queue_write. fold (e_len e). destruct (too_big q (e_len e)) eqn:Ht; [done|].
  intros Hroom. destruct (write_entry_spec N q es e) as (q' & E & Hh'); [done|done| |done|].
  { destruct Hh as (c & Hc & <- & _). eapply too_big_small; [done|apply Hc|done]. }
  exists q'. split; [|done]. destruct waits as [|w waits]; cbn [write_loop]; fold (e_len e); rewrite Hroom, E; done.
Qed.

(** A [queue_write] that finds room stores the message behind the ones
    held and returns its length; one whose entry does not fit in the ring at
    all returns QUEUE_RET_ERROR and changes nothing. *)
Theorem queue_write_spec N q es e waits :
  holds N q es -> entry_ok e ->
  if too_big q (e_len e)
  then queue_write q (e_data e) (e_pad e) waits = Ok (Returned QUEUE_RET_ERROR tt q)
  else no_room q (e_len e) = false ->
    exists q', queue_write q (e_data e) (e_pad e) waits = Ok (Returned (s32 (e_len e)) tt q') /\
      holds N q' (es ++ [e]).
Proof. apply queue_write_ok. Qed.

Lemma fresh_holds N q :
  queue_create N true true = Some q -> Z.of_nat N < 2 ^ 63 -> holds N q [].
Proof.
  intros Hq HN. destruct (init_inv N q Hq HN) as [Hc _]. by exists (core0 q).
Qed.

Lemma queue_write_spec_witness :
  exists q q', queue_create 64 true true = Some q /\
    queue_write q [104; 105] [0; 0; 0; 0] [] = Ok (Returned 2 tt q') /\ holds 64 q' [msg].
Proof.
  eexists. assert (Hh : holds 64 (MkQueue (replicate 64 0) 0 0 0 0 true 0 0 0 0 64) []).
  { apply fresh_holds; reflexivity. }
  destruct (queue_write_spec 64 _ [] msg [] Hh ltac:(decide_closed) eq_refl) as (q' & E & Hq').
  exists q'. split; [reflexivity|]. split; [exact E|exact Hq'].
Defined.

Lemma queue_read_ok N q es waits :
  holds N q es ->
  match es with
  | e :: es' => exists q', queue_read q waits = Ok (Returned (s32 (e_len e)) (e_data e) q') /\ holds N q' es'
  | [] => match waits with
          | [] => queue_read q waits = Ok (Blocked q)
          | (q1, timed_out) :: waits' =>
              queue_read q waits =
              if negb (isActive q1) then Ok (Returned QUEUE_RET_DESTROYING [] q1)
              else if (timed_out : bool) then Ok (Returned QUEUE_RET_TIMEOUT [] q1)
              else queue_read q1 waits'
          end
  end.
Proof.
  intros Hh. assert (is_empty q = match es with [] => true | _ => false end) as He.
  { destruct Hh as (c & Hc & <- & _ & _ & Hp). unfold is_empty. rewrite (ci_usage _ _ Hc), Hp.
    destruct es as [|e es]; [done|]. assert (pending c !! O = Some e) as He by (by rewrite Hp).
    destruct (pending_ok N c e Hc He) as [Hok _]. rewrite enc_all_cons, length_app, length_enc by done.
    apply Z.eqb_neq. unfold hdr_size. lia. }
  destruct es as [|e es].
  - destruct waits as [|[q1 timed_out] waits]; cbn [queue_read]; by rewrite He.
  - destruct (read_entry_spec N q e es Hh) as (q' & E & Hh'). exists q'. split; [|done].
    destruct waits; cbn [queue_read]; by rewrite He, E.
Qed.

(** A [queue_read] on a queue that holds messages returns the oldest one,
    its length as the result, and leaves the others; on an empty queue it
    reports the destruction, then the timeout, of the first wait that ends
    with either. *)
Theorem queue_read_spec N q es waits :
  holds N q es ->
  match es with
  | e :: es' => exists q', queue_read q waits = Ok (Returned (s32 (e_len e)) (e_data e) q') /\ holds N q' es'
  | [] => match waits with
          | [] => queue_read q waits = Ok (Blocked q)
          | (q1, timed_out) :: waits' =>
              queue_read q waits =
              if negb (isActive q1) then Ok (Returned QUEUE_RET_DESTROYING [] q1)
              else if (timed_out : bool) then Ok (Returned QUEUE_RET_TIMEOUT [] q1)
              else queue_read q1 waits'
          end
  end.
Proof. apply queue_read_ok. Qed.

Lemma queue_read_spec_witness :
  exists q q', queue_read q [] = Ok (Returned 2 [104; 105] q') /\ holds 64 q [msg] /\ holds 64 q' [].
Proof.
  assert (Hh : holds 64 (MkQueue (replicate 64 0) 0 0 0 0 true 0 0 0 0 64) []).
  { apply fresh_holds; reflexivity. }
  destruct (write_entry_spec 64 _ [] msg Hh) as (q & _ & Hq); [decide_closed|unfold small; vm_compute; lia|reflexivity|].
  destruct (queue_read_spec 64 q [msg] [] Hq) as (q' & E & Hq'). exists q, q'. split; [exact E|]. split; [exact Hq|exact Hq'].
Defined.

(** C28: [queue_destroy] frees the queue only when no producer and no consumer
    is registered, and from the moment it starts no registration succeeds. *)
Theorem queue_destroy_waits N q c s :
  queue_create N true true = Some q -> reachable q (c, s) ->
  (destroyer s = DFreed -> producers (cq c) = 0 /\ consumers (cq c) = 0) /\
  (destroyer s = DLockW \/ destroyer s = DWaitW \/ destroyer s = DLockR \/ destroyer s = DWaitR ->
   queue_producer_new (cq c) = (false, cq c) /\ queue_consumer_new (cq c) = (false, cq c)).
Proof.
  intros Hq Hr. destruct (reachable_dinv N q _ Hq Hr) as (_ & _ & Hd). cbn [fst snd] in Hd. split.
  - intros E. by rewrite E in Hd.
  - intros E. assert (isActive (cq c) = false) as Ha.
    { destruct (destroyer s); try done; try (by destruct Hd); destruct E as [|[|[|]]]; done. }
    unfold queue_producer_new, queue_consumer_new. by rewrite Ha.
Qed.

Lemma queue_destroy_waits_witness :
  exists q c s, queue_create 64 true true = Some q /\ reachable q (c, s) /\ destroyer s = DFreed /\
    producers (cq c) = 0 /\ consumers (cq c) = 0.
Proof.
  assert (Hq : queue_create 64 true true = Some (MkQueue (replicate 64 0) 0 0 0 0 true 0 0 0 0 64)) by reflexivity.
  assert (Hr : exists c s, reachable (MkQueue (replicate 64 0) 0 0 0 0 true 0 0 0 0 64) (c, s) /\ destroyer s = DFreed).
  { eexists _, _. split.
    - eapply rtc_l; [by apply s_d_start|]. eapply rtc_l; [by apply s_d_writers|].
      eapply rtc_l; [by apply s_d_readers|]. apply rtc_refl.
    - reflexivity. }
  destruct Hr as (c & s & Hr & Hs). exists (MkQueue (replicate 64 0) 0 0 0 0 true 0 0 0 0 64), c, s.
  split; [exact Hq|]. split; [exact Hr|]. split; [exact Hs|].
  exact (proj1 (queue_destroy_waits 64 _ c s Hq Hr) Hs).
Defined.

(** The condition a reader waits for is changed under the other mutex: a
    writer that stores a message and broadcasts between the reader's test and
    its wait leaves the reader asleep with a message in the queue and nobody
    on the way to wake it. *)
Theorem queue_lost_wakeup :
  exists q c s, queue_create 64 true true = Some q /\ reachable q (c, s) /\
    is_empty (cq c) = false /\ rwait s = [false] /\ rready s = [] /\
    rnotify s = O /\ wm c = None /\ rm c = None.
Proof.
  eexists _, _, _. split; [reflexivity|]. split.
  { eapply rtc_l; [by apply (s_r_lock _ _ false)|].
  eapply rtc_l; [by eapply s_core, r_empty|].
  eapply rtc_l; [apply (s_w_lock _ _ msg false); [done|done|decide_closed|reflexivity]|].
  etrans; [apply (wrun_steps 40); done|].
  eapply rtc_l; [apply s_w_unlock; [done|vm_compute; reflexivity]|].
  eapply rtc_l; [by eapply s_w_broadcast|].
  eapply rtc_l; [by eapply (s_r_sleep _ _ false)|]. apply rtc_refl. }
  split_and!; vm_compute; reflexivity.
Qed.

(** [queue_destroy] clears the active flag without a broadcast: a
    registered consumer that waits without a timeout is left asleep and
    [queue_destroy] waits for it to unregister. *)
Theorem queue_destroy_stuck :
  exists q c s, queue_create 64 true true = Some q /\ reachable q (c, s) /\
    isActive (cq c) = false /\ consumers (cq c) = 1 /\ destroyer s = DWaitR /\
    rwait s = [false] /\ rready s = [] /\ rnotify s = O /\ wnotify s = O /\ wm c = None /\ rm c = None.
Proof.
  eexists _, _, _. split; [reflexivity|]. split.
  { eapply rtc_l; [by apply s_c_new|].
  eapply rtc_l; [by apply (s_r_lock _ _ false)|].
  eapply rtc_l; [by eapply s_core, r_empty|].
  eapply rtc_l; [by eapply (s_r_sleep _ _ false)|].
  eapply rtc_l; [by apply s_d_start|]. eapply rtc_l; [by apply s_d_writers|].
  eapply rtc_l; [by apply s_d_readers|]. apply rtc_refl. }
  split_and!; vm_compute; reflexivity.
Qed.

(** [queue_consumer_free] and [queue_producer_free] broadcast after they have
    released the mutex: the thread in [queue_destroy] can find the counters at
    zero and free the queue before the broadcast, which then uses freed
    memory. *)
Theorem queue_free_before_broadcast :
  exists q, queue_create 64 true true = Some q /\
    (exists x, reachable q x /\ uses_freed x /\ rnotify x.2 = 1%nat /\ consumers (cq x.1) = 0) /\
    (exists x, reachable q x /\ uses_freed x /\ wnotify x.2 = 1%nat /\ producers (cq x.1) = 0).
Proof.
  eexists. split; [reflexivity|]. split; eexists; split.
  - eapply rtc_l; [by apply s_c_new|]. eapply rtc_l; [by apply s_c_free|]. eapply rtc_l; [by apply s_d_start|].
    eapply rtc_l; [by apply s_d_writers|]. eapply rtc_l; [by apply s_d_readers|]. apply rtc_refl.
  - split; [split; [done|]|split; reflexivity]. do 6 right. by left.
  - eapply rtc_l; [by apply s_p_new|]. eapply rtc_l; [by apply s_p_free|]. eapply rtc_l; [by apply s_d_start|].
    eapply rtc_l; [by apply s_d_writers|]. eapply rtc_l; [by apply s_d_readers|]. apply rtc_refl.
  - split; [split; [done|]|split; reflexivity]. by do 7 right.
Qed.

End QueueProps.
