(* ===== verification/DList.v ===== *)
(** * The doubly linked list

    Models [libalgorithms/src/algorithms/doublylinkedlist]: two circular lists
    of reference counted entries, the active and the deleted ones, in a heap
    of nodes.  A pointer is its address; a node that was freed is no longer in
    the heap and reaching it is an error.  Each public call holds the spin
    lock of the list it touches and is one function here; deletion takes the
    second lock inside the first, and the query takes the two locks one after
    the other (see there).  The [while] loops get as much fuel as there are nodes. *)

From stdpp Require Import gmap.
From S2P Require Import Prelude.

Module DList.

(** ** Data *)

(** The fields of [DOUBLYLINKEDLIST_ENTRY] behind its header, and the user
    data behind the entry. *)
Record body : Type := MkBody {
  b_key : Z;            (* uint64_t *)
  b_references : Z;     (* uint32_t *)
  b_isDeleted : bool;
  b_size : nat;
  b_data : list Z
}.

(** A [DOUBLYLINKEDLIST_ENTRY_HEADER]; the two list heads have no body. *)
Record node : Type := MkNode { n_next : Z; n_prev : Z; n_body : option body }.

Abbreviation heap := (gmap Z node).

(** The offsets in [DOUBLYLINKEDLIST]: [_activeEntries] at 0, then a [bool],
    then [_deletedEntries]. *)
Definition activeEntries (plist : Z) : Z := plist.
Definition deletedEntries (plist : Z) : Z := plist + 24.

Definition sizeof_entry : Z := 40.
Definition movePtrToUserData (p : Z) : Z := p + sizeof_entry.
Definition moveUserDataToPtr (p : Z) : Z := p - sizeof_entry.

(** ** Memory *)

Definition load (h : heap) (a : Z) : res node :=
  match h !! a with Some n => Ok n | None => Err UseAfterFree end.

Definition set_next (h : heap) (a v : Z) : res heap :=
  n ← load h a; Ok (<[a := MkNode v (n_prev n) (n_body n)]> h).
Definition set_prev (h : heap) (a v : Z) : res heap :=
  n ← load h a; Ok (<[a := MkNode (n_next n) v (n_body n)]> h).

Definition load_body (h : heap) (a : Z) : res body :=
  n ← load h a; match n_body n with Some b => Ok b | None => Err OutOfBounds end.
Definition set_body (h : heap) (a : Z) (b : body) : res heap :=
  n ← load h a; Ok (<[a := MkNode (n_next n) (n_prev n) (Some b)]> h).

Definition free (h : heap) (a : Z) : res heap :=
  match h !! a with Some _ => Ok (delete a h) | None => Err DoubleFree end.

(** ** Headers *)

Definition i_doublylinkedlistEntryHeaderInit (h : heap) (pentry : Z) : res heap :=
  h ← set_next h pentry pentry; set_prev h pentry pentry.

Definition i_doublylinkedlistEntryHeaderNext (h : heap) (pentry : Z) : res Z :=
  n ← load h pentry; Ok (n_next n).
Definition i_doublylinkedlistEntryHeaderPrev (h : heap) (pentry : Z) : res Z :=
  n ← load h pentry; Ok (n_prev n).

Definition i_doublylinkedlistEntryHeaderAdd (h : heap) (plist pentry : Z) : res heap :=
  next ← i_doublylinkedlistEntryHeaderNext h plist;
  h ← set_next h pentry next;
  h ← set_prev h pentry plist;
  next ← i_doublylinkedlistEntryHeaderNext h plist;
  h ← set_prev h next pentry;
  set_next h plist pentry.

Definition i_doublylinkedlistEntryHeaderDel (h : heap) (pentry : Z) : res heap :=
  n ← load h pentry;
  h ← set_next h (n_prev n) (n_next n);
  n ← load h pentry;
  h ← set_prev h (n_next n) (n_prev n);
  i_doublylinkedlistEntryHeaderInit h pentry.

Definition i_doublylinkedlistEntryHeaderIsEmpty (h : heap) (plist : Z) : res bool :=
  n ← load h plist; Ok (n_next n =? plist).

(** ** External interface *)

(** [plist]: the address [malloc] returns, 0 for [NULL]. *)
Definition doublylinkedlistAlloc (h : heap) (plist : Z) : res (Z * heap) :=
  if plist =? 0 then Ok (0, h)
  else
    let h := <[activeEntries plist := MkNode 0 0 None]> (<[deletedEntries plist := MkNode 0 0 None]> h) in
    h ← i_doublylinkedlistEntryHeaderInit h (activeEntries plist);
    h ← i_doublylinkedlistEntryHeaderInit h (deletedEntries plist);
    Ok (plist, h).

(** [pentry]: the address [malloc] returns, 0 for [NULL]. *)
Definition doublylinkedlistAdd (h : heap) (plist key : Z) (data : list Z) (pentry : Z) : res (Z * heap) :=
  if pentry =? 0 then Ok (0, h)
  else
    let b := MkBody key 1 false (length data) data in
    let h := <[pentry := MkNode 0 0 (Some b)]> h in
    h ← i_doublylinkedlistEntryHeaderInit h pentry;
    h ← i_doublylinkedlistEntryHeaderAdd h (activeEntries plist) pentry;
    Ok (movePtrToUserData pentry, h).

Definition doublylinkedlistDel (h : heap) (plist ptr : Z) : res heap :=
  let pentry := moveUserDataToPtr ptr in
  h ← i_doublylinkedlistEntryHeaderDel h pentry;
  b ← load_body h pentry;
  if 0 <? b_references b then
    h ← set_body h pentry (MkBody (b_key b) (b_references b) true (b_size b) (b_data b));
    i_doublylinkedlistEntryHeaderAdd h (deletedEntries plist) pentry
  else Ok h.

(** [__atomic_add_fetch(&pentry->_references, 1)] and the subtraction. *)
Definition add_references (b : body) (d : Z) : body :=
  MkBody (b_key b) (u32 (b_references b + d)) (b_isDeleted b) (b_size b) (b_data b).

(** The loop of [doublylinkedlistFind]. *)
Fixpoint find_loop (fuel : nat) (h : heap) (hd key pentry : Z) : res (Z * heap) :=
  match fuel with
  | O => Err Diverges
  | S fuel' =>
      if pentry =? hd then Ok (0, h)
      else
        b ← load_body h pentry;
        if b_key b =? key then
          h ← set_body h pentry (add_references b 1);
          Ok (movePtrToUserData pentry, h)
        else
          next ← i_doublylinkedlistEntryHeaderNext h pentry;
          find_loop fuel' h hd key next
  end.

Definition fuel_of (h : heap) : nat := S (size h).

Definition doublylinkedlistFind (h : heap) (plist key : Z) : res (Z * heap) :=
  pentry ← i_doublylinkedlistEntryHeaderNext h (activeEntries plist);
  find_loop (fuel_of h) h (activeEntries plist) key pentry.

(** Incrementing the low half of a pointer. *)
Definition bump32 (a : Z) : Z := (a / 2 ^ 32) * 2 ^ 32 + u32 (a mod 2 ^ 32 + 1).

(** The loop of [doublylinkedlistGetFirst] and [doublylinkedlistGetLast],
    which differ in the link they follow.  Behind the last entry [pentry] is
    the list head, where [_references] is the low half of
    [_deletedEntries._next]. *)
Fixpoint get_loop (fuel : nat) (h : heap) (plist : Z) (follow : node -> Z) (pentry : Z) : res (Z * heap) :=
  match fuel with
  | O => Err Diverges
  | S fuel' =>
      if pentry =? activeEntries plist then
        n ← load h (deletedEntries plist);
        h ← set_next h (deletedEntries plist) (bump32 (n_next n));
        Ok (0, h)
      else
        b ← load_body h pentry;
        if negb (b_isDeleted b) then
          h ← set_body h pentry (add_references b 1);
          Ok (movePtrToUserData pentry, h)
        else
          n ← load h pentry;
          get_loop fuel' h plist follow (follow n)
  end.

Definition doublylinkedlistGetFirst (h : heap) (plist : Z) : res (Z * heap) :=
  n ← load h (activeEntries plist); get_loop (fuel_of h) h plist n_next (n_next n).
Definition doublylinkedlistGetLast (h : heap) (plist : Z) : res (Z * heap) :=
  n ← load h (activeEntries plist); get_loop (fuel_of h) h plist n_prev (n_prev n).

Definition doublylinkedlistRelease (h : heap) (ptr : Z) : res heap :=
  let pentry := moveUserDataToPtr ptr in
  b ← load_body h pentry; set_body h pentry (add_references b (-1)).

Definition doublylinkedlistIsEmpty (h : heap) (plist : Z) : res bool :=
  i_doublylinkedlistEntryHeaderIsEmpty h (activeEntries plist).

(** The loop of [doublylinkedlistFreeDeletedEntries]. *)
Fixpoint free_deleted_loop (fuel : nat) (h : heap) (hd pentry : Z) : res heap :=
  match fuel with
  | O => Err Diverges
  | S fuel' =>
      if pentry =? hd then Ok h
      else
        b ← load_body h pentry;
        if b_isDeleted b && (b_references b =? 0) then
          next ← i_doublylinkedlistEntryHeaderNext h pentry;
          h ← i_doublylinkedlistEntryHeaderDel h pentry;
          h ← free h pentry;
          free_deleted_loop fuel' h hd next
        else
          next ← i_doublylinkedlistEntryHeaderNext h pentry;
          free_deleted_loop fuel' h hd next
  end.

Definition doublylinkedlistFreeDeletedEntries (h : heap) (plist : Z) : res heap :=
  if plist =? 0 then Ok h
  else
    pentry ← i_doublylinkedlistEntryHeaderNext h (deletedEntries plist);
    free_deleted_loop (fuel_of h) h (deletedEntries plist) pentry.

(** The two loops of [doublylinkedlistFree]. *)
Fixpoint free_all_loop (fuel : nat) (h : heap) (hd : Z) : res heap :=
  match fuel with
  | O => Err Diverges
  | S fuel' =>
      pentry ← i_doublylinkedlistEntryHeaderNext h hd;
      if pentry =? hd then Ok h
      else
        h ← i_doublylinkedlistEntryHeaderDel h pentry;
        h ← free h pentry;
        free_all_loop fuel' h hd
  end.

Definition doublylinkedlistFree (h : heap) (plist : Z) : res heap :=
  if plist =? 0 then Ok h
  else
    h ← free_all_loop (fuel_of h) h (activeEntries plist);
    h ← free_all_loop (fuel_of h) h (deletedEntries plist);
    h ← free h (activeEntries plist);
    free h (deletedEntries plist).

(** ** Queries *)

Definition sizeof_query : nat := 32.

(** Storing a field of [n] bytes at an offset of the caller's buffer. *)
Definition put (buf : list Z) (off : nat) (bytes : list Z) : res (list Z) :=
  memcpy buf off bytes 0 (length bytes).

(** The fields of one [DOUBLYLINKEDLIST_QUERY] at offset [off] and the user
    data behind it; [base] is the address of the buffer. *)
Definition put_query (buf : list Z) (base : Z) (off : nat) (b : body) : res (list Z) :=
  buf ← put buf off (le_bytes 8 (b_key b));
  buf ← put buf (off + 8) (le_bytes 4 (b_references b));
  buf ← put buf (off + 12) [Z.b2z (b_isDeleted b)];
  buf ← put buf (off + 16) (le_bytes 8 (Z.of_nat (b_size b)));
  buf ← put buf (off + sizeof_query) (b_data b);
  put buf (off + 24) (le_bytes 8 (base + Z.of_nat (off + sizeof_query))).

(** Returns whether all entries fitted, the buffer, and the size used, which
    is also the offset of the next record. *)
Fixpoint query_loop (fuel : nat) (h : heap) (hd pentry : Z) (buf : list Z) (base : Z)
    (limit used : nat) : res (bool * list Z * nat) :=
  match fuel with
  | O => Err Diverges
  | S fuel' =>
      if pentry =? hd then Ok (true, buf, used)
      else
        b ← load_body h pentry;
        if (limit <? used + sizeof_query + b_size b + 8)%nat then Ok (false, buf, used)
        else
          buf ← put_query buf base used b;
          next ← i_doublylinkedlistEntryHeaderNext h pentry;
          query_loop fuel' h hd next buf base limit (used + sizeof_query + b_size b)
  end.

Definition i_doublylinkedlistQuerySingleList (h : heap) (plist_base : Z) (buf : list Z) (base : Z)
    (limit used : nat) : res (bool * list Z * nat) :=
  pentry ← i_doublylinkedlistEntryHeaderNext h plist_base;
  query_loop (fuel_of h) h plist_base pentry buf base limit used.

(** The result, the buffer and [*psize_inout].  The source holds the lock of
    the active list during the first walk and that of the deleted list during
    the second, and none in between: this is the query without another call
    between its two walks, in which case it shows one state of the list. *)
Definition doublylinkedlistQuery (h : heap) (plist : Z) (buf : list Z) (base : Z) (limit : nat)
    : res (bool * list Z * nat) :=
  '(a, d, buf, used) ←
    (if plist =? 0 then Ok (false, false, buf, O)
     else
       '(a, buf, used) ← i_doublylinkedlistQuerySingleList h (activeEntries plist) buf base limit 0;
       '(d, buf, used) ← i_doublylinkedlistQuerySingleList h (deletedEntries plist) buf base limit used;
       Ok (a, d, buf, used));
  buf ← (if (8 <? limit)%nat then put buf used (replicate 8 0) else Ok buf);
  Ok (a && d, buf, used).

(** Reading a field of [n] bytes. *)
Definition get (buf : list Z) (off n : nat) : res Z :=
  if decide (off + n <= length buf)%nat then Ok (le_val (take n (drop off buf))) else Err OutOfBounds.

(** The offset of the next record. *)
Definition doublylinkedlistQueryNext (buf : list Z) (off : nat) : res nat :=
  size ← get buf (off + 16) 8; Ok (off + sizeof_query + Z.to_nat size)%nat.

Definition doublylinkedlistQueryIsEnd (buf : list Z) (off : nat) : res bool :=
  ptr ← get buf off 8; Ok (ptr =? 0).

End DList.
