(* ===== verification/Blocks.v ===== *)
(** * Buffers made of blocks

    A structure in memory is the concatenation of the bytes of its fields.
    Storing a field replaces one block, reading a field returns the number in
    one block.  Shared by the queries of the doubly linked list and by the jobs
    of the command manager. *)

From stdpp Require Import gmap.
From S2P Require Import Prelude DList.

Module Blocks.

Definition offset (bs : list (list Z)) (i : nat) : nat := length (concat (take i bs)).

Lemma concat_split (bs : list (list Z)) i x :
  bs !! i = Some x -> concat bs = concat (take i bs) ++ x ++ concat (drop (S i) bs).
Proof.
  intros H. rewrite <- (take_drop_middle bs i x H) at 1. by rewrite concat_app.
Qed.

Lemma put_block (bs : list (list Z)) i x b off :
  bs !! i = Some x -> off = offset bs i -> length x = length b ->
  DList.put (concat bs) off b = Ok (concat (<[i := b]> bs)).
Proof.
  intros Hx -> Hl. unfold DList.put, memcpy, offset.
  rewrite (concat_split (<[i := b]> bs) i b) by (apply list_lookup_insert_eq; by eapply lookup_lt_Some).
  rewrite take_insert_ge, drop_insert_lt by lia.
  rewrite (concat_split bs i x Hx). rewrite decide_True by (rewrite !length_app; lia). f_equal.
  rewrite take_app_length, drop_0, (take_ge b) by done. do 2 f_equal.
  rewrite app_assoc. apply drop_app_length'. rewrite length_app. lia.
Qed.

Lemma get_block (bs : list (list Z)) i x off n :
  bs !! i = Some x -> off = offset bs i -> n = length x -> DList.get (concat bs) off n = Ok (le_val x).
Proof.
  intros Hx -> ->. unfold DList.get, offset. rewrite (concat_split bs i x Hx).
  rewrite decide_True by (rewrite !length_app; lia). by rewrite drop_app_length, take_app_length.
Qed.

Lemma drop_block (bs : list (list Z)) i off : off = offset bs i -> drop off (concat bs) = concat (drop i bs).
Proof.
  intros ->. unfold offset. rewrite <- (take_drop i bs) at 2. by rewrite concat_app, drop_app_length.
Qed.

Lemma split_blocks (ns : list nat) (l : list Z) :
  length l = foldr Nat.add O ns -> exists bs, concat bs = l /\ length <$> bs = ns.
Proof.
  revert l. induction ns as [|n ns IH]; intros l Hl; cbn in Hl.
  - exists []. split; [|done]. by destruct l.
  - destruct (IH (drop n l)) as (bs & E & Hb); [rewrite length_drop; lia|].
    exists (take n l :: bs). cbn. rewrite E, take_drop, Hb. split; [done|]. rewrite length_take. f_equal. lia.
Qed.

(** What stands before the offset does not matter. *)
Lemma put_app pre rest o bytes :
  DList.put (pre ++ rest) (length pre + o) bytes = (fun r => pre ++ r) <$> DList.put rest o bytes.
Proof.
  unfold DList.put, memcpy. rewrite length_app. destruct (decide (o + length bytes <= length rest /\ _)%nat) as [[H1 H2]|H].
  - rewrite decide_True by lia. cbn. f_equal. rewrite take_app_add, <- app_assoc. do 3 f_equal.
    rewrite <- Nat.add_assoc. by rewrite drop_app_add.
  - rewrite decide_False by lia. done.
Qed.

Lemma get_app pre rest o n : DList.get (pre ++ rest) (length pre + o) n = DList.get rest o n.
Proof.
  unfold DList.get. rewrite length_app, drop_app_add. destruct (decide (o + n <= length rest)%nat) as [H|H].
  - by rewrite decide_True by lia.
  - by rewrite decide_False by lia.
Qed.

Lemma get_left l rest o n v : DList.get l o n = Ok v -> DList.get (l ++ rest) o n = Ok v.
Proof.
  unfold DList.get. rewrite length_app. destruct (decide (o + n <= length l)%nat) as [H|H]; [|done]. intros <-.
  rewrite decide_True by lia. rewrite drop_app_le by lia. by rewrite take_app_le by (rewrite length_drop; lia).
Qed.

End Blocks.
