(* ===== verification/DListSpec.v ===== *)
(** * The doubly linked list: links

    [ring h s l] says that the nodes [l] form a circular doubly linked list
    around the head [s].  The lemmas give the effect of the header routines on
    such rings and on the two lists of a [DOUBLYLINKEDLIST]. *)

From stdpp Require Import gmap.
From S2P Require Import Prelude DList.

Module DListSpec.
Import DList.

(** ** Fields *)

Definition nxt (h : heap) (a : Z) : option Z := n_next <$> h !! a.
Definition prv (h : heap) (a : Z) : option Z := n_prev <$> h !! a.
Definition bdy (h : heap) (a : Z) : option (option body) := n_body <$> h !! a.

Lemma load_nxt h a v : nxt h a = Some v -> exists n, load h a = Ok n /\ n_next n = v.
Proof. unfold nxt, load. destruct (h !! a); cbn; [|done]. intros [= <-]. eauto. Qed.

Lemma load_prv h a v : prv h a = Some v -> exists n, load h a = Ok n /\ n_prev n = v.
Proof. unfold prv, load. destruct (h !! a); cbn; [|done]. intros [= <-]. eauto. Qed.

Lemma nxt_some h a : is_Some (h !! a) -> exists v, nxt h a = Some v.
Proof. intros [n Hn]. exists (n_next n). unfold nxt. by rewrite Hn. Qed.

Lemma load_body_bdy h a b : bdy h a = Some (Some b) -> load_body h a = Ok b.
Proof. unfold bdy, load_body, load. destruct (h !! a) as [n|]; cbn; [|done]. by intros [= ->]. Qed.

(** The same addresses are allocated. *)
Definition same_cells (h h' : heap) : Prop := forall a, is_Some (h' !! a) <-> is_Some (h !! a).

Lemma same_cells_trans h1 h2 h3 : same_cells h1 h2 -> same_cells h2 h3 -> same_cells h1 h3.
Proof. intros H1 H2 a. etrans; [apply H2|apply H1]. Qed.

(** Field updates: what they change and what they keep. *)
Record updated (h h' : heap) (fn fp : Z -> option Z) (fb : Z -> option (option body)) : Prop := {
  up_next : forall z, nxt h' z = fn z;
  up_prev : forall z, prv h' z = fp z;
  up_body : forall z, bdy h' z = fb z;
  up_cells : same_cells h h'
}.

Definition put_at {A} (f : Z -> option A) (a : Z) (v : A) (z : Z) : option A :=
  if decide (z = a) then Some v else f z.

Lemma put_at_eq {A} (f : Z -> option A) a v : put_at f a v a = Some v.
Proof. unfold put_at. by rewrite decide_True. Qed.
Lemma put_at_ne {A} (f : Z -> option A) a v z : z <> a -> put_at f a v z = f z.
Proof. intros. unfold put_at. by rewrite decide_False. Qed.

Lemma insert_cells (h : heap) a n : is_Some (h !! a) -> same_cells h (<[a := n]> h).
Proof.
  intros Ha z. destruct (decide (a = z)) as [<-|Hne].
  - rewrite lookup_insert_eq. split; [done|by eexists].
  - by rewrite lookup_insert_ne.
Qed.

Lemma set_next_spec h a v :
  is_Some (h !! a) ->
  exists h', set_next h a v = Ok h' /\ updated h h' (put_at (nxt h) a v) (prv h) (bdy h).
Proof.
  intros [n Hn]. unfold set_next, load. rewrite Hn. cbn. eexists. split; [done|].
  split; [| | |apply insert_cells; by eexists]; intros z; unfold nxt, prv, bdy, put_at;
    (destruct (decide (z = a)) as [->|Hne]; [rewrite lookup_insert_eq, ?Hn|rewrite lookup_insert_ne by done]; done).
Qed.

Lemma set_prev_spec h a v :
  is_Some (h !! a) ->
  exists h', set_prev h a v = Ok h' /\ updated h h' (nxt h) (put_at (prv h) a v) (bdy h).
Proof.
  intros [n Hn]. unfold set_prev, load. rewrite Hn. cbn. eexists. split; [done|].
  split; [| | |apply insert_cells; by eexists]; intros z; unfold nxt, prv, bdy, put_at;
    (destruct (decide (z = a)) as [->|Hne]; [rewrite lookup_insert_eq, ?Hn|rewrite lookup_insert_ne by done]; done).
Qed.

Lemma set_body_spec h a b :
  is_Some (h !! a) ->
  exists h', set_body h a b = Ok h' /\ updated h h' (nxt h) (prv h) (put_at (bdy h) a (Some b)).
Proof.
  intros [n Hn]. unfold set_body, load. rewrite Hn. cbn. eexists. split; [done|].
  split; [| | |apply insert_cells; by eexists]; intros z; unfold nxt, prv, bdy, put_at;
    (destruct (decide (z = a)) as [->|Hne]; [rewrite lookup_insert_eq, ?Hn|rewrite lookup_insert_ne by done]; done).
Qed.

Lemma updated_nxt h h' fn fp fb a : updated h h' fn fp fb -> nxt h' a = fn a.
Proof. by intros []. Qed.

(** Chaining two updates: the second one is stated over the first. *)
Lemma header_init_spec h p :
  is_Some (h !! p) ->
  exists h', i_doublylinkedlistEntryHeaderInit h p = Ok h' /\
    updated h h' (put_at (nxt h) p p) (put_at (prv h) p p) (bdy h).
Proof.
  intros Hp. unfold i_doublylinkedlistEntryHeaderInit.
  destruct (set_next_spec h p p Hp) as (h1 & -> & [N1 P1 B1 C1]). cbn [mbind res_bind].
  destruct (set_prev_spec h1 p p) as (h2 & -> & [N2 P2 B2 C2]); [by apply C1|].
  exists h2. split; [done|]. split.
  - intros z. by rewrite N2, N1.
  - intros z. rewrite P2. unfold put_at. by rewrite P1.
  - intros z. by rewrite B2, B1.
  - by eapply same_cells_trans.
Qed.

Lemma header_add_spec h s p f :
  nxt h s = Some f -> is_Some (h !! p) -> is_Some (h !! f) -> p <> s ->
  exists h', i_doublylinkedlistEntryHeaderAdd h s p = Ok h' /\
    updated h h' (put_at (put_at (nxt h) p f) s p) (put_at (put_at (prv h) p s) f p) (bdy h).
Proof.
  intros Hs Hp Hf Hne. unfold i_doublylinkedlistEntryHeaderAdd, i_doublylinkedlistEntryHeaderNext.
  destruct (load_nxt h s f Hs) as (n & -> & Hn). cbn [mbind res_bind]. rewrite Hn.
  assert (is_Some (h !! s)) as Hss by (unfold nxt in Hs; destruct (h !! s); [by eexists|done]).
  destruct (set_next_spec h p f Hp) as (h1 & -> & [N1 P1 B1 C1]). cbn [mbind res_bind].
  destruct (set_prev_spec h1 p s) as (h2 & -> & [N2 P2 B2 C2]); [by apply C1|]. cbn [mbind res_bind].
  assert (nxt h2 s = Some f) as Hs2 by (rewrite N2, N1, put_at_ne by done; exact Hs).
  destruct (load_nxt h2 s f Hs2) as (n2 & -> & Hn2). cbn [mbind res_bind]. rewrite Hn2.
  destruct (set_prev_spec h2 f p) as (h3 & -> & [N3 P3 B3 C3]); [by apply C2, C1|]. cbn [mbind res_bind].
  destruct (set_next_spec h3 s p) as (h4 & -> & [N4 P4 B4 C4]); [by apply C3, C2, C1|].
  exists h4. split; [done|]. split.
  - intros z. rewrite N4. unfold put_at. by rewrite N3, N2, N1.
  - intros z. rewrite P4, P3. unfold put_at. rewrite P2. unfold put_at. by rewrite P1.
  - intros z. by rewrite B4, B3, B2, B1.
  - do 3 (eapply same_cells_trans; [|done]). done.
Qed.

Lemma header_del_spec h p f g :
  nxt h p = Some f -> prv h p = Some g -> is_Some (h !! f) -> is_Some (h !! g) -> p <> f -> p <> g ->
  exists h', i_doublylinkedlistEntryHeaderDel h p = Ok h' /\
    updated h h' (put_at (put_at (nxt h) g f) p p) (put_at (put_at (prv h) f g) p p) (bdy h).
Proof.
  intros Hn Hp Hf Hg Hpf Hpg. unfold i_doublylinkedlistEntryHeaderDel.
  destruct (load_nxt h p f Hn) as (n & Hl & Hn1). rewrite Hl. cbn [mbind res_bind].
  assert (n_prev n = g) as Hn2.
  { unfold prv, load in *. destruct (h !! p); cbn in *; [|done]. congruence. }
  rewrite Hn1, Hn2. assert (is_Some (h !! p)) as Hpp by (unfold nxt in Hn; destruct (h !! p); [by eexists|done]).
  destruct (set_next_spec h g f Hg) as (h1 & -> & [N1 P1 B1 C1]). cbn [mbind res_bind].
  assert (nxt h1 p = Some f) as Hn' by (rewrite N1, put_at_ne by done; exact Hn).
  destruct (load_nxt h1 p f Hn') as (n1 & Hl1 & Hn1'). rewrite Hl1. cbn [mbind res_bind].
  assert (n_prev n1 = g) as Hn2'.
  { pose proof (P1 p) as E. rewrite Hp in E. unfold prv, load in *. destruct (h1 !! p); cbn in *; [|done]. congruence. }
  rewrite Hn1', Hn2'.
  destruct (set_prev_spec h1 f g) as (h2 & -> & [N2 P2 B2 C2]); [by apply C1|]. cbn [mbind res_bind].
  destruct (header_init_spec h2 p) as (h3 & -> & [N3 P3 B3 C3]); [by apply C2, C1|].
  exists h3. split; [done|]. split.
  - intros z. rewrite N3. unfold put_at. rewrite N2, N1. done.
  - intros z. rewrite P3. unfold put_at. rewrite P2. unfold put_at. by rewrite P1.
  - intros z. by rewrite B3, B2, B1.
  - do 2 (eapply same_cells_trans; [|done]). done.
Qed.

(** ** Rings *)

Definition last_of (x : Z) (l : list Z) : Z := List.last l x.

Lemma last_of_cons x y l : last_of x (y :: l) = last_of y l.
Proof.
  unfold last_of. cbn. destruct l as [|z l]; [done|]. cbn. revert z. induction l; intros; [done|]. cbn. apply IHl.
Qed.

Lemma last_of_in x l : last_of x l ∈ x :: l.
Proof.
  revert x. induction l as [|y l IH]; intros x; [apply list_elem_of_here|].
  rewrite last_of_cons. apply list_elem_of_further, IH.
Qed.

Section chain.
Context (fn fp : Z -> option Z).

(** The links from [x] along [l] and back. *)
Fixpoint chain (x : Z) (l : list Z) : Prop :=
  match l with
  | [] => True
  | y :: l' => fn x = Some y /\ fp y = Some x /\ chain y l'
  end.

Lemma chain_app x l l' : chain x (l ++ l') <-> chain x l /\ chain (last_of x l) l'.
Proof.
  revert x. induction l as [|y l IH]; intros x; [cbn; tauto|].
  rewrite last_of_cons. cbn. rewrite IH. tauto.
Qed.

Definition ring (s : Z) (l : list Z) : Prop := chain s (l ++ [s]).
End chain.

Lemma chain_frame fn fp fn' fp' x l :
  NoDup (x :: l) -> chain fn fp x l ->
  (forall z, z ∈ x :: l -> z <> last_of x l -> fn' z = fn z) -> (forall z, z ∈ l -> fp' z = fp z) ->
  chain fn' fp' x l.
Proof.
  revert x. induction l as [|y l IH]; intros x Hnd Hc Hn Hp; [done|]. cbn in Hc |- *.
  destruct Hc as (H1 & H2 & H3). inversion Hnd as [|? ? Hx Hnd']; subst. rewrite last_of_cons in Hn.
  split_and!.
  - rewrite Hn; [done|apply list_elem_of_here|]. intros E. apply Hx. rewrite E. apply last_of_in.
  - rewrite Hp; [done|apply list_elem_of_here].
  - apply IH; [done|done| |].
    + intros z Hz. apply Hn. by apply list_elem_of_further.
    + intros z Hz. apply Hp. by apply list_elem_of_further.
Qed.

(** A ring that no link of which changes. *)
Lemma ring_ext fn fp fn' fp' s l :
  ring fn fp s l -> (forall z, z ∈ s :: l -> fn' z = fn z /\ fp' z = fp z) -> ring fn' fp' s l.
Proof.
  unfold ring. intros Hc He.
  assert (forall x l0, x ∈ s :: l -> (forall z, z ∈ l0 -> z ∈ s :: l) -> chain fn fp x l0 -> chain fn' fp' x l0) as Hg.
  { intros x l0. revert x. induction l0 as [|y l0 IH]; intros x Hx Hall; [done|]. cbn. intros (H1 & H2 & H3).
    assert (y ∈ s :: l) as Hy by apply Hall, list_elem_of_here.
    split_and!; [by rewrite (proj1 (He x Hx))|by rewrite (proj2 (He y Hy))|]. apply IH; [done| |done].
    intros z Hz. by apply Hall, list_elem_of_further. }
  apply Hg; [apply list_elem_of_here| |done]. intros z. rewrite elem_of_app, list_elem_of_singleton.
  intros [Hz| ->]; [by apply list_elem_of_further|apply list_elem_of_here].
Qed.

Definition first_of (s : Z) (l : list Z) : Z := hd s l.

Lemma ring_first fn fp s l : ring fn fp s l -> fn s = Some (first_of s l) /\ fp (first_of s l) = Some s.
Proof. unfold ring. destruct l as [|y l]; cbn; tauto. Qed.

Lemma ring_add fn fp s l p :
  ring fn fp s l -> NoDup (s :: l) -> p ∉ s :: l ->
  ring (put_at (put_at fn p (first_of s l)) s p) (put_at (put_at fp p s) (first_of s l) p) s (p :: l).
Proof.
  unfold ring. intros Hr Hnd Hp. apply not_elem_of_cons in Hp as [Hps Hpl].
  destruct l as [|f l]; cbn [first_of hd app chain] in *.
  - rewrite !put_at_eq, (put_at_ne _ s p p), put_at_eq by done.
    rewrite (put_at_ne _ s p p), put_at_eq by done. done.
  - apply not_elem_of_cons in Hpl as [Hpf Hpl]. destruct Hr as (_ & _ & Hr).
    inversion Hnd as [|? ? Hs Hnd']; subst. apply not_elem_of_cons in Hs as [Hsf Hsl].
    inversion Hnd' as [|? ? Hf Hnd'']; subst.
    rewrite !put_at_eq, (put_at_ne _ f p p), put_at_eq by done.
    rewrite (put_at_ne _ s p p), put_at_eq by done. split_and!; [done..|].
    eapply chain_frame; [|exact Hr| |].
    + constructor; [rewrite elem_of_app, list_elem_of_singleton; intros [?|?]; congruence|].
      apply list.NoDup_app. split_and!; [done| |apply NoDup_singleton].
      intros z Hz ->%list_elem_of_singleton. done.
    + intros z Hz Hne. assert (z <> s).
      { intros ->. apply Hne. unfold last_of. by rewrite last_last. }
      rewrite put_at_ne by done. apply put_at_ne. intros ->.
      apply elem_of_cons in Hz as [->|Hz]; [done|].
      apply elem_of_app in Hz as [?| ->%list_elem_of_singleton]; done.
    + intros z Hz. apply elem_of_app in Hz as [Hz| ->%list_elem_of_singleton].
      * rewrite !put_at_ne; [done| |]; intros ->; done.
      * rewrite !put_at_ne; done.
Qed.

(** What follows a removed node on the ring: the rest of the list and the
    sentinel, closed at the sentinel. *)
Lemma ring_tail s l1 p l2 :
  NoDup (s :: l1) -> p ∉ s :: l1 -> NoDup l2 -> (forall z, z ∈ l2 -> (z ∉ s :: l1) /\ z <> p) ->
  let f := first_of s l2 in
  exists rest, l2 ++ [s] = f :: rest /\ (f ∉ rest) /\ NoDup (f :: rest) /\ last_of f rest = s /\
    f <> p /\ (f ∉ l1) /\ (forall z, z ∈ rest -> z ∈ l2 \/ z = s).
Proof.
  intros Hnd1 Hp1 Hnd2 Hd2. apply not_elem_of_cons in Hp1 as [Hps Hpl1]. inversion Hnd1 as [|? ? Hsl1 ?]; subst.
  destruct l2 as [|y l2]; cbn [first_of hd app].
  - exists []. split_and!; [done|apply not_elem_of_nil|apply NoDup_singleton|done|done|done|].
    intros z Hz. by apply not_elem_of_nil in Hz.
  - exists (l2 ++ [s]). destruct (Hd2 y (list_elem_of_here _ _)) as [Hy Hyp].
    apply not_elem_of_cons in Hy as [Hys Hyl]. inversion Hnd2 as [|? ? Hy2 Hnd2']; subst.
    assert (y ∉ l2 ++ [s]) as Hyn by (rewrite elem_of_app, list_elem_of_singleton; intros [?|?]; congruence).
    split_and!; [done|done| | |done|done|].
    + constructor; [done|]. apply list.NoDup_app. split_and!; [done| |apply NoDup_singleton].
      intros z Hz ->%list_elem_of_singleton. destruct (Hd2 s) as [Hs _]; [by apply list_elem_of_further|].
      apply Hs, list_elem_of_here.
    + unfold last_of. apply last_last.
    + intros z Hz. apply elem_of_app in Hz as [Hz| ->%list_elem_of_singleton]; [|by right].
      left. by apply list_elem_of_further.
Qed.

Lemma ring_del fn fp s l1 p l2 :
  ring fn fp s (l1 ++ p :: l2) -> NoDup (s :: l1 ++ p :: l2) ->
  let f := first_of s l2 in let g := last_of s l1 in
  fn p = Some f /\ fp p = Some g /\ p <> f /\ p <> g /\
  ring (put_at (put_at fn g f) p p) (put_at (put_at fp f g) p p) s (l1 ++ l2).
Proof.
  intros Hr Hnd f g. unfold ring in *. rewrite <- app_assoc in Hr. cbn in Hr.
  apply chain_app in Hr as [Hr1 Hr2]. fold g in Hr2. cbn in Hr2. destruct Hr2 as (Hgp & Hpg & Hr2).
  assert (g ∈ s :: l1) as Hg by apply last_of_in.
  assert (NoDup (s :: l1) /\ (p ∉ s :: l1) /\ NoDup l2 /\ (forall z, z ∈ l2 -> (z ∉ s :: l1) /\ z <> p)) as (Hnd1 & Hp1 & Hnd2 & Hd2).
  { change (s :: l1 ++ p :: l2) with ((s :: l1) ++ p :: l2) in Hnd.
    apply list.NoDup_app in Hnd as (? & Hd & Hn). inversion Hn as [|? ? Hpl ?]; subst. split_and!; [done| |done|].
    - intros Hin. apply (Hd p Hin). apply list_elem_of_here.
    - intros z Hz. split; [|congruence]. intros Hin. apply (Hd z Hin). by apply list_elem_of_further. }
  assert (p <> g) as Hpg' by congruence.
  destruct (ring_tail s l1 p l2 Hnd1 Hp1 Hnd2 Hd2) as (rest & Hrest & Hfr & Hndr & Hlast & Hfp & Hfl1 & Hin).
  fold f in Hrest, Hfr, Hndr, Hlast, Hfp, Hfl1.
  rewrite Hrest in Hr2. cbn in Hr2. destruct Hr2 as (Hpf & Hfp' & Hr2).
  split_and!; [done|done|congruence|done|].
  rewrite <- app_assoc, Hrest. apply chain_app. fold g. cbn. split_and!.
  - eapply chain_frame; [done|exact Hr1| |].
    + intros z Hz Hne. rewrite !put_at_ne; [done|exact Hne|]. intros ->. done.
    + intros z Hz. rewrite !put_at_ne; [done| |]; intros ->; [done|]. apply Hp1. by apply list_elem_of_further.
  - rewrite put_at_ne, put_at_eq by congruence. done.
  - rewrite put_at_ne, put_at_eq by done. done.
  - eapply chain_frame; [done|exact Hr2| |].
    + rewrite Hlast. intros z Hz Hne.
      assert (z ∈ l2) as Hz2.
      { apply elem_of_cons in Hz as [->|Hz]; [|destruct (Hin z Hz); [done|congruence]].
        unfold f in Hne |- *. destruct l2 as [|y l2]; [done|]. apply list_elem_of_here. }
      destruct (Hd2 z Hz2) as [Hz1 Hzp]. rewrite !put_at_ne; [done| |done]. intros ->. done.
    + intros z Hz. rewrite !put_at_ne; [done| |].
      * intros ->. done.
      * intros ->. destruct (Hin p Hz) as [Hz2| ->]; [by destruct (Hd2 p Hz2)|]. apply Hp1, list_elem_of_here.
Qed.

(** ** The two lists *)

Abbreviation entries := (list (Z * body)).

(** Two rings of entries with the heads [A] and [D], in the order of the
    [_next] links; [fa] and [fd] are the [_isDeleted] flags of their entries. *)
Record lists_ok (h : heap) (A D : Z) (fa fd : bool) (act del : entries) : Prop := {
  do_act : ring (nxt h) (prv h) A act.*1;
  do_del : ring (nxt h) (prv h) D del.*1;
  do_nodup : NoDup (A :: D :: act.*1 ++ del.*1);
  do_body : forall p b, (p, b) ∈ act ++ del -> bdy h p = Some (Some b);
  do_aflag : Forall (fun e => b_isDeleted e.2 = fa) act;
  do_dflag : Forall (fun e => b_isDeleted e.2 = fd) del
}.

(** The list at [plist] has the active entries [act] and the deleted ones
    [del]. *)
Definition dll_ok (h : heap) (plist : Z) (act del : entries) : Prop :=
  lists_ok h (activeEntries plist) (deletedEntries plist) false true act del.

Lemma nodes_swap (A D : Z) (act del : list Z) : A :: D :: act ++ del ≡ₚ D :: A :: del ++ act.
Proof. rewrite Permutation_swap. do 2 f_equiv. apply Permutation_app_comm. Qed.

Lemma lists_swap h A D fa fd act del : lists_ok h A D fa fd act del -> lists_ok h D A fd fa del act.
Proof.
  intros [H1 H2 H3 H4 H5 H6]. split; try done.
  - by rewrite nodes_swap.
  - intros p b Hin. apply H4. rewrite elem_of_app in *. tauto.
Qed.

Lemma chain_cells h x l : chain (nxt h) (prv h) x l -> forall z, z ∈ l -> is_Some (h !! z).
Proof.
  revert x. induction l as [|y l IH]; intros x Hc z Hz; [by apply not_elem_of_nil in Hz|].
  cbn in Hc. destruct Hc as (_ & Hp & Hc). apply elem_of_cons in Hz as [->|Hz]; [|by eapply IH].
  unfold prv in Hp. destruct (h !! y); [by eexists|done].
Qed.

Lemma ring_cells h s l : ring (nxt h) (prv h) s l -> forall z, z ∈ s :: l -> is_Some (h !! z).
Proof.
  intros Hr z Hz. eapply chain_cells; [exact Hr|]. apply elem_of_app.
  apply elem_of_cons in Hz as [->|Hz]; [right; by apply list_elem_of_singleton|by left].
Qed.

Lemma dll_cells h A D fa fd act del z :
  lists_ok h A D fa fd act del -> z ∈ A :: D :: act.*1 ++ del.*1 -> is_Some (h !! z).
Proof.
  intros Hd Hz. assert (z ∈ A :: act.*1 \/ z ∈ D :: del.*1) as [H|H].
  { rewrite !elem_of_cons, elem_of_app in *. tauto. }
  - eapply ring_cells; [apply (do_act _ _ _ _ _ _ _ Hd)|done].
  - eapply ring_cells; [apply (do_del _ _ _ _ _ _ _ Hd)|done].
Qed.

(** What the distinctness of all nodes gives for one of the lists. *)
Lemma dll_nodup (A D : Z) (act del : list Z) :
  NoDup (A :: D :: act ++ del) ->
  NoDup (A :: act) /\ NoDup (D :: del) /\
  (forall z, z ∈ A :: act -> z ∉ D :: del).
Proof.
  intros Hnd. assert (NoDup ((A :: act) ++ D :: del)) as Hnd'.
  { eapply NoDup_Permutation_proper; [|exact Hnd]. cbn. rewrite <- Permutation_middle. done. }
  apply list.NoDup_app in Hnd' as (? & Hd & ?). done.
Qed.

Lemma head_in fn fp s l : ring fn fp s l -> first_of s l ∈ s :: l.
Proof. destruct l; cbn; [intros _; apply list_elem_of_here|intros _; apply list_elem_of_further, list_elem_of_here]. Qed.

(** Updates of nodes outside a ring keep it. *)
Lemma ring_put_other fn fp s l (a b : Z) va vb (a' b' : Z) va' vb' :
  ring fn fp s l -> (a ∉ s :: l) -> (b ∉ s :: l) -> (a' ∉ s :: l) -> (b' ∉ s :: l) ->
  ring (put_at (put_at fn a va) b vb) (put_at (put_at fp a' va') b' vb') s l.
Proof.
  intros Hr Ha Hb Ha' Hb'. eapply ring_ext; [exact Hr|]. intros z Hz.
  rewrite !put_at_ne; [done|..]; intros ->; done.
Qed.

Lemma chain_put_ext fn fp fn' fp' s l :
  (forall z, fn' z = fn z) -> (forall z, fp' z = fp z) -> ring fn fp s l -> ring fn' fp' s l.
Proof. intros Hn Hp Hr. eapply ring_ext; [exact Hr|]. auto. Qed.

(** *** Linking and unlinking *)

Lemma link_act h A D fa fd act del p b :
  lists_ok h A D fa fd act del -> bdy h p = Some (Some b) -> b_isDeleted b = fa ->
  (p ∉ A :: D :: act.*1 ++ del.*1) ->
  exists h', i_doublylinkedlistEntryHeaderAdd h A p = Ok h' /\
    lists_ok h' A D fa fd ((p, b) :: act) del /\ same_cells h h'.
Proof.
  intros Hd Hb Hfl Hp. destruct (dll_nodup _ _ _ _ (do_nodup _ _ _ _ _ _ _ Hd)) as (Hna & Hnd & Hdis).
  destruct (ring_first _ _ _ _ (do_act _ _ _ _ _ _ _ Hd)) as [Hf1 Hf2].
  pose proof (head_in _ _ _ _ (do_act _ _ _ _ _ _ _ Hd)) as Hfin.
  assert (is_Some (h !! p)) as Hpc by (unfold bdy in Hb; destruct (h !! p); [by eexists|done]).
  assert (p ∉ A :: act.*1) as Hpa.
  { intros Hin. apply Hp. rewrite !elem_of_cons, elem_of_app in *. tauto. }
  assert (p ∉ D :: del.*1) as Hpd.
  { intros Hin. apply Hp. rewrite !elem_of_cons, elem_of_app in *. tauto. }
  destruct (header_add_spec h A p (first_of A act.*1)) as (h' & -> & [N P B C]);
    [done|done|by eapply ring_cells; [apply (do_act _ _ _ _ _ _ _ Hd)|]|intros ->; apply Hpa, list_elem_of_here|].
  exists h'. split; [done|]. split; [|done]. split.
  - eapply chain_put_ext; [exact N|exact P|]. cbn. apply ring_add; [apply (do_act _ _ _ _ _ _ _ Hd)|done|done].
  - eapply chain_put_ext; [exact N|exact P|]. apply ring_put_other; [apply (do_del _ _ _ _ _ _ _ Hd)|done| |done|].
    + apply Hdis, list_elem_of_here.
    + by apply Hdis.
  - cbn. assert (p :: A :: D :: act.*1 ++ del.*1 ≡ₚ
      A :: D :: p :: act.*1 ++ del.*1) as <-.
    { rewrite Permutation_swap. f_equiv. apply Permutation_swap. }
    constructor; [done|apply Hd].
  - intros p' b'. rewrite B. cbn. rewrite elem_of_cons. intros [[= -> ->]|Hin]; [done|]. by apply (do_body _ _ _ _ _ _ _ Hd).
  - constructor; [done|apply Hd].
  - apply Hd.
Qed.

(** Unlinking an entry of either list; the entry keeps its body. *)
Lemma unlink_act h A D fa fd a1 p b a2 del :
  lists_ok h A D fa fd (a1 ++ (p, b) :: a2) del ->
  exists h', i_doublylinkedlistEntryHeaderDel h p = Ok h' /\ lists_ok h' A D fa fd (a1 ++ a2) del /\
    bdy h' p = Some (Some b) /\ same_cells h h' /\
    (p ∉ A :: D :: (a1 ++ a2).*1 ++ del.*1).
Proof.
  intros Hd. destruct (dll_nodup _ _ _ _ (do_nodup _ _ _ _ _ _ _ Hd)) as (Hna & Hnd & Hdis).
  pose proof (do_act _ _ _ _ _ _ _ Hd) as Hr. rewrite fmap_app, fmap_cons in Hna, Hdis, Hr. cbn [fst] in Hna, Hdis, Hr.
  destruct (ring_del _ _ _ _ _ _ Hr Hna) as (Hf & Hg & Hpf & Hpg & Hr').
  pose proof (ring_cells _ _ _ Hr) as Hcells.
  assert (first_of A a2.*1 ∈ A :: a1.*1 ++ p :: a2.*1) as Hfin.
  { destruct a2.*1 as [|y l]; cbn; [apply list_elem_of_here|]. rewrite elem_of_cons, elem_of_app, !elem_of_cons. tauto. }
  assert (last_of A a1.*1 ∈ A :: a1.*1 ++ p :: a2.*1) as Hgin.
  { pose proof (last_of_in A a1.*1) as Hl. rewrite elem_of_cons in *. rewrite elem_of_app. tauto. }
  assert (p ∈ A :: a1.*1 ++ p :: a2.*1) as Hpin by (rewrite elem_of_cons, elem_of_app, elem_of_cons; tauto).
  destruct (header_del_spec h p _ _ Hf Hg) as (h' & -> & [N P B C]); [by apply Hcells|by apply Hcells|done|done|].
  exists h'. split; [done|].
  assert (A :: D :: (a1.*1 ++ p :: a2.*1) ++ del.*1 ≡ₚ
    p :: A :: D :: (a1 ++ a2).*1 ++ del.*1) as Hperm.
  { rewrite fmap_app, <- Permutation_middle. cbn [app].
    rewrite (Permutation_swap A p). f_equiv. apply Permutation_swap. }
  pose proof (do_nodup _ _ _ _ _ _ _ Hd) as Hnd0. rewrite fmap_app, fmap_cons in Hnd0. cbn [fst] in Hnd0.
  rewrite Hperm in Hnd0. inversion Hnd0 as [|? ? Hpn Hnd1]; subst.
  split_and!; [|rewrite B; apply (do_body _ _ _ _ _ _ _ Hd); rewrite !elem_of_app, elem_of_cons; tauto|done|done]. split.
  - eapply chain_put_ext; [exact N|exact P|]. by rewrite fmap_app.
  - eapply chain_put_ext; [exact N|exact P|].
    apply ring_put_other; [apply (do_del _ _ _ _ _ _ _ Hd)|by apply Hdis..].
  - done.
  - intros p' b' Hin. rewrite B. apply (do_body _ _ _ _ _ _ _ Hd). rewrite !elem_of_app, elem_of_cons in *. tauto.
  - pose proof (do_aflag _ _ _ _ _ _ _ Hd) as Ha. rewrite list.Forall_app, list.Forall_cons in Ha. apply list.Forall_app. tauto.
  - apply Hd.
Qed.

End DListSpec.
