(* ===== verification/DListProps.v ===== *)
(** * The doubly linked list: operations

    [abs_exec] is what the calls do to a pair of entry lists; [exec_simulates]
    shows that the pointer code does the same in any heap that represents
    them, without reaching a freed node and with the loops ending within their
    fuel (DListHistory has the theorem on whole histories).  The other theorems are on freeing, on queries, and on the calls
    that damage the list or lose memory. *)

From stdpp Require Import gmap.
From S2P Require Import Prelude DList DListSpec.

Module DListProps.
Import DList DListSpec.

(** ** Frames *)

Definition nodes (A D : Z) (act del : entries) : list Z := A :: D :: act.*1 ++ del.*1.

Lemma lists_frame h h' A D fa fd act del :
  lists_ok h A D fa fd act del ->
  (forall z, z ∈ nodes A D act del -> h' !! z = h !! z) -> lists_ok h' A D fa fd act del.
Proof.
  intros [H1 H2 H3 H4 H5 H6] Hf.
  assert (forall z, z ∈ A :: act.*1 -> h' !! z = h !! z) as Ha.
  { intros z Hz. apply Hf. unfold nodes. rewrite !elem_of_cons, elem_of_app in *. tauto. }
  assert (forall z, z ∈ D :: del.*1 -> h' !! z = h !! z) as Hd.
  { intros z Hz. apply Hf. unfold nodes. rewrite !elem_of_cons, elem_of_app in *. tauto. }
  split; try done.
  - eapply ring_ext; [exact H1|]. intros z Hz. unfold nxt, prv. by rewrite Ha.
  - eapply ring_ext; [exact H2|]. intros z Hz. unfold nxt, prv. by rewrite Hd.
  - intros p b Hin. unfold bdy. rewrite Hf; [by apply H4|].
    unfold nodes. rewrite !elem_of_cons, <- fmap_app. do 2 right. apply list_elem_of_fmap. by exists (p, b).
Qed.

(** An update of one node outside the lists. *)
Lemma lists_outside h A D fa fd act del p n :
  lists_ok h A D fa fd act del -> (p ∉ nodes A D act del) -> lists_ok (<[p := n]> h) A D fa fd act del.
Proof. intros Hl Hp. eapply lists_frame; [done|]. intros z Hz. apply lookup_insert_ne. congruence. Qed.

Lemma lists_freed h A D fa fd act del p :
  lists_ok h A D fa fd act del -> (p ∉ nodes A D act del) -> lists_ok (delete p h) A D fa fd act del.
Proof. intros Hl Hp. eapply lists_frame; [done|]. intros z Hz. apply lookup_delete_ne. congruence. Qed.

Lemma set_body_inv h p b h' : set_body h p b = Ok h' -> exists n, h' = <[p := n]> h.
Proof. unfold set_body, load. destruct (h !! p) as [n|]; [|done]. cbn. intros [= <-]. eauto. Qed.

Lemma header_init_inv h p h' :
  i_doublylinkedlistEntryHeaderInit h p = Ok h' -> exists n, h' = <[p := n]> h.
Proof.
  unfold i_doublylinkedlistEntryHeaderInit, set_next, set_prev, load. destruct (h !! p) as [n|]; [|done].
  cbn. rewrite lookup_insert_eq. cbn. rewrite insert_insert_eq. intros [= <-]. eauto.
Qed.

Lemma bdy_cell h p b : bdy h p = Some b -> is_Some (h !! p).
Proof. unfold bdy. destruct (h !! p); [by eexists|done]. Qed.

(** Replacing the body of an entry of the first list. *)
Lemma update_act h A D fa fd a1 p b b' a2 del :
  lists_ok h A D fa fd (a1 ++ (p, b) :: a2) del -> b_isDeleted b' = fa ->
  exists h', set_body h p b' = Ok h' /\ lists_ok h' A D fa fd (a1 ++ (p, b') :: a2) del.
Proof.
  intros [H1 H2 H3 H4 H5 H6] Hfl.
  assert (bdy h p = Some (Some b)) as Hb by (apply H4; rewrite !elem_of_app, elem_of_cons; tauto).
  destruct (set_body_spec h p b' (bdy_cell _ _ _ Hb)) as (h' & -> & [N P B C]). exists h'. split; [done|].
  assert ((a1 ++ (p, b') :: a2).*1 = (a1 ++ (p, b) :: a2).*1) as Hfst by (by rewrite !fmap_app).
  split; rewrite ?Hfst; try done.
  - eapply chain_put_ext; [exact N|exact P|done].
  - eapply chain_put_ext; [exact N|exact P|done].
  - intros p' b0 Hin. rewrite B. destruct (decide (p' = p)) as [->|Hne].
    + rewrite put_at_eq. do 2 f_equal. clear -H3 Hin.
      assert (NoDup ((a1 ++ (p, b') :: a2 ++ del).*1)) as Hnd.
      { inversion H3 as [|? ? _ H]; subst. inversion H as [|? ? _ H']; subst.
        rewrite !fmap_app, !fmap_cons, fmap_app in *. cbn [fst] in *. by rewrite <- !app_assoc in H'. }
      rewrite <- app_assoc in Hin. cbn in Hin.
      apply list_elem_of_lookup in Hin as [i Hi].
      assert ((a1 ++ (p, b') :: a2 ++ del) !! length a1 = Some (p, b')) as Hl by by apply list_lookup_middle.
      assert (i = length a1) as -> by (eapply (NoDup_lookup _ _ _ p Hnd); rewrite list_lookup_fmap, ?Hi, ?Hl; done).
      congruence.
    + rewrite put_at_ne by done. apply H4.
      rewrite !elem_of_app, !elem_of_cons in *. destruct Hin as [[?|[[= ]|?]]|?]; auto; congruence.
  - rewrite list.Forall_app, list.Forall_cons in *. destruct H5 as (? & _ & ?). done.
Qed.

(** ** Fuel *)

Lemma nodes_fuel h A D fa fd act del :
  lists_ok h A D fa fd act del -> (length act < fuel_of h)%nat.
Proof.
  intros Hl. pose proof (do_nodup _ _ _ _ _ _ _ Hl) as Hnd.
  assert (length (nodes A D act del) <= size h)%nat as Hs.
  { rewrite <- size_dom. rewrite <- (size_list_to_set (C := gset Z) (nodes A D act del)) by done.
    apply subseteq_size. intros z Hz%elem_of_list_to_set. apply elem_of_dom. by eapply dll_cells. }
  unfold nodes, fuel_of in *. cbn in Hs. rewrite length_app, !length_fmap in Hs. lia.
Qed.

(** The link from an entry to the rest of its list. *)
Lemma next_entry h A D fa fd a1 p b a2 del :
  lists_ok h A D fa fd (a1 ++ (p, b) :: a2) del ->
  load_body h p = Ok b /\ i_doublylinkedlistEntryHeaderNext h p = Ok (first_of A a2.*1) /\
  p <> A /\ (exists n, load h p = Ok n /\ n_next n = first_of A a2.*1).
Proof.
  intros Hl. pose proof (do_act _ _ _ _ _ _ _ Hl) as Hr. rewrite fmap_app, fmap_cons in Hr. cbn [fst] in Hr.
  destruct (dll_nodup _ _ _ _ (do_nodup _ _ _ _ _ _ _ Hl)) as (Hna & _ & _).
  rewrite fmap_app, fmap_cons in Hna. cbn [fst] in Hna.
  destruct (ring_del _ _ _ _ _ _ Hr Hna) as (Hf & _ & _ & Hpg & _).
  split_and!.
  - apply load_body_bdy, (do_body _ _ _ _ _ _ _ Hl). rewrite !elem_of_app, elem_of_cons. tauto.
  - unfold i_doublylinkedlistEntryHeaderNext. destruct (load_nxt _ _ _ Hf) as (n & -> & <-). done.
  - intros ->. inversion Hna as [|? ? Hn _]; subst. apply Hn. rewrite elem_of_app, elem_of_cons. tauto.
  - destruct (load_nxt _ _ _ Hf) as (n & -> & <-). by exists n.
Qed.

Lemma first_entry h A D fa fd act del :
  lists_ok h A D fa fd act del -> i_doublylinkedlistEntryHeaderNext h A = Ok (first_of A act.*1) /\
  (exists n, load h A = Ok n /\ n_next n = first_of A act.*1).
Proof.
  intros Hl. destruct (ring_first _ _ _ _ (do_act _ _ _ _ _ _ _ Hl)) as [Hf _].
  unfold i_doublylinkedlistEntryHeaderNext. destruct (load_nxt _ _ _ Hf) as (n & -> & <-). split; [done|by exists n].
Qed.

(** ** The calls *)

Definition new_body (key : Z) (data : list Z) : body := MkBody key 1 false (length data) data.
Definition mark_deleted (b : body) : body := MkBody (b_key b) (b_references b) true (b_size b) (b_data b).

Lemma add_ok h plist act del key data p :
  dll_ok h plist act del -> p <> 0 -> h !! p = None ->
  exists h', doublylinkedlistAdd h plist key data p = Ok (movePtrToUserData p, h') /\
    dll_ok h' plist ((p, new_body key data) :: act) del /\
    (forall z, is_Some (h' !! z) <-> z = p \/ is_Some (h !! z)).
Proof.
  intros Hd Hp Hfr. unfold doublylinkedlistAdd. rewrite (proj2 (Z.eqb_neq p 0)) by done.
  fold (new_body key data). set (b := new_body key data). set (h0 := <[p := MkNode 0 0 (Some b)]> h).
  assert (p ∉ nodes (activeEntries plist) (deletedEntries plist) act del) as Hout.
  { intros Hin. destruct (dll_cells _ _ _ _ _ _ _ _ Hd Hin). congruence. }
  assert (is_Some (h0 !! p)) as Hc0 by (unfold h0; rewrite lookup_insert_eq; by eexists).
  destruct (header_init_spec h0 p Hc0) as (h1 & E1 & [N1 P1 B1 C1]). rewrite E1. cbn [mbind res_bind].
  destruct (header_init_inv _ _ _ E1) as [n1 Hn1].
  assert (dll_ok h1 plist act del) as Hd1.
  { subst h1. unfold h0. rewrite insert_insert_eq. by apply lists_outside. }
  destruct (link_act h1 _ _ _ _ act del p b Hd1) as (h2 & E2 & Hd2 & C2).
  { rewrite B1. unfold bdy, h0. by rewrite lookup_insert_eq. }
  { done. }
  { done. }
  rewrite E2. cbn [mbind res_bind]. exists h2. split_and!; [done..|]. intros z. rewrite (C2 z), (C1 z).
  unfold h0. rewrite lookup_insert_is_Some. destruct (decide (p = z)); naive_solver.
Qed.

Lemma del_ok h plist a1 p b a2 del :
  dll_ok h plist (a1 ++ (p, b) :: a2) del ->
  exists h', doublylinkedlistDel h plist (movePtrToUserData p) = Ok h' /\
    dll_ok h' plist (a1 ++ a2) (if 0 <? b_references b then (p, mark_deleted b) :: del else del) /\
    same_cells h h'.
Proof.
  intros Hd. unfold doublylinkedlistDel, moveUserDataToPtr, movePtrToUserData.
  replace (p + sizeof_entry - sizeof_entry) with p by lia.
  destruct (unlink_act _ _ _ _ _ _ _ _ _ _ Hd) as (h1 & -> & Hd1 & Hb1 & C1 & Hout). cbn [mbind res_bind].
  rewrite (load_body_bdy _ _ _ Hb1). cbn [mbind res_bind].
  destruct (0 <? b_references b) eqn:Href; [|by exists h1].
  destruct (set_body_spec h1 p (mark_deleted b) (bdy_cell _ _ _ Hb1)) as (h2 & E2 & [N2 P2 B2 C2]).
  unfold mark_deleted in E2 at 1. rewrite E2. cbn [mbind res_bind].
  destruct (set_body_inv _ _ _ _ E2) as [n2 Hn2].
  assert (dll_ok h2 plist (a1 ++ a2) del) as Hd2 by (subst h2; by apply lists_outside).
  destruct (link_act h2 _ _ _ _ del (a1 ++ a2) p (mark_deleted b) (lists_swap _ _ _ _ _ _ _ Hd2)) as (h3 & E3 & Hd3 & C3).
  { by rewrite B2, put_at_eq. }
  { done. }
  { by rewrite nodes_swap. }
  rewrite E3. exists h3. split_and!; [done|by apply lists_swap|].
  eapply same_cells_trans; [done|]. eapply same_cells_trans; done.
Qed.

Lemma find_loop_ok h A D fa fd key pre rest del fuel :
  lists_ok h A D fa fd (pre ++ rest) del -> (length rest < fuel)%nat ->
  match list_find (fun e : Z * body => b_key e.2 = key) rest with
  | None => find_loop fuel h A key (first_of A rest.*1) = Ok (0, h)
  | Some (i, (p, b)) => exists h',
      find_loop fuel h A key (first_of A rest.*1) = Ok (movePtrToUserData p, h') /\
      lists_ok h' A D fa fd (pre ++ take i rest ++ (p, add_references b 1) :: drop (S i) rest) del
  end.
Proof.
  revert pre fuel. induction rest as [|[p b] rest IH]; intros pre fuel Hl Hf; (destruct fuel as [|fuel]; [cbn in Hf; lia|]).
  { cbn. by rewrite Z.eqb_refl. }
  destruct (next_entry _ _ _ _ _ _ _ _ _ _ Hl) as (Hb & Hn & HpA & _).
  cbn [find_loop first_of hd fmap list_fmap fst]. rewrite (proj2 (Z.eqb_neq p A)) by done.
  rewrite Hb. cbn [mbind res_bind list_find snd].
  destruct (decide (b_key b = key)) as [Hk|Hk].
  - rewrite (proj2 (Z.eqb_eq _ _) Hk).
    destruct (update_act _ _ _ _ _ pre p b (add_references b 1) rest del Hl) as (h' & -> & Hl').
    { pose proof (do_aflag _ _ _ _ _ _ _ Hl) as Ha. rewrite list.Forall_app, list.Forall_cons in Ha. by destruct Ha as (_ & ? & _). }
    exists h'. split; [done|]. by cbn.
  - rewrite (proj2 (Z.eqb_neq _ _) Hk), Hn. cbn [mbind res_bind].
    specialize (IH (pre ++ [(p, b)]) fuel). rewrite <- app_assoc in IH. cbn [app] in IH.
    specialize (IH Hl ltac:(cbn in Hf; lia)). destruct (list_find _ rest) as [[i [p' b']]|]; [|done].
    cbn. destruct IH as (h' & -> & Hl'). exists h'. split; [done|]. by rewrite <- app_assoc in Hl'.
Qed.

Lemma release_ok h A D fa fd a1 p b a2 del :
  lists_ok h A D fa fd (a1 ++ (p, b) :: a2) del ->
  exists h', doublylinkedlistRelease h (movePtrToUserData p) = Ok h' /\
    lists_ok h' A D fa fd (a1 ++ (p, add_references b (-1)) :: a2) del.
Proof.
  intros Hl. unfold doublylinkedlistRelease, moveUserDataToPtr, movePtrToUserData.
  replace (p + sizeof_entry - sizeof_entry) with p by lia.
  destruct (next_entry _ _ _ _ _ _ _ _ _ _ Hl) as (-> & _ & _ & _). cbn [mbind res_bind].
  apply update_act with b; [done|].
  pose proof (do_aflag _ _ _ _ _ _ _ Hl) as Ha. rewrite list.Forall_app, list.Forall_cons in Ha. by destruct Ha as (_ & ? & _).
Qed.

(** The deleted entries that [doublylinkedlistFreeDeletedEntries] keeps. *)
Definition in_use (e : Z * body) : Prop := b_references e.2 <> 0.
#[export] Instance in_use_dec e : Decision (in_use e).
Proof. unfold in_use. apply _. Defined.

Lemma free_ok h A D fa fd act del p :
  lists_ok h A D fa fd act del -> is_Some (h !! p) -> (p ∉ nodes A D act del) ->
  exists h', free h p = Ok h' /\ lists_ok h' A D fa fd act del /\
    (forall z, is_Some (h' !! z) <-> z <> p /\ is_Some (h !! z)).
Proof.
  intros Hl [n Hn] Hout. unfold free. rewrite Hn. eexists. split_and!; [done|by apply lists_freed|].
  intros z. rewrite lookup_delete_is_Some. naive_solver.
Qed.

(** [h'] is [h] without the nodes [ps]. *)
Definition without (h h' : heap) (ps : list Z) : Prop :=
  forall z, is_Some (h' !! z) <-> (z ∉ ps) /\ is_Some (h !! z).

Lemma without_nil h h' : same_cells h h' -> without h h' [].
Proof. intros C z. rewrite (C z). split; [intros ?; split; [apply not_elem_of_nil|done]|by intros []]. Qed.

Lemma without_cons h h1 h2 p ps :
  (forall z, is_Some (h1 !! z) <-> z <> p /\ is_Some (h !! z)) -> without h1 h2 ps -> without h h2 (p :: ps).
Proof. intros H1 H2 z. rewrite (H2 z), (H1 z), not_elem_of_cons. tauto. Qed.

Lemma free_deleted_ok h A D fa kept rest act fuel :
  lists_ok h A D true fa (kept ++ rest) act -> (length rest < fuel)%nat ->
  exists h', free_deleted_loop fuel h A (first_of A rest.*1) = Ok h' /\
    lists_ok h' A D true fa (kept ++ filter in_use rest) act /\
    without h h' (filter (fun e => ~ in_use e) rest).*1.
Proof.
  revert h kept fuel. induction rest as [|[p b] rest IH]; intros h kept fuel Hl Hf;
    (destruct fuel as [|fuel]; [cbn in Hf; lia|]).
  { cbn. rewrite Z.eqb_refl. exists h. split_and!; [done..|]. by apply without_nil. }
  destruct (next_entry _ _ _ _ _ _ _ _ _ _ Hl) as (Hb & Hn & HpA & _).
  cbn [free_deleted_loop first_of hd fmap list_fmap fst]. rewrite (proj2 (Z.eqb_neq p A)) by done.
  rewrite Hb. cbn [mbind res_bind].
  assert (b_isDeleted b = true) as Hdel.
  { pose proof (do_aflag _ _ _ _ _ _ _ Hl) as Ha. rewrite list.Forall_app, list.Forall_cons in Ha. by destruct Ha as (_ & ? & _). }
  rewrite Hdel. cbn [andb]. destruct (Z.eqb_spec (b_references b) 0) as [Href|Href]; rewrite Hn; cbn [mbind res_bind].
  - destruct (unlink_act _ _ _ _ _ _ _ _ _ _ Hl) as (h1 & -> & Hl1 & Hb1 & C1 & Hout). cbn [mbind res_bind].
    destruct (free_ok _ _ _ _ _ _ _ p Hl1 (bdy_cell _ _ _ Hb1) Hout) as (h2 & -> & Hl2 & C2). cbn [mbind res_bind].
    destruct (IH h2 kept fuel Hl2 ltac:(cbn in Hf; lia)) as (h3 & -> & Hl3 & C3). exists h3. split; [done|].
    rewrite !filter_cons. unfold in_use at 1 4. cbn [snd]. rewrite (decide_False (P := b_references b <> 0)) by tauto.
    rewrite decide_True by (unfold in_use; cbn; tauto). split; [done|].
    eapply without_cons; [|exact C3]. intros z. rewrite (C2 z), (C1 z). done.
  - specialize (IH h (kept ++ [(p, b)]) fuel). rewrite <- app_assoc in IH. cbn [app] in IH.
    destruct (IH Hl ltac:(cbn in Hf; lia)) as (h3 & -> & Hl3 & C3). exists h3. split; [done|].
    rewrite !filter_cons. rewrite decide_True by done. rewrite decide_False by (unfold in_use; cbn; tauto).
    split; [|done]. by rewrite <- app_assoc in Hl3.
Qed.

Lemma free_all_ok h A D fa fd rest del fuel :
  lists_ok h A D fa fd rest del -> (length rest < fuel)%nat ->
  exists h', free_all_loop fuel h A = Ok h' /\ lists_ok h' A D fa fd [] del /\ without h h' rest.*1.
Proof.
  revert h fuel. induction rest as [|[p b] rest IH]; intros h fuel Hl Hf; (destruct fuel as [|fuel]; [cbn in Hf; lia|]);
    destruct (first_entry _ _ _ _ _ _ _ Hl) as [Hfst _]; cbn [free_all_loop]; rewrite Hfst; cbn [mbind res_bind first_of hd fmap list_fmap fst].
  { rewrite Z.eqb_refl. exists h. split_and!; [done..|]. by apply without_nil. }
  destruct (next_entry h A D fa fd [] p b rest del Hl) as (Hb & Hn & HpA & _).
  rewrite (proj2 (Z.eqb_neq p A)) by done.
  destruct (unlink_act h A D fa fd [] p b rest del Hl) as (h1 & -> & Hl1 & Hb1 & C1 & Hout). cbn [mbind res_bind].
  destruct (free_ok _ _ _ _ _ _ _ p Hl1 (bdy_cell _ _ _ Hb1) Hout) as (h2 & -> & Hl2 & C2). cbn [mbind res_bind].
  destruct (IH h2 fuel Hl2 ltac:(cbn in Hf; lia)) as (h3 & -> & Hl3 & C3). exists h3. split_and!; [done..|].
  eapply without_cons; [|exact C3]. intros z. rewrite (C2 z), (C1 z). done.
Qed.

Lemma ring_last fn fp s l : ring fn fp s l -> fp s = Some (last_of s l).
Proof. intros Hr. apply chain_app in Hr as [_ Hr]. cbn in Hr. tauto. Qed.

Lemma get_ok h plist a1 p b a2 del follow fuel :
  dll_ok h plist (a1 ++ (p, b) :: a2) del ->
  exists h', get_loop (S fuel) h plist follow p = Ok (movePtrToUserData p, h') /\
    dll_ok h' plist (a1 ++ (p, add_references b 1) :: a2) del.
Proof.
  intros Hl. destruct (next_entry _ _ _ _ _ _ _ _ _ _ Hl) as (Hb & _ & HpA & _). cbn [get_loop].
  rewrite (proj2 (Z.eqb_neq p _)) by done. rewrite Hb. cbn [mbind res_bind].
  assert (b_isDeleted b = false) as Hfl.
  { pose proof (do_aflag _ _ _ _ _ _ _ Hl) as Ha. rewrite list.Forall_app, list.Forall_cons in Ha. by destruct Ha as (_ & ? & _). }
  rewrite Hfl. cbn [negb]. destruct (update_act _ _ _ _ _ a1 p b (add_references b 1) a2 del Hl Hfl) as (h' & -> & Hl').
  by exists h'.
Qed.

(** ** The abstract calls *)

Record lists : Type := MkLists { l_act : entries; l_del : entries }.

Inductive dop : Type :=
| DAdd (key : Z) (data : list Z) (p : Z)   (* [p]: what malloc returns *)
| DDel (p : Z)                             (* [p]: the entry's address *)
| DFind (key : Z)
| DGetFirst
| DGetLast
| DRelease (p : Z)
| DPurge
| DIsEmpty.

Definition at_addr (p : Z) (l : entries) : option (nat * (Z * body)) := list_find (fun e => e.1 = p) l.

Definition replace (l : entries) (i : nat) (e : Z * body) : entries := take i l ++ e :: drop (S i) l.

(** [None]: the caller may not make the call in this state. *)
Definition abs_exec (o : dop) (s : lists) : option (Z * lists) :=
  match o with
  | DAdd key data p =>
      Some (if p =? 0 then (0, s)
            else (movePtrToUserData p, MkLists ((p, new_body key data) :: l_act s) (l_del s)))
  | DDel p =>
      '(i, (_, b)) ← at_addr p (l_act s);
      Some (0, MkLists (take i (l_act s) ++ drop (S i) (l_act s))
                 (if 0 <? b_references b then (p, mark_deleted b) :: l_del s else l_del s))
  | DFind key =>
      Some (match list_find (fun e : Z * body => b_key e.2 = key) (l_act s) with
            | None => (0, s)
            | Some (i, (p, b)) =>
                (movePtrToUserData p, MkLists (replace (l_act s) i (p, add_references b 1)) (l_del s))
            end)
  | DGetFirst =>
      '(p, b) ← l_act s !! O;
      Some (movePtrToUserData p, MkLists (replace (l_act s) 0 (p, add_references b 1)) (l_del s))
  | DGetLast =>
      let i := (length (l_act s) - 1)%nat in
      '(p, b) ← l_act s !! i;
      Some (movePtrToUserData p, MkLists (replace (l_act s) i (p, add_references b 1)) (l_del s))
  | DRelease p =>
      match at_addr p (l_act s), at_addr p (l_del s) with
      | Some (i, (_, b)), _ => Some (0, MkLists (replace (l_act s) i (p, add_references b (-1))) (l_del s))
      | None, Some (i, (_, b)) => Some (0, MkLists (l_act s) (replace (l_del s) i (p, add_references b (-1))))
      | None, None => None
      end
  | DPurge => Some (0, MkLists (l_act s) (filter in_use (l_del s)))
  | DIsEmpty => Some (match l_act s with [] => 1 | _ => 0 end, s)
  end.

(** The C calls. *)
Definition dll_exec (plist : Z) (o : dop) (h : heap) : res (Z * heap) :=
  match o with
  | DAdd key data p => doublylinkedlistAdd h plist key data p
  | DDel p => h ← doublylinkedlistDel h plist (movePtrToUserData p); Ok (0, h)
  | DFind key => doublylinkedlistFind h plist key
  | DGetFirst => doublylinkedlistGetFirst h plist
  | DGetLast => doublylinkedlistGetLast h plist
  | DRelease p => h ← doublylinkedlistRelease h (movePtrToUserData p); Ok (0, h)
  | DPurge => h ← doublylinkedlistFreeDeletedEntries h plist; Ok (0, h)
  | DIsEmpty => b ← doublylinkedlistIsEmpty h plist; Ok (Z.b2z b, h)
  end.

(** [malloc] returns [NULL] or an address that is not in use. *)
Definition fresh_for (h : heap) (o : dop) : Prop :=
  match o with DAdd _ _ p => p <> 0 -> h !! p = None | _ => True end.

Lemma at_addr_split p l i e : at_addr p l = Some (i, e) -> e.1 = p /\ l = replace l i e.
Proof.
  unfold at_addr, replace. intros (Hl & He & _)%list_find_Some. split; [done|]. symmetry. by apply take_drop_middle.
Qed.

Lemma exec_simulates plist o h s r s' :
  plist <> 0 -> dll_ok h plist (l_act s) (l_del s) -> fresh_for h o -> abs_exec o s = Some (r, s') ->
  exists h', dll_exec plist o h = Ok (r, h') /\ dll_ok h' plist (l_act s') (l_del s').
Proof.
  intros Hpl Hd Hfr Ha. destruct o as [key data p|p|key| | |p| |]; cbn [abs_exec dll_exec fresh_for] in *.
  - injection Ha as Ha. destruct (Z.eqb_spec p 0) as [->|Hp]; injection Ha as <- <-; [by exists h|].
    destruct (add_ok h plist _ _ key data p Hd Hp (Hfr Hp)) as (h' & -> & Hd' & _). by exists h'.
  - destruct (at_addr p (l_act s)) as [[i [p' b]]|] eqn:E; [|done]. cbn in Ha. injection Ha as <- <-.
    destruct (at_addr_split _ _ _ _ E) as [Hp Hl]. cbn in Hp. subst p'. rewrite Hl in Hd at 1.
    destruct (del_ok _ _ _ _ _ _ _ Hd) as (h' & -> & Hd' & _). by exists h'.
  - injection Ha as Ha. unfold doublylinkedlistFind.
    destruct (first_entry _ _ _ _ _ _ _ Hd) as [-> _]. cbn [mbind res_bind].
    pose proof (find_loop_ok h _ _ _ _ key [] (l_act s) (l_del s) (fuel_of h) Hd (nodes_fuel _ _ _ _ _ _ _ Hd)) as Hf.
    destruct (list_find _ (l_act s)) as [[i [p b]]|]; injection Ha as <- <-; [|by exists h].
    destruct Hf as (h' & -> & Hd'). by exists h'.
  - destruct (l_act s) as [|[p b] act] eqn:E; [done|]. cbn in Ha. injection Ha as <- <-.
    unfold doublylinkedlistGetFirst. destruct (first_entry _ _ _ _ _ _ _ Hd) as [_ (n & -> & Hn)].
    cbn [mbind res_bind]. rewrite Hn. cbn [first_of hd fmap list_fmap fst]. unfold fuel_of.
    destruct (get_ok h plist [] p b act (l_del s) n_next (size h) Hd) as (h' & -> & Hd'). by exists h'.
  - destruct (l_act s !! _) as [[p b]|] eqn:E; [|done]. cbn in Ha. injection Ha as <- <-.
    unfold doublylinkedlistGetLast. pose proof (ring_last _ _ _ _ (do_act _ _ _ _ _ _ _ Hd)) as Hl.
    destruct (load_prv _ _ _ Hl) as (n & -> & Hn). cbn [mbind res_bind]. rewrite Hn.
    pose proof (take_drop_middle _ _ _ E) as Hsplit.
    assert (last_of (activeEntries plist) (l_act s).*1 = p) as ->.
    { pose proof (lookup_lt_Some _ _ _ E). rewrite <- Hsplit, drop_ge by lia. unfold last_of.
      rewrite fmap_app. cbn. by rewrite last_last. }
    rewrite <- Hsplit in Hd at 1.
    destruct (get_ok h plist _ p b _ _ n_prev (size h) Hd) as (h' & E' & Hd'). unfold fuel_of. rewrite E'. by exists h'.
  - destruct (at_addr p (l_act s)) as [[i [p' b]]|] eqn:E.
    + injection Ha as <- <-. destruct (at_addr_split _ _ _ _ E) as [Hp Hl]. cbn in Hp. subst p'. rewrite Hl in Hd at 1.
      destruct (release_ok _ _ _ _ _ _ _ _ _ _ Hd) as (h' & -> & Hd'). by exists h'.
    + destruct (at_addr p (l_del s)) as [[i [p' b]]|] eqn:E2; [|done]. injection Ha as <- <-.
      destruct (at_addr_split _ _ _ _ E2) as [Hp Hl]. cbn in Hp. subst p'. rewrite Hl in Hd at 1. apply lists_swap in Hd.
      destruct (release_ok _ _ _ _ _ _ _ _ _ _ Hd) as (h' & -> & Hd'). exists h'. split; [done|]. by apply lists_swap.
  - injection Ha as <- <-. unfold doublylinkedlistFreeDeletedEntries. rewrite (proj2 (Z.eqb_neq plist 0)) by done.
    apply lists_swap in Hd. destruct (first_entry _ _ _ _ _ _ _ Hd) as [-> _]. cbn [mbind res_bind].
    destruct (free_deleted_ok h _ _ _ [] (l_del s) (l_act s) (fuel_of h) Hd (nodes_fuel _ _ _ _ _ _ _ Hd)) as (h' & -> & Hd' & _).
    exists h'. split; [done|]. by apply lists_swap.
  - injection Ha as <- <-. unfold doublylinkedlistIsEmpty, i_doublylinkedlistEntryHeaderIsEmpty.
    destruct (first_entry _ _ _ _ _ _ _ Hd) as [_ (n & -> & Hn)]. cbn [mbind res_bind]. rewrite Hn.
    exists h. split; [|done]. destruct (l_act s) as [|[p b] act]; cbn; [by rewrite Z.eqb_refl|].
    destruct (next_entry h _ _ _ _ [] p b act (l_del s) Hd) as (_ & _ & Hne & _).
    by rewrite (proj2 (Z.eqb_neq p _)) by done.
Qed.

(** Purging frees exactly the deleted entries that nobody uses. *)
Lemma purge_ok h plist act del :
  plist <> 0 -> dll_ok h plist act del ->
  exists h', doublylinkedlistFreeDeletedEntries h plist = Ok h' /\ dll_ok h' plist act (filter in_use del) /\
    without h h' (filter (fun e => ~ in_use e) del).*1.
Proof.
  intros Hp Hd. unfold doublylinkedlistFreeDeletedEntries. rewrite (proj2 (Z.eqb_neq plist 0)) by done.
  apply lists_swap in Hd. destruct (first_entry _ _ _ _ _ _ _ Hd) as [-> _]. cbn [mbind res_bind].
  destruct (free_deleted_ok h _ _ false [] del act (fuel_of h) Hd (nodes_fuel _ _ _ _ _ _ _ Hd)) as (h' & -> & Hd' & W).
  exists h'. split; [done|]. split; [|done]. by apply lists_swap.
Qed.

Lemma alloc_ok h plist :
  plist <> 0 -> exists h', doublylinkedlistAlloc h plist = Ok (plist, h') /\ dll_ok h' plist [] [].
Proof.
  intros Hp. unfold doublylinkedlistAlloc. rewrite (proj2 (Z.eqb_neq plist 0)) by done.
  set (h0 := <[_ := _]> _). assert (activeEntries plist <> deletedEntries plist) as Hne.
  { unfold activeEntries, deletedEntries. lia. }
  destruct (header_init_spec h0 (activeEntries plist)) as (h1 & -> & [N1 P1 B1 C1]).
  { unfold h0. rewrite lookup_insert_eq. by eexists. }
  cbn [mbind res_bind].
  destruct (header_init_spec h1 (deletedEntries plist)) as (h2 & -> & [N2 P2 B2 C2]).
  { apply C1. unfold h0. rewrite lookup_insert_ne, lookup_insert_eq by done. by eexists. }
  cbn [mbind res_bind]. exists h2. split; [done|]. split; cbn; try done.
  - unfold ring. cbn. rewrite N2, P2, put_at_ne, put_at_ne, N1, P1, !put_at_eq by done. done.
  - unfold ring. cbn. rewrite N2, P2, !put_at_eq. done.
  - repeat constructor; [|apply not_elem_of_nil]. by intros ?%list_elem_of_singleton.
  - intros p b Hin. by apply not_elem_of_nil in Hin.
Qed.

(** ** Properties *)

Lemma free_list_ok h plist act del :
  plist <> 0 -> dll_ok h plist act del ->
  exists h', doublylinkedlistFree h plist = Ok h' /\
    without h h' (activeEntries plist :: deletedEntries plist :: act.*1 ++ del.*1).
Proof.
  intros Hp Hd. unfold doublylinkedlistFree. rewrite (proj2 (Z.eqb_neq plist 0)) by done.
  destruct (free_all_ok _ _ _ _ _ _ _ (fuel_of h) Hd (nodes_fuel _ _ _ _ _ _ _ Hd)) as (h1 & -> & Hd1 & W1).
  cbn [mbind res_bind]. apply lists_swap in Hd1.
  destruct (free_all_ok _ _ _ _ _ _ _ (fuel_of h1) Hd1 (nodes_fuel _ _ _ _ _ _ _ Hd1)) as (h2 & -> & Hd2 & W2).
  cbn [mbind res_bind].
  destruct (dll_cells _ _ _ _ _ _ _ (activeEntries plist) Hd2) as [na Hna]; [rewrite !elem_of_cons; tauto|].
  destruct (dll_cells _ _ _ _ _ _ _ (deletedEntries plist) Hd2) as [nd Hnd]; [rewrite !elem_of_cons; tauto|].
  assert (activeEntries plist <> deletedEntries plist) as Hne by (unfold activeEntries, deletedEntries; lia).
  unfold free. rewrite Hna. cbn [mbind res_bind]. rewrite lookup_delete_ne, Hnd by done.
  eexists. split; [done|]. intros z. rewrite !lookup_delete_is_Some, (W2 z), (W1 z), !not_elem_of_cons, not_elem_of_app.
  split; [intros (? & ? & ? & ? & ?)|intros ((? & ? & ? & ?) & ?)]; split_and!; congruence || done.
Qed.

(** C30: freeing the list frees every entry of both lists and the list itself,
    each once, and nothing else. *)
Theorem dll_free_all h plist act del :
  plist <> 0 -> dll_ok h plist act del ->
  exists h', doublylinkedlistFree h plist = Ok h' /\
    without h h' (activeEntries plist :: deletedEntries plist :: act.*1 ++ del.*1).
Proof. apply free_list_ok. Qed.

Lemma dll_free_all_witness :
  exists h h', dll_ok h 4096 [(8192, new_body 7 [1; 2])] [] /\
    doublylinkedlistFree h 4096 = Ok h' /\ without h h' [4096; 4120; 8192].
Proof.
  destruct (alloc_ok ∅ 4096 ltac:(lia)) as (h0 & E & Hd0).
  assert (Hfr : h0 !! 8192 = None) by (vm_compute in E; injection E as <-; vm_compute; reflexivity).
  destruct (add_ok h0 4096 [] [] 7 [1; 2] 8192 Hd0 ltac:(lia) Hfr) as (h & _ & Hd & _).
  destruct (dll_free_all h 4096 _ [] ltac:(lia) Hd) as (h' & E' & W). exists h, h'.
  split; [exact Hd|]. split; [exact E'|exact W].
Defined.

(** Add an entry, release its reference, delete it: the calls of a program
    that is done with an entry before it deletes it. *)
Definition released_then_deleted : res heap :=
  '(plist, h) ← doublylinkedlistAlloc ∅ 4096;
  '(ptr, h) ← doublylinkedlistAdd h plist 7 [1; 2] 8192;
  h ← doublylinkedlistRelease h ptr;
  doublylinkedlistDel h plist ptr.

(** Deleting an entry without references unlinks it and forgets it: it is
    in neither list, so that neither purging nor freeing the list frees it. *)
Theorem dll_delete_leaks :
  exists h h1 h2, released_then_deleted = Ok h /\
    doublylinkedlistFreeDeletedEntries h 4096 = Ok h1 /\ doublylinkedlistFree h1 4096 = Ok h2 /\
    is_Some (h2 !! 8192).
Proof. eexists _, _, _. split_and!; [vm_compute; reflexivity..|]. vm_compute. by eexists. Qed.

(** Asking an empty list for its first or last entry increments the
    reference count of the list head, which is the lower half of the pointer
    to the first deleted entry: the next purge follows a wild pointer. *)
Theorem dll_get_empty_corrupts :
  (exists h h1, doublylinkedlistAlloc ∅ 4096 = Ok (4096, h) /\
     doublylinkedlistGetFirst h 4096 = Ok (0, h1) /\ h1 !! 4120 = Some (MkNode 4121 4120 None) /\
     doublylinkedlistFreeDeletedEntries h1 4096 = Err UseAfterFree) /\
  (exists h h1, doublylinkedlistAlloc ∅ 4096 = Ok (4096, h) /\
     doublylinkedlistGetLast h 4096 = Ok (0, h1) /\
     doublylinkedlistFreeDeletedEntries h1 4096 = Err UseAfterFree).
Proof. split; eexists _, _; (split_and!; [vm_compute; reflexivity..]). Qed.

(** Two entries, the later one with key 0, queried into a buffer of 128
    bytes: whether all fitted, the bytes used, whether the result looks
    empty. *)
Definition query_with_key_zero : res (bool * nat * bool) :=
  '(plist, h) ← doublylinkedlistAlloc ∅ 4096;
  '(_, h) ← doublylinkedlistAdd h plist 5 [1] 8192;
  '(_, h) ← doublylinkedlistAdd h plist 0 [2] 12288;
  '(ok, buf, used) ← doublylinkedlistQuery h plist (replicate 128 0) 65536 128;
  e ← doublylinkedlistQueryIsEnd buf 0;
  Ok (ok, used, e).

(** A query returns an entry with key 0 as a record that looks like the
    end of the result: the caller sees no entry at all. *)
Theorem dll_query_key_zero : query_with_key_zero = Ok (true, 66%nat, true).
Proof. vm_compute. reflexivity. Qed.

End DListProps.
