(* ===== verification/DListQuery.v ===== *)
(** * Queries of the doubly linked list

    A query writes one record per entry into the caller's buffer.  When they
    fit, the records hold exactly the fields and the data of the entries, the
    active ones first, followed by an end mark. *)

From stdpp Require Import gmap.
From S2P Require Import Prelude DList Blocks DListSpec DListProps.

Module DListQuery.
Import DList Blocks DListSpec DListProps.

(** The bytes [r] are a record of the entry [b]. *)
Definition is_record (b : body) (r : list Z) : Prop :=
  length r = (sizeof_query + b_size b)%nat /\
  get r 0 8 = Ok (b_key b) /\ get r 8 4 = Ok (b_references b) /\ get r 12 1 = Ok (Z.b2z (b_isDeleted b)) /\
  get r 16 8 = Ok (Z.of_nat (b_size b)) /\ drop sizeof_query r = b_data b.

(** An entry whose fields have their C types. *)
Definition body_typed (b : body) : Prop :=
  is_u 64 (b_key b) /\ is_u 32 (b_references b) /\ length (b_data b) = b_size b /\ Z.of_nat (b_size b) < 2 ^ 64.

Lemma put_query_ok buf base b :
  body_typed b -> (sizeof_query + b_size b <= length buf)%nat ->
  exists r, put_query buf base 0 b = Ok (r ++ drop (sizeof_query + b_size b) buf) /\ is_record b r.
Proof.
  intros (Hk & Hr & Hd & Hs) Hl. unfold put_query, sizeof_query in *.
  destruct (split_blocks [8; 4; 1; 3; 8; 8; b_size b; length buf - (32 + b_size b)]%nat buf) as (bs & Eb & Hb).
  { cbn [foldr]. lia. }
  destruct bs as [|x1 [|x2 [|x3 [|x4 [|x5 [|x6 [|x7 [|x8 [|? ?]]]]]]]]]; try discriminate Hb. cbn in Hb.
  injection Hb as L1 L2 L3 L4 L5 L6 L7 L8. rewrite <- Eb.
  assert (Ht : drop (32 + b_size b) (concat [x1; x2; x3; x4; x5; x6; x7; x8]) = x8).
  { cbn [concat]. rewrite !app_assoc, app_nil_r. rewrite drop_app_length'; [done|]. rewrite !length_app. lia. }
  rewrite Ht.
  pose (B := [le_bytes 8 (b_key b); le_bytes 4 (b_references b); [Z.b2z (b_isDeleted b)]; x4;
              le_bytes 8 (Z.of_nat (b_size b)); le_bytes 8 (base + Z.of_nat 32); b_data b]).
  assert (Hn : forall n z, length (le_bytes n z) = n) by (intros; apply length_le_bytes).
  rewrite (put_block _ 0 x1) by (done || rewrite Hn; lia). cbn [mbind res_bind insert list_insert].
  rewrite (put_block _ 1 x2) by (done || (unfold offset; cbn; rewrite ?app_nil_r, ?length_app, ?Hn; lia)).
  cbn [mbind res_bind insert list_insert].
  rewrite (put_block _ 2 x3) by (done || (unfold offset; cbn [take concat length]; rewrite ?app_nil_r, ?length_app, ?Hn; lia)).
  cbn [mbind res_bind insert list_insert].
  rewrite (put_block _ 4 x5) by (done || (unfold offset; cbn [take concat length]; rewrite ?length_app, ?Hn; cbn [length]; lia)).
  cbn [mbind res_bind insert list_insert].
  rewrite (put_block _ 6 x7) by (done || lia || (unfold offset; cbn [take concat length]; rewrite ?length_app, ?Hn; cbn [length]; lia)).
  cbn [mbind res_bind insert list_insert].
  rewrite (put_block _ 5 x6) by (done || (unfold offset; cbn [take concat length]; rewrite ?length_app, ?Hn; cbn [length]; lia)).
  cbn [mbind res_bind insert list_insert]. exists (concat B). split.
  { f_equal. subst B. cbn [concat]. by rewrite <- !app_assoc, !app_nil_r. }
  unfold is_record, sizeof_query. split_and!.
  - subst B. cbn [concat]. rewrite !length_app, !Hn, Hd, L4. cbn [length]. lia.
  - rewrite (get_block B 0 (le_bytes 8 (b_key b))) by (done || by rewrite Hn). f_equal. by apply (le_val_bytes 8).
  - rewrite (get_block B 1 (le_bytes 4 (b_references b))) by (done || by rewrite Hn). f_equal. by apply (le_val_bytes 4).
  - rewrite (get_block B 2 [Z.b2z (b_isDeleted b)]) by done. cbn. f_equal. lia.
  - rewrite (get_block B 4 (le_bytes 8 (Z.of_nat (b_size b)))) by
      (done || (by rewrite Hn) || (subst B; unfold offset; cbn [take concat length]; rewrite ?length_app, ?Hn, ?L4; cbn [length]; lia)).
    f_equal. apply (le_val_bytes 8). unfold is_u. lia.
  - rewrite (drop_block B 6) by (subst B; unfold offset; cbn [take concat length]; rewrite ?length_app, ?Hn, ?L4; cbn [length]; lia).
    subst B. cbn. by rewrite app_nil_r.
Qed.

Lemma put_query_app pre rest base b :
  put_query (pre ++ rest) base (length pre) b =
    (fun r => pre ++ r) <$> put_query rest (base + Z.of_nat (length pre)) 0 b.
Proof.
  unfold put_query. rewrite <- (Nat.add_0_r (length pre)) at 1. rewrite put_app.
  destruct (put rest 0 _) as [r1|]; [|done]. cbn [fmap res_fmap mbind res_bind]. rewrite put_app. cbn [Nat.add].
  destruct (put r1 8 _) as [r2|]; [|done]. cbn [fmap res_fmap mbind res_bind]. rewrite put_app.
  destruct (put r2 12 _) as [r3|]; [|done]. cbn [fmap res_fmap mbind res_bind]. rewrite put_app.
  destruct (put r3 16 _) as [r4|]; [|done]. cbn [fmap res_fmap mbind res_bind]. rewrite put_app.
  destruct (put r4 sizeof_query _) as [r5|]; [|done]. cbn [fmap res_fmap mbind res_bind]. rewrite put_app.
  replace (base + Z.of_nat (length pre + sizeof_query)) with (base + Z.of_nat (length pre) + Z.of_nat (0 + sizeof_query)) by lia.
  done.
Qed.

(** The space of the records of some entries. *)
Definition records_size (es : entries) : nat := foldr (fun e n => sizeof_query + b_size e.2 + n)%nat O es.

Lemma records_size_cons e es : records_size (e :: es) = (sizeof_query + b_size e.2 + records_size es)%nat.
Proof. done. Qed.

Lemma records_size_app es1 es2 : records_size (es1 ++ es2) = (records_size es1 + records_size es2)%nat.
Proof. induction es1 as [|e l IH]; cbn [app]; rewrite ?records_size_cons, ?IH; [done|lia]. Qed.

Lemma records_size_length es : (length es <= records_size es)%nat.
Proof. induction es as [|e es IH]; cbn [length]; rewrite ?records_size_cons; [lia|]. unfold sizeof_query. lia. Qed.

Lemma query_loop_ok h A D fa fd before es del fuel pre rest base limit :
  lists_ok h A D fa fd (before ++ es) del -> (length es < fuel)%nat ->
  Forall (fun e => body_typed e.2) es -> length (pre ++ rest) = limit ->
  (length pre + records_size es + 8 <= limit)%nat ->
  exists recs, query_loop fuel h A (first_of A es.*1) (pre ++ rest) base limit (length pre) =
      Ok (true, (pre ++ concat recs) ++ drop (length (concat recs)) rest, length (pre ++ concat recs)) /\
    Forall2 is_record es.*2 recs /\ length (concat recs) = records_size es.
Proof.
  revert before fuel pre rest. induction es as [|[p b] es IH]; intros before fuel pre rest Hl Hf Ht Hlen Hs;
    (destruct fuel as [|fuel]; [cbn in Hf; lia|]); cbn [query_loop fmap list_fmap fst snd first_of hd].
  { rewrite Z.eqb_refl. exists []. cbn. rewrite !app_nil_r, drop_0. done. }
  destruct (next_entry _ _ _ _ _ _ _ _ _ _ Hl) as (Hb & Hn & HpA & _).
  rewrite (proj2 (Z.eqb_neq p A)), Hb by done. cbn [mbind res_bind].
  apply list.Forall_cons in Ht as [Htb Ht]. cbn [snd] in Htb. rewrite records_size_cons in Hs. cbn [snd] in Hs.
  rewrite length_app in Hlen.
  replace (limit <? length pre + sizeof_query + b_size b + 8)%nat with false by (symmetry; apply Nat.ltb_ge; lia).
  rewrite put_query_app.
  destruct (put_query_ok rest (base + Z.of_nat (length pre)) b Htb ltac:(lia)) as (r & -> & Hr).
  cbn [fmap res_fmap mbind res_bind]. rewrite Hn. cbn [mbind res_bind]. pose proof Hr as [Hrl _].
  set (rest1 := drop (sizeof_query + b_size b) rest).
  replace (length pre + sizeof_query + b_size b)%nat with (length (pre ++ r)) by (rewrite length_app; lia).
  rewrite (app_assoc pre r rest1).
  destruct (IH (before ++ [(p, b)]) fuel (pre ++ r) rest1) as (recs & E & Hrecs & Hlr).
  - by rewrite <- app_assoc.
  - cbn in Hf. lia.
  - done.
  - subst rest1. rewrite !length_app, length_drop. lia.
  - rewrite length_app. lia.
  - fold (first_of A es.*1). rewrite E. exists (r :: recs). cbn [concat]. split; [|split].
    + f_equal. rewrite <- !app_assoc. subst rest1. rewrite drop_drop, <- Hrl. by rewrite (length_app r).
    + cbn. by constructor.
    + rewrite length_app. rewrite records_size_cons. cbn [snd]. lia.
Qed.

(** The whole query. *)
Lemma query_ok h L act del buff base limit :
  dll_ok h L act del -> L <> 0 -> Forall (fun e => body_typed e.2) (act ++ del) ->
  length buff = limit -> (records_size (act ++ del) + 8 <= limit)%nat -> (8 < limit)%nat ->
  exists recs rest, doublylinkedlistQuery h L buff base limit =
      Ok (true, concat recs ++ replicate 8 0 ++ rest, length (concat recs)) /\
    Forall2 is_record (act ++ del).*2 recs.
Proof.
  intros Hd HL Ht Hlen Hs Hlim. unfold doublylinkedlistQuery. rewrite (proj2 (Z.eqb_neq L 0)) by done.
  apply list.Forall_app in Ht as [Hta Htd].
  rewrite records_size_app in Hs.
  unfold i_doublylinkedlistQuerySingleList. destruct (first_entry _ _ _ _ _ _ _ Hd) as [Hf _]. rewrite Hf. cbn [mbind res_bind].
  destruct (query_loop_ok h _ _ _ _ [] act del (fuel_of h) [] buff base limit Hd (nodes_fuel _ _ _ _ _ _ _ Hd) Hta Hlen
    ltac:(cbn [length]; lia)) as (recs & E & Hrecs & Hlr). cbn [app length] in E. rewrite E. cbn [mbind res_bind].
  pose proof (lists_swap _ _ _ _ _ _ _ Hd) as Hd'. destruct (first_entry _ _ _ _ _ _ _ Hd') as [Hf' _]. rewrite Hf'. cbn [mbind res_bind].
  destruct (query_loop_ok h _ _ _ _ [] del act (fuel_of h) (concat recs) (drop (length (concat recs)) buff) base limit Hd'
    (nodes_fuel _ _ _ _ _ _ _ Hd') Htd ltac:(rewrite length_app, length_drop; lia) ltac:(lia)) as (recs' & E' & Hrecs' & Hlr').
  rewrite E'. cbn [mbind res_bind andb]. rewrite (proj2 (Nat.ltb_lt _ _) Hlim).
  rewrite <- concat_app. set (tail := drop _ (drop _ buff)).
  assert (Hc : length (concat (recs ++ recs')) = (records_size act + records_size del)%nat) by (rewrite concat_app, length_app; lia).
  assert (Htl : (8 <= length tail)%nat) by (subst tail; rewrite !length_drop; lia).
  exists (recs ++ recs'), (drop 8 tail). rewrite <- (Nat.add_0_r (length (concat (recs ++ recs')))) at 1. rewrite put_app.
  assert (Hp : put tail 0 (replicate 8 0) = Ok (replicate 8 0 ++ drop 8 tail)).
  { unfold put, memcpy. rewrite decide_True by (rewrite length_replicate; lia). done. }
  rewrite Hp. cbn [fmap res_fmap mbind res_bind]. split; [done|]. rewrite fmap_app. by apply Forall2_app.
Qed.
End DListQuery.
