(* ===== verification/DListFrame.v ===== *)
(** * Lists that share a heap

    The calls of the list interface reach only the nodes of their own list:
    they are [local], so that what they do in a heap they also do in a larger
    one, and leave the rest alone.  [zones] are several lists apart in one
    heap. *)

From stdpp Require Import gmap.
From S2P Require Import Prelude DList DListSpec DListProps.

Module DListFrame.
Import DList DListSpec DListProps.

(** ** Local operations *)

(** What [g] reads it also reads in a larger heap. *)
Definition reads {A} (g : heap -> res A) : Prop :=
  forall h F a, g h = Ok a -> g (h ∪ F) = Ok a.

(** What [f] does in a heap it also does in a larger one; it allocates nothing. *)
Definition local (f : heap -> res heap) : Prop :=
  forall h h' F, f h = Ok h' -> h ##ₘ F -> f (h ∪ F) = Ok (h' ∪ F) /\ dom h' ⊆ dom h.

Create HintDb local.

Lemma reads_load a : reads (fun h => load h a).
Proof. intros h F n. unfold load. destruct (h !! a) as [m|] eqn:E; [|done]. by rewrite (lookup_union_Some_l _ _ _ _ E). Qed.

Lemma reads_bind {A B} (g : heap -> res A) (k : A -> heap -> res B) :
  reads g -> (forall a, reads (k a)) -> reads (fun h => a ← g h; k a h).
Proof. intros Hg Hk h F b H. apply bind_Ok in H as (a & E & H). rewrite (Hg h F a E). cbn [mbind res_bind]. by apply Hk. Qed.

Lemma reads_ret {A} (r : res A) : reads (fun _ => r).
Proof. by intros h F a H. Qed.

Lemma local_ret : local Ok.
Proof. intros h h' F [= <-] _. done. Qed.

Lemma local_err e : local (fun _ => Err e).
Proof. by intros h h' F H. Qed.

Lemma local_seq f g : local f -> local g -> local (fun h => h' ← f h; g h').
Proof.
  intros Hf Hg h h' F H Hd. apply bind_Ok in H as (h1 & E & H). destruct (Hf h h1 F E Hd) as [-> D1]. cbn [mbind res_bind].
  assert (h1 ##ₘ F) as Hd1 by (apply map_disjoint_dom in Hd; apply map_disjoint_dom; set_solver).
  destruct (Hg h1 h' F H Hd1) as [-> D2]. split; [done|set_solver].
Qed.

Lemma local_read {A} (g : heap -> res A) (k : A -> heap -> res heap) :
  reads g -> (forall a, local (k a)) -> local (fun h => a ← g h; k a h).
Proof.
  intros Hg Hk h h' F H Hd. apply bind_Ok in H as (a & E & H). rewrite (Hg h F a E). cbn [mbind res_bind]. by apply Hk.
Qed.

(** Storing in a node that exists. *)
Lemma local_store a (upd : node -> node) : local (fun h => n ← load h a; Ok (<[a := upd n]> h)).
Proof.
  intros h h' F H _. unfold load in H. destruct (h !! a) as [n|] eqn:E; [|done]. cbn in H. injection H as <-.
  unfold load. rewrite (lookup_union_Some_l _ _ _ _ E). cbn [mbind res_bind]. split; [by rewrite insert_union_l|].
  rewrite dom_insert_lookup_L; [done|]. by exists n.
Qed.

Lemma local_free a : local (fun h => free h a).
Proof.
  intros h h' F H Hd. unfold free in *. destruct (h !! a) as [n|] eqn:E; [|done]. injection H as <-.
  rewrite (lookup_union_Some_l _ _ _ _ E). split; [|rewrite dom_delete_L; set_solver].
  f_equal. rewrite delete_union. f_equal. apply delete_id. by eapply map_disjoint_Some_l.
Qed.

Lemma local_next a v : local (fun h => set_next h a v).
Proof. exact (local_store a (fun n => MkNode v (n_prev n) (n_body n))). Qed.
Lemma local_prev a v : local (fun h => set_prev h a v).
Proof. exact (local_store a (fun n => MkNode (n_next n) v (n_body n))). Qed.
Lemma local_body a b : local (fun h => set_body h a b).
Proof. exact (local_store a (fun n => MkNode (n_next n) (n_prev n) (Some b))). Qed.

Lemma reads_body a : reads (fun h => load_body h a).
Proof. apply (reads_bind (fun h => load h a)); [apply reads_load|]. intros n. apply reads_ret. Qed.
Lemma reads_next a : reads (fun h => i_doublylinkedlistEntryHeaderNext h a).
Proof. apply (reads_bind (fun h => load h a)); [apply reads_load|]. intros n. apply reads_ret. Qed.

#[export] Hint Resolve local_ret local_err local_free local_next local_prev local_body reads_load reads_body reads_next : local.

(** Take a composed operation apart. *)
Ltac localize :=
  repeat match goal with
  | |- forall _, _ => intros ?
  | |- local (fun h => if ?b then _ else _) => destruct b
  | |- local (fun h => let n := _ in _) => cbv zeta
  | |- local (fun h => @mbind res _ heap heap _ (?f h)) => first
      [apply (local_seq (fun h => f h)); [solve [auto with local]|] | apply (local_read (fun h => f h)); [solve [auto with local]|]]
  | |- local (fun h => @mbind res _ _ heap (fun a => _) _) => first
      [eapply local_seq; [solve [eauto with local]|] | eapply local_read; [solve [eauto with local]|]]
  | _ => solve [auto with local]
  end.

Lemma local_header_init p : local (fun h => i_doublylinkedlistEntryHeaderInit h p).
Proof. unfold i_doublylinkedlistEntryHeaderInit. localize. Qed.
#[export] Hint Resolve local_header_init : local.

Lemma local_header_del p : local (fun h => i_doublylinkedlistEntryHeaderDel h p).
Proof. unfold i_doublylinkedlistEntryHeaderDel. localize. Qed.

Lemma local_header_add s p : local (fun h => i_doublylinkedlistEntryHeaderAdd h s p).
Proof. unfold i_doublylinkedlistEntryHeaderAdd. localize. Qed.
#[export] Hint Resolve local_header_del local_header_add : local.

Lemma local_del L ptr : local (fun h => doublylinkedlistDel h L ptr).
Proof. unfold doublylinkedlistDel. cbv zeta. localize. Qed.

Lemma local_release ptr : local (fun h => doublylinkedlistRelease h ptr).
Proof. unfold doublylinkedlistRelease. cbv zeta. localize. Qed.

(** A loop whose bound is the size of the heap. *)
Definition local_loop (f : nat -> heap -> res heap) : Prop :=
  forall n m h h' F, (n <= m)%nat -> f n h = Ok h' -> h ##ₘ F -> f m (h ∪ F) = Ok (h' ∪ F) /\ dom h' ⊆ dom h.

Lemma local_fuel f : local_loop f -> local (fun h => f (fuel_of h) h).
Proof.
  intros Hf h h' F H Hd. apply (Hf (fuel_of h)); [|done..]. unfold fuel_of. rewrite map_size_disj_union by done. lia.
Qed.

(** A round of both loops that free. *)
Lemma unlink_free_local h p h1 h2 F :
  i_doublylinkedlistEntryHeaderDel h p = Ok h1 -> free h1 p = Ok h2 -> h ##ₘ F ->
  exists h3, i_doublylinkedlistEntryHeaderDel (h ∪ F) p = Ok h3 /\ free h3 p = Ok (h2 ∪ F) /\ h2 ##ₘ F /\ dom h2 ⊆ dom h.
Proof.
  intros E1 E2 Hd. assert (local (fun h => h ← i_doublylinkedlistEntryHeaderDel h p; free h p)) as Hl by localize.
  specialize (Hl h h2 F). cbv beta in Hl. rewrite E1 in Hl. destruct (Hl E2 Hd) as [E3 D2].
  apply bind_Ok in E3 as (h3 & -> & E3). exists h3. split_and!; [done|done| |done].
  apply map_disjoint_dom in Hd. apply map_disjoint_dom. set_solver.
Qed.

Lemma free_deleted_local hd p : local_loop (fun n h => free_deleted_loop n h hd p).
Proof.
  intros n. revert p. induction n as [|n IH]; intros p [|m] h h' F Hm H Hd; [done|done|lia|]. cbn [free_deleted_loop] in *.
  destruct (p =? hd); [injection H as <-; done|].
  apply bind_Ok in H as (b & Eb & H). rewrite (reads_body p h F b Eb). cbn [mbind res_bind].
  destruct (b_isDeleted b && _); apply bind_Ok in H as (next & En & H); rewrite (reads_next p h F next En); cbn [mbind res_bind].
  - apply bind_Ok in H as (h1 & E1 & H). apply bind_Ok in H as (h2 & E2 & H).
    destruct (unlink_free_local h p h1 h2 F E1 E2 Hd) as (h3 & -> & E3 & Hd2 & ?). cbn [mbind res_bind]. rewrite E3. cbn [mbind res_bind].
    destruct (IH next m h2 h' F ltac:(lia) H Hd2) as [-> ?]. split; [done|set_solver].
  - by apply (IH next m h h' F); [lia| |].
Qed.

Lemma free_all_local hd : local_loop (fun n h => free_all_loop n h hd).
Proof.
  intros n. induction n as [|n IH]; intros [|m] h h' F Hm H Hd; [done|done|lia|]. cbn [free_all_loop] in *.
  apply bind_Ok in H as (p & Ep & H). rewrite (reads_next hd h F p Ep). cbn [mbind res_bind].
  destruct (p =? hd); [injection H as <-; done|]. apply bind_Ok in H as (h1 & E1 & H). apply bind_Ok in H as (h2 & E2 & H).
  destruct (unlink_free_local h p h1 h2 F E1 E2 Hd) as (h3 & -> & E3 & Hd2 & ?). cbn [mbind res_bind]. rewrite E3. cbn [mbind res_bind].
  destruct (IH m h2 h' F ltac:(lia) H Hd2) as [-> ?]. split; [done|set_solver].
Qed.

Lemma local_purge L : local (fun h => doublylinkedlistFreeDeletedEntries h L).
Proof.
  unfold doublylinkedlistFreeDeletedEntries. destruct (L =? 0); [apply local_ret|].
  apply (local_read (fun h => i_doublylinkedlistEntryHeaderNext h (deletedEntries L))); [auto with local|].
  intros p. apply (local_fuel (fun n h => free_deleted_loop n h _ p)), free_deleted_local.
Qed.

Lemma local_free_list L : local (fun h => doublylinkedlistFree h L).
Proof.
  unfold doublylinkedlistFree. destruct (L =? 0); [apply local_ret|].
  apply (local_seq (fun h => free_all_loop (fuel_of h) h _)); [apply (local_fuel (fun n h => free_all_loop n h _)), free_all_local|].
  apply (local_seq (fun h => free_all_loop (fuel_of h) h _)); [apply (local_fuel (fun n h => free_all_loop n h _)), free_all_local|].
  localize.
Qed.

(** ** Frames *)

(** The part of a heap at the addresses [N], and [h'] being [h] outside of them. *)
Definition restrict (N : list Z) (h : heap) : heap := filter (fun e => e.1 ∈ N) h.
Definition framed (N : list Z) (h h' : heap) : Prop := forall z, z ∉ N -> h' !! z = h !! z.

#[export] Instance framed_preorder N : PreOrder (framed N).
Proof. split; [by intros h z Hz|]. intros h1 h2 h3 H1 H2 z Hz. by rewrite (H2 z Hz), (H1 z Hz). Qed.

Lemma framed_weaken N N' h h' : N ⊆ N' -> framed N h h' -> framed N' h h'.
Proof. intros Hs H z Hz. apply H. set_solver. Qed.

Lemma restrict_in N h z : z ∈ N -> restrict N h !! z = h !! z.
Proof.
  intros Hz. unfold restrict. destruct (h !! z) as [n|] eqn:E.
  - by apply map_lookup_filter_Some_2.
  - apply map_lookup_filter_None. by left.
Qed.

(** What a local operation does to the part [N] of a heap. *)
Lemma local_frame f N h h1 :
  local f -> f (restrict N h) = Ok h1 ->
  exists h', f h = Ok h' /\ framed N h h' /\ forall z, z ∈ N -> h' !! z = h1 !! z.
Proof.
  intros Hf E. set (F := filter (fun e => e.1 ∉ N) h).
  assert (Hh : restrict N h ∪ F = h) by apply map_filter_union_complement.
  assert (Hd : restrict N h ##ₘ F) by apply map_disjoint_filter_complement.
  destruct (Hf _ _ F E Hd) as [E' Hdom]. rewrite Hh in E'. exists (h1 ∪ F). split; [done|].
  assert (Hout : forall z, z ∈ N -> F !! z = None).
  { intros z Hz. apply map_lookup_filter_None. right. intros n _ Hn. by apply Hn. }
  split; intros z Hz.
  - transitivity ((restrict N h ∪ F) !! z); [|by rewrite Hh]. rewrite !lookup_union. replace (h1 !! z) with (@None node); [|symmetry].
    + replace (restrict N h !! z) with (@None node); [done|]. symmetry. apply map_lookup_filter_None. right. intros n _ Hn. by apply Hz.
    + apply not_elem_of_dom. intros Hin. apply Hdom, elem_of_dom in Hin as [n Hn]. apply map_lookup_filter_Some in Hn as [_ Hn]. done.
  - rewrite lookup_union_l by (by apply Hout). done.
Qed.

Abbreviation nodes_of L act del := (nodes (activeEntries L) (deletedEntries L) act del).

Lemma dll_restrict h L act del : dll_ok h L act del -> dll_ok (restrict (nodes_of L act del) h) L act del.
Proof. intros Hd. eapply lists_frame; [exact Hd|]. intros z Hz. by apply restrict_in. Qed.

(** A local operation that is known on the nodes of a list alone. *)
Lemma dll_framed f h L act del act' del' :
  local f -> dll_ok h L act del ->
  (forall h, dll_ok h L act del -> exists h', f h = Ok h' /\ dll_ok h' L act' del') ->
  nodes_of L act' del' ⊆ nodes_of L act del ->
  exists h', f h = Ok h' /\ dll_ok h' L act' del' /\ framed (nodes_of L act del) h h'.
Proof.
  intros Hf Hd Hop Hsub. destruct (Hop _ (dll_restrict h L act del Hd)) as (h1 & E1 & Hd1).
  destruct (local_frame f _ h h1 Hf E1) as (h' & E & Fr & Hin). exists h'. split_and!; [done| |done].
  eapply lists_frame; [exact Hd1|]. intros z Hz. apply Hin. by apply Hsub.
Qed.

Lemma nodes_purge L act del : nodes_of L act (filter in_use del) ⊆ nodes_of L act del.
Proof.
  intros z. unfold nodes. rewrite !elem_of_cons, !elem_of_app, !list_elem_of_fmap.
  intros [?|[?|[?|(e & ? & He)]]]; [tauto..|]. apply list_elem_of_filter in He as [_ He]. right. right. right. by exists e.
Qed.

Lemma purge_framed h L act del :
  L <> 0 -> dll_ok h L act del ->
  exists h', doublylinkedlistFreeDeletedEntries h L = Ok h' /\ dll_ok h' L act (filter in_use del) /\
    framed (nodes_of L act del) h h' /\
    forall z, z ∈ nodes_of L act del -> z ∉ nodes_of L act (filter in_use del) -> h' !! z = None.
Proof.
  intros HL Hd. destruct (purge_ok _ L act del HL (dll_restrict h L act del Hd)) as (h1 & E1 & Hd1 & W).
  destruct (local_frame _ _ h h1 (local_purge L) E1) as (h' & E & Fr & Hin). exists h'. split_and!; [done| |done|].
  - eapply lists_frame; [exact Hd1|]. intros z Hz. by apply Hin, nodes_purge.
  - intros z Hz Hz'. rewrite (Hin z Hz). apply eq_None_not_Some. rewrite (W z). intros [Hn _]. revert Hz Hz'. unfold nodes.
    rewrite !elem_of_cons, !elem_of_app, !list_elem_of_fmap. setoid_rewrite list_elem_of_filter. intros Hz Hz'.
    assert (exists e, z = e.1 /\ e ∈ del) as (e & He & Hd') by tauto.
    destruct (decide (in_use e)); [apply Hz'; naive_solver|]. apply Hn, list_elem_of_fmap. exists e. split; [done|]. by apply list_elem_of_filter.
Qed.

Lemma del_framed h L a1 p b a2 del :
  dll_ok h L (a1 ++ (p, b) :: a2) del -> 0 < b_references b ->
  exists h', doublylinkedlistDel h L (movePtrToUserData p) = Ok h' /\ dll_ok h' L (a1 ++ a2) ((p, mark_deleted b) :: del) /\
    framed (nodes_of L (a1 ++ (p, b) :: a2) del) h h'.
Proof.
  intros Hd Hb. apply (dll_framed (fun h => doublylinkedlistDel h L (movePtrToUserData p))); [apply local_del|done| |].
  - intros h0 H0. destruct (del_ok h0 L a1 p b a2 del H0) as (h' & E & Hd' & _). exists h'. split; [done|].
    by rewrite (proj2 (Z.ltb_lt _ _) Hb) in Hd'.
  - unfold nodes. rewrite !fmap_app. cbn [fmap list_fmap fst]. set_solver.
Qed.

Lemma release_act_framed h L a1 p b a2 del :
  dll_ok h L (a1 ++ (p, b) :: a2) del ->
  exists h', doublylinkedlistRelease h (movePtrToUserData p) = Ok h' /\
    dll_ok h' L (a1 ++ (p, add_references b (-1)) :: a2) del /\ framed (nodes_of L (a1 ++ (p, b) :: a2) del) h h'.
Proof.
  intros Hd. apply (dll_framed (fun h => doublylinkedlistRelease h (movePtrToUserData p))); [apply local_release|done| |].
  - intros h0 H0. by apply (release_ok h0 _ _ false true a1 p b a2 del).
  - unfold nodes. rewrite !fmap_app. done.
Qed.

Lemma release_del_framed h L act p b del :
  dll_ok h L act ((p, b) :: del) ->
  exists h', doublylinkedlistRelease h (movePtrToUserData p) = Ok h' /\
    dll_ok h' L act ((p, add_references b (-1)) :: del) /\ framed (nodes_of L act ((p, b) :: del)) h h'.
Proof.
  intros Hd. apply (dll_framed (fun h => doublylinkedlistRelease h (movePtrToUserData p))); [apply local_release|done| |done].
  intros h0 H0. apply lists_swap in H0. destruct (release_ok h0 _ _ true false [] p b del act H0) as (h' & E & Hd').
  exists h'. split; [done|]. by apply lists_swap.
Qed.

Lemma free_framed h L act del :
  L <> 0 -> dll_ok h L act del ->
  exists h', doublylinkedlistFree h L = Ok h' /\ (forall z, z ∈ nodes_of L act del -> h' !! z = None) /\
    framed (nodes_of L act del) h h'.
Proof.
  intros HL Hd. destruct (free_list_ok _ L act del HL (dll_restrict h L act del Hd)) as (h1 & E1 & W).
  destruct (local_frame _ _ h h1 (local_free_list L) E1) as (h' & E & Fr & Hin). exists h'. split_and!; [done| |done].
  intros z Hz. rewrite (Hin z Hz). apply eq_None_not_Some. rewrite (W z). intros [Hn _]. by apply Hn.
Qed.

(** ** Zones *)

(** A list: its address, its active and its deleted entries. *)
Definition zone : Type := Z * entries * entries.
Definition znodes (z : zone) : list Z := let '(L, act, del) := z in nodes_of L act del.
Definition zone_ok (h : heap) (z : zone) : Prop := let '(L, act, del) := z in L <> 0 /\ dll_ok h L act del.

Definition all_nodes (zs : list zone) : list Z := mjoin (znodes <$> zs).

(** The lists [zs] are in the heap, apart from each other. *)
Definition zones (h : heap) (zs : list zone) : Prop :=
  Forall (zone_ok h) zs /\ NoDup (all_nodes zs).

#[export] Instance zones_proper h : Proper ((≡ₚ) ==> iff) (zones h).
Proof. intros zs zs' Hp. unfold zones, all_nodes. by rewrite Hp. Qed.

(** One list changes, and keeps to its nodes. *)
Lemma zones_step h h' L act del act' del' zs :
  zones h ((L, act, del) :: zs) -> dll_ok h' L act' del' -> framed (nodes_of L act del) h h' ->
  nodes_of L act' del' ⊆ nodes_of L act del -> zones h' ((L, act', del') :: zs).
Proof.
  intros [Hok Hnd] Hd Hf Hsub. apply list.Forall_cons in Hok as [[HL _] Hok]. cbn [fmap list_fmap mjoin list_join znodes] in Hnd.
  apply list.NoDup_app in Hnd as (_ & Hap & Hnd). split.
  - constructor; [done|]. apply list.Forall_forall. intros [[L2 a2] d2] Hin. pose proof (proj1 (list.Forall_forall _ _) Hok _ Hin) as [HL2 Hd2].
    split; [done|]. eapply lists_frame; [exact Hd2|]. intros z Hz. apply Hf. intros Hz'. apply (Hap z Hz').
    apply list_elem_of_join. exists (znodes (L2, a2, d2)). split; [done|]. apply list_elem_of_fmap. by exists (L2, a2, d2).
  - cbn [fmap list_fmap mjoin list_join znodes]. apply list.NoDup_app. split; [apply (do_nodup _ _ _ _ _ _ _ Hd)|]. split; [|done].
    intros z Hz. by apply Hap, Hsub.
Qed.

(** A list is gone. *)
Lemma zones_drop h h' z zs : zones h (z :: zs) -> framed (znodes z) h h' -> zones h' zs.
Proof.
  intros [Hok Hnd] Hf. apply list.Forall_cons in Hok as [_ Hok]. cbn [fmap list_fmap mjoin list_join] in Hnd.
  apply list.NoDup_app in Hnd as (_ & Hap & Hnd). split; [|done].
  apply list.Forall_forall. intros [[L2 a2] d2] Hin. pose proof (proj1 (list.Forall_forall _ _) Hok _ Hin) as [HL2 Hd2].
  split; [done|]. eapply lists_frame; [exact Hd2|]. intros y Hy. apply Hf. intros Hy'. apply (Hap y Hy').
  apply list_elem_of_join. exists (znodes (L2, a2, d2)). split; [done|]. apply list_elem_of_fmap. by exists (L2, a2, d2).
Qed.

Lemma zones_elem h L act del zs : zones h zs -> (L, act, del) ∈ zs -> L <> 0 /\ dll_ok h L act del.
Proof. intros [Hok _] Hin. exact (proj1 (list.Forall_forall _ _) Hok _ Hin). Qed.

Lemma zones_head h L act del zs : zones h ((L, act, del) :: zs) -> L <> 0 /\ dll_ok h L act del.
Proof. intros Hz. apply (zones_elem _ _ _ _ _ Hz), list_elem_of_here. Qed.

(** ** Evolution *)

(** From the lists [zs] in [h] to the lists [zs'] in [h']: what left the lists
    was freed, and what was not in them is as it was. *)
Record evolves (h : heap) (zs : list zone) (h' : heap) (zs' : list zone) : Prop := {
  ev_zones : zones h' zs';
  ev_sub : all_nodes zs' ⊆ all_nodes zs;
  ev_frame : framed (all_nodes zs) h h';
  ev_freed z : z ∈ all_nodes zs -> z ∉ all_nodes zs' -> h' !! z = None
}.

#[export] Instance evolves_proper h : Proper ((≡ₚ) ==> (=) ==> (≡ₚ) ==> iff) (evolves h).
Proof.
  intros zs1 zs2 Hp h' ? <- zs1' zs2' Hp'.
  assert (E : forall z, z ∈ all_nodes zs1 <-> z ∈ all_nodes zs2) by (intros z; unfold all_nodes; by rewrite Hp).
  assert (E' : forall z, z ∈ all_nodes zs1' <-> z ∈ all_nodes zs2') by (intros z; unfold all_nodes; by rewrite Hp').
  split; intros [H1 H2 H3 H4]; (split; [first [by rewrite <- Hp'|by rewrite Hp']|..]).
  - intros z Hz. by apply E, H2, E'.
  - intros z Hz. apply H3. by rewrite E.
  - intros z Hz Hz'. apply H4; [by apply E|by rewrite E'].
  - intros z Hz. by apply E, H2, E'.
  - intros z Hz. apply H3. by rewrite <- E.
  - intros z Hz Hz'. apply H4; [by apply E|by rewrite <- E'].
Qed.

Lemma evolves_rot h zs h' z zs' : evolves h zs h' (z :: zs') -> evolves h zs h' (zs' ++ [z]).
Proof. by rewrite Permutation_cons_append. Qed.

Lemma evolves_refl h zs : zones h zs -> evolves h zs h zs.
Proof. intros Hz. by split. Qed.

Lemma evolves_trans h zs h1 zs1 h2 zs2 : evolves h zs h1 zs1 -> evolves h1 zs1 h2 zs2 -> evolves h zs h2 zs2.
Proof.
  intros [A1 A2 A3 A4] [B1 B2 B3 B4]. split; [done|by etrans| |].
  - etrans; [exact A3|]. by eapply framed_weaken.
  - intros z Hz Hz'. destruct (decide (z ∈ all_nodes zs1)); [by apply B4|]. rewrite (B3 z) by done. by apply A4.
Qed.

(** The first list changes. *)
Lemma evolves_head h h' L act del act' del' zs :
  zones h ((L, act, del) :: zs) -> dll_ok h' L act' del' -> framed (nodes_of L act del) h h' ->
  nodes_of L act' del' ⊆ nodes_of L act del ->
  (forall z, z ∈ nodes_of L act del -> z ∉ nodes_of L act' del' -> h' !! z = None) ->
  evolves h ((L, act, del) :: zs) h' ((L, act', del') :: zs).
Proof.
  intros Hz Hd Hf Hs Hn. split; [by eapply zones_step|..]; unfold all_nodes; cbn [fmap list_fmap mjoin list_join znodes].
  - intros z. rewrite !elem_of_app. intros [H|H]; [left; by apply Hs|by right].
  - eapply framed_weaken; [|exact Hf]. intros z H. apply elem_of_app. by left.
  - intros z. rewrite !elem_of_app. intros H1 H2. apply Hn; tauto.
Qed.

Lemma evolves_same h h' L act del act' del' zs :
  zones h ((L, act, del) :: zs) -> dll_ok h' L act' del' -> framed (nodes_of L act del) h h' ->
  (act' ++ del').*1 ≡ₚ (act ++ del).*1 -> evolves h ((L, act, del) :: zs) h' ((L, act', del') :: zs).
Proof.
  intros Hz Hd Hf Hp. assert (E : nodes_of L act' del' ≡ₚ nodes_of L act del) by (unfold nodes; rewrite <- !fmap_app; by rewrite Hp).
  apply evolves_head; try done; [by rewrite E|]. intros z H1 H2. destruct H2. by rewrite E.
Qed.

Lemma evolves_purge h L act del zs :
  zones h ((L, act, del) :: zs) ->
  exists h', doublylinkedlistFreeDeletedEntries h L = Ok h' /\ evolves h ((L, act, del) :: zs) h' ((L, act, filter in_use del) :: zs).
Proof.
  intros Hz. destruct (zones_head _ _ _ _ _ Hz) as [HL Hd]. destruct (purge_framed h L act del HL Hd) as (h' & E & Hd' & Fr & Hn).
  exists h'. split; [done|]. by apply evolves_head; [..|apply nodes_purge|].
Qed.

Lemma evolves_free h L act del zs :
  zones h ((L, act, del) :: zs) ->
  exists h', doublylinkedlistFree h L = Ok h' /\ evolves h ((L, act, del) :: zs) h' zs.
Proof.
  intros Hz. destruct (zones_head _ _ _ _ _ Hz) as [HL Hd]. destruct (free_framed h L act del HL Hd) as (h' & E & Hn & Fr).
  exists h'. split; [done|]. split; [by eapply zones_drop|..]; unfold all_nodes; cbn [fmap list_fmap mjoin list_join znodes].
  - intros z H. apply elem_of_app. by right.
  - eapply framed_weaken; [|exact Fr]. intros z H. apply elem_of_app. by left.
  - intros z. rewrite elem_of_app. intros [H1|H1] H2; [by apply Hn|done].
Qed.

(** How a manager of a list stops. *)
Lemma evolves_stop h L act del zs :
  zones h ((L, act, del) :: zs) ->
  exists h1 h2, doublylinkedlistFreeDeletedEntries h L = Ok h1 /\ doublylinkedlistFree h1 L = Ok h2 /\ evolves h ((L, act, del) :: zs) h2 zs.
Proof.
  intros Hz. destruct (evolves_purge h L act del zs Hz) as (h1 & E1 & V1).
  destruct (evolves_free h1 L act _ zs (ev_zones _ _ _ _ V1)) as (h2 & E2 & V2). exists h1, h2. split_and!; [done..|]. by eapply evolves_trans.
Qed.

Lemma evolves_release h L a1 p b a2 del zs :
  zones h ((L, a1 ++ (p, b) :: a2, del) :: zs) ->
  exists h', doublylinkedlistRelease h (movePtrToUserData p) = Ok h' /\
    evolves h ((L, a1 ++ (p, b) :: a2, del) :: zs) h' ((L, a1 ++ (p, add_references b (-1)) :: a2, del) :: zs).
Proof.
  intros Hz. destruct (zones_head _ _ _ _ _ Hz) as [_ Hd]. destruct (release_act_framed h L a1 p b a2 del Hd) as (h' & E & Hd' & Fr).
  exists h'. split; [done|]. apply evolves_same; [done..|]. by rewrite !fmap_app.
Qed.

(** An entry with a reference is deleted and released. *)
Lemma evolves_delete h L a1 p b a2 del zs :
  zones h ((L, a1 ++ (p, b) :: a2, del) :: zs) -> 0 < b_references b ->
  exists h1 h2 b', doublylinkedlistDel h L (movePtrToUserData p) = Ok h1 /\ doublylinkedlistRelease h1 (movePtrToUserData p) = Ok h2 /\
    evolves h ((L, a1 ++ (p, b) :: a2, del) :: zs) h2 ((L, a1 ++ a2, (p, b') :: del) :: zs).
Proof.
  intros Hz Hb. destruct (zones_head _ _ _ _ _ Hz) as [_ Hd]. destruct (del_framed h L a1 p b a2 del Hd Hb) as (h1 & E1 & Hd1 & Fr1).
  assert (V1 : evolves h ((L, a1 ++ (p, b) :: a2, del) :: zs) h1 ((L, a1 ++ a2, (p, mark_deleted b) :: del) :: zs)).
  { apply evolves_same; [done..|]. rewrite !fmap_app. cbn. by rewrite <- !app_assoc, <- app_comm_cons, <- !Permutation_middle. }
  destruct (release_del_framed h1 L _ p _ del Hd1) as (h2 & E2 & Hd2 & Fr2).
  exists h1, h2, (add_references (mark_deleted b) (-1)). split_and!; [done..|]. eapply evolves_trans; [exact V1|].
  apply evolves_same; [apply V1|done..|]. by rewrite !fmap_app.
Qed.

End DListFrame.
