(* ===== verification/Timer.v ===== *)
(** * Time stamps

    Models [libalgorithms/src/algorithms/timer/timer.c].  A [struct timespec]
    has two signed 64-bit fields; the value of the clock is an argument of the
    functions that read it.  Signed arithmetic that leaves the 64-bit range is
    an error. *)

From S2P Require Import Prelude.

Module Timer.

Record timespec : Type := MkTs { tv_sec : Z; tv_nsec : Z }.

#[export] Instance timespec_eq_dec : EqDecision timespec.
Proof. solve_decision. Defined.

Definition NSEC : Z := 1000000000.

(** A value of type [long]. *)
Definition s64 (z : Z) : res Z :=
  if decide (- 2 ^ 63 <= z < 2 ^ 63) then Ok z else Err Overflow.

Definition timerTimespecToNs (ts : timespec) : res Z :=
  p ← s64 (tv_sec ts * NSEC); s ← s64 (p + tv_nsec ts); Ok (u64 s).

Definition timerCmp (ts1 ts2 : timespec) : res Z :=
  n1 ← timerTimespecToNs ts1; n2 ← timerTimespecToNs ts2;
  Ok (if n1 =? n2 then 0 else if n1 <? n2 then -1 else 1).

(** [None] for a null pointer. *)
Definition timerIsNull (ts : option timespec) : bool :=
  match ts with
  | None => true
  | Some ts => (tv_sec ts =? 0) && (tv_nsec ts =? 0)
  end.

(** [now]: what [clock_gettime] stores. *)
Definition timerWatchStart (now : timespec) : timespec := now.

Definition timerWatchStop (startTime stopTime : timespec) : res Z :=
  d ← s64 (tv_nsec stopTime - tv_nsec startTime);
  if d <? 0 then
    s ← s64 (tv_sec stopTime - tv_sec startTime); s ← s64 (s - 1);
    n ← s64 (d + NSEC);
    timerTimespecToNs (MkTs s n)
  else
    s ← s64 (tv_sec stopTime - tv_sec startTime);
    timerTimespecToNs (MkTs s d).

(** [now1], [now2]: the two readings of the clock. *)
Definition timerWatchStep (ts now1 now2 : timespec) : res (Z * timespec) :=
  stepTime ← timerWatchStop ts now1; Ok (stepTime, timerWatchStart now2).

(** ** Normal time stamps *)

(** What [clock_gettime] returns until the year 2262. *)
Definition normal (ts : timespec) : Prop :=
  0 <= tv_sec ts < 2 ^ 33 /\ 0 <= tv_nsec ts < NSEC.
#[export] Instance normal_dec ts : Decision (normal ts).
Proof. unfold normal. apply _. Defined.

Definition ns (ts : timespec) : Z := tv_sec ts * NSEC + tv_nsec ts.

Lemma s64_ok z : - 2 ^ 63 <= z < 2 ^ 63 -> s64 z = Ok z.
Proof. intros. unfold s64. by rewrite decide_True. Qed.

Lemma to_ns_ok ts : normal ts -> timerTimespecToNs ts = Ok (ns ts).
Proof.
  intros [Hs Hn]. unfold timerTimespecToNs, ns, NSEC in *.
  rewrite s64_ok by lia. cbn [mbind res_bind]. rewrite s64_ok by lia. cbn [mbind res_bind].
  by rewrite wrap_small by (split; lia).
Qed.

(** Stopping a watch. *)
Lemma watch_stop_ok ts1 ts2 :
  normal ts1 -> normal ts2 -> ns ts1 <= ns ts2 -> timerWatchStop ts1 ts2 = Ok (ns ts2 - ns ts1).
Proof.
  intros H1 H2 Hle. destruct H1 as [Hs1 Hn1], H2 as [Hs2 Hn2]. unfold timerWatchStop, ns, NSEC in *.
  assert (P63 : 2 ^ 63 = 9223372036854775808) by done.
  assert (P33 : 2 ^ 33 = 8589934592) by done. rewrite P33 in *.
  rewrite (s64_ok (tv_nsec ts2 - tv_nsec ts1)) by (rewrite P63; lia). cbn [mbind res_bind].
  rewrite (s64_ok (tv_sec ts2 - tv_sec ts1)) by (rewrite P63; lia). cbn [mbind res_bind].
  destruct (Z.ltb_spec (tv_nsec ts2 - tv_nsec ts1) 0) as [Hd|Hd].
  - rewrite (s64_ok (tv_sec ts2 - tv_sec ts1 - 1)) by (rewrite P63; lia). cbn [mbind res_bind].
    rewrite (s64_ok (tv_nsec ts2 - tv_nsec ts1 + 1000000000)) by (rewrite P63; lia). cbn [mbind res_bind].
    rewrite to_ns_ok by (unfold normal, NSEC; cbn [tv_sec tv_nsec]; rewrite P33; lia).
    unfold ns, NSEC. cbn [tv_sec tv_nsec]. f_equal. lia.
  - rewrite to_ns_ok by (unfold normal, NSEC; cbn [tv_sec tv_nsec]; rewrite P33; lia).
    unfold ns, NSEC. cbn [tv_sec tv_nsec]. f_equal. lia.
Qed.

(** C31: for time stamps in the range of the clock the comparison is the order
    of the instants, and stopping a watch returns the nanoseconds between the
    two readings when the clock has not gone back. *)
Theorem timer_measures ts1 ts2 :
  normal ts1 -> normal ts2 ->
  timerCmp ts1 ts2 = Ok (Z.sgn (ns ts1 - ns ts2)) /\
  (ns ts1 <= ns ts2 -> timerWatchStop ts1 ts2 = Ok (ns ts2 - ns ts1)).
Proof.
  intros H1 H2. split.
  - unfold timerCmp. rewrite !to_ns_ok by done. cbn [mbind res_bind].
    destruct (Z.eqb_spec (ns ts1) (ns ts2)) as [->|Hne]; [by rewrite Z.sub_diag|].
    destruct (Z.ltb_spec (ns ts1) (ns ts2)); f_equal; lia.
  - intros Hle. by apply watch_stop_ok.
Qed.

Lemma timer_measures_witness :
  timerCmp (MkTs 3 5) (MkTs 5 2) = Ok (-1) /\ timerWatchStop (MkTs 3 5) (MkTs 5 2) = Ok 1999999997.
Proof.
  destruct (timer_measures (MkTs 3 5) (MkTs 5 2)) as [H1 H2]; [decide_closed|decide_closed|].
  split; [exact H1|]. apply H2. vm_compute. discriminate.
Defined.

End Timer.
