(* ===== verification/Bst.v ===== *)
(** * The binary search tree

    Models [libalgorithms/src/algorithms/tree/bst.c].  A pointer to a node is
    the tree below it.  Memory that [malloc] returns holds indeterminate
    bytes, [None] here; an indeterminate time stamp is [None], and testing it
    is an error.  The clock
    and the expire handler are arguments; the handler may change the data it
    is given and a state of its own, of type [W]. *)

From stdpp Require Import gmap.
From S2P Require Import Prelude Timer.

Module Bst.
Import Timer.

(** ** Data *)

Abbreviation bytes := (list (option Z)).

(** The fields of a [bst_node_t] other than the links, and the user data. *)
Record entry : Type := MkEntry {
  e_dataTimeout : option timespec;
  e_dataSize : nat;
  e_data : bytes
}.

Inductive bst_node : Type :=
| Null
| Node (key : Z) (pl pr : bst_node) (e : entry).

#[export] Instance entry_eq_dec : EqDecision entry.
Proof. solve_decision. Defined.
#[export] Instance bst_node_eq_dec : EqDecision bst_node.
Proof. solve_decision. Defined.

(** Key, data and its size; the result is the handler's result and the data. *)
Definition handler (W : Type) : Type := W -> Z -> bytes -> nat -> res (Z * bytes * W).

Record bst_t {W : Type} : Type := MkBst {
  root : bst_node;
  expireHandler : handler W
}.
Arguments bst_t : clear implicits.
Arguments MkBst {W} root expireHandler.

(** ** Internal API *)

(** [mem]: whether [malloc] succeeds. *)
Definition i_bst_alloc_node (mem : bool) (key : Z) (dataSize : nat) : bst_node :=
  if mem then Node key Null Null (MkEntry None dataSize (replicate dataSize None)) else Null.

Definition i_bst_clone_node (mem : bool) (pbst_node : bst_node) (dataSize : nat) : res bst_node :=
  match pbst_node with
  | Null => Err NullDeref
  | Node key pl pr _ =>
      match i_bst_alloc_node mem key dataSize with
      | Null => Err NullDeref
      | Node key' _ _ e => Ok (Node key' pl pr e)
      end
  end.

Fixpoint i_bst_min_value (pbst_node : bst_node) : bst_node :=
  match pbst_node with
  | Node _ Null _ _ => pbst_node
  | Node _ pl _ _ => i_bst_min_value pl
  | Null => Null
  end.

(** The key is passed as an [int] and compared as a [uint64_t]. *)
Fixpoint i_bst_delete_node (root : bst_node) (key : Z) : bst_node :=
  match root with
  | Null => Null
  | Node k pl pr e =>
      let key := u64 (s32 key) in
      if key <? k then Node k (i_bst_delete_node pl key) pr e
      else if k <? key then Node k pl (i_bst_delete_node pr key) e
      else
        match pl, pr with
        | Null, _ => pr
        | _, Null => pl
        | _, _ =>
            match i_bst_min_value pr with
            | Null => root
            | Node temp _ _ _ => Node temp pl (i_bst_delete_node pr temp) e
            end
        end
  end.

Definition i_bst_default_expire_handler {W} : handler W := fun w key ptr dataSize => Ok (0, ptr, w).

(** ** External API *)

Definition bst_create {W} (mem : bool) (expireHandler : option (handler W)) : option (bst_t W) :=
  if mem then Some (MkBst Null (default i_bst_default_expire_handler expireHandler)) else None.

(** Only the [bst_t] is freed; the result are the nodes, which stay allocated. *)
Definition bst_destroy {W} (pbst : bst_t W) : bst_node := root pbst.

(** [memcpy(memoryPtrMove(pbst_node, sizeof(bst_node_t)), pbuf, nBytes)] *)
Definition copy_in (e : entry) (pbuf : bytes) (nBytes : nat) : res entry :=
  d ← memcpy (e_data e) 0 pbuf 0 nBytes;
  Ok (MkEntry (e_dataTimeout e) (e_dataSize e) d).

(** Storing the time stamp; without one the first 16 bytes of the node are
    cleared, which are [_key] and [_left]. *)
Definition set_timeout (pbst_node : bst_node) (dataTimeout : option timespec) : res bst_node :=
  match pbst_node with
  | Null => Err NullDeref
  | Node key pl pr e =>
      Ok match dataTimeout with
         | None => Node 0 Null pr e
         | Some ts => Node key pl pr (MkEntry (Some ts) (e_dataSize e) (e_data e))
         end
  end.

(** The loop and the rest of [bst_insert]; [parent] tells whether the node has
    a parent.  The result replaces the subtree, which is on the side of the
    parent where [pbst_parentnode->_key > key] puts it. *)
Fixpoint insert_loop (mem parent : bool) (pbst_node : bst_node) (key : Z) (pbuf : bytes) (nBytes : nat)
    (dataTimeout : option timespec) : res bst_node :=
  match pbst_node with
  | Null =>
      match i_bst_alloc_node mem key nBytes with
      | Null => Err NullDeref
      | Node k l r e =>
          e ← copy_in e pbuf nBytes;
          if parent then set_timeout (Node k l r e) dataTimeout else Ok (Node k l r e)
      end
  | Node k pl pr e =>
      if k =? key then
        if (nBytes <=? e_dataSize e)%nat then e ← copy_in e pbuf nBytes; Ok (Node k pl pr e)
        else
          n ← i_bst_clone_node mem pbst_node nBytes;
          n ← set_timeout n dataTimeout;
          if parent then Ok n else Err NullDeref
      else if key <? k then l ← insert_loop mem true pl key pbuf nBytes dataTimeout; Ok (Node k l pr e)
      else r ← insert_loop mem true pr key pbuf nBytes dataTimeout; Ok (Node k pl r e)
  end.

Definition bst_insert {W} (mem : bool) (pbst : bst_t W) (key : Z) (pbuf : bytes) (nBytes : nat)
    (dataTimeout : option timespec) : res (Z * bst_t W) :=
  r ← insert_loop mem false (root pbst) key pbuf nBytes dataTimeout;
  Ok (s32 (Z.of_nat nBytes), MkBst r (expireHandler pbst)).

Definition bst_delete {W} (pbst : bst_t W) (key : Z) : bst_t W :=
  MkBst (i_bst_delete_node (root pbst) key) (expireHandler pbst).

(** The loop of [bst_search]. *)
Fixpoint bst_find_loop (pbst_node : bst_node) (key : Z) : option entry :=
  match pbst_node with
  | Null => None
  | Node k pl pr e =>
      if k =? key then Some e else if key <? k then bst_find_loop pl key else bst_find_loop pr key
  end.

(** Storing to the node the loop found. *)
Fixpoint update_node (pbst_node : bst_node) (key : Z) (e' : entry) : bst_node :=
  match pbst_node with
  | Null => Null
  | Node k pl pr e =>
      if k =? key then Node k pl pr e'
      else if key <? k then Node k (update_node pl key e') pr e
      else Node k pl (update_node pr key e') e
  end.

(** [memcpy(pbuf, ..., MIN(nMaxBytes, _dataSize))] and the result. *)
Definition copy_out (e : entry) (pbuf : bytes) (nMaxBytes : nat) : res (Z * bytes) :=
  let n := Nat.min nMaxBytes (e_dataSize e) in
  b ← memcpy pbuf 0 (e_data e) 0 n; Ok (Z.of_nat n, b).

(** [ts]: the time the real time clock shows; [w]: the state of the handler.
    Returns the result of the call, the caller's buffer, the tree and the
    state. *)
Definition bst_search {W} (pbst : bst_t W) (w : W) (ts : timespec) (key : Z) (pbuf : bytes) (nMaxBytes : nat)
    : res (Z * bytes * bst_t W * W) :=
  match bst_find_loop (root pbst) key with
  | None => Ok (u64 (-1), pbuf, pbst, w)
  | Some e =>
      match e_dataTimeout e with
      | None => Err Uninitialised
      | Some t =>
          if timerIsNull (Some t) then
            '(n, b) ← copy_out e pbuf nMaxBytes; Ok (n, b, pbst, w)
          else
            c ← timerCmp ts t;
            if 0 <? c then
              '(next, data, w) ← expireHandler pbst w key (e_data e) (e_dataSize e);
              if 0 <? next then
                sec ← s64 (tv_sec t + next);
                let e := MkEntry (Some (MkTs sec (tv_nsec t))) (e_dataSize e) data in
                '(n, b) ← copy_out e pbuf nMaxBytes;
                Ok (n, b, MkBst (update_node (root pbst) key e) (expireHandler pbst), w)
              else
                Ok (u64 (-2), pbuf,
                    bst_delete (MkBst (update_node (root pbst) key (MkEntry (e_dataTimeout e) (e_dataSize e) data))
                                  (expireHandler pbst)) key, w)
            else
              '(n, b) ← copy_out e pbuf nMaxBytes; Ok (n, b, pbst, w)
      end
  end.

(** The lines that are printed: the number of dashes and the key. *)
Fixpoint bst_print (pbst_node : bst_node) (level : Z) : list (nat * Z) :=
  match pbst_node with
  | Null => []
  | Node key pl pr _ => (Z.to_nat level, key) :: bst_print pl (level + 1) ++ bst_print pr (level + 1)
  end.

End Bst.
