(* ===== verification/BstSpec.v ===== *)
(** * Correctness of the binary search tree

    A tree in key order represents a finite map from keys to entries.  Search,
    insertion and deletion are described through that map, with the defects of
    insertion without a time stamp and of deletion below two children. *)

From stdpp Require Import gmap.
From S2P Require Import Prelude Timer Bst.

Module BstSpec.
Import Timer Bst.

(** ** Representation *)

Definition entry_ok (e : entry) : Prop := length (e_data e) = e_dataSize e.

(** The keys are in order between [lo] and [hi]. *)
Fixpoint tree_ok (lo hi : Z) (t : bst_node) : Prop :=
  match t with
  | Null => True
  | Node k l r e => lo <= k < hi /\ entry_ok e /\ tree_ok lo k l /\ tree_ok (k + 1) hi r
  end.

#[export] Instance tree_ok_dec lo hi t : Decision (tree_ok lo hi t).
Proof. revert lo hi. induction t; intros; cbn; unfold entry_ok; apply _. Defined.

Fixpoint to_map (t : bst_node) : gmap Z entry :=
  match t with
  | Null => ∅
  | Node k l r e => <[k := e]> (to_map l ∪ to_map r)
  end.

Lemma to_map_lookup t lo hi k :
  tree_ok lo hi t ->
  to_map t !! k = bst_find_loop t k /\ (is_Some (bst_find_loop t k) -> lo <= k < hi).
Proof.
  revert lo hi. induction t as [|k' l IHl r IHr e]; intros lo hi Hok; cbn; [by split; [|intros []]|].
  destruct Hok as (Hk & _ & Hl & Hr). destruct (IHl _ _ Hl) as [El Bl], (IHr _ _ Hr) as [Er Br].
  assert (Hlk : forall x, to_map l !! k = Some x -> lo <= k < k') by (intros x Hx; apply Bl; rewrite <- El; eauto).
  assert (Hrk : forall x, to_map r !! k = Some x -> k' + 1 <= k < hi) by (intros x Hx; apply Br; rewrite <- Er; eauto).
  destruct (Z.eqb_spec k' k) as [->|Hne]; [split; [apply lookup_insert_eq|done]|].
  rewrite lookup_insert_ne, lookup_union by done. destruct (Z.ltb_spec k k') as [Hlt|Hge].
  - destruct (to_map r !! k) as [x|] eqn:E; [specialize (Hrk x eq_refl); lia|].
    rewrite (right_id_L None _). split; [done|]. intros Hs. specialize (Bl Hs). lia.
  - destruct (to_map l !! k) as [x|] eqn:E; [specialize (Hlk x eq_refl); lia|].
    rewrite (left_id_L None _). split; [done|]. intros Hs. specialize (Br Hs). lia.
Qed.

(** Two trees that answer searches alike up to one key. *)
Lemma to_map_insert t t' lo hi key e :
  tree_ok lo hi t -> tree_ok lo hi t' ->
  (forall k, bst_find_loop t' k = if decide (k = key) then Some e else bst_find_loop t k) ->
  to_map t' = <[key := e]> (to_map t).
Proof.
  intros H H' Hf. apply map_eq. intros k. rewrite (proj1 (to_map_lookup t' lo hi k H')), Hf.
  destruct (decide (k = key)) as [->|]; [by rewrite lookup_insert_eq|].
  rewrite lookup_insert_ne by done. by rewrite (proj1 (to_map_lookup t lo hi k H)).
Qed.

Lemma find_outside t lo hi k : tree_ok lo hi t -> ~ (lo <= k < hi) -> bst_find_loop t k = None.
Proof.
  intros H Hk. destruct (bst_find_loop t k) eqn:E; [|done]. destruct Hk.
  apply (to_map_lookup t lo hi k H). by rewrite E.
Qed.

Lemma tree_ok_mono t lo hi lo' hi' : lo' <= lo -> hi <= hi' -> tree_ok lo hi t -> tree_ok lo' hi' t.
Proof.
  revert lo hi lo' hi'. induction t as [|k l IHl r IHr e]; intros lo hi lo' hi' H1 H2; cbn; [done|].
  intros (Hk & He & Hl & Hr). split; [lia|]. split; [done|].
  split; [by eapply IHl; [| |exact Hl]; lia|by eapply IHr; [| |exact Hr]; lia].
Qed.

(** ** Insertion *)

(** The entry under the key after an insertion with a time stamp; [parent]
    tells whether the tree was not empty. *)
Definition put_entry (parent : bool) (old : option entry) (buf : bytes) (n : nat) (ts : timespec) : entry :=
  match old with
  | None => MkEntry (if parent then Some ts else None) n (take n buf)
  | Some e =>
      if (n <=? e_dataSize e)%nat
      then MkEntry (e_dataTimeout e) (e_dataSize e) (take n buf ++ drop n (e_data e))
      else MkEntry (Some ts) n (replicate n None)
  end.

Lemma copy_in_ok e buf n :
  entry_ok e -> (n <= e_dataSize e)%nat -> (n <= length buf)%nat ->
  copy_in e buf n = Ok (MkEntry (e_dataTimeout e) (e_dataSize e) (take n buf ++ drop n (e_data e))).
Proof.
  intros He Hn Hb. unfold copy_in, memcpy. unfold entry_ok in He.
  rewrite decide_True by lia. cbn. by rewrite drop_0.
Qed.

Lemma put_entry_ok parent old buf n ts :
  (forall e, old = Some e -> entry_ok e) -> (n <= length buf)%nat -> entry_ok (put_entry parent old buf n ts).
Proof.
  intros Ho Hn. unfold put_entry, entry_ok. destruct old as [e|]; cbn; [|rewrite length_take; lia].
  specialize (Ho e eq_refl). unfold entry_ok in Ho. destruct (Nat.leb_spec n (e_dataSize e)); cbn.
  - rewrite length_app, length_take, length_drop. lia.
  - by rewrite length_replicate.
Qed.

(** The root is not replaced: it has another key or enough room. *)
Definition root_fits (t : bst_node) (key : Z) (n : nat) : bool :=
  match t with
  | Null => true
  | Node k _ _ e => negb (k =? key) || (n <=? e_dataSize e)%nat
  end.

Definition non_empty (t : bst_node) : bool := match t with Null => false | _ => true end.

(** Whether an insertion needs memory: for a new entry and for one that grows. *)
Definition allocates (old : option entry) (n : nat) : bool :=
  match old with None => true | Some e => (e_dataSize e <? n)%nat end.

Lemma insert_loop_ok mem parent t lo hi key buf n ts :
  tree_ok lo hi t -> lo <= key < hi -> (n <= length buf)%nat -> (parent = false -> root_fits t key n = true) ->
  mem || negb (allocates (bst_find_loop t key) n) = true ->
  exists t', insert_loop mem parent t key buf n (Some ts) = Ok t' /\ tree_ok lo hi t' /\
    forall k, bst_find_loop t' k =
      if decide (k = key) then Some (put_entry (parent || non_empty t) (bst_find_loop t key) buf n ts)
      else bst_find_loop t k.
Proof.
  revert parent lo hi. induction t as [|k l IHl r IHr e]; intros parent lo hi Hok Hk Hn Hroot Hmem.
  - cbn [bst_find_loop allocates negb] in Hmem. rewrite orb_false_r in Hmem. subst mem. cbn [insert_loop i_bst_alloc_node].
    rewrite copy_in_ok by (unfold entry_ok; cbn; rewrite ?length_replicate; lia). cbn [mbind res_bind].
    rewrite drop_ge, (right_id_L [] (++)) by (cbn; rewrite length_replicate; lia).
    destruct parent; (eexists; split; [reflexivity|]);
      (split; [cbn; unfold entry_ok; cbn; rewrite length_take; lia|]);
      intros k; cbn; destruct (Z.eqb_spec key k), (decide (k = key)); try congruence; by destruct (k <? key).
  - destruct Hok as (Hk' & He & Hl & Hr). cbn [insert_loop bst_find_loop root_fits non_empty] in *.
    rewrite orb_true_r. destruct (Z.eqb_spec k key) as [->|Hne].
    + unfold put_entry. destruct (Nat.leb_spec n (e_dataSize e)) as [Hle|Hgt].
      * rewrite copy_in_ok by (unfold entry_ok in *; lia). cbn [mbind res_bind]. eexists. split; [done|].
        split; [refine (conj Hk (conj _ (conj Hl Hr)));
          unfold entry_ok in *; cbn; rewrite length_app, length_take, length_drop; lia|].
        intros k'. cbn. destruct (Z.eqb_spec key k'), (decide (k' = key)); congruence.
      * destruct parent; [|specialize (Hroot eq_refl); discriminate].
        cbn [allocates] in Hmem. rewrite (proj2 (Nat.ltb_lt _ _) Hgt), orb_false_r in Hmem. subst mem.
        cbn. eexists. split; [done|].
        split; [refine (conj Hk (conj _ (conj Hl Hr))); unfold entry_ok; cbn; by rewrite length_replicate|].
        intros k'. cbn. destruct (Z.eqb_spec key k'), (decide (k' = key)); congruence.
    + destruct (Z.ltb_spec key k) as [Hlt|Hge].
      * destruct (IHl true lo k Hl ltac:(lia) Hn ltac:(done) Hmem) as (l' & -> & Hl' & Hf). cbn [mbind res_bind].
        eexists. split; [done|]. split; [done|]. intros k'. cbn [bst_find_loop].
        destruct (Z.eqb_spec k k'); [by rewrite decide_False by congruence|]. rewrite Hf.
        destruct (Z.ltb_spec k' k); [done|]. by rewrite decide_False by lia.
      * destruct (IHr true (k + 1) hi Hr ltac:(lia) Hn ltac:(done) Hmem) as (r' & -> & Hr' & Hf). cbn [mbind res_bind].
        eexists. split; [done|]. split; [done|]. intros k'. cbn [bst_find_loop].
        destruct (Z.eqb_spec k k'); [by rewrite decide_False by congruence|]. rewrite Hf.
        destruct (Z.ltb_spec k' k); [by rewrite decide_False by lia|done].
Qed.

(** Without memory for the node it needs, the insertion writes to [NULL]. *)
Lemma insert_loop_no_memory parent t key buf n o :
  allocates (bst_find_loop t key) n = true -> insert_loop false parent t key buf n o = Err NullDeref.
Proof.
  revert parent. induction t as [|k l IHl r IHr e]; intros parent Ha; [done|].
  cbn [insert_loop bst_find_loop] in *. destruct (k =? key).
  - cbn [allocates] in Ha. apply Nat.ltb_lt in Ha. by rewrite (proj2 (Nat.leb_gt _ _) Ha).
  - destruct (key <? k); [by rewrite IHl|by rewrite IHr].
Qed.

(** The root has no parent to be linked to when it is replaced. *)
Lemma insert_root_grows mem t key buf n ts :
  root_fits t key n = false -> insert_loop mem false t key buf n (Some ts) = Err NullDeref.
Proof.
  destruct t as [|k l r e]; [done|]. cbn [root_fits insert_loop]. intros [Hk%negb_false_iff Hn]%orb_false_iff.
  rewrite Hk, Hn. by destruct mem.
Qed.

Lemma bst_insert_mem {W} mem t (h : handler W) key buf n ts :
  tree_ok 0 (2 ^ 64) t -> is_u 64 key -> (n <= length buf)%nat ->
  if root_fits t key n && (mem || negb (allocates (to_map t !! key) n)) then
    exists t', bst_insert mem (MkBst t h) key buf n (Some ts) = Ok (s32 (Z.of_nat n), MkBst t' h) /\
      tree_ok 0 (2 ^ 64) t' /\
      to_map t' = <[key := put_entry (non_empty t) (to_map t !! key) buf n ts]> (to_map t)
  else bst_insert mem (MkBst t h) key buf n (Some ts) = Err NullDeref.
Proof.
  intros Hok Hk Hn. rewrite (proj1 (to_map_lookup t _ _ key Hok)). unfold bst_insert. cbn [root expireHandler].
  destruct (root_fits t key n) eqn:Hr; cbn [andb]; [|by rewrite insert_root_grows].
  destruct (mem || _) eqn:Hm.
  - destruct (insert_loop_ok mem false t _ _ key buf n ts Hok Hk Hn ltac:(done) Hm) as (t' & -> & Hok' & Hf).
    exists t'. split; [done|]. split; [done|]. by eapply to_map_insert.
  - apply orb_false_iff in Hm as [-> Ha%negb_false_iff]. by rewrite insert_loop_no_memory.
Qed.

Lemma bst_insert_ok {W} t (h : handler W) key buf n ts :
  tree_ok 0 (2 ^ 64) t -> is_u 64 key -> (n <= length buf)%nat -> root_fits t key n = true ->
  exists t', bst_insert true (MkBst t h) key buf n (Some ts) = Ok (s32 (Z.of_nat n), MkBst t' h) /\
    tree_ok 0 (2 ^ 64) t' /\
    to_map t' = <[key := put_entry (non_empty t) (to_map t !! key) buf n ts]> (to_map t).
Proof. intros Hok Hk Hn Hr. pose proof (bst_insert_mem true t h key buf n ts Hok Hk Hn) as H. by rewrite Hr in H. Qed.

(** C32: inserting with a time stamp into a tree in key order, on every branch.
    The call writes through [NULL] when it would have to replace the root node,
    which has no parent, and when [malloc] fails for the node of a new entry or
    of one that grows.  Otherwise it succeeds, with or without memory, keeps the
    order, and changes exactly the entry of the key: a new entry gets the data
    and (except at the root) the time stamp, an entry with enough room gets the
    data and keeps its time stamp, and an entry without room is replaced by one
    whose data was never copied. *)
Theorem bst_insert_refines {W} mem t (h : handler W) key buf n ts :
  tree_ok 0 (2 ^ 64) t -> is_u 64 key -> (n <= length buf)%nat ->
  if root_fits t key n && (mem || negb (allocates (to_map t !! key) n)) then
    exists t', bst_insert mem (MkBst t h) key buf n (Some ts) = Ok (s32 (Z.of_nat n), MkBst t' h) /\
      tree_ok 0 (2 ^ 64) t' /\
      to_map t' = <[key := put_entry (non_empty t) (to_map t !! key) buf n ts]> (to_map t)
  else bst_insert mem (MkBst t h) key buf n (Some ts) = Err NullDeref.
Proof. apply bst_insert_mem. Qed.

(** Root 8 without a time stamp; the node of 5 has the two children 3 and 6. *)
Definition sample : bst_node :=
  let ts := Some (MkTs 10 0) in
  Node 8 (Node 5 (Node 3 Null Null (MkEntry ts 1 [Some 30])) (Node 6 Null Null (MkEntry ts 1 [Some 60]))
            (MkEntry ts 2 [Some 50; Some 51]))
         (Node 9 Null Null (MkEntry ts 1 [Some 90])) (MkEntry None 1 [Some 80]).

Lemma bst_insert_refines_witness :
  (exists t', bst_insert true (MkBst sample (@i_bst_default_expire_handler unit)) 5 [Some 1; Some 2; None] 1 (Some (MkTs 20 0)) =
      Ok (1, MkBst t' (@i_bst_default_expire_handler unit)) /\
    to_map t' = <[5 := MkEntry (Some (MkTs 10 0)) 2 [Some 1; Some 51]]> (to_map sample)) /\
  bst_insert true (MkBst sample (@i_bst_default_expire_handler unit)) 8 [Some 1; Some 2] 2 (Some (MkTs 20 0)) = Err NullDeref.
Proof.
  split.
  - destruct (bst_insert_refines true sample (@i_bst_default_expire_handler unit) 5 [Some 1; Some 2; None] 1 (MkTs 20 0)) as (t' & E & _ & H);
      [decide_closed|decide_closed|cbn; lia|].
    exists t'. split; [exact E|exact H].
  - exact (bst_insert_refines true sample (@i_bst_default_expire_handler unit) 8 [Some 1; Some 2] 2 (MkTs 20 0)
      ltac:(decide_closed) ltac:(decide_closed) ltac:(cbn; lia)).
Defined.

(** ** Deletion *)

(** The key that moves into the node of [key] when that has two children. *)
Fixpoint heir (t : bst_node) (key : Z) : option Z :=
  match t with
  | Null => None
  | Node k l r _ =>
      if key <? k then heir l key
      else if k <? key then heir r key
      else match l, i_bst_min_value r with
           | Node _ _ _ _, Node m _ _ _ => Some m
           | _, _ => None
           end
  end.

Lemma min_value_spec t lo hi :
  tree_ok lo hi t -> t <> Null ->
  exists m r e, i_bst_min_value t = Node m Null r e /\ lo <= m < hi /\ heir t m = None /\
    is_Some (bst_find_loop t m) /\ forall k, is_Some (bst_find_loop t k) -> m <= k.
Proof.
  revert hi. induction t as [|k l IHl r _ e]; intros hi Hok Hne; [done|].
  destruct Hok as (Hk & He & Hl & Hr). destruct l as [|kl ll lr el].
  - exists k, r, e. cbn -[Z.ltb Z.eqb]. rewrite Z.ltb_irrefl, Z.eqb_refl.
    split; [done|]. split; [lia|]. split; [done|]. split; [eauto|].
    intros k' Hs. destruct (Z.eqb_spec k k'); [lia|]. destruct (Z.ltb_spec k' k); [by destruct Hs|].
    lia.
  - destruct (IHl k Hl ltac:(done)) as (m & r' & e' & E & Hm & Hh & Hs & Hmin).
    exists m, r', e'. split; [exact E|]. split; [lia|].
    assert ((m <? k) = true) as Hlt by (apply Z.ltb_lt; lia).
    assert ((k =? m) = false) as Hneq by (apply Z.eqb_neq; lia).
    remember (Node kl ll lr el) as l. cbn [heir bst_find_loop]. rewrite Hlt, Hneq. split; [done|]. split; [done|].
    intros k'. destruct (Z.eqb_spec k k'); [lia|]. destruct (Z.ltb_spec k' k); [apply Hmin|].
    intros. lia.
Qed.

Lemma small_key key : 0 <= key < 2 ^ 31 -> u64 (s32 key) = key.
Proof. intros H. rewrite s32_small by lia. apply wrap_small. unfold is_u. lia. Qed.

(** What the tree answers after a deletion. *)
Definition after_delete (t : bst_node) (key k : Z) : option entry :=
  if decide (k = key) then None
  else if decide (heir t key = Some k) then bst_find_loop t key else bst_find_loop t k.

Lemma heir_after t lo hi key k :
  tree_ok lo hi t -> ~ (lo <= k < hi) -> heir t key <> Some k.
Proof.
  revert lo hi. induction t as [|k' l IHl r IHr e]; intros lo hi Hok Hk; cbn [heir]; [done|].
  destruct Hok as (Hk' & _ & Hl & Hr).
  destruct (key <? k'); [apply (IHl lo k' Hl); lia|].
  destruct (k' <? key); [apply (IHr (k' + 1) hi Hr); lia|].
  destruct l; [done|]. destruct r as [|kr rl rr er]; [done|].
  destruct (min_value_spec _ _ _ Hr ltac:(done)) as (m & ? & ? & -> & Hm & _). intros [= ->]. lia.
Qed.

Lemma delete_node_two t lo hi k l r e :
  tree_ok lo hi t -> t = Node k l r e -> 0 <= lo -> hi <= 2 ^ 31 -> l <> Null -> r <> Null ->
  (forall key, 0 <= key < 2 ^ 31 ->
     tree_ok (k + 1) hi (i_bst_delete_node r key) /\
     forall k', bst_find_loop (i_bst_delete_node r key) k' = after_delete r key k') ->
  tree_ok lo hi (i_bst_delete_node t k) /\
  forall k', bst_find_loop (i_bst_delete_node t k) k' = after_delete t k k'.
Proof.
  intros Hok -> Hlo Hhi Hl0 Hr0 IHr. destruct Hok as (Hk & He & Hl & Hr).
  destruct (min_value_spec r _ _ Hr Hr0) as (m & rm & em & Em & Hm & Hh & Hs & Hmin).
  destruct (IHr m ltac:(lia)) as [Hrok Hrf].
  assert (Hmin' : forall k', k' <> m -> is_Some (bst_find_loop r k') -> m < k')
    by (intros k' Hne Hs'; specialize (Hmin k' Hs'); lia).
  assert (E : i_bst_delete_node (Node k l r e) k = Node m l (i_bst_delete_node r m) e).
  { cbn [i_bst_delete_node]. rewrite small_key by lia. rewrite !Z.ltb_irrefl.
    destruct l; [done|]. destruct r; [done|]. by rewrite Em. }
  assert (Eh : heir (Node k l r e) k = Some m).
  { cbn [heir]. rewrite !Z.ltb_irrefl. destruct l; [done|]. by rewrite Em. }
  rewrite E. split.
  - refine (conj _ (conj He (conj _ _))); [lia|by eapply tree_ok_mono; [| |exact Hl]; lia|].
    clear E Eh Hl Hl0. revert Hrok Hrf. generalize (i_bst_delete_node r m). intros r' Hrok Hrf.
    assert (Hlow : forall k', is_Some (bst_find_loop r' k') -> m < k').
    { intros k'. rewrite Hrf. unfold after_delete. destruct (decide (k' = m)); [by intros []|].
      rewrite Hh, decide_False by done. by apply Hmin'. }
    clear Hrf. revert Hlow Hrok. generalize (k + 1). clear -Hm. revert hi Hm.
    induction r' as [|k' l' IHl' r' IHr' e']; intros hi Hm lo Hlow Hok; [done|].
    destruct Hok as (Hk & He & Hl & Hr). cbn [bst_find_loop] in Hlow.
    assert (m < k') by (apply Hlow; rewrite Z.eqb_refl; eauto).
    refine (conj _ (conj He (conj _ Hr))); [lia|].
    apply (IHl' k' ltac:(lia) lo); [|done]. intros x Hx. apply Hlow.
    pose proof (proj2 (to_map_lookup _ _ _ x Hl) Hx) as Hb.
    destruct (Z.eqb_spec k' x); [lia|]. destruct (Z.ltb_spec x k'); [done|lia].
  - intros k'. unfold after_delete. rewrite Eh. cbn [bst_find_loop]. rewrite Z.eqb_refl.
    destruct (Z.eqb_spec m k') as [<-|Hne].
    { rewrite decide_False by lia. by rewrite decide_True. }
    destruct (decide (k' = k)) as [->|Hk'].
    { destruct (Z.ltb_spec k m); [|lia]. by apply (find_outside l lo k k Hl); lia. }
    rewrite decide_False by congruence. rewrite (proj2 (Z.eqb_neq k k')) by lia.
    rewrite Hrf. unfold after_delete. rewrite decide_False, Hh, decide_False by (done || congruence).
    destruct (Z.ltb_spec k' m), (Z.ltb_spec k' k); try done; [|lia].
    rewrite (find_outside l lo k k' Hl) by lia.
    destruct (bst_find_loop r k') eqn:Er; [|done]. specialize (Hmin' k' ltac:(done) ltac:(by rewrite Er)). lia.
Qed.

Lemma delete_node_ok t lo hi key :
  tree_ok lo hi t -> 0 <= lo -> hi <= 2 ^ 31 -> 0 <= key < 2 ^ 31 ->
  tree_ok lo hi (i_bst_delete_node t key) /\
  forall k, bst_find_loop (i_bst_delete_node t key) k = after_delete t key k.
Proof.
  revert lo hi key. induction t as [|k l IHl r IHr e]; intros lo hi key Hok Hlo Hhi Hkey.
  { split; [done|]. intros k. unfold after_delete. cbn. by destruct (decide (k = key)). }
  destruct Hok as (Hk & He & Hl & Hr).
  assert (Hord : forall k', ~ lo <= k' < k -> bst_find_loop l k' = None) by (intros; by eapply find_outside).
  assert (Hord' : forall k', ~ k + 1 <= k' < hi -> bst_find_loop r k' = None) by (intros; by eapply find_outside).
  destruct (Z.lt_trichotomy key k) as [Hlt|[->|Hgt]].
  - destruct (IHl lo k key Hl Hlo ltac:(lia) Hkey) as [Hlok Hlf]. cbn [i_bst_delete_node].
    rewrite small_key by done. rewrite (proj2 (Z.ltb_lt key k)) by done. split; [done|].
    intros k'. unfold after_delete. cbn [bst_find_loop heir].
    rewrite (proj2 (Z.ltb_lt key k)), (proj2 (Z.eqb_neq k key)) by lia.
    destruct (Z.eqb_spec k k') as [<-|Hne].
    { rewrite decide_False by lia. rewrite decide_False; [done|]. apply (heir_after l lo k); [done|lia]. }
    rewrite Hlf. unfold after_delete. destruct (Z.ltb_spec k' k); [done|].
    rewrite decide_False by lia. rewrite decide_False; [done|]. apply (heir_after l lo k); [done|lia].
  - destruct (decide (l = Null \/ r = Null)) as [Hnull|Hnn].
    + assert (Hh : heir (Node k l r e) k = None).
      { cbn [heir]. rewrite !Z.ltb_irrefl. destruct Hnull as [->| ->]; [done|]. by destruct l. }
      assert (E : i_bst_delete_node (Node k l r e) k = if decide (l = Null) then r else l).
      { cbn [i_bst_delete_node]. rewrite small_key by done. rewrite !Z.ltb_irrefl.
        destruct Hnull as [->| ->]; [done|]. by destruct l. }
      unfold after_delete. rewrite E, Hh. clear E Hh. split.
      * destruct (decide (l = Null)); [by eapply tree_ok_mono; [| |exact Hr]; lia|].
        by eapply tree_ok_mono; [| |exact Hl]; lia.
      * intros k'. cbn [bst_find_loop]. destruct (decide (@None Z = Some k')) as [|_]; [done|].
        destruct (decide (k' = k)) as [->|Hne].
        { destruct (decide (l = Null)); [apply Hord'|apply Hord]; lia. }
        destruct (Z.eqb_spec k k'); [lia|]. destruct (decide (l = Null)) as [->|].
        -- cbn. destruct (Z.ltb_spec k' k); [apply Hord'; lia|done].
        -- destruct Hnull as [->| ->]; [done|]. cbn. destruct (Z.ltb_spec k' k); [done|apply Hord; lia].
    + eapply delete_node_two; try done; [tauto..|]. intros key' ?. by apply IHr; [| lia..].
  - destruct (IHr (k + 1) hi key Hr ltac:(lia) ltac:(lia) Hkey) as [Hrok Hrf]. cbn [i_bst_delete_node].
    rewrite small_key by done. rewrite (proj2 (Z.ltb_ge key k)), (proj2 (Z.ltb_lt k key)) by lia. split; [done|].
    intros k'. unfold after_delete. cbn [bst_find_loop heir].
    rewrite (proj2 (Z.ltb_ge key k)), (proj2 (Z.ltb_lt k key)), (proj2 (Z.eqb_neq k key)) by lia.
    destruct (Z.eqb_spec k k') as [<-|Hne].
    { rewrite decide_False by lia. rewrite decide_False; [done|]. apply (heir_after r (k + 1) hi); [done|lia]. }
    rewrite Hrf. unfold after_delete. destruct (Z.ltb_spec k' k); [|done].
    rewrite decide_False by lia. rewrite decide_False; [done|]. apply (heir_after r (k + 1) hi); [done|lia].
Qed.

Lemma heir_found t lo hi key m :
  tree_ok lo hi t -> heir t key = Some m -> is_Some (bst_find_loop t key) /\ key < m.
Proof.
  revert lo hi. induction t as [|k l IHl r IHr e]; intros lo hi Hok; cbn [heir bst_find_loop]; [done|].
  destruct Hok as (Hk & _ & Hl & Hr). destruct (Z.eqb_spec k key) as [->|Hne].
  - rewrite !Z.ltb_irrefl. destruct l; [done|]. destruct r as [|kr rl rr er]; [done|].
    destruct (min_value_spec _ _ _ Hr ltac:(done)) as (m' & ? & ? & -> & Hm & _). intros [= ->].
    split; [eauto|lia].
  - destruct (Z.ltb_spec key k); [by eapply IHl|]. rewrite (proj2 (Z.ltb_lt k key)) by lia. by eapply IHr.
Qed.

(** The map after a deletion. *)
Definition map_deleted (t : bst_node) (key : Z) : gmap Z entry :=
  match heir t key, to_map t !! key with
  | Some m, Some e => <[m := e]> (delete key (to_map t))
  | _, _ => delete key (to_map t)
  end.

Lemma delete_map t hi key :
  tree_ok 0 hi t -> hi <= 2 ^ 31 -> 0 <= key < 2 ^ 31 ->
  tree_ok 0 hi (i_bst_delete_node t key) /\ to_map (i_bst_delete_node t key) = map_deleted t key.
Proof.
  intros Hok Hhi Hk. destruct (delete_node_ok t _ _ key Hok ltac:(lia) ltac:(lia) Hk) as [Hok' Hf].
  split; [done|]. apply map_eq. intros k. rewrite (proj1 (to_map_lookup _ _ _ k Hok')), Hf.
  unfold map_deleted, after_delete. destruct (heir t key) as [m|] eqn:Eh.
  - destruct (heir_found _ _ _ _ _ Hok Eh) as [[e He] Hm].
    rewrite (proj1 (to_map_lookup t _ _ key Hok)), He.
    destruct (decide (k = key)) as [->|Hne]; [by rewrite lookup_insert_ne, lookup_delete_eq by lia|].
    destruct (decide (Some m = Some k)) as [[= ->]|Hne'].
    + by rewrite lookup_insert_eq.
    + rewrite lookup_insert_ne, lookup_delete_ne by congruence. symmetry. apply (to_map_lookup t _ _ k Hok).
  - destruct (decide (k = key)) as [->|Hne]; [by rewrite lookup_delete_eq|].
    destruct (decide (None = Some k)); [done|].
    rewrite lookup_delete_ne by done. symmetry. apply (to_map_lookup t _ _ k Hok).
Qed.

(** Cutting a key to 32 bits twice is cutting it once. *)
Lemma cut_key_idem key : u64 (s32 (u64 (s32 key))) = u64 (s32 key).
Proof.
  unfold wrap, swrap. set (a := (key + 2 ^ (32 - 1)) mod 2 ^ 32). f_equal.
  assert (Ha : 0 <= a < 2 ^ 32) by (apply Z.mod_pos_bound; lia).
  change (2 ^ (32 - 1)) with 2147483648 in *. change (2 ^ 64) with (4294967296 * 4294967296). change (2 ^ 32) with 4294967296 in *.
  replace (((a - 2147483648) mod (4294967296 * 4294967296) + 2147483648) mod 4294967296) with a; [done|].
  destruct (Z.lt_ge_cases a 2147483648).
  - rewrite <- (Z.mod_unique (a - 2147483648) (4294967296 * 4294967296) (-1) (a - 2147483648 + 4294967296 * 4294967296)) by lia.
    apply (Z.mod_unique _ _ 4294967296); lia.
  - rewrite (Z.mod_small (a - 2147483648)) by lia. rewrite Z.mod_small; lia.
Qed.

(** Deleting a key whose cut form is not in the tree changes nothing. *)
Lemma delete_absent t key : bst_find_loop t (u64 (s32 key)) = None -> i_bst_delete_node t key = t.
Proof.
  revert key. induction t as [|k l IHl r IHr e]; intros key Hf; [done|]. cbn [i_bst_delete_node bst_find_loop] in *.
  destruct (Z.eqb_spec k (u64 (s32 key))) as [|Hne]; [done|]. destruct (Z.ltb_spec (u64 (s32 key)) k).
  - rewrite IHl; [done|]. by rewrite cut_key_idem.
  - rewrite (proj2 (Z.ltb_lt k _)) by lia. rewrite IHr; [done|]. by rewrite cut_key_idem.
Qed.

(** The map after an expired entry, with what the handler made of it, was
    deleted. *)
Definition entry_gone (t : bst_node) (key : Z) (e : entry) : gmap Z entry :=
  match heir t key with
  | Some m => <[m := e]> (delete key (to_map t))
  | None => delete key (to_map t)
  end.

(** C14: when all keys are below 2^31, deleting keeps the order and removes
    exactly the entry of the key, except that below a node with two children
    the key that moves up is left with the data and the time stamp of the
    deleted entry in place of its own. *)
Theorem bst_delete_refines {W} t (h : handler W) key :
  tree_ok 0 (2 ^ 31) t -> 0 <= key < 2 ^ 31 ->
  tree_ok 0 (2 ^ 31) (root (bst_delete (MkBst t h) key)) /\
  to_map (root (bst_delete (MkBst t h) key)) = map_deleted t key.
Proof. intros Hok. by apply delete_map. Qed.

Lemma bst_delete_refines_witness :
  to_map (root (bst_delete (MkBst sample (@i_bst_default_expire_handler unit)) 5)) =
    <[6 := MkEntry (Some (MkTs 10 0)) 2 [Some 50; Some 51]]> (delete 5 (to_map sample)).
Proof.
  destruct (bst_delete_refines sample (@i_bst_default_expire_handler unit) 5) as [_ H]; [decide_closed|lia|].
  exact H.
Defined.

(** ** Search *)

Definition expired (now t : timespec) : bool := negb (timerIsNull (Some t)) && (ns t <? ns now).

Lemma copy_out_ok e pbuf n :
  entry_ok e -> (n <= length pbuf)%nat ->
  let k := Nat.min n (e_dataSize e) in
  copy_out e pbuf n = Ok (Z.of_nat k, take k (e_data e) ++ drop k pbuf).
Proof.
  intros He Hn k. unfold copy_out, memcpy, entry_ok in *. fold k.
  rewrite decide_True by lia. by rewrite drop_0, take_0.
Qed.

Lemma find_entry_ok t lo hi key e : tree_ok lo hi t -> bst_find_loop t key = Some e -> entry_ok e.
Proof.
  revert lo hi. induction t as [|k l IHl r IHr e']; intros lo hi Hok; cbn; [done|].
  destruct Hok as (_ & He & Hl & Hr). destruct (k =? key); [by intros [= ->]|].
  destruct (key <? k); eauto.
Qed.

Lemma update_node_ok t lo hi key e :
  tree_ok lo hi t -> is_Some (bst_find_loop t key) -> entry_ok e ->
  tree_ok lo hi (update_node t key e) /\ heir (update_node t key e) key = heir t key /\
  forall k, bst_find_loop (update_node t key e) k = if decide (k = key) then Some e else bst_find_loop t k.
Proof.
  intros Hok Hs He. revert lo hi Hok Hs. induction t as [|k l IHl r IHr e']; intros lo hi Hok Hs; cbn in *; [by destruct Hs|].
  destruct Hok as (Hk & He' & Hl & Hr). destruct (Z.eqb_spec k key) as [->|Hne].
  - refine (conj (conj Hk (conj He (conj Hl Hr))) (conj eq_refl _)). intros k'. cbn.
    destruct (Z.eqb_spec key k'), (decide (k' = key)); congruence.
  - destruct (Z.ltb_spec key k) as [Hlt|Hge].
    + destruct (IHl _ _ Hl Hs) as (Hok' & Hh & Hf).
      split; [done|]. cbn. rewrite (proj2 (Z.ltb_lt key k)) by lia. split; [done|].
      intros k'. rewrite Hf. destruct (Z.eqb_spec k k'); [by rewrite decide_False by congruence|].
      destruct (Z.ltb_spec k' k); [done|]. by rewrite decide_False by lia.
    + destruct (IHr _ _ Hr Hs) as (Hok' & Hh & Hf).
      split; [done|]. cbn. rewrite (proj2 (Z.ltb_ge key k)) by lia. rewrite (proj2 (Z.ltb_lt k key)) by lia. split; [done|].
      intros k'. rewrite Hf. destruct (Z.eqb_spec k k'); [by rewrite decide_False by congruence|].
      destruct (Z.ltb_spec k' k); [by rewrite decide_False by lia|done].
Qed.

Section search.
Context {W : Type} (t : bst_node) (h : handler W) (w : W) (now : timespec) (key : Z) (pbuf : bytes) (n : nat) (hi : Z).
Hypothesis Hok : tree_ok 0 hi t.
Hypothesis Hbuf : (n <= length pbuf)%nat.
Hypothesis Hnow : normal now.

Lemma search_live e d :
  to_map t !! key = Some e -> e_dataTimeout e = Some d -> normal d -> expired now d = false ->
  let k := Nat.min n (e_dataSize e) in
  bst_search (MkBst t h) w now key pbuf n = Ok (Z.of_nat k, take k (e_data e) ++ drop k pbuf, MkBst t h, w).
Proof.
  intros He Hd Hn Hexp k. rewrite (proj1 (to_map_lookup t _ _ key Hok)) in He.
  assert (Hc : copy_out e pbuf n = Ok (Z.of_nat k, take k (e_data e) ++ drop k pbuf))
    by (apply copy_out_ok; [by eapply find_entry_ok|done]).
  unfold bst_search. cbn [root expireHandler]. rewrite He, Hd. unfold expired in Hexp.
  destruct (timerIsNull (Some d)); [by rewrite Hc|]. cbn [negb andb] in Hexp.
  unfold timerCmp. rewrite !to_ns_ok by done. cbn [mbind res_bind]. apply Z.ltb_ge in Hexp.
  rewrite Hc. destruct (Z.eqb_spec (ns now) (ns d)); [done|]. by rewrite (proj2 (Z.ltb_lt (ns now) (ns d))) by lia.
Qed.

(** The call of the handler for an expired entry. *)
Lemma search_handler e d next data w' :
  to_map t !! key = Some e -> e_dataTimeout e = Some d -> normal d -> expired now d = true ->
  h w key (e_data e) (e_dataSize e) = Ok (next, data, w') ->
  bst_search (MkBst t h) w now key pbuf n =
    if 0 <? next then
      sec ← s64 (tv_sec d + next);
      let e := MkEntry (Some (MkTs sec (tv_nsec d))) (e_dataSize e) data in
      '(n, b) ← copy_out e pbuf n; Ok (n, b, MkBst (update_node t key e) h, w')
    else Ok (2 ^ 64 - 2, pbuf, bst_delete (MkBst (update_node t key (MkEntry (Some d) (e_dataSize e) data)) h) key, w').
Proof.
  intros He Hd Hn Hexp Eh. rewrite (proj1 (to_map_lookup t _ _ key Hok)) in He.
  unfold bst_search. cbn [root expireHandler]. rewrite He, Hd. unfold expired in Hexp.
  apply andb_true_iff in Hexp as [Hnull Hlt%Z.ltb_lt]. apply negb_true_iff in Hnull. rewrite Hnull.
  unfold timerCmp. rewrite !to_ns_ok by done. cbn [mbind res_bind].
  rewrite (proj2 (Z.eqb_neq (ns now) (ns d))), (proj2 (Z.ltb_ge (ns now) (ns d))) by lia. cbn [Z.ltb Z.compare].
  by rewrite Eh.
Qed.

(** An expired entry that the handler prolongs. *)
Lemma search_prolonged e d next data w' :
  to_map t !! key = Some e -> e_dataTimeout e = Some d -> normal d -> expired now d = true ->
  h w key (e_data e) (e_dataSize e) = Ok (next, data, w') -> length data = length (e_data e) -> 0 < next < 2 ^ 31 ->
  let k := Nat.min n (e_dataSize e) in
  exists t', bst_search (MkBst t h) w now key pbuf n = Ok (Z.of_nat k, take k data ++ drop k pbuf, MkBst t' h, w') /\
     tree_ok 0 hi t' /\
     to_map t' = <[key := MkEntry (Some (MkTs (tv_sec d + next) (tv_nsec d))) (e_dataSize e) data]> (to_map t).
Proof.
  intros He Hd Hn Hexp Eh Hlen Hnext k. rewrite (search_handler e d next data w') by done.
  rewrite (proj1 (to_map_lookup t _ _ key Hok)) in He.
  pose proof (find_entry_ok _ _ _ _ _ Hok He) as Heok. unfold entry_ok in Heok.
  rewrite (proj2 (Z.ltb_lt 0 next)) by lia. destruct Hn as [Hs Hns].
  change (2 ^ 33) with 8589934592 in Hs. change (2 ^ 31) with 2147483648 in Hnext.
  rewrite s64_ok by (change (2 ^ 63) with 9223372036854775808; lia).
  cbn [mbind res_bind]. set (e' := MkEntry (Some _) _ data).
  assert (He' : entry_ok e') by (unfold entry_ok; cbn; lia).
  rewrite (copy_out_ok e') by done. cbn [mbind res_bind]. eexists. split; [done|].
  destruct (update_node_ok t _ _ key e' Hok ltac:(eauto) He') as (Hok' & _ & Hf).
  split; [done|]. by eapply to_map_insert.
Qed.

(** An expired entry that the handler gives up: [t1] holds what the handler
    made of the data, and the entry is deleted from it under the key cut to 32
    bits and sign extended. *)
Lemma search_deleted e d next data w' :
  to_map t !! key = Some e -> e_dataTimeout e = Some d -> normal d -> expired now d = true ->
  h w key (e_data e) (e_dataSize e) = Ok (next, data, w') -> length data = length (e_data e) -> next <= 0 ->
  let e1 := MkEntry (Some d) (e_dataSize e) data in
  exists t', bst_search (MkBst t h) w now key pbuf n = Ok (2 ^ 64 - 2, pbuf, MkBst t' h, w') /\
    (hi <= 2 ^ 31 -> 0 <= key < 2 ^ 31 -> tree_ok 0 hi t' /\ to_map t' = entry_gone t key e1) /\
    (to_map t !! u64 (s32 key) = None -> tree_ok 0 hi t' /\ to_map t' = <[key := e1]> (to_map t)).
Proof.
  intros He Hd Hn Hexp Eh Hlen Hnext e1. rewrite (search_handler e d next data w') by done. fold e1.
  rewrite (proj1 (to_map_lookup t _ _ key Hok)) in He.
  pose proof (find_entry_ok _ _ _ _ _ Hok He) as Heok. unfold entry_ok in Heok.
  rewrite (proj2 (Z.ltb_ge 0 next)) by done. eexists. split; [done|]. cbn [root].
  destruct (update_node_ok t _ _ key e1 Hok ltac:(eauto) ltac:(unfold entry_ok; cbn; lia)) as (Hok' & Hh & Hf).
  pose proof (to_map_insert _ _ _ _ _ _ Hok Hok' Hf) as Hm. split.
  - intros Hhi Hkey. destruct (delete_map _ hi key Hok' Hhi Hkey) as [Hd1 Hd2]. split; [done|].
    rewrite Hd2. unfold map_deleted, entry_gone. rewrite Hh, Hm, lookup_insert_eq, delete_insert_eq. done.
  - intros Ha. rewrite (proj1 (to_map_lookup t _ _ _ Hok)) in Ha.
    rewrite delete_absent; [done|]. rewrite Hf, decide_False; [done|]. intros Heq. rewrite Heq in Ha. congruence.
Qed.
End search.

(** C33: searching a tree of 64-bit keys.  It returns -1 without the key, and is
    undefined for an entry whose time stamp was never set.  Otherwise an entry
    that has not expired is copied to the caller and nothing changes.  For an
    expired entry the handler decides.  When it returns seconds, the time stamp
    is moved by them and the data, as the handler left it, is copied to the
    caller.  When it returns none, the result is -2 and the entry is deleted
    under its key cut to an [int]: with keys below 2^31 that removes the entry,
    and a key that moves up into its node is left with the data of the deleted
    entry; if there is no entry under the cut key, as for addresses from 2^31
    on, the expired entry stays.  The buffer is never overrun. *)
Theorem bst_search_refines {W} (t : bst_node) (h : handler W) (w : W) now key (pbuf : bytes) n :
  tree_ok 0 (2 ^ 64) t -> (n <= length pbuf)%nat -> normal now ->
  match to_map t !! key with
  | None => bst_search (MkBst t h) w now key pbuf n = Ok (2 ^ 64 - 1, pbuf, MkBst t h, w)
  | Some e =>
      let k := Nat.min n (e_dataSize e) in
      match e_dataTimeout e with
      | None => bst_search (MkBst t h) w now key pbuf n = Err Uninitialised
      | Some d =>
          normal d ->
          if expired now d then
            forall next data w', h w key (e_data e) (e_dataSize e) = Ok (next, data, w') ->
            length data = length (e_data e) ->
            (next <= 0 ->
               let e1 := MkEntry (Some d) (e_dataSize e) data in
               exists t', bst_search (MkBst t h) w now key pbuf n = Ok (2 ^ 64 - 2, pbuf, MkBst t' h, w') /\
                 (tree_ok 0 (2 ^ 31) t -> key < 2 ^ 31 -> tree_ok 0 (2 ^ 31) t' /\ to_map t' = entry_gone t key e1) /\
                 (to_map t !! u64 (s32 key) = None -> tree_ok 0 (2 ^ 64) t' /\ to_map t' = <[key := e1]> (to_map t))) /\
            (0 < next < 2 ^ 31 -> exists t',
               bst_search (MkBst t h) w now key pbuf n = Ok (Z.of_nat k, take k data ++ drop k pbuf, MkBst t' h, w') /\
               tree_ok 0 (2 ^ 64) t' /\
               to_map t' = <[key := MkEntry (Some (MkTs (tv_sec d + next) (tv_nsec d))) (e_dataSize e) data]> (to_map t))
          else bst_search (MkBst t h) w now key pbuf n =
                 Ok (Z.of_nat k, take k (e_data e) ++ drop k pbuf, MkBst t h, w)
      end
  end.
Proof.
  intros Hok Hbuf Hnow. destruct (to_map t !! key) as [e|] eqn:He.
  - cbn zeta. destruct (e_dataTimeout e) as [d|] eqn:Hd.
    + intros Hn. destruct (expired now d) eqn:Hexp; [|by eapply search_live].
      intros next data w' Eh Hl. split; intros Hnext; [|by eapply search_prolonged].
      destruct (search_deleted t h w now key pbuf n _ Hok Hbuf Hnow e d next data w') as (t' & E & _ & H2); [done..|].
      exists t'. split; [done|]. split; [|done]. intros Hok31 Hk31.
      destruct (search_deleted t h w now key pbuf n _ Hok31 Hbuf Hnow e d next data w') as (t2 & E2 & H1 & _); [done..|].
      rewrite E in E2. injection E2 as <-. apply H1; [done|].
      rewrite (proj1 (to_map_lookup t _ _ key Hok)) in He.
      pose proof (proj2 (to_map_lookup t _ _ key Hok) ltac:(eauto)). lia.
    + rewrite (proj1 (to_map_lookup t _ _ key Hok)) in He. unfold bst_search. cbn [root]. by rewrite He, Hd.
  - rewrite (proj1 (to_map_lookup t _ _ key Hok)) in He. unfold bst_search. cbn [root]. by rewrite He.
Qed.

(** A handler that counts its calls and prolongs every entry by 7 seconds. *)
Definition sample_handler : handler nat := fun w _ d _ => Ok (7, d, S w).

Lemma bst_search_refines_witness :
  exists t', bst_search (MkBst sample sample_handler) 0%nat (MkTs 11 5) 5 [None; None; None] 3 =
      Ok (2, [Some 50; Some 51; None], MkBst t' sample_handler, 1%nat) /\
    to_map t' = <[5 := MkEntry (Some (MkTs 17 0)) 2 [Some 50; Some 51]]> (to_map sample).
Proof.
  pose proof (bst_search_refines sample sample_handler 0%nat (MkTs 11 5) 5 [None; None; None] 3) as H.
  specialize (H ltac:(decide_closed) ltac:(cbn; lia) ltac:(decide_closed)).
  change (to_map sample !! 5) with (Some (MkEntry (Some (MkTs 10 0)) 2 [Some 50; Some 51])) in H.
  cbv iota beta zeta in H. cbn [e_dataTimeout] in H. specialize (H ltac:(decide_closed)).
  change (expired (MkTs 11 5) (MkTs 10 0)) with true in H. cbv iota beta in H.
  destruct (H 7 [Some 50; Some 51] 1%nat ltac:(reflexivity) ltac:(reflexivity)) as [_ H'].
  destruct (H' ltac:(lia)) as (t' & E & _ & Hm). exists t'. split; [exact E|exact Hm].
Defined.

(** ** Defects *)

Definition history (ts : list (Z * list Z * option timespec)) : res bst_node :=
  foldl (fun r '(k, d, o) => t ← r; '(_, b) ← bst_insert true (MkBst t (@i_bst_default_expire_handler unit)) k (Some <$> d) (length d) o; Ok (root b))
    (Ok Null) ts.

(** An entry inserted without a time stamp below the root cannot be found:
    its key and its left link are overwritten with zeros, and the entry answers
    to key 0 instead. *)
Theorem bst_null_timeout_loses_key :
  exists t, history [(5, [1; 2], None); (9, [3; 4], None)] = Ok t /\
    bst_find_loop t 9 = None /\ to_map t !! 0 = Some (MkEntry None 2 [Some 3; Some 4]).
Proof. eexists. split; [vm_compute; reflexivity|]. split; vm_compute; reflexivity. Qed.

(** Deleting a node with two children: its successor answers with the data of
    the deleted entry. *)
Theorem bst_delete_keeps_data :
  let ts := Some (MkTs 100 0) in
  exists t, history [(1, [0], ts); (5, [5], ts); (3, [3], ts); (7, [7], ts)] = Ok t /\
    e_data <$> bst_find_loop t 7 = Some [Some 7] /\
    e_data <$> bst_find_loop (i_bst_delete_node t 5) 7 = Some [Some 5].
Proof. eexists. split; [vm_compute; reflexivity|]. split; vm_compute; reflexivity. Qed.

(** The key of a deletion is cut to 32 bits: another entry is deleted. *)
Theorem bst_delete_truncates :
  let ts := Some (MkTs 100 0) in
  exists t, history [(1, [0], ts); (2 ^ 32 + 1, [5], ts)] = Ok t /\
    is_Some (bst_find_loop (i_bst_delete_node t (2 ^ 32 + 1)) (2 ^ 32 + 1)) /\
    bst_find_loop (i_bst_delete_node t (2 ^ 32 + 1)) 1 = None.
Proof. eexists. split; [vm_compute; reflexivity|]. split; vm_compute; eauto. Qed.

End BstSpec.
