(* ===== verification/HyperLogLog.v ===== *)
(** * Cardinality sketches

    Models [libalgorithms/src/algorithms/stream/cardinality/hyperloglog.c].
    The registers, the ranks, merging, and the loop of [hyperloglogCardinality]
    with its sum in units of 2^-30, in which it is exact.  The loop and the
    estimate in floating point are in [HllFloat]. *)

From S2P Require Import Prelude.

Module Hll.

(** ** Data *)

(** [_func]: the hash function, a [hash64]. *)
Record HYPERLOGLOG : Type := MkHll {
  hll_k : Z;      (* unsigned int *)
  hll_bits : Z;   (* unsigned char *)
  hll_func : list Z -> nat -> Z -> res Z;
  hll_R : list Z  (* unsigned char *)
}.

(** ** Ranks *)

(** The loop from [i] to [nbits], [n] being their difference. *)
Fixpoint rightmost_loop (n : nat) (val bitfrom i : Z) : option Z :=
  match n with
  | O => None
  | S n' =>
      if Z.land val 1 =? 1 then Some (u8 (i - bitfrom + 1))
      else rightmost_loop n' (Z.shiftr val 1) bitfrom (i + 1)
  end.

Definition i_hyperloglogGetRightmost0seqBits (val bitfrom nbits : Z) : Z :=
  match rightmost_loop (Z.to_nat (nbits - bitfrom)) val bitfrom bitfrom with
  | Some r => r
  | None => u8 (nbits - bitfrom + 1)
  end.

(** ** Operations *)

(** [mem]: whether [malloc] succeeds.  The conversion of [log2(0)] to
    [unsigned char] is undefined. *)
Definition hyperloglogCreate (mem : bool) (func : list Z -> nat -> Z -> res Z) (k : Z) : res (option HYPERLOGLOG) :=
  if mem then
    if k =? 0 then Err Overflow
    else Ok (Some (MkHll k (Z.log2 k) func (replicate (Z.to_nat k) 0)))
  else Ok None.

(** [sizeof(hashvalue64)] *)
Definition sizeof_hashvalue64 : Z := 8.

Definition hyperloglogInsert (phll : HYPERLOGLOG) (pdata : list Z) (size : nat) : res (bool * HYPERLOGLOG) :=
  hashValue ← hll_func phll pdata size 0;
  if hll_k phll =? 0 then Err DivByZero
  else
    let x := hashValue mod hll_k phll in
    let b := i_hyperloglogGetRightmost0seqBits (Z.shiftr hashValue (hll_bits phll)) 0 sizeof_hashvalue64 in
    r ← rd (hll_R phll) (Z.to_nat x);
    if r <? b then
      R ← wr (hll_R phll) (Z.to_nat x) b;
      Ok (true, MkHll (hll_k phll) (hll_bits phll) (hll_func phll) R)
    else Ok (true, phll).

(** The loop of [hyperloglogMerge] over the indices from [i] on, [n] of them. *)
Fixpoint merge_loop (n i : nat) (R R2 : list Z) : res (list Z) :=
  match n with
  | O => Ok R
  | S n' =>
      a ← rd R i; b ← rd R2 i;
      R ← (if a <? b then wr R i b else Ok R);
      merge_loop n' (S i) R R2
  end.

Definition hyperloglogMerge (phll phll2 : HYPERLOGLOG) : res (bool * HYPERLOGLOG) :=
  if negb (hll_k phll =? hll_k phll2) then Ok (false, phll)
  else
    R ← merge_loop (Z.to_nat (hll_k phll)) 0 (hll_R phll) (hll_R phll2);
    Ok (true, MkHll (hll_k phll) (hll_bits phll) (hll_func phll) R).

(** The loop of [hyperloglogCardinality]: [i] and [zeroRegisters] are
    [unsigned short], [sum] is [Z] in units of 2^-30. *)
Fixpoint cardinality_loop (fuel : nat) (phll : HYPERLOGLOG) (i sum zeroRegisters : Z) : res (Z * Z) :=
  if i <? hll_k phll then
    match fuel with
    | O => Err Diverges
    | S fuel' =>
        r ← rd (hll_R phll) (Z.to_nat i);
        if 31 <=? r then Err Overflow
        else cardinality_loop fuel' phll (u16 (i + 1)) (sum + 2 ^ (30 - r))
               (if r =? 0 then u16 (zeroRegisters + 1) else zeroRegisters)
    end
  else Ok (sum, zeroRegisters).

End Hll.
