(* ===== verification/HyperLogLogSpec.v ===== *)
(** * Correctness of the cardinality sketches

    The registers of a sketch are a function of the set of hash values that
    were inserted, merging is union, and the counting loop ends exactly when
    there are fewer than 2^16 registers. *)

From S2P Require Import Prelude Hash HyperLogLog.

Module HllSpec.
Import Hash Hll.

(** ** Ranks *)

Lemma rightmost_loop_spec n val bitfrom i :
  0 <= val -> 0 <= bitfrom <= i -> i + Z.of_nat n <= 255 ->
  match rightmost_loop n val bitfrom i with
  | Some r => exists j, 0 <= j < Z.of_nat n /\ r = i + j - bitfrom + 1 /\ Z.testbit val j = true /\
                forall j', 0 <= j' < j -> Z.testbit val j' = false
  | None => forall j, 0 <= j < Z.of_nat n -> Z.testbit val j = false
  end.
Proof.
  revert val i. induction n as [|n IH]; intros val i Hv Hi Hn; cbn [rightmost_loop]; [intros; lia|].
  change 1 with (Z.ones 1) at 1. rewrite Z.land_ones by lia. change (2 ^ 1) with 2.
  assert (E0 : Z.testbit val 0 = (val mod 2 =? 1)) by (rewrite Z.bit0_odd, Zmod_odd; by destruct (Z.odd val)).
  destruct (Z.eqb_spec (val mod 2) 1) as [He|He].
  { exists 0. split; [lia|]. split; [rewrite wrap_small by (unfold is_u; change (2 ^ 8) with 256; lia); lia|].
    split; [done|intros; lia]. }
  assert (0 <= Z.shiftr val 1) by (by apply Z.shiftr_nonneg).
  assert (Hshift : forall j, 0 <= j -> Z.testbit (Z.shiftr val 1) j = Z.testbit val (j + 1))
    by (intros; by rewrite Z.shiftr_spec).
  specialize (IH (Z.shiftr val 1) (i + 1) ltac:(lia) ltac:(lia) ltac:(lia)).
  assert (Hbelow : forall m, (forall j, 0 <= j < m -> Z.testbit (Z.shiftr val 1) j = false) ->
                     forall j, 0 <= j < m + 1 -> Z.testbit val j = false).
  { intros m Hm j Hj. destruct (decide (j = 0)) as [->|]; [done|].
    replace j with (j - 1 + 1) by lia. rewrite <- Hshift by lia. apply Hm. lia. }
  destruct (rightmost_loop n (Z.shiftr val 1) bitfrom (i + 1)) as [r|].
  - destruct IH as (j & Hj & -> & Ht & Hb). exists (j + 1). split; [lia|]. split; [lia|].
    split; [by rewrite <- Hshift by lia|]. by apply Hbelow.
  - intros j Hj. apply (Hbelow (Z.of_nat n)); [done|lia].
Qed.

(** The rank of a 64-bit value is one more than the number of trailing zeros
    among its low eight bits. *)
Lemma rank_spec val :
  0 <= val ->
  let r := i_hyperloglogGetRightmost0seqBits val 0 sizeof_hashvalue64 in
  1 <= r <= 9 /\ (forall j, 0 <= j < r - 1 -> Z.testbit val j = false) /\ (r <= 8 -> Z.testbit val (r - 1) = true).
Proof.
  intros Hv r. subst r. unfold i_hyperloglogGetRightmost0seqBits, sizeof_hashvalue64.
  pose proof (rightmost_loop_spec (Z.to_nat (8 - 0)) val 0 0 Hv ltac:(lia) ltac:(lia)) as H.
  change (Z.of_nat (Z.to_nat (8 - 0))) with 8 in H.
  destruct (rightmost_loop (Z.to_nat (8 - 0)) val 0 0) as [r|].
  - destruct H as (j & Hj & -> & Ht & Hb). split; [lia|].
    split; [intros; apply Hb; lia|]. intros _. by replace (0 + j - 0 + 1 - 1) with j by lia.
  - change (u8 (8 - 0 + 1)) with 9. split; [lia|]. split; [intros; apply H; lia|lia].
Qed.

(** ** Registers *)

Section registers.
Context (k bits : Z) (func : list Z -> nat -> Z -> res Z).
Hypothesis Hk : 0 < k.

Definition rank (v : Z) : Z := i_hyperloglogGetRightmost0seqBits (Z.shiftr v bits) 0 sizeof_hashvalue64.

(** The register [x] after the hash values [vs]. *)
Fixpoint register (vs : list Z) (x : nat) : Z :=
  match vs with
  | [] => 0
  | v :: vs' => if decide (Z.to_nat (v mod k) = x) then Z.max (rank v) (register vs' x) else register vs' x
  end.

Definition registers (vs : list Z) : list Z := register vs <$> seq 0 (Z.to_nat k).

Definition sketch_of (vs : list Z) : HYPERLOGLOG := MkHll k bits func (registers vs).

Lemma rank_range v : 0 <= v -> 1 <= rank v <= 9.
Proof. intros Hv. apply (rank_spec (Z.shiftr v bits)). by apply Z.shiftr_nonneg. Qed.

Lemma register_range vs x : Forall (Z.le 0) vs -> 0 <= register vs x <= 9.
Proof.
  induction 1 as [|v vs Hv _ IH]; cbn; [lia|]. pose proof (rank_range v Hv). destruct (decide _); lia.
Qed.

Lemma registers_lookup vs x : registers vs !! x = if decide (x < Z.to_nat k)%nat then Some (register vs x) else None.
Proof.
  unfold registers. rewrite list_lookup_fmap. destruct (decide (x < Z.to_nat k)%nat).
  - by rewrite lookup_seq_lt by lia.
  - by rewrite lookup_seq_ge by lia.
Qed.

Lemma length_registers vs : length (registers vs) = Z.to_nat k.
Proof. unfold registers. by rewrite length_fmap, length_seq. Qed.

(** A register is the least upper bound of the ranks that fall on it. *)
Lemma register_lub vs x m :
  0 <= m -> (register vs x <= m <-> forall v, v ∈ vs -> Z.to_nat (v mod k) = x -> rank v <= m).
Proof.
  intros Hm. induction vs as [|v vs IH]; cbn.
  - split; [|lia]. intros _ v Hv. by apply elem_of_nil in Hv.
  - setoid_rewrite elem_of_cons. destruct (decide (Z.to_nat (v mod k) = x)) as [Hx|Hx].
    + rewrite Z.max_lub_iff, IH. split; [intros [H1 H2] v' [->|Hv'] ?; auto|].
      intros H. split; [apply H; [by left|done]|]. intros v' Hv'. apply H. by right.
    + rewrite IH. split; [intros H v' [->|Hv'] ?; [done|auto]|]. intros H v' Hv'. apply H. by right.
Qed.

Lemma registers_set vs vs' :
  Forall (Z.le 0) vs -> Forall (Z.le 0) vs' -> (forall v, v ∈ vs <-> v ∈ vs') -> registers vs = registers vs'.
Proof.
  intros H H' He. apply list_eq. intros x. rewrite !registers_lookup. destruct (decide _); [|done]. f_equal.
  pose proof (register_range vs x H). pose proof (register_range vs' x H').
  apply Z.le_antisymm; apply register_lub; try lia; intros v Hv; apply He in Hv; revert v Hv;
    apply register_lub; lia.
Qed.

Lemma insert_sketch vs d v :
  func d (length d) 0 = Ok v -> is_u 64 v ->
  hyperloglogInsert (sketch_of vs) d (length d) = Ok (true, sketch_of (v :: vs)).
Proof.
  intros Hf [Hv0 _]. unfold hyperloglogInsert, sketch_of. cbn [hll_func hll_k hll_R hll_bits].
  rewrite Hf. cbn [mbind res_bind]. rewrite (proj2 (Z.eqb_neq k 0)) by lia.
  pose proof (Z.mod_pos_bound v k Hk) as Hm. assert (Hlt : (Z.to_nat (v mod k) < Z.to_nat k)%nat) by lia.
  rewrite (rd_lookup _ _ (register vs (Z.to_nat (v mod k)))) by (by rewrite registers_lookup, decide_True).
  cbn [mbind res_bind]. fold (rank v). rewrite wr_lt by (by rewrite length_registers). cbn [mbind res_bind].
  assert (Hout : forall x, x <> Z.to_nat (v mod k) -> register (v :: vs) x = register vs x)
    by (intros x Hx; cbn; by rewrite decide_False by congruence).
  assert (Hin : register (v :: vs) (Z.to_nat (v mod k)) = Z.max (rank v) (register vs (Z.to_nat (v mod k))))
    by (cbn; by rewrite decide_True).
  destruct (Z.ltb_spec (register vs (Z.to_nat (v mod k))) (rank v)); do 3 f_equal; apply list_eq; intros x.
  - destruct (decide (x = Z.to_nat (v mod k))) as [->|Hx].
    + rewrite list_lookup_insert_eq by (by rewrite length_registers).
      rewrite registers_lookup, decide_True, Hin by done. f_equal. lia.
    + rewrite list_lookup_insert_ne, !registers_lookup by done. by rewrite Hout.
  - rewrite !registers_lookup. destruct (decide _); [|done]. f_equal.
    destruct (decide (x = Z.to_nat (v mod k))) as [->|Hx]; [rewrite Hin; lia|by rewrite Hout].
Qed.

Lemma register_app vs vs' x : 
  Forall (Z.le 0) vs' -> register (vs ++ vs') x = Z.max (register vs x) (register vs' x).
Proof.
  intros H'. pose proof (register_range vs' x H'). induction vs as [|v vs IH]; cbn; [lia|].
  rewrite IH. destruct (decide _); lia.
Qed.

(** The merge loop takes the larger of two registers from [i] on. *)
Lemma merge_loop_spec n i R R2 :
  length R = length R2 -> (i + n = length R)%nat ->
  merge_loop n i R R2 = Ok (take i R ++ zip_with Z.max (drop i R) (drop i R2)).
Proof.
  revert i R. induction n as [|n IH]; intros i R Hl Hi; cbn [merge_loop].
  - by rewrite take_ge, drop_ge, app_nil_r by lia.
  - destruct (lookup_lt_is_Some_2 R i ltac:(lia)) as [a Ha].
    destruct (lookup_lt_is_Some_2 R2 i ltac:(lia)) as [b Hb].
    rewrite (rd_lookup _ _ _ Ha), (rd_lookup _ _ _ Hb). cbn [mbind res_bind].
    assert (E : (if a <? b then wr R i b else Ok R) = Ok (<[i := Z.max a b]> R)).
    { rewrite wr_lt by lia. destruct (Z.ltb_spec a b); [by rewrite Z.max_r by lia|].
      rewrite Z.max_l by lia. by rewrite list_insert_id. }
    rewrite E. cbn [mbind res_bind]. rewrite IH by (rewrite length_insert; lia). f_equal.
    rewrite (drop_S R a i), (drop_S R2 b i) by done. cbn [zip_with].
    rewrite (take_S_r _ i (Z.max a b)) by (apply list_lookup_insert_eq; lia).
    rewrite take_insert_ge by lia. rewrite drop_insert_lt by lia. by rewrite <- app_assoc.
Qed.

Lemma merge_sketch vs vs' :
  Forall (Z.le 0) vs' -> hyperloglogMerge (sketch_of vs) (sketch_of vs') = Ok (true, sketch_of (vs ++ vs')).
Proof.
  intros H'. unfold hyperloglogMerge, sketch_of. cbn [hll_k hll_R hll_bits hll_func]. rewrite Z.eqb_refl. cbn [negb].
  rewrite merge_loop_spec by (rewrite ?length_registers; lia). cbn [mbind res_bind]. do 3 f_equal.
  rewrite take_0, !drop_0. cbn [app]. apply list_eq. intros x.
  rewrite lookup_zip_with, !registers_lookup. destruct (decide _); [|done].
  cbn. by rewrite register_app.
Qed.

(** ** The counting loop *)

Lemma sum_step (l : list Z) (f : Z -> Z) i r :
  l !! i = Some r -> foldr (fun r a => f r + a) 0 (drop i l) = f r + foldr (fun r a => f r + a) 0 (drop (S i) l).
Proof. intros H. by rewrite (drop_S l r i H). Qed.

Definition sum_registers (R : list Z) : Z := foldr (fun r a => 2 ^ (30 - r) + a) 0 R.
Definition zero_registers (R : list Z) : Z := foldr (fun r a => (if r =? 0 then 1 else 0) + a) 0 R.

Lemma zero_registers_range R : 0 <= zero_registers R <= Z.of_nat (length R).
Proof. unfold zero_registers. induction R as [|r R IH]; cbn; [lia|]. destruct (r =? 0); lia. Qed.

Lemma cardinality_loop_ends vs fuel i sum z :
  Forall (Z.le 0) vs -> k < 2 ^ 16 -> (i + fuel = Z.to_nat k)%nat -> 0 <= z <= Z.of_nat i ->
  cardinality_loop fuel (sketch_of vs) (Z.of_nat i) sum z =
    Ok (sum + sum_registers (drop i (registers vs)), z + zero_registers (drop i (registers vs))).
Proof.
  intros Hvs Hk16. revert i sum z. change (2 ^ 16) with 65536 in Hk16.
  induction fuel as [|fuel IH]; intros i sum z Hi Hz; cbn [cardinality_loop hll_k sketch_of].
  - rewrite (proj2 (Z.ltb_ge _ _)) by lia. rewrite drop_ge by (rewrite length_registers; lia). cbn. do 2 f_equal; lia.
  - rewrite (proj2 (Z.ltb_lt _ _)) by lia. cbn [hll_R sketch_of].
    assert (Hr : registers vs !! i = Some (register vs i)) by (by rewrite registers_lookup, decide_True by lia).
    rewrite Nat2Z.id, (rd_lookup _ _ _ Hr). cbn [mbind res_bind].
    pose proof (register_range vs i Hvs). rewrite (proj2 (Z.leb_gt _ _)) by lia.
    rewrite wrap_small by (unfold is_u; change (2 ^ 16) with 65536; lia).
    replace (Z.of_nat i + 1) with (Z.of_nat (S i)) by lia.
    unfold sum_registers, zero_registers. rewrite (sum_step _ _ _ _ Hr), (sum_step _ (fun r => if r =? 0 then 1 else 0) _ _ Hr).
    fold (sketch_of vs). destruct (register vs i =? 0).
    + rewrite wrap_small by (unfold is_u; change (2 ^ 16) with 65536; lia).
      rewrite IH by lia. unfold sum_registers, zero_registers. do 2 f_equal; lia.
    + rewrite IH by lia. unfold sum_registers, zero_registers. do 2 f_equal; lia.
Qed.

Lemma cardinality_loop_diverges vs fuel i sum z :
  Forall (Z.le 0) vs -> 2 ^ 16 <= k -> is_u 16 i ->
  cardinality_loop fuel (sketch_of vs) i sum z = Err Diverges.
Proof.
  intros Hvs Hk16. revert i sum z. change (2 ^ 16) with 65536 in Hk16.
  induction fuel as [|fuel IH]; intros i sum z Hi; cbn [cardinality_loop hll_k sketch_of];
    pose proof Hi as [Hi0 Hi1]; change (2 ^ 16) with 65536 in Hi1.
  - by rewrite (proj2 (Z.ltb_lt _ _)) by lia.
  - rewrite (proj2 (Z.ltb_lt _ _)) by lia. cbn [hll_R sketch_of].
    rewrite (rd_lookup _ _ (register vs (Z.to_nat i))) by (by rewrite registers_lookup, decide_True by lia).
    cbn [mbind res_bind]. pose proof (register_range vs (Z.to_nat i) Hvs). rewrite (proj2 (Z.leb_gt _ _)) by lia.
    apply IH, wrap_range. lia.
Qed.
End registers.

(** ** Sketches of a list of data items *)

(** Creating a sketch and inserting the items one after the other. *)
Definition insert_all (L : list (list Z)) (phll : HYPERLOGLOG) : res HYPERLOGLOG :=
  foldl (fun r d => h ← r; '(_, h) ← hyperloglogInsert h d (length d); Ok h) (Ok phll) L.

Definition sketch (func : list Z -> nat -> Z -> res Z) (k : Z) (L : list (list Z)) : res HYPERLOGLOG :=
  o ← hyperloglogCreate true func k; h ← deref o; insert_all L h.

(** The hash function succeeds on the items. *)
Definition hashes (func : list Z -> nat -> Z -> res Z) (L : list (list Z)) : Prop :=
  forall d, d ∈ L -> exists v, func d (length d) 0 = Ok v /\ is_u 64 v.

Definition hash_value (func : list Z -> nat -> Z -> res Z) (d : list Z) : Z :=
  match func d (length d) 0 with Ok v => v | Err _ => 0 end.

Lemma hash_values_nonneg func L : hashes func L -> Forall (Z.le 0) (hash_value func <$> L).
Proof.
  intros H. apply list.Forall_forall. intros v (d & -> & Hd)%list_elem_of_fmap.
  destruct (H d Hd) as (v & E & [Hv _]). unfold hash_value. by rewrite E.
Qed.

Lemma sketch_ok func k L :
  0 < k -> hashes func L -> sketch func k L = Ok (sketch_of k (Z.log2 k) func (reverse (hash_value func <$> L))).
Proof.
  intros Hk H. unfold sketch, hyperloglogCreate. rewrite (proj2 (Z.eqb_neq k 0)) by lia. cbn [mbind res_bind deref].
  assert (E : MkHll k (Z.log2 k) func (replicate (Z.to_nat k) 0) = sketch_of k (Z.log2 k) func []).
  { unfold sketch_of. f_equal. apply list_eq. intros x. rewrite registers_lookup.
    destruct (decide _); [by apply lookup_replicate_2|apply lookup_ge_None_2; rewrite length_replicate; lia]. }
  rewrite E. clear E. unfold insert_all. rewrite <- (right_id_L [] (++) (reverse _)).
  generalize (@nil Z) as vs. revert H. induction L as [|d L IH]; intros H vs; [done|].
  cbn [foldl mbind res_bind]. destruct (H d (list_elem_of_here _ _)) as (v & E & Hv).
  rewrite (insert_sketch k (Z.log2 k) func Hk vs d v E Hv). cbn [mbind res_bind].
  rewrite IH by (intros d' Hd'; apply H; by apply list_elem_of_further).
  rewrite fmap_cons, reverse_cons, <- app_assoc. unfold hash_value at 3. by rewrite E.
Qed.

(** C19: merging two sketches of the same size yields exactly the sketch of the
    union: whatever list [L] holds the items of [L1] and [L2], in any order and
    with any repetitions, inserting it gives the merged sketch. *)
Theorem hll_merge_union func k L1 L2 L :
  0 < k -> hashes func (L1 ++ L2) -> (forall d, d ∈ L <-> d ∈ L1 \/ d ∈ L2) ->
  exists h1 h2 h, sketch func k L1 = Ok h1 /\ sketch func k L2 = Ok h2 /\ sketch func k L = Ok h /\
    hyperloglogMerge h1 h2 = Ok (true, h).
Proof.
  intros Hk H HL.
  assert (H1 : hashes func L1) by (intros d Hd; apply H, elem_of_app; by left).
  assert (H2 : hashes func L2) by (intros d Hd; apply H, elem_of_app; by right).
  assert (H3 : hashes func L) by (intros d Hd; apply H, elem_of_app, HL, Hd).
  do 3 eexists. do 3 (split; [by apply sketch_ok|]).
  assert (Hn : forall L', hashes func L' -> Forall (Z.le 0) (reverse (hash_value func <$> L')))
    by (intros L' H'; by apply Forall_reverse, hash_values_nonneg).
  rewrite merge_sketch by auto. unfold sketch_of. do 3 f_equal.
  apply registers_set; [apply list.Forall_app; auto|auto|].
  intros v. rewrite elem_of_app, !elem_of_reverse, !list_elem_of_fmap. setoid_rewrite HL. naive_solver.
Qed.

Lemma hll_merge_union_witness :
  let A := [[1; 2]; [3]] in let B := [[3]; [7; 7]] in
  exists h1 h2 h, sketch hash64FNV1a 16 A = Ok h1 /\ sketch hash64FNV1a 16 B = Ok h2 /\
    sketch hash64FNV1a 16 [[7; 7]; [3]; [1; 2]] = Ok h /\ hyperloglogMerge h1 h2 = Ok (true, h).
Proof.
  intros A B. apply (hll_merge_union hash64FNV1a 16 A B).
  - reflexivity.
  - intros d Hd. subst A B. rewrite !elem_of_app, !elem_of_cons, !elem_of_nil in Hd.
    destruct Hd as [[->|[->|[]]]|[->|[->|[]]]]; (eexists; split; [vm_compute; reflexivity|split; [discriminate|reflexivity]]).
  - intros d. subst A B. rewrite !elem_of_cons, !elem_of_nil. tauto.
Defined.

(** Counting the registers ends after [k] iterations with the exact sum and
    number of empty registers when [k] is below 2^16; with 2^16 registers or
    more the 16-bit index wraps around and the loop never ends. *)
Theorem hll_cardinality_loop func k L h :
  0 < k -> hashes func L -> sketch func k L = Ok h ->
  (k < 2 ^ 16 -> cardinality_loop (Z.to_nat k) h 0 0 0 = Ok (sum_registers (hll_R h), zero_registers (hll_R h))) /\
  (2 ^ 16 <= k -> forall fuel, cardinality_loop fuel h 0 0 0 = Err Diverges).
Proof.
  intros Hk H. rewrite sketch_ok by done. intros [= <-].
  assert (Hn : Forall (Z.le 0) (reverse (hash_value func <$> L))) by (by apply Forall_reverse, hash_values_nonneg).
  split; intros Hk16.
  - rewrite (cardinality_loop_ends k (Z.log2 k) func Hk _ _ 0) by (done || lia). by rewrite !drop_0.
  - intros fuel. by apply cardinality_loop_diverges.
Qed.

Lemma hll_cardinality_loop_witness :
  exists h, sketch hash64FNV1a 16 [[1; 2]; [3]] = Ok h /\
    cardinality_loop 16 h 0 0 0 = Ok (sum_registers (hll_R h), 14).
Proof.
  eexists. split; [vm_compute; reflexivity|].
  destruct (hll_cardinality_loop hash64FNV1a 16 [[1; 2]; [3]] _ ltac:(reflexivity)
    ltac:(intros d Hd; rewrite !elem_of_cons, elem_of_nil in Hd; destruct Hd as [->|[->|[]]];
          (eexists; split; [vm_compute; reflexivity|split; [discriminate|reflexivity]]))
    ltac:(vm_compute; reflexivity)) as [H _].
  exact (H ltac:(reflexivity)).
Defined.

End HllSpec.
