(* ===== verification/HllFloat.v ===== *)
(** * The estimate of a cardinality sketch

    Models [hyperloglogCardinality] and its helpers in
    [libalgorithms/src/algorithms/stream/cardinality/hyperloglog.c] with the
    arithmetic of IEEE 754: a [double] is a [spec_float] of the Standard
    Library at 53 bits, a [float] one at 24 bits.  The function [log] of the C
    library is a parameter.  The sum over the registers is shown to be exact. *)

From Stdlib Require Import SpecFloat.
From S2P Require Import Prelude Hash HyperLogLog HyperLogLogSpec.

Module HllFloat.
Import Hash Hll HllSpec.

(** ** Doubles *)

Abbreviation double := spec_float.
Definition dadd : double -> double -> double := SFadd 53 1024.
Definition dmul : double -> double -> double := SFmul 53 1024.
Definition ddiv : double -> double -> double := SFdiv 53 1024.

(** The double nearest to [m * 2^e]; an integer is [dexact z 0]. *)
Definition dexact (m e : Z) : double := binary_normalize 53 1024 m e false.
Definition dint (z : Z) : double := dexact z 0.

(** Rounding to [float]; a [float] is a [double] too. *)
Definition to_float (x : double) : double :=
  match x with
  | S754_finite s m e => binary_normalize 24 128 (cond_Zopp s (Zpos m)) e s
  | _ => x
  end.

(** The literals: [0.7213] is the double nearest to 7213/10000. *)
Definition decimal (num den : Z) : double := ddiv (dint num) (dint den).

(** Conversion to [unsigned long long]: defined when the integral part fits. *)
Definition to_ull (x : double) : res Z :=
  match x with
  | S754_zero _ => Ok 0
  | S754_finite s m e =>
      let t := if 0 <=? e then Z.pos m * 2 ^ e else Z.pos m / 2 ^ (- e) in
      let t := if s then - t else t in
      if (0 <=? t) && (t <? 2 ^ 64) then Ok t else Err Overflow
  | _ => Err Overflow
  end.

(** ** The functions *)

Definition i_hyperloglogGetAlpha (k : Z) : double :=
  if k =? 16 then to_float (decimal 673 1000)
  else if k =? 32 then to_float (decimal 697 1000)
  else if k =? 64 then to_float (decimal 709 1000)
  else ddiv (decimal 7213 10000) (dadd (dint 1) (ddiv (decimal 1079 1000) (to_float (dint k)))).

Section cardinality.
Context (log : double -> double).

Definition i_hyperloglogLinearCounting (m V : double) : double := dmul m (log (ddiv m V)).

(** The loop, with the sum in a [double]. *)
Fixpoint sum_loop (fuel : nat) (phll : HYPERLOGLOG) (i : Z) (sum : double) (zeroRegisters : Z) : res (double * Z) :=
  if i <? hll_k phll then
    match fuel with
    | O => Err Diverges
    | S fuel' =>
        r ← rd (hll_R phll) (Z.to_nat i);
        if 31 <=? r then Err Overflow
        else sum_loop fuel' phll (u16 (i + 1)) (dadd sum (ddiv (dint 1) (dint (Z.shiftl 1 r))))
               (if r =? 0 then u16 (zeroRegisters + 1) else zeroRegisters)
    end
  else Ok (sum, zeroRegisters).

(** What follows the loop. *)
Definition estimate (phll_k : Z) (Z : double) (zeroRegisters : BinNums.Z) : res BinNums.Z :=
  let k := dint phll_k in
  let estimate := dmul (dmul (dmul (i_hyperloglogGetAlpha phll_k) k) k) (ddiv (dint 1) Z) in
  if SFleb estimate (dmul (ddiv (dint 5) (dint 2)) k) then
    if zeroRegisters =? 0 then to_ull estimate else to_ull (i_hyperloglogLinearCounting k (dint zeroRegisters))
  else to_ull estimate.

Definition hyperloglogCardinality (fuel : nat) (phll : HYPERLOGLOG) : res Z :=
  '(Z, zeroRegisters) ← sum_loop fuel phll 0 (dint 0) 0;
  estimate (hll_k phll) Z zeroRegisters.
End cardinality.

(** ** Exact doubles *)

Lemma digits_log2 p : Z.pos (digits2_pos p) = Z.log2 (Z.pos p) + 1.
Proof.
  induction p as [p IH|p IH|]; [| |done]; cbn [digits2_pos]; rewrite Pos2Z.inj_succ, IH.
  - rewrite Pos2Z.inj_xI, Z.log2_succ_double by lia. lia.
  - rewrite Pos2Z.inj_xO, Z.log2_double by lia. lia.
Qed.

Lemma iter_xO m d : Z.pos (Pos.iter xO m d) = Z.pos m * 2 ^ Z.pos d.
Proof.
  induction d as [|d IH] using Pos.peano_ind; [cbn; lia|].
  rewrite Pos.iter_succ, Pos2Z.inj_xO, IH, Pos2Z.inj_succ, Z.pow_succ_r by lia. lia.
Qed.

Lemma iter_pos_nat {A} (f : A -> A) p x : SpecFloat.iter_pos f p x = Nat.iter (Pos.to_nat p) f x.
Proof.
  assert (Hs : forall n y, Nat.iter n f (f y) = f (Nat.iter n f y)).
  { induction n as [|n IH]; intros y; [done|]. cbn [Nat.iter nat_rect]. unfold Nat.iter in IH. by rewrite IH. }
  assert (Ha : forall n m y, Nat.iter (n + m) f y = Nat.iter n f (Nat.iter m f y)).
  { induction n as [|n IH]; intros m y; [done|]. cbn. f_equal. apply IH. }
  revert x. induction p as [p IH|p IH|]; intros x; cbn [SpecFloat.iter_pos]; [| |done].
  - rewrite !IH, Pos2Nat.inj_xI. replace (S (2 * Pos.to_nat p)) with (Pos.to_nat p + (Pos.to_nat p + 1))%nat by lia.
    by rewrite !Ha.
  - rewrite !IH, Pos2Nat.inj_xO. replace (2 * Pos.to_nat p)%nat with (Pos.to_nat p + Pos.to_nat p)%nat by lia. by rewrite Ha.
Qed.

(** Shifting out zeros loses nothing. *)
Lemma shr_exact q p :
  SpecFloat.iter_pos shr_1 p (Build_shr_record (Z.pos q * 2 ^ Z.pos p) false false) = Build_shr_record (Z.pos q) false false.
Proof.
  rewrite iter_pos_nat, <- (positive_nat_Z p). generalize (Pos.to_nat p). intros n.
  assert (Hs : forall n y, Nat.iter n shr_1 (shr_1 y) = shr_1 (Nat.iter n shr_1 y)).
  { induction n0 as [|m IH]; intros y; [done|]. cbn [Nat.iter nat_rect]. unfold Nat.iter in IH. by rewrite IH. }
  induction n as [|n IH]; [by rewrite Z.mul_1_r|]. cbn [Nat.iter nat_rect]. unfold Nat.iter in Hs, IH.
  rewrite <- Hs. etransitivity; [|exact IH]. f_equal.
  replace (Z.pos q * 2 ^ Z.of_nat (S n)) with (2 * (Z.pos q * 2 ^ Z.of_nat n))
    by (rewrite Nat2Z.inj_succ, Z.pow_succ_r by lia; lia).
  assert (0 < Z.pos q * 2 ^ Z.of_nat n) by (apply Z.mul_pos_pos; [lia|apply Z.pow_pos_nonneg; lia]).
  destruct (Z.pos q * 2 ^ Z.of_nat n) as [|x|x]; [lia|done|lia].
Qed.

(** The double for [M * 2^e] when the 53 leading bits [q] of [M] are all of it. *)
Lemma dexact_canon M q e :
  let d := Z.log2 M + 1 in
  0 < M -> -900 <= e + d <= 900 ->
  (d <= 53 -> Z.pos q = M * 2 ^ (53 - d)) -> (53 < d -> M = Z.pos q * 2 ^ (d - 53)) ->
  dexact M e = S754_finite false q (e + d - 53).
Proof.
  intros d HM He Hle Hgt. destruct M as [|m|m]; [lia| |lia].
  assert (Hf : forall x, -900 <= x <= 900 -> fexp 53 1024 x = x - 53) by (intros x Hx; unfold fexp, emin; lia).
  assert (Hq : Z.log2 (Z.pos q) + 1 = 53).
  { destruct (Z_le_gt_dec d 53) as [Hd|Hd].
    - rewrite Hle, Z.log2_mul_pow2 by lia. lia.
    - specialize (Hgt ltac:(lia)). assert (E : d = Z.log2 (Z.pos q) + (d - 53) + 1); [|lia].
      unfold d at 1. rewrite Hgt at 1. rewrite Z.log2_mul_pow2 by lia. lia. }
  assert (Haux : forall ez, ez = e + d - 53 -> binary_round_aux 53 1024 false (Z.pos q) ez loc_Exact = S754_finite false q ez).
  { intros ez ->. unfold binary_round_aux, shr_fexp. cbn [Zdigits2]. rewrite digits_log2, Hq.
    rewrite Hf by lia. replace (53 + (e + d - 53) - 53 - (e + d - 53)) with 0 by lia.
    cbn [shr shr_record_of_loc shr_m loc_of_shr_record round_nearest_even Zdigits2]. rewrite digits_log2, Hq, Hf by lia.
    replace (53 + (e + d - 53) - 53 - (e + d - 53)) with 0 by lia. cbn [shr shr_record_of_loc shr_m].
    by rewrite (proj2 (Z.leb_le _ _)) by lia. }
  unfold dexact, binary_normalize, binary_round. rewrite digits_log2. fold d. rewrite Hf by lia. unfold shl_align.
  replace (d + e - 53 - e) with (d - 53) by lia. destruct (d - 53) as [|x|x] eqn:Ed.
  - replace m with q by (assert (H : Z.pos q = Z.pos m); [rewrite Hle by lia; replace (53 - d) with 0 by lia; lia|congruence]).
    rewrite Haux by lia. f_equal. lia.
  - unfold binary_round_aux, shr_fexp. cbn [Zdigits2]. rewrite digits_log2. fold d. rewrite Hf by lia.
    replace (d + e - 53 - e) with (Z.pos x) by lia. cbn [shr shr_record_of_loc]. rewrite Hgt by lia. rewrite shr_exact.
    specialize (Haux (e + Z.pos x) ltac:(lia)). unfold binary_round_aux, shr_fexp in Haux. cbn [Zdigits2] in Haux.
    rewrite digits_log2, Hq, Hf in Haux by lia. replace (53 + (e + Z.pos x) - 53 - (e + Z.pos x)) with 0 in Haux by lia.
    cbn [shr shr_record_of_loc] in Haux. cbn [shr_m loc_of_shr_record round_nearest_even]. cbn [shr_m loc_of_shr_record round_nearest_even] in Haux.
    unfold shr_fexp. rewrite Haux. f_equal. lia.
  - assert (Hi : Pos.iter xO m x = q).
    { assert (H : Z.pos (Pos.iter xO m x) = Z.pos q); [|congruence].
      rewrite iter_xO, Hle by lia. do 2 f_equal. lia. }
    rewrite Hi. rewrite Haux by lia. f_equal. lia.
Qed.

(** Its mantissa for a number of at most 53 bits. *)
Lemma dexact_small m e :
  0 < m < 2 ^ 53 -> -500 <= e <= 500 ->
  exists q, dexact m e = S754_finite false q (e + Z.log2 m + 1 - 53) /\ Z.pos q = m * 2 ^ (52 - Z.log2 m).
Proof.
  intros Hm He. assert (Hd : 0 <= Z.log2 m < 53) by (split; [apply Z.log2_nonneg|apply Z.log2_lt_pow2; lia]).
  assert (Hp : 0 < m * 2 ^ (52 - Z.log2 m)) by (apply Z.mul_pos_pos; [lia|apply Z.pow_pos_nonneg; lia]).
  destruct (m * 2 ^ (52 - Z.log2 m)) as [|q|q] eqn:Eq; [lia| |lia]. exists q. split; [|done].
  rewrite (dexact_canon m q e) by (lia || (intros; rewrite <- Eq; f_equal; f_equal; lia)). f_equal. lia.
Qed.

(** The double depends on the value only. *)
Lemma dexact_shift m e j : 0 < m < 2 ^ 53 -> -500 <= e <= 500 -> 0 <= j <= 60 -> dexact (m * 2 ^ j) (e - j) = dexact m e.
Proof.
  intros Hm He Hj. destruct (dexact_small m e Hm He) as (q & -> & Hq).
  assert (Hd : 0 <= Z.log2 m < 53) by (split; [apply Z.log2_nonneg|apply Z.log2_lt_pow2; lia]).
  assert (Hl : Z.log2 (m * 2 ^ j) = j + Z.log2 m) by (rewrite Z.log2_mul_pow2; lia).
  rewrite (dexact_canon (m * 2 ^ j) q (e - j)); rewrite ?Hl.
  - f_equal. lia.
  - apply Z.mul_pos_pos; [lia|apply Z.pow_pos_nonneg; lia].
  - lia.
  - intros H. rewrite Hq, <- Z.mul_assoc, <- Z.pow_add_r by lia. do 2 f_equal. lia.
  - intros H. rewrite Hq, <- Z.mul_assoc, <- Z.pow_add_r by lia. do 2 f_equal. lia.
Qed.

Lemma shl_align_val m ex ez : ez <= ex -> Z.pos (fst (shl_align m ex ez)) = Z.pos m * 2 ^ (ex - ez).
Proof.
  intros H. unfold shl_align. destruct (ez - ex) as [|d|d] eqn:E; cbn [fst].
  - replace (ex - ez) with 0 by lia. lia.
  - lia.
  - rewrite iter_xO. do 2 f_equal. lia.
Qed.

(** Adding loses nothing while the sum has 53 bits. *)
Lemma dadd_exact a b e :
  0 <= a -> 0 < b -> a + b < 2 ^ 53 -> -400 <= e <= 400 -> dadd (dexact a e) (dexact b e) = dexact (a + b) e.
Proof.
  intros Ha Hb Hab He. destruct (dexact_small b e ltac:(lia) ltac:(lia)) as (qb & Eb & Hqb).
  destruct (Z.eq_dec a 0) as [->|Ha0].
  { rewrite Eb. unfold dadd, dexact at 1. cbn [binary_normalize SFadd]. by rewrite <- Eb. }
  destruct (dexact_small a e ltac:(lia) ltac:(lia)) as (qa & Ea & Hqa). rewrite Ea, Eb. unfold dadd, SFadd, cond_Zopp.
  assert (0 <= Z.log2 a < 53) by (split; [apply Z.log2_nonneg|apply Z.log2_lt_pow2; lia]).
  assert (0 <= Z.log2 b < 53) by (split; [apply Z.log2_nonneg|apply Z.log2_lt_pow2; lia]).
  set (ez := Z.min _ _). rewrite !shl_align_val by lia. rewrite Hqa, Hqb, <- !Z.mul_assoc, <- !Z.pow_add_r by lia.
  replace (52 - Z.log2 a + (e + Z.log2 a + 1 - 53 - ez)) with (e - ez) by lia.
  replace (52 - Z.log2 b + (e + Z.log2 b + 1 - 53 - ez)) with (e - ez) by lia.
  rewrite <- Z.mul_add_distr_r. fold (dexact ((a + b) * 2 ^ (e - ez)) ez).
  replace ez with (e - (e - ez)) at 2 by lia. apply dexact_shift; lia.
Qed.

(** One register adds a power of two. *)
Lemma ddiv_register r : 0 <= r < 31 -> ddiv (dint 1) (dint (Z.shiftl 1 r)) = dexact (2 ^ (30 - r)) (-30).
Proof.
  intros Hr. assert (H : forall n, (n < 31)%nat ->
    ddiv (dint 1) (dint (Z.shiftl 1 (Z.of_nat n))) = dexact (2 ^ (30 - Z.of_nat n)) (-30)).
  { intros n Hn. do 31 (destruct n as [|n]; [vm_compute; reflexivity|]). lia. }
  specialize (H (Z.to_nat r) ltac:(lia)). by rewrite Z2Nat.id in H by lia.
Qed.

(** ** The loop *)

(** The loop over doubles computes what the loop over integers computes. *)
Lemma sum_loop_exact phll fuel i s z :
  Forall (Z.le 0) (hll_R phll) -> 0 <= s -> s + Z.of_nat fuel * 2 ^ 30 < 2 ^ 53 ->
  sum_loop fuel phll i (dexact s (-30)) z =
    '(s', z') ← cardinality_loop fuel phll i s z; Ok (dexact s' (-30), z').
Proof.
  intros HR. revert i s z. induction fuel as [|fuel IH]; intros i s z Hs Hb; cbn [sum_loop cardinality_loop];
    (destruct (i <? hll_k phll); [|done]); [done|].
  destruct (rd (hll_R phll) (Z.to_nat i)) as [r|] eqn:Er; [|done]. cbn [mbind res_bind].
  apply rd_Ok in Er. pose proof (proj1 (Forall_lookup _ _) HR _ _ Er) as Hr0. cbv beta in Hr0.
  destruct (Z.leb_spec 31 r) as [Hr|Hr]; [done|].
  assert (Hp : 0 < 2 ^ (30 - r) <= 2 ^ 30) by (split; [apply Z.pow_pos_nonneg; lia|apply Z.pow_le_mono_r; lia]).
  rewrite ddiv_register, dadd_exact by lia. apply IH; lia.
Qed.

Lemma sum_loop_err phll fuel i s x z e : cardinality_loop fuel phll i s z = Err e -> sum_loop fuel phll i x z = Err e.
Proof.
  revert i s x z. induction fuel as [|fuel IH]; intros i s x z; cbn [sum_loop cardinality_loop];
    (destruct (i <? hll_k phll); [|done]); [by intros [= <-]|].
  destruct (rd (hll_R phll) (Z.to_nat i)) as [r|]; [|by intros [= <-]]. cbn [mbind res_bind].
  destruct (31 <=? r); [by intros [= <-]|]. apply IH.
Qed.

(** C34: inserting any items gives a sketch; with fewer than 2^16 registers its
    estimate is the one computed from the exact sum of the registers: adding them up
    in a double loses nothing.  With 2^16 registers or more the 16-bit index
    wraps around and the function never returns. *)
Theorem hll_cardinality_value log func k L :
  0 < k -> hashes func L ->
  exists h, sketch func k L = Ok h /\
    (k < 2 ^ 16 ->
       hyperloglogCardinality log (Z.to_nat k) h =
         estimate log k (dexact (sum_registers (hll_R h)) (-30)) (zero_registers (hll_R h))) /\
    (2 ^ 16 <= k -> forall fuel, hyperloglogCardinality log fuel h = Err Diverges).
Proof.
  intros Hk Hh. pose proof (sketch_ok func k L Hk Hh) as Hs. eexists. split; [exact Hs|].
  destruct (hll_cardinality_loop func k L _ Hk Hh Hs) as [H1 H2].
  set (vs := reverse (hash_value func <$> L)) in *. set (h := sketch_of k (Z.log2 k) func vs) in *.
  assert (Hvs : Forall (Z.le 0) vs) by (by apply Forall_reverse, hash_values_nonneg).
  split; intros Hk16; unfold hyperloglogCardinality.
  - change (dint 0) with (dexact 0 (-30)). rewrite sum_loop_exact, H1 by
      (done || lia || (apply Forall_lookup; intros i r; cbn [hll_R h sketch_of]; rewrite registers_lookup;
        destruct (decide _); [intros [= <-]; pose proof (register_range k (Z.log2 k) vs i Hvs); lia|done])).
    done.
  - intros fuel. by rewrite (sum_loop_err h fuel 0 0 _ 0 Diverges (H2 Hk16 fuel)).
Qed.

Lemma hll_cardinality_value_witness :
  exists h, sketch hash64FNV1a 16 [[1; 2]; [3]] = Ok h /\
    hyperloglogCardinality (fun _ => dint 1) 16 h = Ok 16.
Proof.
  destruct (hll_cardinality_value (fun _ => dint 1) hash64FNV1a 16 [[1; 2]; [3]] ltac:(reflexivity)
    ltac:(intros d Hd; rewrite !elem_of_cons, elem_of_nil in Hd; destruct Hd as [->|[->|[]]];
          (eexists; split; [vm_compute; reflexivity|split; [discriminate|reflexivity]]))) as (h & E & H & _).
  exists h. split; [exact E|]. change (Z.to_nat 16) with 16%nat in H. rewrite (H ltac:(reflexivity)).
  vm_compute in E. injection E as <-. vm_compute. reflexivity.
Defined.

(** An empty sketch with a power of two of registers estimates zero, for every
    logarithm that is zero at one. *)
Lemma hll_empty_estimate log n :
  (4 <= n < 16)%nat -> log (dint 1) = S754_zero false ->
  estimate log (2 ^ Z.of_nat n) (dexact (2 ^ Z.of_nat n * 2 ^ 30) (-30)) (2 ^ Z.of_nat n) = Ok 0.
Proof.
  intros Hn Hlog. do 4 (destruct n as [|n]; [lia|]).
  do 12 (destruct n as [|n]; [clear Hn; unfold estimate, i_hyperloglogLinearCounting;
    match goal with |- context [log ?x] => replace x with (dint 1) by (vm_compute; reflexivity) end;
    rewrite Hlog; vm_compute; reflexivity|]). lia.
Qed.

End HllFloat.
