(* ===== verification/Spinlock.v ===== *)
(** * Spin locks

    Models [libalgorithms/src/algorithms/spinlock/spinlock.c].  The flag is
    shared; each atomic access is one step of a thread, and any number of
    threads interleave.  The theorem is the licence for treating the calls of
    the doubly linked list, which run under these locks, as atomic. *)

From stdpp Require Import gmap.
From S2P Require Import Prelude.

Module Spinlock.

(** ** The functions *)

(** [__atomic_test_and_set]: the old value and the new flag. *)
Definition test_and_set (flag : bool) : bool * bool := (flag, true).

Definition spinlockLockTry (flag : bool) : bool * bool :=
  let '(old, flag) := test_and_set flag in (negb old, flag).

Definition spinlockUnlock (flag : bool) : bool := false.

(** ** Threads *)

Inductive pc : Type :=
| Outside        (* not in a call and not holding the lock *)
| Testing        (* [spinlockLock], before the test and set *)
| Pausing        (* [spinlockLock], in the relaxed loop *)
| Holding.       (* after a successful call *)

#[export] Instance pc_eq_dec : EqDecision pc.
Proof. solve_decision. Defined.

Record state : Type := MkState { flag : bool; threads : gmap nat pc }.

(** One atomic access of a thread, with the new flag. *)
Inductive tstep : bool -> pc -> bool -> pc -> Prop :=
| t_call f : tstep f Outside f Testing
| t_acquire f f' : test_and_set f = (false, f') -> tstep f Testing f' Holding
| t_busy f f' : test_and_set f = (true, f') -> tstep f Testing f' Pausing
| t_pause : tstep true Pausing true Pausing
| t_retry : tstep false Pausing false Testing
| t_try f f' : spinlockLockTry f = (true, f') -> tstep f Outside f' Holding
| t_try_fail f f' : spinlockLockTry f = (false, f') -> tstep f Outside f' Outside
| t_unlock f : tstep f Holding (spinlockUnlock f) Outside.

Inductive lstep : state -> state -> Prop :=
| l_step s i p f p' :
    threads s !! i = Some p -> tstep (flag s) p f p' -> lstep s (MkState f (<[i := p']> (threads s))).

Definition initial (n : nat) : state := MkState false (list_to_map ((fun i => (i, Outside)) <$> seq 0 n)).

Inductive lreachable (n : nat) : state -> Prop :=
| lr_init : lreachable n (initial n)
| lr_step s s' : lreachable n s -> lstep s s' -> lreachable n s'.

(** ** Mutual exclusion *)

(** Either the flag is clear and nobody holds the lock, or exactly one thread
    does. *)
Definition exclusive (s : state) : Prop :=
  if flag s then exists i, forall j, threads s !! j = Some Holding <-> j = i
  else forall j, threads s !! j <> Some Holding.

Lemma initial_threads n j p : threads (initial n) !! j = Some p -> p = Outside.
Proof.
  cbn. intros H%elem_of_list_to_map_2. apply list_elem_of_fmap in H as (i & [= _ ->] & _). done.
Qed.

Lemma holding_other s i p p' (j : nat) :
  threads s !! i = Some p -> p <> Holding -> p' <> Holding ->
  (<[i := p']> (threads s) !! j = Some Holding <-> threads s !! j = Some Holding).
Proof.
  intros Hi Hp Hp'. destruct (decide (j = i)) as [->|]; [rewrite lookup_insert_eq|by rewrite lookup_insert_ne].
  split; intros; congruence.
Qed.

Lemma holding_enter s i (j : nat) :
  (forall j, threads s !! j <> Some Holding) ->
  (<[i := Holding]> (threads s) !! j = Some Holding <-> j = i).
Proof.
  intros Hn. destruct (decide (j = i)) as [->|]; [by rewrite lookup_insert_eq|].
  rewrite lookup_insert_ne by done. split; [by intros ?%Hn|done].
Qed.

Lemma step_exclusive s s' : lstep s s' -> exclusive s -> exclusive s'.
Proof.
  intros Hs He. destruct Hs as [s i p f p' Hi Ht]. unfold exclusive in *. cbn.
  assert (Hsame : p <> Holding -> p' <> Holding -> f = flag s -> exclusive (MkState f (<[i := p']> (threads s)))).
  { intros Hp Hp' ->. unfold exclusive. cbn. destruct (flag s).
    - destruct He as [k Hk]. exists k. intros j. by rewrite (holding_other s i p p').
    - intros j Hj. apply (He j). by rewrite (holding_other s i p p') in Hj. }
  unfold exclusive in Hsame. cbn in Hsame.
  inversion Ht; subst; try (by apply Hsame); unfold spinlockLockTry, test_and_set in *; simplify_eq.
  - rewrite H in He. exists i. intros j. by apply holding_enter.
  - apply Hsame; congruence.
  - destruct (flag s); [done|]. exists i. intros j. by apply holding_enter.
  - destruct (flag s); [|done]. by apply Hsame.
  - intros j. destruct (flag s).
    + destruct He as [k Hk]. destruct (decide (j = i)) as [->|]; [by rewrite lookup_insert_eq|].
      rewrite lookup_insert_ne by done. intros ->%Hk. by apply Hk in Hi as ->.
    + by destruct (He i).
Qed.

Lemma reachable_exclusive n s : lreachable n s -> exclusive s.
Proof.
  induction 1 as [|s s' _ IH Hs]; [|by eapply step_exclusive].
  intros j Hj. by apply initial_threads in Hj.
Qed.

(** C35: in every interleaving at most one thread holds the lock, the flag is
    set exactly while one does, and when nobody holds it every thread inside
    [spinlockLock] acquires it within two of its own steps. *)
Theorem spinlock_mutex n s :
  lreachable n s ->
  (forall i j, threads s !! i = Some Holding -> threads s !! j = Some Holding -> i = j) /\
  (flag s = true <-> exists i, threads s !! i = Some Holding) /\
  (flag s = false -> forall i p, threads s !! i = Some p -> p = Testing \/ p = Pausing ->
     exists s1 s2, (s1 = s \/ lstep s s1) /\ lstep s1 s2 /\ threads s2 !! i = Some Holding).
Proof.
  intros He%reachable_exclusive. unfold exclusive in He. split; [|split].
  - intros i j Hi Hj. destruct (flag s); [|by destruct (He i)].
    destruct He as [k Hk]. apply Hk in Hi, Hj. congruence.
  - destruct (flag s); [|split; [done|]; intros [i Hi]; by destruct (He i)].
    destruct He as [k Hk]. split; [|done]. intros _. exists k. by apply Hk.
  - intros Hf i p Hi Hp. destruct s as [f th]. cbn in *. subst f. destruct Hp as [-> | ->].
    + exists (MkState false th). eexists. split; [by left|].
      split; [eapply l_step; [exact Hi|by apply t_acquire]|]. apply lookup_insert_eq.
    + exists (MkState false (<[i := Testing]> th)). eexists.
      split; [right; eapply l_step; [exact Hi|apply t_retry]|].
      split; [eapply l_step; [apply lookup_insert_eq|by apply t_acquire]|]. apply lookup_insert_eq.
Qed.

(** Two threads: the first holds the lock, the second is in its relaxed loop. *)
Lemma spinlock_mutex_witness :
  let s := MkState true (<[1%nat := Pausing]> (<[1%nat := Testing]> (<[0%nat := Holding]>
             (<[0%nat := Testing]> (threads (initial 2)))))) in
  lreachable 2 s /\ forall j, threads s !! j = Some Holding -> 0%nat = j.
Proof.
  intros s. assert (Hr : lreachable 2 s).
  { eapply (lr_step 2 (MkState true _)); [eapply (lr_step 2 (MkState true _));
      [eapply (lr_step 2 (MkState false _)); [eapply (lr_step 2 (initial 2)); [apply lr_init|]|]|]|].
    - eapply (l_step (initial 2) 0); [reflexivity|apply t_call].
    - eapply (l_step (MkState false _) 0); [reflexivity|by apply t_acquire].
    - eapply (l_step (MkState true _) 1); [reflexivity|apply t_call].
    - eapply (l_step (MkState true _) 1); [reflexivity|by apply t_busy]. }
  split; [exact Hr|]. intros j Hj.
  destruct (spinlock_mutex 2 s Hr) as [H _]. exact (H 0%nat j ltac:(reflexivity) Hj).
Defined.

End Spinlock.
