(* ===== verification/Perf.v ===== *)
(** * Performance counters

    Models [libalgorithms/src/algorithms/perf/perf.c].  The PAPI library is not
    part of the repository: its codes and what its calls return are
    parameters.  Memory a function leaves unset is [None]. *)

From Stdlib Require Import String.
From S2P Require Import Prelude Timer.

Module Perf.
Import Timer.

(** ** The table of events *)

Inductive papi_event : Type :=
| PAPI_BR_CN | PAPI_BR_INS | PAPI_BR_MSP | PAPI_BR_PRC | PAPI_BR_TKN | PAPI_CA_CLN
| PAPI_CA_INV | PAPI_CA_SHR | PAPI_FP_INS | PAPI_FP_OPS | PAPI_FP_STAL | PAPI_FPU_IDL
| PAPI_HW_INT | PAPI_TOT_CYC | PAPI_TOT_IIS | PAPI_TOT_INS | PAPI_VEC_INS | PAPI_L1_DCA
| PAPI_L1_DCH | PAPI_L1_DCM | PAPI_L1_ICA | PAPI_L1_ICH | PAPI_L1_ICM | PAPI_L1_LDM
| PAPI_L1_STM | PAPI_L2_DCA | PAPI_L2_DCH | PAPI_L2_DCM | PAPI_L2_ICA | PAPI_L2_ICH
| PAPI_L2_ICM | PAPI_L2_LDM | PAPI_L2_STM | PAPI_L3_DCA | PAPI_L3_DCH | PAPI_L3_DCM
| PAPI_L3_ICA | PAPI_L3_ICH | PAPI_L3_ICM | PAPI_L3_LDM | PAPI_L3_STM | PAPI_LD_INS
| PAPI_LST_INS | PAPI_MEM_SCY | PAPI_MEM_WCY | PAPI_STL_CCY | PAPI_STL_ICY | PAPI_SYC_INS
| PAPI_TLB_DM | PAPI_TLB_IM.

Open Scope string_scope.
Definition gcPerfEvents : list (papi_event * string) :=
  [(PAPI_BR_CN, "Conditional branch instructions");
   (PAPI_BR_INS, "Branch instructions");
   (PAPI_BR_MSP, "Conditional branch instructions mispredicted");
   (PAPI_BR_PRC, "Conditional branch instructions correctly predicted");
   (PAPI_BR_TKN, "Conditional branch instructions taken");
   (PAPI_CA_CLN, "Requests for exclusive access to clean cache line");
   (PAPI_CA_INV, "Requests for cache line invalidation");
   (PAPI_CA_SHR, "Requests for exclusive access to shared cache line");
   (PAPI_FP_INS, "Floating point instructions");
   (PAPI_FP_OPS, "Floating point operations");
   (PAPI_FP_STAL, "Cycles the FP unit");
   (PAPI_FPU_IDL, "Cycles floating point units are idle");
   (PAPI_HW_INT, "Hardware interrupts");
   (PAPI_TOT_CYC, "Total cycles");
   (PAPI_TOT_IIS, "Instructions issued");
   (PAPI_TOT_INS, "Instructions completed");
   (PAPI_VEC_INS, "Vector/SIMD instructions");
   (PAPI_L1_DCA, "L1 data cache accesses");
   (PAPI_L1_DCH, "L1 data cache hits");
   (PAPI_L1_DCM, "L1 data cache misses");
   (PAPI_L1_ICA, "L1 instruction cache accesses");
   (PAPI_L1_ICH, "L1 instruction cache hits");
   (PAPI_L1_ICM, "L1 instruction cache misses");
   (PAPI_L1_LDM, "L1 load misses");
   (PAPI_L1_STM, "L1 store misses");
   (PAPI_L2_DCA, "L2 data cache accesses");
   (PAPI_L2_DCH, "L2 data cache hits");
   (PAPI_L2_DCM, "L2 data cache misses");
   (PAPI_L2_ICA, "L2 instruction cache accesses");
   (PAPI_L2_ICH, "L2 instruction cache hits");
   (PAPI_L2_ICM, "L2 instruction cache misses");
   (PAPI_L2_LDM, "L2 load misses");
   (PAPI_L2_STM, "L2 store misses");
   (PAPI_L3_DCA, "L3 data cache accesses");
   (PAPI_L3_DCH, "L3 Data Cache Hits");
   (PAPI_L3_DCM, "L3 data cache misses");
   (PAPI_L3_ICA, "L3 instruction cache accesses");
   (PAPI_L3_ICH, "L3 instruction cache hits");
   (PAPI_L3_ICM, "L3 instruction cache misses");
   (PAPI_L3_LDM, "L3 load misses");
   (PAPI_L3_STM, "L3 store misses");
   (PAPI_LD_INS, "Load instructions");
   (PAPI_LST_INS, "Load/store instructions completed");
   (PAPI_MEM_SCY, "Cycles Stalled Waiting for memory accesses");
   (PAPI_MEM_WCY, "Cycles Stalled Waiting for memory writes");
   (PAPI_STL_CCY, "Cycles with no instructions completed");
   (PAPI_STL_ICY, "Cycles with no instruction issue");
   (PAPI_SYC_INS, "Synchronization instructions completed");
   (PAPI_TLB_DM, "Data translation lookaside buffer misses");
   (PAPI_TLB_IM, "Instruction translation lookaside buffer misses")].
Close Scope string_scope.

Definition n_events : nat := List.length gcPerfEvents.

(** ** Data *)

Record perf_stats_t : Type := MkPerfStats { ps_isActive : bool; ps_time : timespec }.

(** The length of [_CPUEvents]. *)
Definition n_counters : nat := 64.

Record perf_results_t : Type := MkPerfResults { pr_time : Z; pr_CPUEvents : list (option Z) }.

Section papi.
Context (papi_code : papi_event -> Z) (PAPI_OK PAPI_VER_CURRENT : Z).

(** ** Operations *)

(** [version]: what [PAPI_library_init] returns.  Returns [gcPAPIEvents]. *)
Definition perfWatchInit (version : Z) : bool * list Z :=
  (version =? PAPI_VER_CURRENT, papi_code ∘ fst <$> gcPerfEvents).

(** [r]: what [PAPI_thread_init] returns. *)
Definition perfWatchThreadInit (r : Z) : bool := negb (r =? PAPI_OK).

(** [now]: the clock; [r]: what [PAPI_start_counters] returns. *)
Definition perfWatchStart (now : timespec) (r : Z) : perf_stats_t :=
  MkPerfStats (negb (r =? PAPI_OK)) (timerWatchStart now).

(** [read n]: what [PAPI_read_counters(values, n)] returns, and the values it
    stores from the start of the array.  [sizeof(values)/sizeof(int)] is twice
    the number of events. *)
Definition perfWatchStop (stats : perf_stats_t) (now : timespec) (read : nat -> Z * list Z)
    : res (perf_results_t * perf_stats_t) :=
  t ← timerWatchStop (ps_time stats) now;
  let r := MkPerfResults t (replicate n_counters None) in
  if ps_isActive stats then
    let '(code, values) := read (2 * n_events)%nat in
    _ ← memcpy (replicate n_events 0) 0 values 0 (List.length values);
    if negb (code =? PAPI_OK) then Ok (r, MkPerfStats false (ps_time stats)) else Ok (r, stats)
  else Ok (r, stats).
End papi.

(** The loop of [perfWatchAdd] over the counters. *)
Fixpoint add_counters (dst src : list (option Z)) : res (list (option Z)) :=
  match dst, src with
  | d :: dst', s :: src' =>
      d ← init d; s ← init s; x ← s64 (d + s);
      r ← add_counters dst' src'; Ok (Some x :: r)
  | [], _ => Ok []
  | _, [] => Err OutOfBounds
  end.

Definition perfWatchAdd (pdst psrc : perf_results_t) : res perf_results_t :=
  c ← add_counters (pr_CPUEvents pdst) (pr_CPUEvents psrc);
  Ok (MkPerfResults (u64 (pr_time pdst + pr_time psrc)) c).

(** The lines printed for the counters from [i] on. *)
Fixpoint print_loop (i : nat) (counters : list (option Z)) : res (list (string * Z)) :=
  match counters with
  | [] => Ok []
  | c :: cs =>
      '(_, desc) ← rd gcPerfEvents i; v ← init c;
      r ← print_loop (S i) cs; Ok ((desc, u64 v) :: r)
  end.

Definition perfPrintf (stats : perf_results_t) : res (list (string * Z)) :=
  r ← print_loop 0 (pr_CPUEvents stats); Ok (("Thread time"%string, pr_time stats) :: r).

(** ** Correctness *)

Definition initialised (r : perf_results_t) : Prop :=
  List.length (pr_CPUEvents r) = n_counters /\ Forall is_Some (pr_CPUEvents r).

Lemma print_loop_end i cs :
  Forall is_Some cs -> (i <= n_events < i + List.length cs)%nat -> print_loop i cs = Err OutOfBounds.
Proof.
  intros Hc. revert i. induction Hc as [|c cs [v ->] _ IH]; intros i Hi; [cbn [List.length] in Hi; lia|].
  cbn [print_loop]. destruct (decide (i = n_events)) as [->|Hne].
  - unfold rd. by rewrite lookup_ge_None_2 by done.
  - destruct (lookup_lt_is_Some_2 gcPerfEvents i) as [[e d] He]; [unfold n_events in *; lia|].
    rewrite (rd_lookup _ _ _ He). cbn [mbind res_bind init]. rewrite IH; [done|cbn [List.length] in Hi; lia].
Qed.

Lemma add_counters_sum dst src :
  Forall2 (fun d s => exists a b, d = Some a /\ s = Some b /\ - 2 ^ 63 <= a + b < 2 ^ 63) dst src ->
  add_counters dst src = Ok (zip_with (fun d s => Some (default 0 d + default 0 s)) dst src).
Proof.
  induction 1 as [|d s dst src (a & b & -> & -> & Hr) _ IH]; [done|].
  cbn [add_counters init]. cbn [mbind res_bind]. rewrite s64_ok by done. cbn [mbind res_bind]. by rewrite IH.
Qed.

(** With every counter set, printing the results reads behind the table of
    events: there are 64 counters and 50 events. *)
Theorem perf_print_overruns r : initialised r -> perfPrintf r = Err OutOfBounds.
Proof.
  intros [Hl Hs]. unfold perfPrintf. rewrite (print_loop_end 0); [done|done|].
  rewrite Hl. unfold n_events, n_counters. cbn. lia.
Qed.

Lemma perf_print_overruns_witness :
  perfPrintf (MkPerfResults 5 (replicate n_counters (Some 1))) = Err OutOfBounds.
Proof. apply perf_print_overruns. split; [reflexivity|repeat constructor; eauto]. Defined.

End Perf.
