(* ===== verification/Mapper.v ===== *)
(** * Decoding captured frames

    Models [src/mapper.c] and the structures of [src/mapper.h] that it fills.
    The structures are packed ([aligned(1)] on the typedefs), so the Ethernet
    header is 14 bytes and the IP header the 20 bytes behind it; the machine is
    little endian.  Log output is left out. *)

From S2P Require Import Prelude CString.

Module Mapper.
Import CStr.

(** ** Data *)

Record mapper_ethernet_t : Type := MkEth {
  eth_dhost : list Z;   (* 6 bytes *)
  eth_shost : list Z;   (* 6 bytes *)
  eth_type : Z          (* uint16_t *)
}.

Record mapper_ip_t : Type := MkIp {
  ip_vhl : Z; ip_tos : Z; ip_len : Z; ip_id : Z; ip_off : Z;
  ip_ttl : Z; ip_protocol : Z; ip_sum : Z;
  ip_src : Z; ip_dst : Z   (* in_addr_t, network byte order *)
}.

(** The bit fields of [ip_vhl]. *)
Definition ip_ihl (ip : mapper_ip_t) : Z := Z.land (ip_vhl ip) 15.
Definition ip_version (ip : mapper_ip_t) : Z := Z.shiftr (ip_vhl ip) 4.

Definition payload_size : nat := 33.

Record mapper_t : Type := MkMapper {
  m_ethernet : mapper_ethernet_t;
  m_ip : mapper_ip_t;
  m_payload : list Z
}.

Definition sizeof_ethernet : Z := 14.
Definition sizeof_ip : Z := 20.

(** ** The function *)

(** [be16toh] of a 16-bit value. *)
Definition be16toh (v : Z) : Z := Z.lor (Z.land (Z.shiftl v 8) 65280) (Z.shiftr v 8).

(** The unsigned integer of [n] bytes at an offset of the copied headers. *)
Definition field (hdr : list Z) (off n : nat) : Z := le_val (take n (drop off hdr)).

(** The two headers after the copy and the conversions. *)
Definition map_ethernet (hdr : list Z) : mapper_ethernet_t :=
  MkEth (take 6 hdr) (take 6 (drop 6 hdr)) (be16toh (field hdr 12 2)).
Definition map_ip (hdr : list Z) : mapper_ip_t :=
  MkIp (field hdr 14 1) (field hdr 15 1) (be16toh (field hdr 16 2)) (be16toh (field hdr 18 2))
    (be16toh (field hdr 20 2)) (field hdr 22 1) (field hdr 23 1) (be16toh (field hdr 24 2))
    (field hdr 26 4) (field hdr 30 4).

(** "0123456789ABCDEF" and its terminator. *)
Definition gc_hexChars : list Z := [48; 49; 50; 51; 52; 53; 54; 55; 56; 57; 65; 66; 67; 68; 69; 70; 0].

(** The loop: [n] further iterations from [i] on; [payload] is a [char*]. *)
Fixpoint payload_loop (n i : nat) (frame : list Z) (base : nat) (out : list Z) : res (list Z) :=
  match n with
  | O => Ok out
  | S n' =>
      b ← rd frame (base + i);
      let c := swrap 8 b in
      h1 ← rd gc_hexChars (Z.to_nat (Z.land (Z.shiftr c 4) 15));
      out ← wr out (2 * i) h1;
      h2 ← rd gc_hexChars (Z.to_nat (Z.land c 15));
      out ← wr out (2 * i + 1) h2;
      payload_loop n' (S i) frame base out
  end.

(** [MIN(16, framelen - sizeof(mapper_ethernet_t) - size_ip)], unsigned. *)
Definition payload_count (framelen size_ip : Z) : Z :=
  let rest := u64 (framelen - sizeof_ethernet - size_ip) in
  if 16 <? rest then 16 else rest.

Definition mapFrame (frame : list Z) (framelen : Z) : res (bool * mapper_t) :=
  hdr ← memcpy (replicate 34 0) 0 frame 0 (Z.to_nat (sizeof_ethernet + sizeof_ip));
  let eth := map_ethernet hdr in
  let ip := map_ip hdr in
  let size_ip := ip_ihl ip * 4 in
  if size_ip <? 20 then Ok (false, MkMapper eth ip (replicate payload_size 0))
  else
    let n := Z.to_nat (payload_count framelen size_ip) in
    out ← payload_loop n 0 frame (Z.to_nat (sizeof_ethernet + size_ip)) (replicate payload_size 0);
    out ← wr out (2 * n) 0;
    Ok (true, MkMapper eth ip out).

(** ** Specification *)

(** Reading a 16-bit field in network byte order. *)
Definition be16 (frame : list Z) (off : nat) : Z := default 0 (frame !! off) * 256 + default 0 (frame !! S off).

Definition hex_digit (d : Z) : Z := default 0 (gc_hexChars !! Z.to_nat d).
Definition hex (bs : list Z) : list Z := b ← bs; [hex_digit (b / 16); hex_digit (b mod 16)].

(** The value of a hexadecimal digit, and the bytes of a hexadecimal string. *)
Definition unhex_digit (c : Z) : Z := if c <? 65 then c - 48 else c - 55.
Fixpoint unhex (s : list Z) : list Z :=
  match s with
  | c1 :: c2 :: s' => unhex_digit c1 * 16 + unhex_digit c2 :: unhex s'
  | _ => []
  end.

Lemma byte_cases b : is_byte b -> In b (Z.of_nat <$> seq 0 256).
Proof.
  intros Hb. assert (0 <= b < 256) by exact Hb. apply list_elem_of_In, list_elem_of_fmap.
  exists (Z.to_nat b). split; [lia|]. apply elem_of_seq. lia.
Qed.

(** A decidable property of all bytes, by evaluation. *)
Lemma all_bytes (P : Z -> Prop) `{!forall b, Decision (P b)} :
  forallb (fun b => bool_decide (P b)) (Z.of_nat <$> seq 0 256) = true -> forall b, is_byte b -> P b.
Proof.
  intros Ha b Hb. rewrite forallb_forall in Ha. specialize (Ha b (byte_cases b Hb)). by apply bool_decide_eq_true in Ha.
Qed.

Ltac check_bytes :=
  match goal with |- forall b, is_byte b -> @?P b => apply (all_bytes P); vm_compute; reflexivity end.

Lemma hex_digits b :
  is_byte b ->
  rd gc_hexChars (Z.to_nat (Z.land (Z.shiftr (swrap 8 b) 4) 15)) = Ok (hex_digit (b / 16)) /\
  rd gc_hexChars (Z.to_nat (Z.land (swrap 8 b) 15)) = Ok (hex_digit (b mod 16)) /\
  (0 < hex_digit (b / 16) < 256 /\ 0 < hex_digit (b mod 16) < 256) /\
  unhex_digit (hex_digit (b / 16)) * 16 + unhex_digit (hex_digit (b mod 16)) = b.
Proof.
  intros Hb. repeat split; revert b Hb; check_bytes.
Qed.

Lemma unhex_hex bs : Forall is_byte bs -> unhex (hex bs) = bs.
Proof.
  induction 1 as [|b bs Hb _ IH]; [done|]. cbn. destruct (hex_digits b Hb) as (_ & _ & _ & ->).
  f_equal. exact IH.
Qed.

Lemma length_hex bs : length (hex bs) = (2 * length bs)%nat.
Proof. induction bs as [|b bs IH]; [done|]. cbn -[Nat.mul]. cbn in IH. unfold hex in IH. rewrite IH. lia. Qed.

Lemma hex_snoc bs b : hex (bs ++ [b]) = hex bs ++ [hex_digit (b / 16); hex_digit (b mod 16)].
Proof. unfold hex. by rewrite bind_app. Qed.

Lemma hex_key bs : Forall is_byte bs -> key_ok (hex bs).
Proof.
  induction 1 as [|b bs Hb _ IH]; [constructor|]. destruct (hex_digits b Hb) as (_ & _ & [H1 H2] & _).
  constructor; [done|]. constructor; [done|]. exact IH.
Qed.

Lemma wr_end {A} (l r : list A) (x y : A) : wr (l ++ x :: r) (length l) y = Ok (l ++ y :: r).
Proof.
  unfold wr. rewrite decide_True by (rewrite length_app; cbn; lia).
  by rewrite insert_app_r_alt, Nat.sub_diag by lia.
Qed.

Lemma wr_at {A} (l r : list A) i (x y : A) : i = length l -> wr (l ++ x :: r) i y = Ok (l ++ y :: r).
Proof. intros ->. apply wr_end. Qed.

(** The loop writes the digits of the next bytes behind those already there. *)
Lemma payload_loop_ok bs n done_ frame base k :
  Forall is_byte frame -> take n (drop (base + length done_) frame) = bs -> length bs = n ->
  (2 * n <= k)%nat ->
  payload_loop n (length done_) frame base (hex done_ ++ replicate k 0) =
    Ok (hex (done_ ++ bs) ++ replicate (k - 2 * n) 0).
Proof.
  intros Hf. revert done_ k bs. induction n as [|n IH]; intros d k bs Hbs Hl Hk.
  - subst bs. cbn. by rewrite take_0, app_nil_r, Nat.sub_0_r.
  - destruct bs as [|b bs]; [done|]. cbn [payload_loop].
    assert (Hb : frame !! (base + length d)%nat = Some b).
    { rewrite <- (Nat.add_0_r (base + length d)), <- lookup_drop.
      rewrite <- (lookup_take_lt _ (S n)) by lia. by rewrite Hbs. }
    assert (Hbyte : is_byte b) by (rewrite list.Forall_forall in Hf; eapply Hf, list_elem_of_lookup_2, Hb).
    destruct (hex_digits b Hbyte) as (H1 & H2 & _). rewrite (rd_lookup _ _ _ Hb). cbn [mbind res_bind].
    rewrite H1. cbn [mbind res_bind]. destruct k as [|[|k]]; [lia..|]. cbn [replicate].
    rewrite wr_at by (rewrite length_hex; lia). cbn [mbind res_bind]. rewrite H2. cbn [mbind res_bind].
    change (hex d ++ hex_digit (b / 16) :: 0 :: replicate k 0) with (hex d ++ [hex_digit (b / 16)] ++ 0 :: replicate k 0).
    rewrite app_assoc, wr_at by (rewrite length_app, length_hex; cbn; lia). cbn [mbind res_bind].
    rewrite <- app_assoc.
    replace (hex d ++ [hex_digit (b / 16)] ++ hex_digit (b mod 16) :: replicate k 0)
      with (hex (d ++ [b]) ++ replicate k 0) by (rewrite hex_snoc, <- app_assoc; done).
    specialize (IH (d ++ [b]) k bs). rewrite length_app in IH. cbn [length] in IH.
    rewrite Nat.add_1_r in IH. rewrite IH.
    + rewrite <- app_assoc. do 3 f_equal. lia.
    + rewrite Nat.add_succ_r. erewrite drop_S in Hbs by exact Hb. cbn in Hbs. by injection Hbs.
    + cbn in Hl. lia.
    + lia.
Qed.

(** The loop reads behind the frame when the frame is too short. *)
Lemma payload_loop_overread n i frame base out :
  (length frame <= base + i)%nat -> payload_loop (S n) i frame base out = Err OutOfBounds.
Proof.
  intros H. assert (E : rd frame (base + i) = Err OutOfBounds) by (unfold rd; by rewrite lookup_ge_None_2).
  cbn [payload_loop]. by rewrite E.
Qed.

Lemma be16toh_bytes a b : is_byte a -> is_byte b -> be16toh (a + 256 * (b + 256 * 0)) = a * 256 + b.
Proof.
  intros Ha. revert b. apply (all_bytes (fun b => be16toh (a + 256 * (b + 256 * 0)) = a * 256 + b)).
  revert a Ha. check_bytes.
Qed.

Lemma be16_field frame off :
  Forall is_byte frame -> (S off < length frame)%nat -> be16toh (field frame off 2) = be16 frame off.
Proof.
  intros Hf Hl. destruct (lookup_lt_is_Some_2 frame off ltac:(lia)) as [a Ha].
  destruct (lookup_lt_is_Some_2 frame (S off) Hl) as [b Hb]. rewrite list.Forall_forall in Hf.
  unfold field, be16. rewrite (drop_S _ _ _ Ha), (drop_S _ _ _ Hb), Ha, Hb.
  apply be16toh_bytes; eapply Hf, list_elem_of_lookup_2; eassumption.
Qed.

Lemma header_copied frame :
  (34 <= length frame)%nat ->
  memcpy (replicate 34 0) 0 frame 0 (Z.to_nat (sizeof_ethernet + sizeof_ip)) = Ok (take 34 frame).
Proof.
  intros H. unfold memcpy. change (Z.to_nat (sizeof_ethernet + sizeof_ip)) with 34%nat.
  rewrite decide_True by (rewrite length_replicate; lia).
  change (drop (0 + 34) (replicate 34 0)) with (@nil Z). by rewrite drop_0, app_nil_r.
Qed.

Lemma field_take frame off n : (off + n <= 34)%nat -> field (take 34 frame) off n = field frame off n.
Proof. intros H. unfold field. rewrite skipn_firstn_comm, take_take. f_equal. f_equal. lia. Qed.

(** The header length in bytes that the frame claims. *)
Definition header_length (frame : list Z) : Z := Z.land (field frame 14 1) 15 * 4.

Lemma header_length_range frame : 0 <= header_length frame <= 60.
Proof.
  unfold header_length. change 15 with (Z.ones 4). rewrite Z.land_ones by lia.
  pose proof (Z.mod_pos_bound (field frame 14 1) (2 ^ 4)). change (2 ^ 4) with 16 in *. lia.
Qed.

(** The two headers of a frame, field by field. *)
Record headers_decoded (frame : list Z) (m : mapper_t) : Prop := {
  dec_dhost : eth_dhost (m_ethernet m) = take 6 frame;
  dec_shost : eth_shost (m_ethernet m) = take 6 (drop 6 frame);
  dec_type : eth_type (m_ethernet m) = be16 frame 12;
  dec_vhl : frame !! 14%nat = Some (ip_vhl (m_ip m));
  dec_version : frame !! 14%nat = Some (ip_version (m_ip m) * 16 + ip_ihl (m_ip m));
  dec_ihl : 0 <= ip_ihl (m_ip m) < 16;
  dec_tos : frame !! 15%nat = Some (ip_tos (m_ip m));
  dec_len : ip_len (m_ip m) = be16 frame 16;
  dec_id : ip_id (m_ip m) = be16 frame 18;
  dec_off : ip_off (m_ip m) = be16 frame 20;
  dec_ttl : frame !! 22%nat = Some (ip_ttl (m_ip m));
  dec_protocol : frame !! 23%nat = Some (ip_protocol (m_ip m));
  dec_sum : ip_sum (m_ip m) = be16 frame 24;
  dec_src : le_bytes 4 (ip_src (m_ip m)) = take 4 (drop 26 frame);
  dec_dst : le_bytes 4 (ip_dst (m_ip m)) = take 4 (drop 30 frame)
}.

(** What a caller may rely on about a decoded frame. *)
Record decoded (frame : list Z) (m : mapper_t) : Prop := {
  dec_headers : headers_decoded frame m;
  dec_payload : exists s, c_string (m_payload m) s /\ length (m_payload m) = payload_size /\
    unhex s = take 16 (drop (Z.to_nat (sizeof_ethernet + header_length frame)) frame)
}.

Lemma addr_field frame off :
  Forall is_byte frame -> (off + 4 <= length frame)%nat -> le_bytes 4 (field frame off 4) = take 4 (drop off frame).
Proof.
  intros Hf Hl. unfold field.
  rewrite <- (le_bytes_val (take 4 (drop off frame))) at 2 by (by apply Forall_take, Forall_drop).
  rewrite length_take, length_drop. by replace (4 `min` (length frame - off))%nat with 4%nat by lia.
Qed.

Lemma byte_field frame off : (off < length frame)%nat -> frame !! off = Some (field frame off 1).
Proof.
  intros Hl. destruct (lookup_lt_is_Some_2 frame off Hl) as [b Hb]. unfold field. rewrite (drop_S _ _ _ Hb), Hb.
  change (Some b = Some (b + 256 * 0)). f_equal. lia.
Qed.

Lemma nibbles v : Z.shiftr v 4 * 16 + Z.land v 15 = v /\ 0 <= Z.land v 15 < 16.
Proof.
  change 15 with (Z.ones 4). rewrite Z.land_ones, Z.shiftr_div_pow2 by lia. change (2 ^ 4) with 16.
  pose proof (Z.div_mod v 16 ltac:(lia)). pose proof (Z.mod_pos_bound v 16). lia.
Qed.

Lemma headers_ok frame out :
  Forall is_byte frame -> (34 <= length frame)%nat ->
  headers_decoded frame (MkMapper (map_ethernet (take 34 frame)) (map_ip (take 34 frame)) out).
Proof.
  intros Hf Hl.
  split; cbn [m_ethernet m_ip map_ethernet map_ip eth_dhost eth_shost eth_type ip_vhl ip_tos ip_len ip_id ip_off ip_ttl
    ip_protocol ip_sum ip_src ip_dst]; unfold ip_version, ip_ihl; cbn [ip_vhl map_ip];
    rewrite ?field_take, ?be16_field, ?addr_field by (done || lia); try done;
    try (rewrite byte_field by lia); try done.
  - rewrite take_take. f_equal.
  - rewrite skipn_firstn_comm, take_take. f_equal.
  - by rewrite (proj1 (nibbles _)).
  - apply nibbles.
Qed.

Lemma payload_count_ok n hl :
  0 <= hl -> 14 + hl <= n < 2 ^ 64 -> payload_count n hl = Z.min 16 (n - 14 - hl).
Proof.
  intros H0 H. unfold payload_count, sizeof_ethernet. rewrite wrap_small by (unfold is_u; lia).
  destruct (Z.ltb_spec 16 (n - 14 - hl)); lia.
Qed.

Lemma payload_count_underflow n hl : 0 <= hl <= 60 -> 0 <= n < 14 + hl -> payload_count n hl = 16.
Proof.
  intros H0 H. unfold payload_count, sizeof_ethernet, wrap.
  replace ((n - 14 - hl) mod 2 ^ 64) with (n - 14 - hl + 2 ^ 64)
    by (apply Z.mod_unique with (-1); lia).
  by rewrite (proj2 (Z.ltb_lt 16 _)) by lia.
Qed.

Lemma hex_is_byte bs : Forall is_byte bs -> Forall is_byte (hex bs).
Proof.
  intros H%hex_key. eapply list.Forall_impl; [exact H|]. cbv beta. intros b Hb. unfold is_u. change (2 ^ 8) with 256. lia.
Qed.

(** The payload of a frame that is long enough. *)
Lemma payload_decoded frame base n :
  Forall is_byte frame -> (base <= length frame)%nat -> n = Nat.min 16 (length frame - base) ->
  exists out, (out ← payload_loop n 0 frame base (replicate payload_size 0); wr out (2 * n) 0) = Ok out /\
    exists s, c_string out s /\ length out = payload_size /\ unhex s = take 16 (drop base frame).
Proof.
  intros Hf Hb Hn. set (bs := take 16 (drop base frame)).
  assert (Hbs : Forall is_byte bs) by (by apply Forall_take, Forall_drop).
  assert (Hl : length bs = n) by (unfold bs; rewrite length_take, length_drop; lia).
  assert (Hr : payload_loop n 0 frame base (replicate payload_size 0) = Ok (hex bs ++ 0 :: replicate (32 - 2 * n) 0)).
  { pose proof (payload_loop_ok bs n [] frame base payload_size Hf) as P. cbn [length hex mbind list_bind app] in P.
    rewrite Nat.add_0_r in P. rewrite P; [|..].
    - unfold payload_size. replace (33 - 2 * n)%nat with (S (32 - 2 * n)) by lia. done.
    - subst bs n. destruct (Nat.min_spec 16 (length frame - base)) as [[_ ->]|[Hle ->]]; [done|].
      by rewrite !take_ge by (rewrite length_drop; lia).
    - done.
    - unfold payload_size. lia. }
  rewrite Hr. cbn [mbind res_bind]. rewrite wr_at by (rewrite length_hex; lia). eexists. split; [done|].
  exists (hex bs). split; [|split].
  - split; [by apply hex_key|]. split.
    + exists (replicate (32 - 2 * n) 0). unfold term. by rewrite <- app_assoc.
    + apply list.Forall_app. split; [by apply hex_is_byte|]. constructor; [done|]. by apply Forall_replicate.
  - rewrite length_app, length_hex. cbn [length]. rewrite length_replicate. unfold payload_size. lia.
  - by apply unhex_hex.
Qed.

Lemma map_frame_ok frame :
  Forall is_byte frame -> Z.of_nat (length frame) < 2 ^ 64 ->
  let n := Z.of_nat (length frame) in
  let hl := header_length frame in
  (n < 34 -> mapFrame frame n = Err OutOfBounds) /\
  (34 <= n -> hl < 20 -> exists m, mapFrame frame n = Ok (false, m) /\ headers_decoded frame m) /\
  (34 <= n -> 20 <= hl -> n < 14 + hl -> mapFrame frame n = Err OutOfBounds) /\
  (34 <= n -> 20 <= hl -> 14 + hl <= n -> exists m, mapFrame frame n = Ok (true, m) /\ decoded frame m).
Proof.
  intros Hf Hmax n hl. pose proof (header_length_range frame) as Hhl. fold hl in Hhl.
  assert (Hip : (34 <= length frame)%nat -> ip_ihl (map_ip (take 34 frame)) * 4 = hl)
    by (intros; unfold ip_ihl, map_ip; cbn [ip_vhl]; by rewrite field_take by lia).
  unfold mapFrame. split; [|split; [|split]].
  - intros Hn. unfold memcpy. change (Z.to_nat (sizeof_ethernet + sizeof_ip)) with 34%nat. by rewrite decide_False by lia.
  - intros Hn Hlt. rewrite header_copied by lia. cbn [mbind res_bind]. rewrite Hip by lia.
    rewrite (proj2 (Z.ltb_lt _ _)) by lia. eexists. split; [done|]. apply headers_ok; [done|lia].
  - intros Hn Hge Hshort. rewrite header_copied by lia. cbn [mbind res_bind]. rewrite Hip by lia.
    rewrite (proj2 (Z.ltb_ge _ _)) by lia. rewrite payload_count_underflow by lia.
    change (Z.to_nat 16) with 16%nat. by rewrite payload_loop_overread by (unfold sizeof_ethernet; lia).
  - intros Hn Hge Hlong. rewrite header_copied by lia. cbn [mbind res_bind]. rewrite Hip by lia.
    rewrite (proj2 (Z.ltb_ge _ _)) by lia. rewrite payload_count_ok by lia.
    destruct (payload_decoded frame (Z.to_nat (sizeof_ethernet + hl)) (Z.to_nat (Z.min 16 (n - 14 - hl)))) as (out & E & Hp);
      [done|unfold sizeof_ethernet; lia..|].
    destruct (payload_loop _ _ _ _ _) as [out'|]; [|done]. cbn [mbind res_bind] in *. rewrite E. cbn [mbind res_bind].
    eexists. split; [done|].
    split; [apply headers_ok; [done|lia]|exact Hp].
Qed.

(** C15: [mapFrame] on every frame.  Frames of less than 34 bytes and frames
    that end inside the IP header they announce are read behind their end;
    frames whose header length is below 20 bytes are rejected, with both headers
    filled in; all others are decoded.  Every field of the two headers is stated:
    the hardware addresses and the type, version and header length, type of
    service, the big-endian fields, time to live, protocol and the two IP
    addresses; the payload is a terminated hexadecimal string that decodes to the
    first 16 bytes behind the header. *)
Theorem map_frame_spec frame :
  Forall is_byte frame -> Z.of_nat (length frame) < 2 ^ 64 ->
  let n := Z.of_nat (length frame) in
  let hl := header_length frame in
  (n < 34 -> mapFrame frame n = Err OutOfBounds) /\
  (34 <= n -> hl < 20 -> exists m, mapFrame frame n = Ok (false, m) /\ headers_decoded frame m) /\
  (34 <= n -> 20 <= hl -> n < 14 + hl -> mapFrame frame n = Err OutOfBounds) /\
  (34 <= n -> 20 <= hl -> 14 + hl <= n -> exists m, mapFrame frame n = Ok (true, m) /\ decoded frame m).
Proof. apply map_frame_ok. Qed.

(** A frame of 14 + 20 + 2 bytes with IP header length 5. *)
Definition sample_frame : list Z :=
  [1; 2; 3; 4; 5; 6; 17; 18; 19; 20; 21; 22; 8; 0; 69; 0; 0; 22; 0; 7; 64; 0; 63; 6; 171; 205;
   10; 0; 0; 1; 10; 0; 0; 2; 202; 254].

Lemma map_frame_spec_witness :
  exists m, mapFrame sample_frame 36 = Ok (true, m) /\ decoded sample_frame m.
Proof.
  destruct (map_frame_spec sample_frame ltac:(decide_closed) ltac:(reflexivity)) as (_ & _ & _ & H).
  apply H; vm_compute; discriminate.
Defined.

End Mapper.
