(* ===== verification/Svc.v ===== *)
(** * Status codes, locks, updates and the state of the service

    Models [src/svc_kernel/svc_status.h], [svc_lock.c], [svc_update.c] and the
    status functions of [svc_kernel.c].  [svcKernelStatus] loads the status
    and later stores the new one; both accesses are atomic but another thread
    or a signal handler may run between them, so besides the function there is
    a step relation with one program counter per caller. *)

From stdpp Require Import gmap.
From S2P Require Import Prelude.

Module Svc.

(** ** Status codes *)

Definition KSTATUS_SUCCESS : Z := 0.
Definition KSTATUS_UNSUCCESS : Z := 1.
Definition KSTATUS_OUT_OF_MEMORY : Z := 2.
Definition KSTATUS_SVC_IS_STOPPING : Z := 3.
Definition KSTATUS_DB_MOUNT_ERROR : Z := 4.
Definition KSTATUS_DB_EXEC_ERROR : Z := 5.
Definition KSTATUS_CMDMGR_COMMAND_NOT_FOUND : Z := 6.
Definition KSTATUS_PSMGR_IDLE_MASK_SIGNALS : Z := 7.
Definition KSTATUS_PSMGR_IDLE_WAITPID : Z := 8.
Definition KSTATUS_INVALID_PARAMETERS : Z := 9.
Definition KSTATUS_DB_OPEN_ERROR : Z := 10.
Definition KSTATUS_DB_INCOMPATIBLE_STATE : Z := 11.

Definition KSUCCESS (var : Z) : bool := var =? KSTATUS_SUCCESS.

(** ** Locks

    [M]: the type of a mutex; the [pthread] calls are parameters. *)
Section lock.
Context {M : Type} (pthread_mutex_init pthread_mutex_destroy pthread_mutex_lock pthread_mutex_unlock : M -> M).

Definition lock_init (locker : M) : Z * M := (KSTATUS_SUCCESS, pthread_mutex_init locker).
Definition lock_destroy (locker : M) : M := pthread_mutex_destroy locker.
Definition lock (locker : M) : Z * M := (KSTATUS_SUCCESS, pthread_mutex_lock locker).
Definition unlock (locker : M) : Z * M := (KSTATUS_SUCCESS, pthread_mutex_unlock locker).
End lock.

(** ** Updates *)

Definition svcUpdateStart : Z := KSTATUS_SUCCESS.
Definition svcUpdateRegisterChange (versionMajor versionMinor : Z) : Z := KSTATUS_SUCCESS.
Definition svcUpdateSync : Z := KSTATUS_SUCCESS.

(** ** The state of the service *)

Definition SVC_KERNEL_STATUS_START_PENDING : Z := 1.
Definition SVC_KERNEL_STATUS_RUNNING : Z := 2.
Definition SVC_KERNEL_STATUS_STOP_PENDING : Z := 3.

(** The new status a request stores after loading [old_status]. *)
Definition new_status (requested_status old_status : Z) : option Z :=
  if (requested_status =? SVC_KERNEL_STATUS_STOP_PENDING) &&
     ((old_status =? SVC_KERNEL_STATUS_START_PENDING) || (old_status =? SVC_KERNEL_STATUS_RUNNING))
  then Some SVC_KERNEL_STATUS_STOP_PENDING
  else if (requested_status =? SVC_KERNEL_STATUS_RUNNING) && (old_status =? SVC_KERNEL_STATUS_START_PENDING)
  then Some SVC_KERNEL_STATUS_RUNNING
  else None.

(** [svcKernelStatus] without interference: the result and the status. *)
Definition svcKernelStatus (status requested_status : Z) : Z * Z :=
  match new_status requested_status status with
  | Some s => (KSTATUS_SUCCESS, s)
  | None => (KSTATUS_UNSUCCESS, status)
  end.

Definition svcKernelGetCurrentStatus (status : Z) : Z := status.

Definition svcKernelIsRunning (status : Z) : bool :=
  (svcKernelGetCurrentStatus status =? SVC_KERNEL_STATUS_RUNNING) ||
  (svcKernelGetCurrentStatus status =? SVC_KERNEL_STATUS_START_PENDING).

(** Callers of [svcKernelStatus]: before the load, before the store, and after
    the return with its result. *)
Inductive caller : Type :=
| Loading (requested : Z)
| Storing (requested old : Z)
| Returned (requested result : Z).

Inductive status_step : Z * list caller -> Z * list caller -> Prop :=
| s_load st cs i r : cs !! i = Some (Loading r) ->
    status_step (st, cs) (st, <[i := Storing r st]> cs)
| s_store st cs i r old s : cs !! i = Some (Storing r old) -> new_status r old = Some s ->
    status_step (st, cs) (s, <[i := Returned r KSTATUS_SUCCESS]> cs)
| s_refuse st cs i r old : cs !! i = Some (Storing r old) -> new_status r old = None ->
    status_step (st, cs) (st, <[i := Returned r KSTATUS_UNSUCCESS]> cs).

(** ** Correctness *)

Definition valid_status (s : Z) : Prop := In s [1; 2; 3].

Lemma status_cases r s :
  valid_status s ->
  let '(k, s') := svcKernelStatus s r in
  valid_status s' /\ s <= s' /\
  (k = KSTATUS_SUCCESS <-> s < s') /\ (k <> KSTATUS_SUCCESS -> s' = s) /\
  (r = SVC_KERNEL_STATUS_STOP_PENDING -> svcKernelIsRunning s' = false).
Proof.
  unfold svcKernelStatus, new_status, svcKernelIsRunning, svcKernelGetCurrentStatus, valid_status,
    SVC_KERNEL_STATUS_START_PENDING, SVC_KERNEL_STATUS_RUNNING, SVC_KERNEL_STATUS_STOP_PENDING,
    KSTATUS_SUCCESS, KSTATUS_UNSUCCESS.
  intros [<-|[<-|[<-|[]]]]; destruct (Z.eqb_spec r 3) as [->|]; try destruct (Z.eqb_spec r 2) as [->|];
    cbn; repeat split; try lia; try tauto.
Qed.

(** C20: requests served one after the other, from any valid state and in any
    order, only ever move the service forward from starting through running to
    stopping, and after a request to stop the service never counts as running
    again, whatever follows. *)
Theorem kernel_status_forward s rs s' :
  valid_status s -> s' = foldl (fun s r => (svcKernelStatus s r).2) s rs ->
  valid_status s' /\ s <= s' /\ (SVC_KERNEL_STATUS_STOP_PENDING ∈ rs -> svcKernelIsRunning s' = false).
Proof.
  intros Hv ->. revert s Hv. induction rs as [|r rs IH]; intros s Hv; cbn [foldl].
  { split_and!; [done|lia|]. by intros ?%elem_of_nil. }
  pose proof (status_cases r s Hv) as Hc. destruct (svcKernelStatus s r) as [k s1]. cbn [snd].
  destruct Hc as (Hv1 & Hle & _ & _ & Hstop). destruct (IH s1 Hv1) as (Hv2 & Hle2 & Hrun).
  split_and!; [done|lia|]. intros [E|Hin]%elem_of_cons; [|by apply Hrun].
  specialize (Hstop (eq_sym E)). revert Hle2 Hv2 Hstop.
  generalize (foldl (fun s r => (svcKernelStatus s r).2) s1 rs). intros s2.
  unfold svcKernelIsRunning, svcKernelGetCurrentStatus, valid_status in *.
  intros Hle2 Hv2 Hstop. destruct Hv1 as [<-|[<-|[<-|[]]]]; [done|done|].
  destruct Hv2 as [<-|[<-|[<-|[]]]]; [lia|lia|done].
Qed.

Lemma kernel_status_forward_witness :
  svcKernelIsRunning (foldl (fun s r => (svcKernelStatus s r).2) 1 [2; 3; 2]) = false.
Proof.
  destruct (kernel_status_forward 1 [2; 3; 2] _ ltac:(by left) eq_refl) as (_ & _ & H). apply H. decide_closed.
Defined.

(** The same does not hold with interference.  While the main program is
    between the load and the store of its request to run, a request to stop,
    as the signal handler makes it, is accepted and then overwritten. *)
Theorem kernel_stop_lost :
  exists cs, rtc status_step
    (SVC_KERNEL_STATUS_START_PENDING,
       [Loading SVC_KERNEL_STATUS_RUNNING; Loading SVC_KERNEL_STATUS_STOP_PENDING])
    (SVC_KERNEL_STATUS_RUNNING, cs) /\
    cs = [Returned SVC_KERNEL_STATUS_RUNNING KSTATUS_SUCCESS;
          Returned SVC_KERNEL_STATUS_STOP_PENDING KSTATUS_SUCCESS].
Proof.
  eexists. split; [|reflexivity].
  eapply rtc_l; [eapply (s_load _ _ 0); reflexivity|].
  eapply rtc_l; [eapply (s_load _ _ 1); reflexivity|].
  eapply rtc_l; [eapply (s_store _ _ 1); reflexivity|].
  eapply rtc_l; [eapply (s_store _ _ 0); reflexivity|]. apply rtc_refl.
Qed.

End Svc.
