(* ===== verification/Stats.v ===== *)
(** * The statistics service

    Models [src/svc_kernel/svc_statistics.c].  A statistics list lives in an
    entry of the doubly linked list of the manager and stores pointers to
    counters in a string map; the map is used through the interface
    [StringMap], which the adaptive radix tree implements.  The bytes of a
    list ([stats_list_t] and its name) are the user data of the entry; the
    tree inside it is kept beside them, under the address of the list.
    Counters are cells of a memory of their own.  Log output of the dump is
    its result; other log output is left out. *)

From stdpp Require Import gmap.
From S2P Require Import Prelude CString DList Svc.

Module Stats.
Import CStr DList Svc.

(** ** Data *)

(** [sizeof(stats_list_t)]: the name pointer, the root pointer and the size. *)
Definition sizeof_stats_list : nat := 24.

Record stats_entry_t : Type := MkCounter { c_flags : Z; c_value : Z (* unsigned long long *) }.

#[export] Instance stats_entry_eq_dec : EqDecision stats_entry_t.
Proof. solve_decision. Defined.

Definition STATS_FLAGS_TYPE_SUM : Z := 1.
Definition STATS_FLAGS_TYPE_LAST : Z := 2.

(** The switch of [statsUpdate]: the result and the new counter. *)
Definition update_counter (c : stats_entry_t) (value : Z) : Z * stats_entry_t :=
  if c_flags c =? STATS_FLAGS_TYPE_SUM then
    let v := u64 (c_value c + value) in (v, MkCounter (c_flags c) v)
  else if c_flags c =? STATS_FLAGS_TYPE_LAST then (value, MkCounter (c_flags c) value)
  else (0, c).

Section stats.
Context {T : Type} `{SM : StringMap T}.

(** [st_list]: [g_statsMgr._statsList]; [st_mem]: the counters. *)
Record stats_mgr_t : Type := MkStats {
  st_heap : heap;
  st_list : Z;
  st_trees : gmap Z T;
  st_mem : gmap Z stats_entry_t
}.

Definition set_heap (st : stats_mgr_t) (h : heap) : stats_mgr_t := MkStats h (st_list st) (st_trees st) (st_mem st).
Definition set_tree (st : stats_mgr_t) (p : Z) (t : T) : stats_mgr_t :=
  MkStats (st_heap st) (st_list st) (<[p := t]> (st_trees st)) (st_mem st).
Definition set_counter (st : stats_mgr_t) (p : Z) (c : stats_entry_t) : stats_mgr_t :=
  MkStats (st_heap st) (st_list st) (st_trees st) (<[p := c]> (st_mem st)).

(** The tree of the list at [p]. *)
Definition tree_of (st : stats_mgr_t) (p : Z) : res T :=
  if p =? 0 then Err NullDeref
  else match st_trees st !! p with Some t => Ok t | None => Err UseAfterFree end.

(** A counter. *)
Definition counter_of (st : stats_mgr_t) (p : Z) : res stats_entry_t :=
  if p =? 0 then Err NullDeref
  else match st_mem st !! p with Some c => Ok c | None => Err UseAfterFree end.

(** ** The manager *)

(** [plist]: what [malloc] returns for the list. *)
Definition statsmgrStart (st : stats_mgr_t) (plist : Z) : res (Z * stats_mgr_t) :=
  '(l, h) ← doublylinkedlistAlloc (st_heap st) plist;
  let st := MkStats h l (st_trees st) (st_mem st) in
  Ok (if l =? 0 then KSTATUS_UNSUCCESS else KSTATUS_SUCCESS, st).

Definition statsmgrStop (st : stats_mgr_t) : res stats_mgr_t :=
  h ← doublylinkedlistFreeDeletedEntries (st_heap st) (st_list st);
  h ← doublylinkedlistFree h (st_list st);
  Ok (set_heap st h).

(** One line of the dump: flags, value and name of a counter. *)
Definition line : Type := Z * Z * list Z.

(** The callback reads the counter; an error ends the dump. *)
Definition i_statsmgrDumpSingleListCallback (st : stats_mgr_t) (out : res (list line)) (key : list Z)
    (key_len : nat) (value : Z) : res (list line) * Z :=
  (ls ← out; c ← counter_of st value; Ok (ls ++ [(c_flags c, c_value c, take key_len key)]), 0).

(** [t]: the tree of the list.  The size, the lines and the status. *)
Definition i_statsmgrDumpSingleList (st : stats_mgr_t) (t : T) : res (Z * list line * Z) :=
  '(out, r) ← sm_iter _ (i_statsmgrDumpSingleListCallback st) t (Ok []);
  ls ← out;
  Ok (sm_size t, ls, if r =? 0 then KSTATUS_SUCCESS else KSTATUS_UNSUCCESS).

(** The loop of [statsmgrDump] over the records of the query.  The source walks
    the tree through the root pointer that the query copied; here the copied
    name pointer tells which list the record is a copy of, and its tree is that
    list's, which is the same as long as no counter is registered during the
    dump. *)
Fixpoint dump_loop (fuel : nat) (st : stats_mgr_t) (buf : list Z) (off : nat) : res (list (Z * list line)) :=
  match fuel with
  | O => Err Diverges
  | S fuel' =>
      e ← doublylinkedlistQueryIsEnd buf off;
      if e : bool then Ok []
      else
        name ← get buf (off + sizeof_query) 8;
        t ← tree_of st (name - Z.of_nat sizeof_stats_list);
        '(n, ls, _) ← i_statsmgrDumpSingleList st t;
        off ← doublylinkedlistQueryNext buf off;
        r ← dump_loop fuel' st buf off;
        Ok ((n, ls) :: r)
  end.

(** [buff], [base]: the bytes and the address of the buffer on the stack. *)
Definition statsmgrDump (st : stats_mgr_t) (buff : list Z) (base : Z) : res (Z * list (Z * list line)) :=
  '(ok, buff, _) ← doublylinkedlistQuery (st_heap st) (st_list st) buff base 4096;
  if negb ok then Ok (KSTATUS_UNSUCCESS, [])
  else r ← dump_loop 4096 st buff 0; Ok (KSTATUS_SUCCESS, r).

(** ** Lists *)

(** The bytes of a new list: its name pointer, an empty tree, its name. *)
Definition list_bytes (name_ptr : Z) (listName : list Z) (len : nat) : list Z :=
  le_bytes 8 name_ptr ++ replicate 16 0 ++ take len listName ++ [0].

(** [tmp]: what [malloc] returns for the temporary copy; [p]: for the entry.
    The key is read as eight bytes of the name. *)
Definition statsCreate (st : stats_mgr_t) (listName : list Z) (tmp p : Z) : res (Z * stats_mgr_t) :=
  len ← strlen listName;
  let additional_space := u32 (Z.of_nat len + 1) in
  if tmp =? 0 then Ok (0, st)
  else if additional_space <? Z.of_nat len + 1 then Err OutOfBounds
  else
    let data := list_bytes (tmp + Z.of_nat sizeof_stats_list) listName len in
    key ← get listName 0 8;
    '(p_stats, h) ← doublylinkedlistAdd (st_heap st) (st_list st) key data p;
    if p_stats =? 0 then Err NullDeref
    else
      b ← load_body h (moveUserDataToPtr p_stats);
      h ← set_body h (moveUserDataToPtr p_stats)
            (MkBody (b_key b) (b_references b) (b_isDeleted b) (b_size b)
               (list_bytes (p_stats + Z.of_nat sizeof_stats_list) listName len));
      Ok (p_stats, set_tree (set_heap st h) p_stats sm_init).

Definition statsDestroy (st : stats_mgr_t) (p_stats : Z) : res stats_mgr_t :=
  t ← tree_of st p_stats;
  h ← doublylinkedlistDel (st_heap st) (st_list st) p_stats;
  _ ← sm_free t;
  h ← doublylinkedlistRelease h p_stats;
  Ok (MkStats h (st_list st) (delete p_stats (st_trees st)) (st_mem st)).

(** ** Counters of a list *)

Definition statsAlloc (st : stats_mgr_t) (p_stats : Z) (statsName : list Z) (flags p_entry : Z)
    : res (Z * stats_mgr_t) :=
  t ← tree_of st p_stats;
  len ← strlen statsName;
  if p_entry =? 0 then Err NullDeref
  else
    let st := set_counter st p_entry (MkCounter flags 0) in
    '(old, t) ← sm_insert t statsName len p_entry;
    let st := set_tree st p_stats t in
    Ok (if old =? p_entry then KSTATUS_UNSUCCESS else KSTATUS_SUCCESS, st).

(** [stats_bulk_init_t]: key, flags and pointer. *)
Definition stats_bulk_init_t : Type := list Z * Z * Z.

Fixpoint statsAllocBulk (st : stats_mgr_t) (p_stats : Z) (p_stats_array : list stats_bulk_init_t)
    : res (Z * stats_mgr_t) :=
  match p_stats_array with
  | [] => Ok (KSTATUS_SUCCESS, st)
  | (key, flags, ptr) :: rest =>
      '(_status, st) ← statsAlloc st p_stats key flags ptr;
      if KSUCCESS _status then statsAllocBulk st p_stats rest else Ok (_status, st)
  end.

Definition statsFree (st : stats_mgr_t) (p_stats : Z) (statsName : list Z) : res stats_mgr_t :=
  t ← tree_of st p_stats;
  len ← strlen statsName;
  '(_, t) ← sm_delete t statsName len;
  Ok (set_tree st p_stats t).

Definition statsFind (st : stats_mgr_t) (p_stats : Z) (statsName : list Z) : res Z :=
  t ← tree_of st p_stats;
  len ← strlen statsName;
  sm_search t statsName len.

(** ** Counters *)

Definition statsUpdate (st : stats_mgr_t) (p_entry value : Z) : res (Z * stats_mgr_t) :=
  c ← counter_of st p_entry;
  let '(r, c) := update_counter c value in Ok (r, set_counter st p_entry c).

Definition statsGetValue (st : stats_mgr_t) (p_entry : Z) : res Z :=
  c ← counter_of st p_entry; Ok (c_value c).

End stats.
End Stats.
