(* ===== verification/StatsSpec.v ===== *)
(** * Correctness of the statistics service

    Proved for any implementation of [StringMap]: counters registered in bulk
    are found under their names and hold the sum or the last of their updates;
    a list that is created and destroyed is freed by the manager. *)

From stdpp Require Import gmap.
From S2P Require Import Prelude CString ArtTree ArtMap DList DListSpec DListProps Svc Stats.

Module StatsSpec.
Import CStr ArtOps ArtMap DList DListSpec DListProps Svc Stats.

Section stats.
Context {T : Type} `{SM : StringMap T}.
Implicit Types (st : @stats_mgr_t T) (M : amap).

(** ** Registering counters *)

Lemma tree_of_ok st p t : p <> 0 -> st_trees st !! p = Some t -> tree_of st p = Ok t.
Proof. intros Hp Ht. unfold tree_of. by rewrite (proj2 (Z.eqb_neq p 0)), Ht by done. Qed.

Lemma alloc_counter st p t M buf k flags ptr :
  p <> 0 -> st_trees st !! p = Some t -> sm_rep t M -> c_string buf k -> ptr <> 0 -> M !! k <> Some ptr ->
  exists t', statsAlloc st p buf flags ptr =
      Ok (KSTATUS_SUCCESS, set_tree (set_counter st ptr (MkCounter flags 0)) p t') /\
    sm_rep t' (<[k := ptr]> M).
Proof.
  intros Hp Ht Hr Hc Hptr Hnew. destruct (sm_insert_rep t M buf k ptr Hr Hc) as (t' & E & Hr').
  exists t'. split; [|done]. unfold statsAlloc. rewrite (tree_of_ok st p t) by done. cbn [mbind res_bind].
  rewrite (strlen_c_string _ _ Hc). cbn [mbind res_bind]. rewrite (proj2 (Z.eqb_neq ptr 0)) by done.
  rewrite E. cbn [mbind res_bind]. rewrite (proj2 (Z.eqb_neq _ _)); [done|].
  destruct (M !! k) as [v|]; cbn; [congruence|unfold NULL; congruence].
Qed.

(** Names with the entries of the array they belong to. *)
Definition item : Type := akey * stats_bulk_init_t.

Record items_ok (M : amap) (items : list item) : Prop := {
  io_string : Forall (fun '(k, (buf, _, ptr)) => c_string buf k /\ ptr <> 0) items;
  io_names : NoDup items.*1;
  io_ptrs : NoDup (snd <$> items.*2);
  io_fresh : forall k ptr, ptr ∈ snd <$> items.*2 -> M !! k <> Some ptr
}.

Definition register (M : amap) (items : list item) : amap :=
  foldl (fun M '(k, (_, _, ptr)) => <[k := ptr]> M) M items.

Lemma register_other M items k : (k ∉ items.*1) -> register M items !! k = M !! k.
Proof.
  revert M. induction items as [|[k' [[buf fl] ptr]] items IH]; intros M Hk; [done|].
  cbn in Hk. apply not_elem_of_cons in Hk as [Hne Hk]. unfold register in *. cbn [foldl].
  rewrite IH by done. by apply lookup_insert_ne.
Qed.

Lemma register_map M items :
  NoDup items.*1 -> register M items = list_to_map ((fun i : item => (i.1, i.2.2)) <$> items) ∪ M.
Proof.
  revert M. induction items as [|[k [[buf fl] ptr]] items IH]; intros M Hn; [cbn; by rewrite (left_id_L ∅ _)|].
  cbn in Hn. apply list.NoDup_cons in Hn as [Hk Hn].
  change (register M ((k, (buf, fl, ptr)) :: items)) with (register (<[k := ptr]> M) items). rewrite IH by done.
  cbn. rewrite <- insert_union_l. symmetry. apply insert_union_r. apply not_elem_of_list_to_map. by rewrite <- list_fmap_compose.
Qed.

Lemma alloc_bulk items st p t M :
  p <> 0 -> st_trees st !! p = Some t -> sm_rep t M -> items_ok M items ->
  exists st' t', statsAllocBulk st p items.*2 = Ok (KSTATUS_SUCCESS, st') /\
    st_heap st' = st_heap st /\ st_list st' = st_list st /\
    st_trees st' !! p = Some t' /\ sm_rep t' (register M items) /\
    (forall q, (q ∉ snd <$> items.*2) -> st_mem st' !! q = st_mem st !! q) /\
    (forall k buf flags ptr, (k, (buf, flags, ptr)) ∈ items ->
       register M items !! k = Some ptr /\ st_mem st' !! ptr = Some (MkCounter flags 0)).
Proof.
  revert st t M. induction items as [|[k [[buf fl] ptr]] items IH]; intros st t M Hp Ht Hr [Hs Hn Hpt Hf].
  { exists st, t. split_and!; try done. intros ? ? ? ? H. by apply elem_of_nil in H. }
  cbn in Hn, Hpt. apply list.NoDup_cons in Hn as [Hk Hn]. apply list.NoDup_cons in Hpt as [Hq Hpt].
  apply list.Forall_cons in Hs as [Hcp Hs']. cbv beta iota in Hcp. destruct Hcp as [Hc Hptr].
  cbn [statsAllocBulk fmap list_fmap snd].
  destruct (alloc_counter st p t M buf k fl ptr) as (t1 & E & Hr1); try done.
  { apply Hf. cbn. apply list_elem_of_here. }
  rewrite E. cbn [mbind res_bind]. change (KSUCCESS KSTATUS_SUCCESS) with true. cbv iota.
  set (st1 := set_tree _ _ _).
  destruct (IH st1 t1 (<[k := ptr]> M)) as (st' & t' & E' & Hh & Hl & Ht' & Hr' & Hm & Hall); [done| |done| |].
  { subst st1. cbn. apply lookup_insert_eq. }
  { split; [done..|]. intros k' ptr' Hin. destruct (decide (k' = k)) as [->|Hne].
    - rewrite lookup_insert_eq. intros [= ->]. done.
    - rewrite lookup_insert_ne by done. apply Hf. cbn. by apply list_elem_of_further. }
  exists st', t'. split; [done|]. split; [done|]. split; [done|]. split; [done|]. split; [done|]. split.
  - intros q Hq'. cbn in Hq'. apply not_elem_of_cons in Hq' as [Hne Hq']. rewrite Hm by done.
    subst st1. cbn. by apply lookup_insert_ne.
  - intros k' buf' fl' ptr' [Heq|Hin]%elem_of_cons; [|by eapply Hall].
    injection Heq as -> -> -> ->. split.
    + change (register M ((k, (buf, fl, ptr)) :: items)) with (register (<[k := ptr]> M) items).
      rewrite register_other by done. apply lookup_insert_eq.
    + rewrite Hm by done. subst st1. cbn. apply lookup_insert_eq.
Qed.

(** The trees of the other lists. *)
Lemma alloc_bulk_trees items st p r st' q :
  statsAllocBulk st p items = Ok (r, st') -> q <> p -> st_trees st' !! q = st_trees st !! q.
Proof.
  intros H Hq. revert st H. induction items as [|[[buf fl] ptr] items IH]; intros st H; cbn [statsAllocBulk] in H.
  { by injection H as _ <-. }
  apply bind_Ok in H as ([k st1] & E & H). assert (Hs : st_trees st1 !! q = st_trees st !! q).
  { unfold statsAlloc in E. apply bind_Ok in E as (t & _ & E). apply bind_Ok in E as (len & _ & E).
    destruct (ptr =? 0); [done|]. apply bind_Ok in E as ([old t'] & _ & E). injection E as _ <-.
    cbn. by rewrite lookup_insert_ne. }
  rewrite <- Hs. destruct (KSUCCESS k); [by apply IH|by injection H as _ <-].
Qed.

(** ** Updating counters *)

(** A sequence of calls of [statsUpdate], each with a counter and a value. *)
Definition update_all (st : @stats_mgr_t T) (us : list (Z * Z)) : res (@stats_mgr_t T) :=
  foldl (fun r '(ptr, v) => s ← r; '(_, s) ← statsUpdate s ptr v; Ok s) (Ok st) us.

(** The values for one counter, in order. *)
Definition values_for (ptr : Z) (us : list (Z * Z)) : list Z := (filter (fun u => u.1 = ptr) us).*2.

(** The value of a new counter after the updates. *)
Definition counter_after (flags : Z) (vs : list Z) : Z :=
  if flags =? STATS_FLAGS_TYPE_SUM then u64 (foldr Z.add 0 vs)
  else if flags =? STATS_FLAGS_TYPE_LAST then default 0 (list.last vs) else 0.

Lemma counter_of_ok st ptr c : ptr <> 0 -> st_mem st !! ptr = Some c -> counter_of st ptr = Ok c.
Proof. intros Hp Hc. unfold counter_of. by rewrite (proj2 (Z.eqb_neq ptr 0)), Hc by done. Qed.

Lemma sum_snoc vs v : foldr Z.add 0 (vs ++ [v]) = foldr Z.add 0 vs + v.
Proof. induction vs as [|w vs IH]; cbn; lia. Qed.

Lemma counter_step flags vs v :
  (update_counter (MkCounter flags (counter_after flags vs)) v).2 = MkCounter flags (counter_after flags (vs ++ [v])).
Proof.
  unfold update_counter, counter_after. cbn [c_flags c_value].
  destruct (flags =? STATS_FLAGS_TYPE_SUM); [|destruct (flags =? STATS_FLAGS_TYPE_LAST)]; cbn.
  - by rewrite wrap_add_l, sum_snoc.
  - by rewrite list.last_snoc.
  - done.
Qed.

(** What updates leave alone. *)
Record same_lists (st st' : @stats_mgr_t T) : Prop := {
  sl_heap : st_heap st' = st_heap st; sl_list : st_list st' = st_list st; sl_trees : st_trees st' = st_trees st
}.

Lemma update_all_ok st us (kind : gmap Z Z) :
  (forall ptr flags, kind !! ptr = Some flags -> ptr <> 0 /\ st_mem st !! ptr = Some (MkCounter flags 0)) ->
  Forall (fun u => is_Some (kind !! u.1)) us ->
  exists st', update_all st us = Ok st' /\ same_lists st st' /\
    (forall ptr flags, kind !! ptr = Some flags ->
       st_mem st' !! ptr = Some (MkCounter flags (counter_after flags (values_for ptr us)))) /\
    (forall q, kind !! q = None -> st_mem st' !! q = st_mem st !! q).
Proof.
  intros Hc. unfold update_all. induction us as [|[ptr v] us IH] using rev_ind; intros Hu.
  { exists st. split; [done|]. split; [done|]. split; [|done]. intros ptr flags Hk. rewrite (proj2 (Hc _ _ Hk)).
    unfold counter_after. by destruct (flags =? STATS_FLAGS_TYPE_SUM), (flags =? STATS_FLAGS_TYPE_LAST). }
  apply list.Forall_app in Hu as [Hu [[flags Hk] _]%list.Forall_cons]. cbn in Hk.
  destruct (IH Hu) as (st' & E & [S1 S2 S3] & Hm & Ho). destruct (Hc _ _ Hk) as [Hp _].
  rewrite foldl_app, E. cbn [foldl]. cbn [mbind res_bind]. unfold statsUpdate.
  rewrite (counter_of_ok st' ptr _ Hp (Hm _ _ Hk)). cbn [mbind res_bind].
  pose proof (counter_step flags (values_for ptr us) v) as Hst. destruct (update_counter _ v) as [r c]. cbn in Hst. subst c.
  eexists. split; [done|]. split; [done|]. unfold set_counter. cbn [st_mem]. split.
  - intros ptr' flags' Hk'. unfold values_for. rewrite list.filter_app, fmap_app. destruct (decide (ptr' = ptr)) as [->|Hne].
    + rewrite lookup_insert_eq, filter_cons_True by done. rewrite Hk in Hk'. by injection Hk' as <-.
    + rewrite lookup_insert_ne, filter_cons_False by (cbn; congruence). cbn. rewrite app_nil_r. by apply Hm.
  - intros q Hq. rewrite lookup_insert_ne by congruence. by apply Ho.
Qed.

(** The kinds of the counters of an array. *)
Definition kind_of (i : item) : Z * Z := (i.2.2, i.2.1.2).
Definition kinds (items : list item) : gmap Z Z := list_to_map (kind_of <$> items).

Lemma kinds_keys items : (kind_of <$> items).*1 = snd <$> items.*2.
Proof. by rewrite <- !list_fmap_compose. Qed.

Lemma kinds_lookup items : NoDup (snd <$> items.*2) ->
  (forall ptr flags, kinds items !! ptr = Some flags <-> exists k buf, (k, (buf, flags, ptr)) ∈ items) /\
  (forall ptr, is_Some (kinds items !! ptr) <-> ptr ∈ snd <$> items.*2).
Proof.
  intros Hn. assert (H1 : forall ptr flags, kinds items !! ptr = Some flags <-> exists k buf, (k, (buf, flags, ptr)) ∈ items).
  { intros ptr flags. unfold kinds. rewrite <- elem_of_list_to_map by (by rewrite kinds_keys). rewrite list_elem_of_fmap. split.
    - intros ([k [[buf fl] q]] & [= -> ->] & Hin). by exists k, buf.
    - intros (k & buf & Hin). by exists (k, (buf, flags, ptr)). }
  split; [done|]. intros ptr. rewrite !list_elem_of_fmap. split.
  - intros [flags (k & buf & Hin)%H1]. exists (buf, flags, ptr). split; [done|]. apply list_elem_of_fmap. by exists (k, (buf, flags, ptr)).
  - intros ([[buf flags] q] & [= ->] & ([k y] & [= <-] & Hin)%list_elem_of_fmap). exists flags. apply H1. by exists k, buf.
Qed.

Lemma find_ok st p t M buf k :
  p <> 0 -> st_trees st !! p = Some t -> sm_rep t M -> c_string buf k -> is_Some (M !! k) ->
  statsFind st p buf = Ok (default NULL (M !! k)).
Proof.
  intros Hp Ht Hr Hc Hk. unfold statsFind. rewrite (tree_of_ok st p t Hp Ht). cbn [mbind res_bind].
  rewrite (strlen_c_string _ _ Hc). cbn [mbind res_bind]. by rewrite (sm_search_rep t _ buf k Hr Hc) by (by left).
Qed.

Lemma item_string M items k buf flags ptr : items_ok M items -> (k, (buf, flags, ptr)) ∈ items -> c_string buf k /\ ptr <> 0.
Proof. intros Hi Hin. pose proof (io_string _ _ Hi) as Hs. rewrite list.Forall_forall in Hs. exact (Hs _ Hin). Qed.

Lemma counters_ok st p t M items us :
  p <> 0 -> st_trees st !! p = Some t -> sm_rep t M -> items_ok M items ->
  Forall (fun u => u.1 ∈ snd <$> items.*2) us ->
  exists st1 st2, statsAllocBulk st p items.*2 = Ok (KSTATUS_SUCCESS, st1) /\ update_all st1 us = Ok st2 /\
    (forall k buf flags ptr, (k, (buf, flags, ptr)) ∈ items ->
       statsFind st2 p buf = Ok ptr /\ statsGetValue st2 ptr = Ok (counter_after flags (values_for ptr us))) /\
    (forall k buf ptr, M !! k = Some ptr -> (k ∉ items.*1) -> c_string buf k -> statsFind st2 p buf = Ok ptr) /\
    (forall q, (q ∉ snd <$> items.*2) -> st_mem st2 !! q = st_mem st !! q).
Proof.
  intros Hp Ht Hr Hi Hu. destruct (alloc_bulk items st p t M Hp Ht Hr Hi) as (st1 & t1 & E & _ & _ & Ht1 & Hr1 & Ho1 & Hall).
  destruct (kinds_lookup items (io_ptrs _ _ Hi)) as [K1 K2].
  destruct (update_all_ok st1 us (kinds items)) as (st2 & E2 & [S1 S2 S3] & Hm & Ho).
  { intros ptr flags (k & buf & Hin)%K1. split; [by eapply item_string|]. by eapply Hall. }
  { eapply list.Forall_impl; [exact Hu|]. intros u Hin. by apply K2. }
  rewrite <- S3 in Ht1. exists st1, st2. split; [done|]. split; [done|]. split; [|split].
  - intros k buf flags ptr Hin. destruct (item_string _ _ _ _ _ _ Hi Hin) as [Hc Hptr]. destruct (Hall _ _ _ _ Hin) as [Hk _]. split.
    + rewrite (find_ok st2 p t1 _ buf k Hp Ht1 Hr1 Hc) by (by rewrite Hk). by rewrite Hk.
    + unfold statsGetValue. by rewrite (counter_of_ok st2 ptr _ Hptr (Hm _ _ (proj2 (K1 _ _) (ex_intro _ k (ex_intro _ buf Hin))))).
  - intros k buf ptr Hk Hn Hc. rewrite (find_ok st2 p t1 _ buf k Hp Ht1 Hr1 Hc); rewrite register_other by done; by rewrite Hk.
  - intros q Hq. rewrite Ho; [by apply Ho1|]. destruct (kinds items !! q) eqn:Ek; [|done]. destruct Hq. apply K2. by rewrite Ek.
Qed.

(** ** The life of a list *)

Lemma get_ok_le buf off n : (off + n <= length buf)%nat -> exists v, get buf off n = Ok v.
Proof. intros H. unfold get. rewrite decide_True by done. eauto. Qed.

Lemma create_ok st act del buf k tmp p :
  dll_ok (st_heap st) (st_list st) act del -> c_string buf k -> (8 <= length buf)%nat ->
  Z.of_nat (length k) + 1 < 2 ^ 32 -> tmp <> 0 -> 0 < p -> st_heap st !! p = None ->
  exists st' b, statsCreate st buf tmp p = Ok (movePtrToUserData p, st') /\
    dll_ok (st_heap st') (st_list st') ((p, b) :: act) del /\ st_list st' = st_list st /\
    b_references b = 1 /\ st_trees st' = <[movePtrToUserData p := sm_init]> (st_trees st) /\ st_mem st' = st_mem st /\
    get buf 0 8 = Ok (b_key b) /\ b_size b = length (b_data b) /\
    b_data b = list_bytes (movePtrToUserData p + Z.of_nat sizeof_stats_list) buf (length k).
Proof.
  intros Hd Hc H8 Hlen Htmp Hp Hfr. unfold statsCreate. rewrite (strlen_c_string _ _ Hc). cbn [mbind res_bind].
  rewrite (proj2 (Z.eqb_neq tmp 0)) by done. rewrite wrap_small by (unfold is_u; lia). rewrite Z.ltb_irrefl.
  destruct (get_ok_le buf 0 8 ltac:(lia)) as [key Hkey]. rewrite Hkey. cbn [mbind res_bind]. set (data := list_bytes _ _ _).
  destruct (add_ok (st_heap st) (st_list st) act del key data p Hd ltac:(lia) Hfr) as (h & -> & Hd' & _).
  cbn [mbind res_bind]. unfold movePtrToUserData at 1. rewrite (proj2 (Z.eqb_neq _ 0)) by (unfold sizeof_entry; lia).
  unfold moveUserDataToPtr, movePtrToUserData. replace (p + sizeof_entry - sizeof_entry) with p by lia.
  destruct (next_entry h _ _ false true [] p _ act del Hd') as (-> & _). cbn [mbind res_bind].
  set (b' := MkBody _ _ _ _ _).
  destruct (update_act h _ _ false true [] p _ b' act del Hd' eq_refl) as (h' & -> & Hd'').
  cbn [mbind res_bind]. eexists _, b'. split; [done|]. split; [exact Hd''|]. by split_and!.
Qed.

Lemma destroy_list_ok st act del p b t M :
  dll_ok (st_heap st) (st_list st) ((p, b) :: act) del -> 0 < p -> b_references b = 1 ->
  st_trees st !! movePtrToUserData p = Some t -> sm_rep t M ->
  exists st' b', statsDestroy st (movePtrToUserData p) = Ok st' /\
    dll_ok (st_heap st') (st_list st') act ((p, b') :: del) /\ st_list st' = st_list st /\
    b_references b' = 0 /\ st_trees st' = delete (movePtrToUserData p) (st_trees st).
Proof.
  intros Hd Hp Hb Ht Hr. unfold statsDestroy.
  rewrite (tree_of_ok st _ t) by (done || unfold movePtrToUserData, sizeof_entry; lia). cbn [mbind res_bind].
  destruct (del_ok (st_heap st) (st_list st) [] p b act del Hd) as (h1 & -> & Hd1 & _). cbn [mbind res_bind app] in *.
  rewrite Hb in Hd1. change (0 <? 1) with true in Hd1. cbv iota in Hd1.
  destruct (sm_free_rep t M Hr) as (kvs & -> & _). cbn [mbind res_bind].
  apply lists_swap in Hd1. destruct (release_ok h1 _ _ true false [] p (mark_deleted b) del act Hd1) as (h2 & -> & Hd2).
  cbn [mbind res_bind app] in *. apply lists_swap in Hd2. eexists _, _. split; [done|]. split; [exact Hd2|].
  split_and!; try done. cbn. by rewrite Hb.
Qed.

End stats.

(** C36: whatever implements the string map: registering counters in bulk, with
    names and addresses that are new and distinct, succeeds; and after any
    sequence of updates of these counters, in any order, each name still finds
    its counter, and that holds the sum modulo 2^64 or the last of the values
    that were meant for it, according to its flags.  The names that were
    registered before are found as before, and no counter outside the array
    changes. *)
Theorem stats_counters (T : Type) (SM : StringMap T) (st : @stats_mgr_t T) p t M items us :
  p <> 0 -> st_trees st !! p = Some t -> sm_rep t M -> items_ok M items ->
  Forall (fun u => u.1 ∈ snd <$> items.*2) us ->
  exists st1 st2, statsAllocBulk st p items.*2 = Ok (KSTATUS_SUCCESS, st1) /\ update_all st1 us = Ok st2 /\
    (forall k buf flags ptr, (k, (buf, flags, ptr)) ∈ items ->
       statsFind st2 p buf = Ok ptr /\ statsGetValue st2 ptr = Ok (counter_after flags (values_for ptr us))) /\
    (forall k buf ptr, M !! k = Some ptr -> (k ∉ items.*1) -> c_string buf k -> statsFind st2 p buf = Ok ptr) /\
    (forall q, (q ∉ snd <$> items.*2) -> st_mem st2 !! q = st_mem st !! q).
Proof. apply counters_ok. Qed.

(** Creating a list and destroying it, with any counters registered in
    between, leaves the other lists alone and leaves the entry behind without
    references, so that the purge of the manager frees exactly the entries
    nobody uses, this one among them. *)
Theorem stats_list_freed (T : Type) (SM : StringMap T) (st : @stats_mgr_t T) act del buf k tmp p :
  st_list st <> 0 -> dll_ok (st_heap st) (st_list st) act del -> c_string buf k -> (8 <= length buf)%nat ->
  Z.of_nat (length k) + 1 < 2 ^ 32 -> tmp <> 0 -> 0 < p -> st_heap st !! p = None ->
  exists st1, statsCreate st buf tmp p = Ok (movePtrToUserData p, st1) /\
    forall items, items_ok ∅ items ->
    exists st2 st3 h, statsAllocBulk st1 (movePtrToUserData p) items.*2 = Ok (KSTATUS_SUCCESS, st2) /\
      statsDestroy st2 (movePtrToUserData p) = Ok st3 /\
      doublylinkedlistFreeDeletedEntries (st_heap st3) (st_list st) = Ok h /\
      dll_ok h (st_list st) act (filter in_use del) /\ h !! p = None.
Proof.
  intros HL Hd Hc H8 Hlen Htmp Hp Hfr.
  destruct (create_ok st act del buf k tmp p Hd Hc H8 Hlen Htmp Hp Hfr) as (st1 & b & E1 & Hd1 & L1 & Hb & Ht1 & _).
  exists st1. split; [done|]. intros items Hi. assert (Hq : movePtrToUserData p <> 0) by (unfold movePtrToUserData, sizeof_entry; lia).
  destruct (alloc_bulk items st1 (movePtrToUserData p) sm_init ∅ Hq) as (st2 & t & E2 & Hh & L2 & Ht2 & Hr & _);
    [by rewrite Ht1, lookup_insert_eq|apply sm_init_rep|done|].
  rewrite <- Hh, <- L2 in Hd1.
  destruct (destroy_list_ok st2 act del p b t _ Hd1 Hp Hb Ht2 Hr) as (st3 & b' & E3 & Hd3 & L3 & Hb' & _).
  rewrite L3, L2, L1 in Hd3. destruct (purge_ok _ _ _ _ HL Hd3) as (h & E4 & Hd4 & W).
  exists st2, st3, h. split; [done|]. split; [done|]. split; [done|]. rewrite filter_cons_False in Hd4 by (unfold in_use; cbn; lia).
  split; [done|]. destruct (h !! p) as [n|] eqn:En; [|done].
  destruct (W p) as [Hw _]. rewrite En in Hw. destruct (Hw ltac:(eauto)) as [Hnot _]. destruct Hnot.
  rewrite filter_cons_True by (unfold in_use; cbn; lia). apply list_elem_of_here.
Qed.

(** The name of a list is read as a 64-bit key, so every name whose buffer
    is shorter than eight bytes, such as the one the service starts with, is
    read behind its end. *)
Theorem stats_short_name_overread (T : Type) (SM : StringMap T) (st : @stats_mgr_t T) k tmp p :
  key_ok k -> (length k < 7)%nat -> tmp <> 0 -> statsCreate st (term k) tmp p = Err OutOfBounds.
Proof.
  intros Hk Hl Htmp. assert (Hc : c_string (term k) k).
  { split; [done|]. split; [done|]. apply list.Forall_app. split; [|by repeat constructor].
    eapply list.Forall_impl; [exact Hk|]. cbv beta. intros b Hb. unfold is_u. change (2 ^ 8) with 256. lia. }
  unfold statsCreate. rewrite (strlen_c_string _ _ Hc). cbn [mbind res_bind].
  rewrite (proj2 (Z.eqb_neq tmp 0)) by done. rewrite wrap_small by (unfold is_u; lia). rewrite Z.ltb_irrefl.
  unfold get. rewrite decide_False; [done|]. unfold term. rewrite length_app. cbn [length]. lia.
Qed.

(** ** Concrete lists *)

(** The names "db exec" and "db exec fail". *)
Definition name_exec : akey := [100; 98; 32; 101; 120; 101; 99].
Definition name_fail : akey := [100; 98; 32; 101; 120; 101; 99; 32; 102; 97; 105; 108].

Definition sample_items : list item :=
  [(name_exec, (term name_exec, STATS_FLAGS_TYPE_SUM, 900)); (name_fail, (term name_fail, STATS_FLAGS_TYPE_LAST, 916))].

Lemma sample_items_ok : items_ok ∅ sample_items.
Proof.
  split; [|decide_closed|decide_closed|].
  - repeat constructor; try decide_closed.
  - intros k ptr _. by rewrite lookup_empty.
Defined.

Lemma stats_counters_witness :
  let st := MkStats ∅ 4096 {[ 8232 := sm_init ]} ∅ : @stats_mgr_t art_tree in
  exists st1 st2, statsAllocBulk st 8232 sample_items.*2 = Ok (KSTATUS_SUCCESS, st1) /\
    update_all st1 [(900, 5); (916, 30); (900, 2 ^ 64 - 1); (916, 4); (900, 3)] = Ok st2 /\
    statsFind st2 8232 (term name_exec) = Ok 900 /\ statsGetValue st2 900 = Ok 7 /\ statsGetValue st2 916 = Ok 4.
Proof.
  intros st.
  destruct (stats_counters art_tree _ st 8232 sm_init ∅ sample_items [(900, 5); (916, 30); (900, 2 ^ 64 - 1); (916, 4); (900, 3)])
    as (st1 & st2 & E1 & E2 & H & _ & _).
  - discriminate.
  - reflexivity.
  - apply sm_init_rep.
  - apply sample_items_ok.
  - decide_closed.
  - exists st1, st2. split; [exact E1|]. split; [exact E2|].
    destruct (H name_exec (term name_exec) STATS_FLAGS_TYPE_SUM 900 (list_elem_of_here _ _)) as [H1 H2].
    destruct (H name_fail (term name_fail) STATS_FLAGS_TYPE_LAST 916 (list_elem_of_further _ _ _ (list_elem_of_here _ _))) as [_ H3].
    split; [exact H1|]. split; [exact H2|exact H3].
Defined.

(** The name "NIUCHACZ". *)
Definition name_main : akey := [78; 73; 85; 67; 72; 65; 67; 90].

Lemma stats_list_freed_witness :
  exists h st1 st2 st3 h', doublylinkedlistAlloc ∅ 4096 = Ok (4096, h) /\
    statsCreate (MkStats h 4096 ∅ ∅ : @stats_mgr_t art_tree) (term name_main) 64 8192 = Ok (8232, st1) /\
    statsAllocBulk st1 8232 sample_items.*2 = Ok (KSTATUS_SUCCESS, st2) /\
    statsDestroy st2 8232 = Ok st3 /\
    doublylinkedlistFreeDeletedEntries (st_heap st3) 4096 = Ok h' /\ h' !! 8192 = None.
Proof.
  destruct (alloc_ok ∅ 4096 ltac:(lia)) as (h & E & Hd).
  assert (Hfr : h !! 8192 = None) by (vm_compute in E; injection E as <-; vm_compute; reflexivity).
  destruct (stats_list_freed art_tree _ (MkStats h 4096 ∅ ∅) [] [] (term name_main) name_main 64 8192
    ltac:(cbn; lia) Hd ltac:(decide_closed) ltac:(cbn; lia) ltac:(cbn; lia) ltac:(lia) ltac:(lia) Hfr) as (st1 & E1 & H).
  destruct (H sample_items sample_items_ok) as (st2 & st3 & h' & E2 & E3 & E4 & _ & Hn).
  exists h, st1, st2, st3, h'. repeat split; assumption.
Defined.

(** The name "KERNEL". *)
Lemma stats_short_name_overread_witness :
  statsCreate (MkStats ∅ 4096 ∅ ∅ : @stats_mgr_t art_tree) (term [75; 69; 82; 78; 69; 76]) 64 8192 = Err OutOfBounds.
Proof. apply stats_short_name_overread; [decide_closed|cbn; lia|lia]. Defined.

End StatsSpec.
