(* ===== verification/StatsDump.v ===== *)
(** * The dump of the statistics

    The dump finds every list of the manager through the query of its entries,
    and reports each of the counters registered in it once, with its flags and
    its current value. *)

From stdpp Require Import gmap.
From S2P Require Import Prelude CString ArtTree ArtMap DList Blocks DListSpec DListProps DListQuery DListFrame Svc Stats StatsSpec.

Module StatsDump.
Import CStr ArtMap DList Blocks DListSpec DListProps DListQuery Svc Stats StatsSpec.

Section dump.
Context {T : Type} `{SM : StringMap T}.
Abbreviation stats := (@stats_mgr_t T).

(** The counters of a list in memory. *)
Definition live (st : stats) (M : amap) : Prop :=
  forall k ptr, M !! k = Some ptr -> ptr <> 0 /\ is_Some (st_mem st !! ptr).

(** What a line of the dump shows of a counter. *)
Definition line_of (st : stats) (kv : akey * Z) : line :=
  let c := default (MkCounter 0 0) (st_mem st !! kv.2) in (c_flags c, c_value c, kv.1).

(** A dump of one list: the number of its counters and a line for each. *)
Definition reports (st : stats) (p : Z) (d : Z * list line) : Prop :=
  exists t M kvs, st_trees st !! movePtrToUserData p = Some t /\ sm_rep t M /\ enumerates kvs M /\
    d = (u64 (Z.of_nat (size M)), line_of st <$> kvs).

Lemma iter_lines st kvs ls :
  Forall (fun kv => kv.2 <> 0 /\ is_Some (st_mem st !! kv.2)) kvs ->
  iter_list sm_pad (i_statsmgrDumpSingleListCallback st) kvs (Ok ls) = (Ok (ls ++ (line_of st <$> kvs)), 0).
Proof.
  intros Hl. revert ls. induction Hl as [|[k ptr] kvs [Hp [c Hc]] _ IH]; intros ls; cbn [iter_list fmap list_fmap].
  { by rewrite app_nil_r. }
  cbn [i_statsmgrDumpSingleListCallback]. cbn [fst snd] in *. rewrite (counter_of_ok st ptr c Hp Hc). cbn [mbind res_bind].
  rewrite Z.eqb_refl, IH. unfold line_of at 2. cbn [fst snd]. rewrite Hc, take_app_length. cbn [default].
  by rewrite <- app_assoc.
Qed.

Lemma dump_single_ok st p t M :
  st_trees st !! movePtrToUserData p = Some t -> sm_rep t M -> live st M ->
  exists d, i_statsmgrDumpSingleList st t = Ok (d, KSTATUS_SUCCESS) /\ reports st p d.
Proof.
  intros Ht Hr Hl. unfold i_statsmgrDumpSingleList. destruct (sm_iter_rep t M Hr) as (kvs & He & Hi). rewrite Hi.
  rewrite iter_lines; [|apply list.Forall_forall; intros [k ptr] Hin; apply (Hl k), He, Hin].
  cbn [mbind res_bind app]. rewrite Z.eqb_refl, (sm_size_rep t M Hr). eexists. split; [done|]. by exists t, M, kvs.
Qed.

(** An entry of the manager that holds a list: its name pointer points behind
    the structure, and its tree holds counters in memory. *)
Definition listed (st : stats) (e : Z * body) : Prop :=
  let p_stats := movePtrToUserData e.1 in
  body_typed e.2 /\ b_key e.2 <> 0 /\ p_stats <> 0 /\ is_u 64 (p_stats + Z.of_nat sizeof_stats_list) /\
  (exists rest, b_data e.2 = le_bytes 8 (p_stats + Z.of_nat sizeof_stats_list) ++ rest) /\
  exists t M, st_trees st !! p_stats = Some t /\ sm_rep t M /\ live st M.

Lemma record_name b r v rest :
  is_record b r -> is_u 64 v -> b_data b = le_bytes 8 v ++ rest -> get r sizeof_query 8 = Ok v.
Proof.
  intros (Hl & _ & _ & _ & _ & Hd) Hv Eb. unfold get. rewrite Hd, Eb.
  assert (length (b_data b) = b_size b) as Hs by (rewrite <- Hd, length_drop; lia).
  rewrite Eb, length_app, length_le_bytes in Hs. rewrite decide_True by lia.
  rewrite take_app_length' by (by rewrite length_le_bytes). f_equal. by apply (le_val_bytes 8).
Qed.

Lemma dump_loop_ok st es recs pre rest fuel :
  Forall2 is_record es.*2 recs -> Forall (listed st) es -> (length es < fuel)%nat ->
  exists ds, dump_loop fuel st (pre ++ concat recs ++ replicate 8 0 ++ rest) (length pre) = Ok ds /\
    Forall2 (reports st) es.*1 ds.
Proof.
  revert recs pre fuel. induction es as [|[p b] es IH]; intros recs pre fuel Hr Hes Hf;
    (destruct fuel as [|fuel]; [cbn in Hf; lia|]); cbn [fmap list_fmap fst snd] in *.
  { apply Forall2_nil_inv_l in Hr as ->. exists []. split; [|constructor]. cbn [dump_loop concat app]. unfold doublylinkedlistQueryIsEnd.
    rewrite <- (Nat.add_0_r (length pre)), get_app. done. }
  apply Forall2_cons_inv_l in Hr as (r & recs' & Hb & Hr & ->). apply list.Forall_cons in Hes as [He Hes].
  destruct He as (_ & Hk & Hp & Hv & (data & Hdata) & t & M & Ht & Hrep & Hlive). cbn [fst snd] in *.
  pose proof (record_name b r _ data Hb Hv Hdata) as Hname. destruct Hb as (Hl & H0 & _ & _ & H16 & _).
  cbn [concat dump_loop]. rewrite <- (app_assoc r). set (tl := concat recs' ++ _).
  pose proof (get_left _ tl _ _ _ H0) as G0. pose proof (get_left _ tl _ _ _ H16) as G16. pose proof (get_left _ tl _ _ _ Hname) as GN.
  unfold doublylinkedlistQueryIsEnd, doublylinkedlistQueryNext.
  rewrite <- (get_app pre) in G0, G16, GN. rewrite Nat.add_0_r in G0. rewrite G0. cbn [mbind res_bind].
  rewrite (proj2 (Z.eqb_neq _ 0)) by done. rewrite GN. cbn [mbind res_bind].
  rewrite Z.add_simpl_r, (tree_of_ok st _ t Hp Ht). cbn [mbind res_bind].
  destruct (dump_single_ok st p t M Ht Hrep Hlive) as ([n ls] & -> & Hrp). cbn [mbind res_bind]. rewrite G16. cbn [mbind res_bind].
  replace (length pre + sizeof_query + Z.to_nat (Z.of_nat (b_size b)))%nat with (length (pre ++ r)) by (rewrite length_app; lia).
  subst tl. rewrite (app_assoc pre). destruct (IH recs' (pre ++ r) fuel Hr Hes ltac:(cbn in Hf; lia)) as (ds & -> & Hds).
  cbn [mbind res_bind]. eexists. split; [done|]. by constructor.
Qed.

Lemma dump_start n st act recs rest :
  Forall2 is_record act.*2 recs -> Forall (listed st) act -> (length act < n)%nat ->
  exists ds, dump_loop n st (concat recs ++ replicate 8 0 ++ rest) 0 = Ok ds /\ Forall2 (reports st) act.*1 ds.
Proof. intros Hr Hl Hn. exact (dump_loop_ok st act recs [] rest n Hr Hl Hn). Qed.

Lemma dump_query st buff base buff' used ds :
  doublylinkedlistQuery (st_heap st) (st_list st) buff base 4096 = Ok (true, buff', used) -> dump_loop 4096 st buff' 0 = Ok ds ->
  statsmgrDump st buff base = Ok (KSTATUS_SUCCESS, ds).
Proof.
  unfold statsmgrDump. generalize (dump_loop 4096 st). intros loop Eq E. rewrite Eq. cbn [mbind res_bind negb]. by rewrite E.
Qed.

Lemma dump_ok st act buff base :
  st_list st <> 0 -> dll_ok (st_heap st) (st_list st) act [] -> Forall (listed st) act ->
  length buff = 4096%nat -> (records_size act + 8 <= 4096)%nat ->
  exists ds, statsmgrDump st buff base = Ok (KSTATUS_SUCCESS, ds) /\ Forall2 (reports st) act.*1 ds.
Proof.
  intros HL Hd Hl Hb Hs. pose proof (records_size_length act) as Hn.
  assert (Ht : Forall (fun e => body_typed e.2) (act ++ [])).
  { rewrite app_nil_r. eapply list.Forall_impl; [exact Hl|]. by intros e [? _]. }
  rewrite <- (app_nil_r act) in Hs.
  destruct (query_ok (st_heap st) (st_list st) act [] buff base 4096 Hd HL Ht Hb Hs ltac:(lia)) as (recs & rest & Eq & Hr).
  rewrite app_nil_r in Hr, Hs. destruct (dump_start 4096 st act recs rest Hr Hl ltac:(lia)) as (ds & E & Hds).
  exists ds. split; [|exact Hds]. by eapply dump_query.
Qed.

(** A list that was created, with counters registered in it. *)
Lemma created_listed st buf k p b t M :
  c_string buf k -> (8 <= length buf)%nat -> Z.of_nat (length k) + 25 < 2 ^ 64 -> 0 < p -> p + 64 < 2 ^ 64 ->
  b_references b = 1 -> get buf 0 8 = Ok (b_key b) -> b_key b <> 0 -> b_size b = length (b_data b) ->
  b_data b = list_bytes (movePtrToUserData p + Z.of_nat sizeof_stats_list) buf (length k) ->
  st_trees st !! movePtrToUserData p = Some t -> sm_rep t M -> live st M -> listed st (p, b).
Proof.
  intros (Hk & [r Eb] & Hb) H8 Hlen Hp Hp64 Href Hkey Hk0 Hs Hd Ht Hr Hl.
  unfold listed, body_typed, movePtrToUserData, sizeof_entry, sizeof_stats_list in *. cbn [fst snd]. split_and!; try done.
  - unfold get in Hkey. rewrite decide_True in Hkey by (cbn; lia). injection Hkey as <-.
    assert (Hlt : (length (take 8 (drop 0 buf)) = 8)%nat) by (rewrite drop_0, length_take; lia).
    assert (Hbytes : Forall is_byte (take 8 (drop 0 buf))) by (rewrite drop_0; by apply list.Forall_take).
    apply le_val_range in Hbytes. rewrite Hlt in Hbytes. exact Hbytes.
  - rewrite Href. unfold is_u. lia.
  - rewrite Hs, Hd. unfold list_bytes. rewrite !length_app, length_le_bytes, length_replicate, length_take. cbn [length].
    assert (length k <= length buf)%nat by (subst buf; unfold term; rewrite !length_app; lia). lia.
  - lia.
  - unfold is_u. lia.
  - eexists. rewrite Hd. unfold list_bytes. done.
  - by exists t, M.
Qed.
End dump.

(** C18: the dump of the statistics shows every list of the manager, and of each list
    the number of its counters and every counter exactly once, under its name,
    with its flags and its current value, when the records of the lists fit in
    the 4096 bytes of the buffer. *)
Theorem stats_dump_reports (T : Type) (SM : StringMap T) (st : @stats_mgr_t T) act buff base :
  st_list st <> 0 -> dll_ok (st_heap st) (st_list st) act [] -> Forall (listed st) act ->
  length buff = 4096%nat -> (records_size act + 8 <= 4096)%nat ->
  exists ds, statsmgrDump st buff base = Ok (KSTATUS_SUCCESS, ds) /\ Forall2 (reports st) act.*1 ds.
Proof. apply dump_ok. Qed.

(** The list "NIUCHACZ" with two counters, one of them updated. *)
Lemma stats_dump_reports_witness :
  exists st st1 st2 st3 v ds, statsmgrStart (MkStats ∅ 0 ∅ ∅ : @stats_mgr_t ArtOps.art_tree) 4096 = Ok (KSTATUS_SUCCESS, st) /\
    statsCreate st (term name_main) 64 8192 = Ok (8232, st1) /\
    statsAllocBulk st1 8232 sample_items.*2 = Ok (KSTATUS_SUCCESS, st2) /\
    statsUpdate st2 900 5 = Ok (v, st3) /\
    statsmgrDump st3 (replicate 4096 7) 70000 = Ok (KSTATUS_SUCCESS, ds) /\ Forall2 (reports st3) [8192] ds.
Proof.
  destruct (alloc_ok ∅ 4096 ltac:(lia)) as (h & E & Hd).
  assert (Hfr : h !! 8192 = None) by (vm_compute in E; injection E as <-; vm_compute; reflexivity).
  set (st := MkStats h 4096 ∅ ∅ : @stats_mgr_t ArtOps.art_tree).
  destruct (create_ok st [] [] (term name_main) name_main 64 8192 Hd ltac:(decide_closed) ltac:(cbn; lia) ltac:(cbn; lia)
    ltac:(lia) ltac:(lia) Hfr) as (st1 & b & E1 & Hd1 & L1 & Hb & Ht1 & Hm1 & Hkey & Hsz & Hdata).
  destruct (alloc_bulk sample_items st1 8232 sm_init ∅ ltac:(lia)) as (st2 & t & E2 & Hh & L2 & Ht2 & Hr & _ & Hall);
    [rewrite Ht1; apply lookup_insert_eq|apply sm_init_rep|apply sample_items_ok|].
  assert (Hc : st_mem st2 !! 900 = Some (MkCounter STATS_FLAGS_TYPE_SUM 0)) by (eapply Hall; apply list_elem_of_here).
  set (st3 := set_counter st2 900 (MkCounter STATS_FLAGS_TYPE_SUM 5)).
  assert (E3 : statsUpdate st2 900 5 = Ok (5, st3)) by (unfold statsUpdate, counter_of; cbn [Z.eqb]; by rewrite Hc).
  assert (Hlist : listed st3 (8192, b)).
  { apply (created_listed st3 (term name_main) name_main 8192 b t (register ∅ sample_items)); try done.
    - decide_closed.
    - cbn. lia.
    - intros E0. rewrite E0 in Hkey. vm_compute in Hkey. discriminate Hkey.
    - intros k ptr Hk. cbn in Hk. rewrite lookup_insert_Some in Hk. destruct Hk as [[_ <-]|[_ Hk]].
      + split; [lia|]. cbn. rewrite lookup_insert_ne by done. eexists. eapply (Hall name_fail), list_elem_of_further, list_elem_of_here.
      + apply lookup_insert_Some in Hk as [[_ <-]|[_ Hk]]; [|by rewrite lookup_empty in Hk]. split; [lia|]. cbn. rewrite lookup_insert_eq. eauto. }
  destruct (stats_dump_reports ArtOps.art_tree _ st3 [(8192, b)] (replicate 4096 7) 70000) as (ds & E4 & Hds).
  - cbn. rewrite L2, L1. cbn. lia.
  - cbn. rewrite Hh, L2. exact Hd1.
  - constructor; [exact Hlist|constructor].
  - apply length_replicate.
  - rewrite records_size_cons. cbn [snd records_size foldr]. rewrite Hsz, Hdata. unfold list_bytes.
    rewrite !length_app, length_le_bytes, length_replicate, length_take. cbn. lia.
  - exists st, st1, st2, st3, 5, ds. split; [unfold statsmgrStart; cbn [st_heap]; by rewrite E|]. split_and!; assumption.
Defined.

End StatsDump.
