(* ===== verification/Database.v ===== *)
(** * Databases

    Models [src/svc_kernel/database/database.c].  SQLite, libconfig and the
    clock are not part of the program: SQLite is a class of operations on a
    state of its own, in which every call also tells how long it took (what
    [timerWatchStop] returns behind it), and the settings of a configuration
    are arguments.  A [database_t] lives in an entry of the list of the
    manager; its fields are kept under its address, beside the bytes that the
    entry was created with, and its counters are cells of the memory of the
    statistics service.  Log output is left out. *)

From Stdlib Require Import Ascii String.
From stdpp Require Import gmap.
From S2P Require Import Prelude CString DList Svc Stats.

Module Database.
Import CStr DList Svc Stats.

(** ** Interfaces *)

Definition SQLITE_OK : Z := 0.
Definition SQLITE_ROW : Z := 100.
Definition SQLITE_DONE : Z := 101.

(** The variable arguments of [dbExec]: a tag and, except for [NULL], a value. *)
Inductive bind_arg : Type :=
| BindNull
| BindInt (v : Z)
| BindInt64 (v : Z)
| BindText (s : list Z)    (* DB_BIND_TEXT, SQLITE_STATIC *)
| BindSText (s : list Z)   (* DB_BIND_STEXT, SQLITE_TRANSIENT *)
| BindOther (tag : Z).     (* an unknown tag *)

Class Sqlite (S : Type) := {
  sqlite_prepare : S -> Z -> list Z -> Z * Z * S;     (* connection, text; result, statement *)
  sqlite_bind : S -> Z -> nat -> bind_arg -> Z * S;   (* statement, index *)
  sqlite_step : S -> Z -> Z * S;
  sqlite_finalize : S -> Z -> Z * S;
  sqlite_exec : S -> Z -> list Z -> Z * S;            (* connection, text *)
  sqlite_open : S -> list Z -> Z * Z * S;             (* result, connection *)
  sqlite_close : S -> Z -> S;
  sqlite_remove : S -> list Z -> S;                   (* [remove] of the file *)
  watch : S -> Z                                      (* the time the last call took *)
}.

(** ** Data *)

(** The counters of a [database_t]. *)
Inductive db_stat : Type :=
| DbExec | DbExecFail | DbPrepareTime | DbBindTime | DbExecTime | DbFinalizeTime | DbCallbackTime
| DbTxnTime | DbTxnCommit | DbTxnCommitFail | DbTxnCommitTime
| DbTxnRollback | DbTxnRollbackFail | DbTxnRollbackTime | DbOpen | DbOpenTime.

#[export] Instance db_stat_eq_dec : EqDecision db_stat.
Proof. solve_decision. Defined.

Definition DB_FLAGS_STATE_MOUNTING : Z := 0.
Definition DB_FLAGS_STATE_MOUNTED : Z := 1.
Definition DB_FLAGS_STATE_OPEN : Z := 2.

Record database_t : Type := MkDb {
  db_db : Z;                (* sqlite3*, 0 for NULL *)
  db_stats_list : Z;
  db_dropOnClose : bool;
  db_state : Z;             (* 2 bits *)
  db_shortname : list Z;    (* 9 bytes *)
  db_file_name : list Z
}.

Definition sizeof_database : nat := 296.

(** The addresses of the counters of the structure at [p_db]. *)
Definition stat_index (s : db_stat) : Z :=
  match s with
  | DbExec => 0 | DbExecFail => 1 | DbPrepareTime => 2 | DbBindTime => 3 | DbExecTime => 4 | DbFinalizeTime => 5
  | DbCallbackTime => 6 | DbTxnTime => 7 | DbTxnCommit => 8 | DbTxnCommitFail => 9 | DbTxnCommitTime => 10
  | DbTxnRollback => 11 | DbTxnRollbackFail => 12 | DbTxnRollbackTime => 13 | DbOpen => 14 | DbOpenTime => 15
  end.
Definition stat_addr (p_db : Z) (s : db_stat) : Z := p_db + 40 + 16 * stat_index s.

Definition all_stats : list db_stat :=
  [DbExec; DbExecFail; DbExecTime; DbPrepareTime; DbBindTime; DbFinalizeTime; DbCallbackTime; DbTxnTime;
   DbTxnCommit; DbTxnCommitFail; DbTxnCommitTime; DbTxnRollback; DbTxnRollbackFail; DbTxnRollbackTime;
   DbOpen; DbOpenTime].

(** [gc_statsKey_...] *)
Definition stat_key (s : db_stat) : list Z :=
  match s with
  | DbExec => lit "db exec"
  | DbExecFail => lit "db exec fail"
  | DbPrepareTime => lit "db prepare time"
  | DbBindTime => lit "db bind time"
  | DbExecTime => lit "db exec time"
  | DbFinalizeTime => lit "db finalize time"
  | DbCallbackTime => lit "db callback time"
  | DbTxnTime => lit "db txn time"
  | DbTxnCommit => lit "db txn commit"
  | DbTxnCommitFail => lit "db txn commit fail"
  | DbTxnCommitTime => lit "db txn commit time"
  | DbTxnRollback => lit "db txn rollback"
  | DbTxnRollbackFail => lit "db txn rollback fail"
  | DbTxnRollbackTime => lit "db txn rollback time"
  | DbOpen => lit "db open"
  | DbOpenTime => lit "db open time"
  end.

Section database.
Context {S T : Type} `{SQ : Sqlite S} `{SM : StringMap T}.

(** [w_stats] holds the heap of both lists; [w_DBList]: [g_dbCfg._DBList]. *)
Record world : Type := MkWorld {
  w_sqlite : S;
  w_stats : @stats_mgr_t T;
  w_DBList : Z;
  w_dbs : gmap Z database_t
}.

Definition set_sqlite (w : world) (sq : S) : world := MkWorld sq (w_stats w) (w_DBList w) (w_dbs w).
Definition set_db (w : world) (p : Z) (db : database_t) : world :=
  MkWorld (w_sqlite w) (w_stats w) (w_DBList w) (<[p := db]> (w_dbs w)).
Definition set_stats (w : world) (st : @stats_mgr_t T) : world :=
  MkWorld (w_sqlite w) st (w_DBList w) (w_dbs w).

Definition db_of (w : world) (p : Z) : res database_t :=
  if p =? 0 then Err NullDeref
  else match w_dbs w !! p with Some db => Ok db | None => Err UseAfterFree end.

Definition with_state (db : database_t) (conn state : Z) : database_t :=
  MkDb conn (db_stats_list db) (db_dropOnClose db) state (db_shortname db) (db_file_name db).

(** [statsUpdate(&p_db->_statsEntry_..., value)] *)
Definition bump (w : world) (p : Z) (s : db_stat) (value : Z) : res world :=
  if p =? 0 then Err NullDeref
  else '(_, st) ← statsUpdate (w_stats w) (stat_addr p s) value; Ok (set_stats w st).

(** ** Internal API *)

Definition i_dbCheckState (w : world) (p_db required_state : Z) : res bool :=
  if p_db =? 0 then Ok false
  else db ← db_of w p_db; Ok (db_state db =? required_state).

(** The loop from index [i] on, [n] variables left. *)
Fixpoint i_dbExecBindVariables (n i : nat) (sq : S) (pStmt : Z) (args : list bind_arg) : res (bool * S) :=
  match n with
  | O => Ok (true, sq)
  | Datatypes.S n' =>
      match args with
      | [] => Err OutOfBounds
      | BindOther _ :: _ => Ok (false, sq)
      | a :: args' =>
          let '(rc, sq) := sqlite_bind sq pStmt i a in
          if rc =? SQLITE_OK then i_dbExecBindVariables n' (Datatypes.S i) sq pStmt args' else Ok (false, sq)
      end
  end.

Section callback.
Context {P : Type} (callback : P -> world -> Z -> res (Z * P * world)).

(** What the [while(1)] loop leaves: the number of rows and two times. *)
Record loop_result : Type := MkLoop {
  lr_world : world; lr_param : P; lr_rowCount : Z; lr_execTime : Z; lr_callbackTime : Z
}.

Fixpoint step_loop (fuel : nat) (w : world) (pStmt : Z) (param : P) (rowCount execTime callbackTime : Z)
    : res loop_result :=
  match fuel with
  | O => Err Diverges
  | Datatypes.S fuel' =>
      let '(rc, sq) := sqlite_step (w_sqlite w) pStmt in
      let w := set_sqlite w sq in
      let execTime := u64 (execTime + watch sq) in
      if (rc =? SQLITE_DONE) || (rc =? SQLITE_ROW) then
        let rowCount := u32 (rowCount + 1) in
        if rc =? SQLITE_DONE then Ok (MkLoop w param rowCount execTime callbackTime)
        else
          '(rc, param, w) ← callback param w pStmt;
          let callbackTime := u64 (callbackTime + watch (w_sqlite w)) in
          if negb (rc =? 0) then Ok (MkLoop w param rowCount execTime callbackTime)
          else step_loop fuel' w pStmt param rowCount execTime callbackTime
      else Ok (MkLoop w param rowCount execTime callbackTime)
  end.

(** The accounting behind [__dbExec_cleanup]. *)
Definition account (w : world) (p_db _status : Z) (prepT bindT execT cbT finT : Z) : res world :=
  w ← (if KSUCCESS _status then Ok w else bump w p_db DbExecFail 1);
  w ← bump w p_db DbExec 1;
  w ← bump w p_db DbPrepareTime prepT;
  w ← bump w p_db DbBindTime bindT;
  w ← bump w p_db DbExecTime execT;
  w ← bump w p_db DbCallbackTime cbT;
  bump w p_db DbFinalizeTime finT.

(** [fuel]: a bound on the iterations of the loop. *)
Definition i_dbExec (fuel : nat) (w : world) (p_db : Z) (stmt : list Z) (bindCnt : nat) (param : P)
    (args : list bind_arg) : res (Z * P * world) :=
  ok ← i_dbCheckState w p_db DB_FLAGS_STATE_OPEN;
  if negb ok then Ok (KSTATUS_DB_INCOMPATIBLE_STATE, param, w)
  else
    db ← db_of w p_db;
    let '(rc, pStmt, sq) := sqlite_prepare (w_sqlite w) (db_db db) stmt in
    let prepT := watch sq in
    let w := set_sqlite w sq in
    if negb (rc =? SQLITE_OK) then
      w ← account w p_db KSTATUS_UNSUCCESS prepT 0 0 0 0; Ok (KSTATUS_UNSUCCESS, param, w)
    else
      '(bound, sq) ← i_dbExecBindVariables bindCnt 1 (w_sqlite w) pStmt args;
      let bindT := watch sq in
      let w := set_sqlite w sq in
      if negb bound then
        w ← account w p_db KSTATUS_UNSUCCESS prepT bindT 0 0 0; Ok (KSTATUS_UNSUCCESS, param, w)
      else
        r ← step_loop fuel w pStmt param 0 0 0;
        let _status := if lr_rowCount r =? 0 then KSTATUS_DB_EXEC_ERROR else KSTATUS_SUCCESS in
        let '(rc, sq) := sqlite_finalize (w_sqlite (lr_world r)) pStmt in
        let w := set_sqlite (lr_world r) sq in
        let _status := if rc =? SQLITE_OK then _status else KSTATUS_DB_EXEC_ERROR in
        w ← account w p_db _status prepT bindT (lr_execTime r) (lr_callbackTime r) (watch sq);
        Ok (_status, lr_param r, w).

Definition dbExecQuery := i_dbExec.
End callback.

Definition i_dbExecEmptyCallback (param : unit) (w : world) (pStmt : Z) : res (Z * unit * world) := Ok (0, param, w).

Definition dbExec (fuel : nat) (w : world) (p_db : Z) (stmt : list Z) (bindCnt : nat) (args : list bind_arg)
    : res (Z * world) :=
  '(_status, _, w) ← i_dbExec i_dbExecEmptyCallback fuel w p_db stmt bindCnt tt args; Ok (_status, w).

(** ** Mounting *)

(** [strncpy(dst, src, n)]: stops at the terminator and fills up with zeros. *)
Definition strncpy (src : list Z) (n : nat) : res (list Z) :=
  len ← strlen src;
  Ok (take n (take len src ++ replicate n 0)).

(** The array of counters that [i_dbMount] registers, with their names. *)
Definition mount_stats (addr : db_stat -> Z) : list stats_bulk_init_t :=
  (fun s => (stat_key s, STATS_FLAGS_TYPE_SUM, addr s)) <$> all_stats.

(** The counters of a structure that was cleared with [memset]. *)
Definition clear_counters (st : @stats_mgr_t T) (p_db : Z) : @stats_mgr_t T :=
  foldr (fun s st => set_counter st (stat_addr p_db s) (MkCounter 0 0)) st all_stats.

(** The settings of one instance; [None]: the lookup fails. *)
Record instance_cfg : Type := MkCfg {
  cfg_dbName : option (list Z); cfg_fileName : option (list Z); cfg_dropOnClose : option bool
}.

(** [p], [tmp], [ps]: what [malloc] returns for the entry, and inside
    [statsCreate]. *)
Definition i_dbMount (w : world) (cfg : instance_cfg) (p tmp ps : Z) : res (Z * world) :=
  match cfg_dbName cfg, cfg_fileName cfg, cfg_dropOnClose cfg with
  | Some dbName, Some fileName, Some dropOnClose =>
      shortname ← strncpy dbName 9;
      key ← get shortname 0 8;
      let data := replicate 20 0 ++ shortname ++ replicate (sizeof_database - 29) 0 in
      '(p_db, h) ← doublylinkedlistAdd (st_heap (w_stats w)) (w_DBList w) key data p;
      let w := set_stats w (clear_counters (set_heap (w_stats w) h) p_db) in
      if p_db =? 0 then Err NullDeref
      else
        '(sl, st) ← statsCreate (w_stats w) shortname tmp ps;
        let w := set_stats (set_db w p_db (MkDb 0 sl false DB_FLAGS_STATE_MOUNTING shortname [])) st in
        if sl =? 0 then Ok (KSTATUS_DB_MOUNT_ERROR, w)
        else
          '(_status, st) ← statsAllocBulk (w_stats w) sl (mount_stats (stat_addr p_db));
          let w := set_stats w st in
          if negb (KSUCCESS _status) then Ok (_status, w)
          else
            Ok (_status, set_db w p_db (MkDb 0 sl dropOnClose DB_FLAGS_STATE_MOUNTED shortname fileName))
  | _, _, _ => Ok (KSTATUS_DB_MOUNT_ERROR, w)
  end.

(** [i_dbUmount], without its log lines. *)
Definition i_dbUmount (w : world) (p_db : Z) : res world :=
  a ← i_dbCheckState w p_db DB_FLAGS_STATE_MOUNTING;
  b ← i_dbCheckState w p_db DB_FLAGS_STATE_MOUNTED;
  db ← db_of w p_db;
  if negb a && negb b then Ok w
  else
    h ← doublylinkedlistDel (st_heap (w_stats w)) (w_DBList w) p_db;
    st ← statsDestroy (set_heap (w_stats w) h) (db_stats_list db);
    h ← doublylinkedlistRelease (st_heap st) p_db;
    Ok (set_stats w (set_heap st h)).

(** ** The manager *)

(** The loop over the instances; each comes with the addresses [malloc]
    returns while it is mounted. *)
Fixpoint mount_loop (w : world) (cfgs : list (instance_cfg * (Z * Z * Z))) (_status : Z)
    : res (Z * world) :=
  match cfgs with
  | [] => Ok (_status, w)
  | (cfg, (p, tmp, ps)) :: rest =>
      '(_status, w) ← i_dbMount w cfg p tmp ps;
      if KSUCCESS _status then mount_loop w rest _status else Ok (_status, w)
  end.

(** [cfgs]: the instances, [None] when there is no such setting; [plist]: what
    [malloc] returns for the list. *)
Definition dbmgrStart (w : world) (cfgs : option (list (instance_cfg * (Z * Z * Z))))
    (plist : Z) : res (Z * world) :=
  match cfgs with
  | None => Ok (KSTATUS_UNSUCCESS, w)
  | Some cfgs =>
      '(l, h) ← doublylinkedlistAlloc (st_heap (w_stats w)) plist;
      let w := MkWorld (w_sqlite w) (set_heap (w_stats w) h) l (w_dbs w) in
      if l =? 0 then Ok (KSTATUS_UNSUCCESS, w) else mount_loop w cfgs KSTATUS_UNSUCCESS
  end.

Definition dbmgrStop (w : world) : res world :=
  h ← doublylinkedlistFreeDeletedEntries (st_heap (w_stats w)) (w_DBList w);
  h ← doublylinkedlistFree h (w_DBList w);
  Ok (set_stats w (set_heap (w_stats w) h)).

(** ** Opening and closing *)

(** [openT]: the time the whole call took.  Returns the status, [*p_out_db] and the world. *)
Definition dbOpen (fuel : nat) (openT : Z) (w : world) (p_shortname : list Z)
    : res (Z * Z * world) :=
  key ← get p_shortname 0 8;
  '(p_db, h) ← doublylinkedlistFind (st_heap (w_stats w)) (w_DBList w) key;
  let w := set_stats w (set_heap (w_stats w) h) in
  if p_db =? 0 then Ok (KSTATUS_DB_OPEN_ERROR, p_db, w)
  else
    db ← db_of w p_db;
    let '(rc, conn, sq) := sqlite_open (w_sqlite w) (db_file_name db) in
    let w := set_sqlite w sq in
    if negb (rc =? 0) then Ok (KSTATUS_DB_OPEN_ERROR, p_db, set_db w p_db (with_state db conn (db_state db)))
    else
      let w := set_db w p_db (with_state db conn DB_FLAGS_STATE_OPEN) in
      '(_status, w) ← dbExec fuel w p_db (lit "PRAGMA journal_mode = WAL;") 0 [];
      if negb (KSUCCESS _status) then Ok (_status, p_db, w)
      else
        '(_status, w) ← dbExec fuel w p_db (lit "PRAGMA synchronous = NORMAL;") 0 [];
        if negb (KSUCCESS _status) then Ok (_status, p_db, w)
        else
          w ← bump w p_db DbOpenTime openT;
          w ← bump w p_db DbOpen 1;
          Ok (KSTATUS_SUCCESS, p_db, w).

Definition dbClose (w : world) (p_db : Z) : res world :=
  ok ← i_dbCheckState w p_db DB_FLAGS_STATE_OPEN;
  if negb ok then Ok w
  else
    db ← db_of w p_db;
    let w := set_sqlite w (sqlite_close (w_sqlite w) (db_db db)) in
    let w := set_db w p_db (with_state db 0 DB_FLAGS_STATE_MOUNTED) in
    let w := if db_dropOnClose db then set_sqlite w (sqlite_remove (w_sqlite w) (db_file_name db)) else w in
    h ← doublylinkedlistRelease (st_heap (w_stats w)) p_db;
    Ok (set_stats w (set_heap (w_stats w) h)).

(** ** Transactions *)

Definition stmtBegin : list Z := lit "BEGIN TRANSACTION;".
Definition stmtCommit : list Z := lit "COMMIT;".
Definition stmtRollback : list Z := lit "ROLLBACK;".

Definition dbTxnBegin (w : world) (p_db : Z) : res (Z * world) :=
  ok ← i_dbCheckState w p_db DB_FLAGS_STATE_OPEN;
  if negb ok then Ok (KSTATUS_DB_INCOMPATIBLE_STATE, w)
  else
    db ← db_of w p_db;
    let '(rc, sq) := sqlite_exec (w_sqlite w) (db_db db) stmtBegin in
    Ok (if rc =? SQLITE_OK then KSTATUS_SUCCESS else KSTATUS_UNSUCCESS, set_sqlite w sq).

(** [dbTxnCommit] and [dbTxnRollback] differ in the statement and the counters. *)
Definition txn_end (stmt : list Z) (done_ time fail : db_stat) (w : world) (p_db : Z) : res (Z * world) :=
  ok ← i_dbCheckState w p_db DB_FLAGS_STATE_OPEN;
  if negb ok then Ok (KSTATUS_DB_INCOMPATIBLE_STATE, w)
  else
    db ← db_of w p_db;
    let '(rc, sq) := sqlite_exec (w_sqlite w) (db_db db) stmt in
    let w := set_sqlite w sq in
    if rc =? SQLITE_OK then
      w ← bump w p_db done_ 1; w ← bump w p_db time (watch sq); Ok (KSTATUS_SUCCESS, w)
    else w ← bump w p_db fail 1; Ok (KSTATUS_UNSUCCESS, w).

Definition dbTxnCommit := txn_end stmtCommit DbTxnCommit DbTxnCommitTime DbTxnCommitFail.
Definition dbTxnRollback := txn_end stmtRollback DbTxnRollback DbTxnRollbackTime DbTxnRollbackFail.

End database.
End Database.
