(* ===== verification/DatabaseSpec.v ===== *)
(** * Correctness of the database layer

    For any SQLite that obeys the documented rules of statements: executing a
    statement always returns, counts itself and its failures, and finalizes
    the statement unless the binding of its variables failed. *)

From stdpp Require Import gmap.
From S2P Require Import Prelude CString ArtTree ArtMap DList Svc Stats Database.

Module DatabaseSpec.
Import CStr ArtMap DList Svc Stats Database.

(** What SQLite promises: a successful [sqlite3_prepare_v2] opens a new
    statement, [sqlite3_finalize] closes it whatever it returns, nothing else
    opens or closes statements.  That a statement has finitely many rows
    ([rows_left]) is an assumption on the environment: SQL has statements without
    it, recursive queries, and the program issues none; whether tables grow while
    they are read is up to the other users of the database.  The program issues no
    empty statement either, for which SQLite succeeds with a null handle. *)
Class SqliteLaws (S : Type) `{Sqlite S} := {
  open_stmts : S -> gset Z;
  rows_left : S -> Z -> nat;
  prepare_law s c q rc st s' :
    sqlite_prepare s c q = (rc, st, s') ->
    if rc =? SQLITE_OK then (st ∉ open_stmts s) /\ open_stmts s' = {[st]} ∪ open_stmts s
    else open_stmts s' = open_stmts s;
  bind_law s st i a rc s' : sqlite_bind s st i a = (rc, s') -> open_stmts s' = open_stmts s;
  step_law s st rc s' :
    sqlite_step s st = (rc, s') ->
    open_stmts s' = open_stmts s /\ (rc = SQLITE_ROW -> (rows_left s' st < rows_left s st)%nat);
  finalize_law s st rc s' : sqlite_finalize s st = (rc, s') -> open_stmts s' = open_stmts s ∖ {[st]}
}.

(** The calls on statements with texts in [Q] keep [I]. *)
Record keeps {S : Type} `{Sqlite S} (Q : list Z -> Prop) (I : S -> Prop) : Prop := {
  keep_prepare s c q rc st s' : Q q -> I s -> sqlite_prepare s c q = (rc, st, s') -> I s';
  keep_bind s st i a rc s' : I s -> sqlite_bind s st i a = (rc, s') -> I s';
  keep_step s st rc s' : I s -> sqlite_step s st = (rc, s') -> I s';
  keep_finalize s st rc s' : I s -> sqlite_finalize s st = (rc, s') -> I s'
}.

Lemma keeps_true {S : Type} `{Sqlite S} (Q : list Z -> Prop) : keeps Q (fun _ : S => True).
Proof. done. Qed.

Section database.
Context {S T : Type} `{SL : SqliteLaws S} `{SM : StringMap T}.
Abbreviation world := (@world S T).

(** ** Counters *)

(** The counters of the database at [p] have the values [f]. *)
Definition counters_ok (w : world) (p : Z) (f : db_stat -> Z) : Prop :=
  forall s, st_mem (w_stats w) !! stat_addr p s = Some (MkCounter STATS_FLAGS_TYPE_SUM (f s)).

Definition same_sqlite (w w' : world) : Prop :=
  w_sqlite w' = w_sqlite w /\ w_dbs w' = w_dbs w /\ w_DBList w' = w_DBList w.

Definition add_to (f : db_stat -> Z) (s : db_stat) (v : Z) (s' : db_stat) : Z :=
  if decide (s' = s) then u64 (f s' + v) else f s'.

Lemma stat_addr_inj p s s' : stat_addr p s = stat_addr p s' -> s = s'.
Proof. unfold stat_addr. destruct s, s'; cbn; try done; lia. Qed.

Lemma bump_ok (w : world) p f s v :
  0 < p -> counters_ok w p f ->
  exists w', bump w p s v = Ok w' /\ counters_ok w' p (add_to f s v) /\ same_sqlite w w'.
Proof.
  intros Hp Hc. unfold bump. rewrite (proj2 (Z.eqb_neq p 0)) by lia. unfold statsUpdate, counter_of.
  assert (stat_addr p s <> 0) by (unfold stat_addr; destruct s; cbn; lia).
  rewrite (proj2 (Z.eqb_neq (stat_addr p s) 0)), Hc by done. cbn [mbind res_bind].
  change (update_counter (MkCounter STATS_FLAGS_TYPE_SUM (f s)) v)
    with (u64 (f s + v), MkCounter STATS_FLAGS_TYPE_SUM (u64 (f s + v))). cbn [mbind res_bind].
  eexists. split; [done|]. split; [|done]. intros s'. cbn. unfold add_to. destruct (decide (s' = s)) as [->|Hne].
  - by rewrite lookup_insert_eq.
  - rewrite lookup_insert_ne by (intros ?%stat_addr_inj; congruence). apply Hc.
Qed.

Lemma same_sqlite_trans w1 w2 w3 : same_sqlite w1 w2 -> same_sqlite w2 w3 -> same_sqlite w1 w3.
Proof. unfold same_sqlite. intros (-> & -> & ->) (-> & -> & ->). done. Qed.

(** The counters after one execution with status [k]. *)
Definition accounted (f : db_stat -> Z) (k : Z) (f' : db_stat -> Z) : Prop :=
  f' DbExec = u64 (f DbExec + 1) /\
  f' DbExecFail = (if KSUCCESS k then f DbExecFail else u64 (f DbExecFail + 1)) /\
  (forall s, s ∈ [DbTxnTime; DbTxnCommit; DbTxnCommitFail; DbTxnCommitTime; DbTxnRollback; DbTxnRollbackFail;
                  DbTxnRollbackTime; DbOpen; DbOpenTime] -> f' s = f s).

(** Run the next update of a counter. *)
Ltac next_bump :=
  match goal with
  | Hp : 0 < ?p, H : counters_ok ?w ?p ?f |- context [bump ?w ?p ?s ?v] =>
      let w' := fresh "w" in let E := fresh "E" in let Hc := fresh "Hc" in let Hs := fresh "Hs" in
      destruct (bump_ok w p f s v Hp H) as (w' & E & Hc & Hs); rewrite E; clear E; cbn [mbind res_bind]
  end.

Lemma account_ok (w : world) p f k a b c d e :
  0 < p -> counters_ok w p f ->
  exists w' f', account w p k a b c d e = Ok w' /\ counters_ok w' p f' /\ accounted f k f' /\ same_sqlite w w'.
Proof.
  intros Hp Hc0. unfold account, accounted.
  destruct (KSUCCESS k); cbn [mbind res_bind]; repeat next_bump;
    (eexists _, _; split; [done|]; split; [eassumption|]);
    (split; [|repeat (eapply same_sqlite_trans; [eassumption|]); done]).
  all: split; [done|]; split; [done|]; intros s Hin;
    repeat (apply elem_of_cons in Hin as [->|Hin]; [done|]); by apply elem_of_nil in Hin.
Qed.

(** ** Statements *)

Lemma bind_ok n i (sq : S) st args :
  (n <= length args)%nat ->
  exists b sq', i_dbExecBindVariables n i sq st args = Ok (b, sq') /\ open_stmts sq' = open_stmts sq.
Proof.
  revert i sq args. induction n as [|n IH]; intros i sq args Hn; cbn [i_dbExecBindVariables]; [eauto|].
  destruct args as [|a args]; [cbn in Hn; lia|]. cbn in Hn.
  destruct a; try (by eauto); destruct (sqlite_bind sq st i _) as [rc sq1] eqn:E; apply bind_law in E;
    (destruct (rc =? SQLITE_OK); [|by eauto]);
    (destruct (IH (Datatypes.S i) sq1 args ltac:(lia)) as (b & sq' & -> & E'); exists b, sq'; split; [done|congruence]).
Qed.

Section callback.
Context {P : Type} (callback : P -> world -> Z -> res (Z * P * world)) (PI : P -> Prop).

(** The callback only reads the row, and keeps [PI] of its parameter. *)
Hypothesis Hcb : forall param w st, PI param -> exists rc param', callback param w st = Ok (rc, param', w) /\ PI param'.

Lemma step_loop_ok fuel w st param rc et ct :
  PI param -> (rows_left (w_sqlite w) st < fuel)%nat ->
  exists r, step_loop callback fuel w st param rc et ct = Ok r /\
    open_stmts (w_sqlite (lr_world r)) = open_stmts (w_sqlite w) /\
    w_stats (lr_world r) = w_stats w /\ w_dbs (lr_world r) = w_dbs w /\ PI (lr_param r).
Proof.
  revert w param rc et ct. induction fuel as [|fuel IH]; intros w param rc et ct HPI Hf; [lia|]. cbn [step_loop].
  destruct (sqlite_step (w_sqlite w) st) as [k sq] eqn:E. apply step_law in E as [Ho Hr].
  destruct ((k =? SQLITE_DONE) || (k =? SQLITE_ROW)) eqn:Ek; [|by eexists].
  destruct (Z.eqb_spec k SQLITE_DONE) as [->|Hd]; [by eexists|]. cbn [orb] in Ek. apply Z.eqb_eq in Ek.
  specialize (Hr Ek).
  destruct (Hcb param (set_sqlite w sq) st HPI) as (c & param' & -> & HPI'). cbn [mbind res_bind].
  destruct (negb (c =? 0)); [by eexists|].
  match goal with |- context [step_loop callback fuel ?w' st ?q ?x ?y ?z] =>
    destruct (IH w' q x y z) as (r & -> & Ho' & Hst & Hdb & HPr) end; [done|cbn; lia|].
  exists r. split; [done|]. split; [by rewrite Ho'|]. by split.
Qed.

(** A statement stays open when it was prepared and its binding failed. *)
Definition leaks (w : world) (conn : Z) (stmt : list Z) (bindCnt : nat) (args : list bind_arg) : option Z :=
  let '(rc, st, sq) := sqlite_prepare (w_sqlite w) conn stmt in
  if rc =? SQLITE_OK then
    match i_dbExecBindVariables bindCnt 1 sq st args with
    | Ok (false, _) => Some st
    | _ => None
    end
  else None.

Lemma exec_ok w p db f stmt bindCnt param args :
  0 < p -> w_dbs w !! p = Some db -> db_state db = DB_FLAGS_STATE_OPEN -> counters_ok w p f ->
  PI param -> (bindCnt <= length args)%nat ->
  exists fuel0, forall fuel, (fuel0 <= fuel)%nat ->
  exists k param' w' f', i_dbExec callback fuel w p stmt bindCnt param args = Ok (k, param', w') /\
    counters_ok w' p f' /\ accounted f k f' /\
    open_stmts (w_sqlite w') =
      match leaks w (db_db db) stmt bindCnt args with
      | Some st => {[st]} ∪ open_stmts (w_sqlite w)
      | None => open_stmts (w_sqlite w)
      end /\ PI param'.
Proof.
  intros Hp Hdb Hst Hc HPI Hn. unfold i_dbExec, i_dbCheckState, db_of, leaks.
  rewrite (proj2 (Z.eqb_neq p 0)), Hdb by lia. cbn [mbind res_bind]. rewrite Hst, Z.eqb_refl. cbn [negb].
  destruct (sqlite_prepare (w_sqlite w) (db_db db) stmt) as [[rc st] sq] eqn:Ep. apply prepare_law in Ep.
  destruct (rc =? SQLITE_OK); cbn [negb].
  2: { exists O. intros fuel _. destruct (account_ok (set_sqlite w sq) p f KSTATUS_UNSUCCESS (watch sq) 0 0 0 0 Hp Hc)
         as (w' & f' & -> & Hc' & Ha & Hs & _). eexists _, _, w', f'. split; [done|]. by rewrite Hs. }
  destruct Ep as [Hnew Hopen]. destruct (bind_ok bindCnt 1 sq st args Hn) as (b & sq1 & Eb & Ho1).
  change (w_sqlite (set_sqlite w sq)) with sq. rewrite Eb. cbn [mbind res_bind]. destruct b; cbn [negb].
  2: { exists O. intros fuel _.
       destruct (account_ok (set_sqlite (set_sqlite w sq) sq1) p f KSTATUS_UNSUCCESS (watch sq) (watch sq1) 0 0 0 Hp Hc)
         as (w' & f' & -> & Hc' & Ha & Hs & _). eexists _, _, w', f'. split; [done|].
       split; [done|]. split; [done|]. split; [|done]. rewrite Hs. cbn. congruence. }
  exists (Datatypes.S (rows_left sq1 st)). intros fuel Hf.
  destruct (step_loop_ok fuel (set_sqlite (set_sqlite w sq) sq1) st param 0 0 0 HPI ltac:(cbn; lia)) as (r & -> & Ho2 & Hst2 & _ & HPr).
  cbn [mbind res_bind]. destruct (sqlite_finalize (w_sqlite (lr_world r)) st) as [rc2 sq2] eqn:Ef. apply finalize_law in Ef.
  set (k := if rc2 =? SQLITE_OK then _ else _).
  assert (Hc2 : counters_ok (set_sqlite (lr_world r) sq2) p f) by (intros s; cbn; rewrite Hst2; apply Hc).
  destruct (account_ok (set_sqlite (lr_world r) sq2) p f k (watch sq) (watch sq1) (lr_execTime r) (lr_callbackTime r) (watch sq2) Hp Hc2)
    as (w' & f' & -> & Hc' & Ha & Hs & _). cbn [mbind res_bind].
  eexists _, _, w', f'. split; [done|]. split; [done|]. split; [done|]. split; [|done].
  rewrite Hs. cbn. rewrite Ef, Ho2. cbn. rewrite Ho1, Hopen. set_solver.
Qed.

(** An invariant of SQLite that the calls on statements with texts in [Q] keep
    survives, and the databases stay as they are. *)
Section preserve.
Context {Q : list Z -> Prop} {I : S -> Prop} (HI : keeps Q I).

Lemma bind_preserves n i (sq : S) st args b sq' :
  I sq -> i_dbExecBindVariables n i sq st args = Ok (b, sq') -> I sq'.
Proof.
  revert i sq args. induction n as [|n IH]; intros i sq args HIs; cbn [i_dbExecBindVariables]; [by intros [= _ <-]|].
  destruct args as [|a args]; [done|].
  destruct a; try (by intros [= _ <-]); destruct (sqlite_bind sq st i _) as [rc sq1] eqn:E; apply (keep_bind _ _ HI) in E; try done;
    (destruct (rc =? SQLITE_OK); [by apply IH|by intros [= _ <-]]).
Qed.

Lemma step_loop_preserves fuel w st param rc et ct r :
  PI param -> I (w_sqlite w) -> step_loop callback fuel w st param rc et ct = Ok r ->
  I (w_sqlite (lr_world r)) /\ w_dbs (lr_world r) = w_dbs w.
Proof.
  revert w param rc et ct. induction fuel as [|fuel IH]; intros w param rc et ct HPI HIs; [done|]. cbn [step_loop].
  destruct (sqlite_step (w_sqlite w) st) as [k sq] eqn:E. pose proof (keep_step _ _ HI _ _ _ _ HIs E) as HI'.
  destruct ((k =? SQLITE_DONE) || (k =? SQLITE_ROW)); [|by intros [= <-]].
  destruct (k =? SQLITE_DONE); [by intros [= <-]|].
  destruct (Hcb param (set_sqlite w sq) st HPI) as (c & param' & -> & HPI'). cbn [mbind res_bind].
  destruct (negb (c =? 0)); [by intros [= <-]|]. intros Hs. apply IH in Hs; done.
Qed.

Lemma bump_same (w : world) p s v w' : bump w p s v = Ok w' -> same_sqlite w w'.
Proof.
  unfold bump. destruct (p =? 0); [done|]. destruct (statsUpdate _ _ _) as [[r st]|]; [|done]. by intros [= <-].
Qed.

Lemma account_same (w : world) p k a b c d e w' : account w p k a b c d e = Ok w' -> same_sqlite w w'.
Proof.
  unfold account. intros Ha. res_inv. destruct (KSUCCESS k); res_inv;
    repeat match goal with Hb : bump _ _ _ _ = Ok _ |- _ => apply bump_same in Hb end;
    repeat (eapply same_sqlite_trans; [eassumption|]); done.
Qed.

Lemma exec_preserves fuel w p stmt bindCnt param args k param' w' :
  Q stmt -> PI param -> I (w_sqlite w) -> i_dbExec callback fuel w p stmt bindCnt param args = Ok (k, param', w') ->
  I (w_sqlite w') /\ w_dbs w' = w_dbs w.
Proof.
  intros HQ HPI HIs. unfold i_dbExec. destruct (i_dbCheckState w p _) as [ok|]; [|done]. cbn [mbind res_bind].
  destruct (negb ok); [by intros [= _ _ <-]|]. destruct (db_of w p) as [db|]; [|done]. cbn [mbind res_bind].
  destruct (sqlite_prepare (w_sqlite w) (db_db db) stmt) as [[rc st] sq] eqn:Ep. pose proof (keep_prepare _ _ HI _ _ _ _ _ _ HQ HIs Ep) as H1.
  destruct (negb (rc =? SQLITE_OK)).
  { destruct (account _ _ _ _ _ _ _ _) as [w1|] eqn:Ea; [|done]. intros [= _ _ <-]. apply account_same in Ea as (-> & -> & _). done. }
  change (w_sqlite (set_sqlite w sq)) with sq.
  destruct (i_dbExecBindVariables bindCnt 1 sq st args) as [[b sq1]|] eqn:Eb; [|done].
  pose proof (bind_preserves _ _ _ _ _ _ _ H1 Eb) as H2. cbn [mbind res_bind]. destruct (negb b).
  { destruct (account _ _ _ _ _ _ _ _) as [w1|] eqn:Ea; [|done]. intros [= _ _ <-]. apply account_same in Ea as (-> & -> & _). done. }
  destruct (step_loop callback fuel _ st param 0 0 0) as [r|] eqn:Es; [|done].
  apply step_loop_preserves in Es as [H3 H4]; [|done..]. cbn [mbind res_bind].
  destruct (sqlite_finalize (w_sqlite (lr_world r)) st) as [rc2 sq2] eqn:Ef. pose proof (keep_finalize _ _ HI _ _ _ _ H3 Ef) as H5.
  destruct (account _ _ _ _ _ _ _ _) as [w1|] eqn:Ea; [|done]. intros [= _ _ <-]. apply account_same in Ea as (-> & -> & _). done.
Qed.
End preserve.
End callback.

End database.


(** ** A concrete SQLite *)

(** Statements by handle with the rows each has left; binding index 7 fails,
    as it does for a statement with six variables. *)
Abbreviation mock := (gmap Z nat).

#[export] Instance mock_sqlite : Sqlite mock := {
  sqlite_prepare m _ q := (SQLITE_OK, fresh (dom m), <[fresh (dom m) := length q]> m);
  sqlite_bind m st i a := (if (i <=? 6)%nat then SQLITE_OK else 25, m);
  sqlite_step m st :=
    match m !! st with
    | Some (Datatypes.S n) => (SQLITE_ROW, <[st := n]> m)
    | _ => (SQLITE_DONE, m)
    end;
  sqlite_finalize m st := (SQLITE_OK, delete st m);
  sqlite_exec m _ q := (SQLITE_OK, m);
  sqlite_open m q := (SQLITE_OK, 1, m);
  sqlite_close m c := m;
  sqlite_remove m f := m;
  watch m := 3
}.

#[export] Program Instance mock_laws : SqliteLaws mock := {
  open_stmts m := dom m;
  rows_left m st := default O (m !! st)
}.
Next Obligation.
  cbn. intros m c q rc st s' [= <- <- <-]. split; [apply is_fresh|]. apply dom_insert_L.
Qed.
Next Obligation. cbn. intros m st i a rc s' [= _ <-]. done. Qed.
Next Obligation.
  cbn. intros m st rc s'. destruct (m !! st) as [[|n]|] eqn:E; intros [= <- <-]; try done.
  split; [apply dom_insert_lookup_L; by exists (Datatypes.S n)|]. intros _.
  rewrite lookup_insert_eq. cbn. lia.
Qed.
Next Obligation. cbn. intros m st rc s' [= _ <-]. apply dom_delete_L. Qed.

Definition sample_world : @world mock ArtOps.art_tree :=
  MkWorld ∅ (MkStats ∅ 4096 ∅ (list_to_map ((fun s => (stat_addr 5000 s, MkCounter STATS_FLAGS_TYPE_SUM 0)) <$> all_stats)))
    0 {[ 5000 := MkDb 1 0 false DB_FLAGS_STATE_OPEN [] [] ]}.

Lemma sample_counters : counters_ok sample_world 5000 (fun _ => 0).
Proof. intros s. destruct s; vm_compute; reflexivity. Qed.


End DatabaseSpec.
