(* ===== verification/Journal.v ===== *)
(** * The journal of SQLite

    What the program asked of SQLite, in order: the statements it prepared, the
    texts it executed directly, which are those of transactions, and the
    connections it closed.  The journal is a history variable: [Journal] says
    how the calls extend it, and every SQLite has one, [logged], whose state is
    that of the given one with the journal beside it. *)

From stdpp Require Import gmap.
From S2P Require Import Prelude CString DList Svc Stats Database DatabaseSpec.

Module Journal.
Import CStr Svc Stats Database DatabaseSpec.

Inductive call : Type :=
| CPrepare (conn : Z) (text : list Z) (rc : Z)
| CExec (conn : Z) (text : list Z) (rc : Z)
| CClose (conn : Z).

#[export] Instance call_eq_dec : EqDecision call.
Proof. solve_decision. Defined.

Class Journal (S : Type) `{Sqlite S} := {
  journal : S -> list call;
  journal_prepare s c q rc st s' : sqlite_prepare s c q = (rc, st, s') -> journal s' = journal s ++ [CPrepare c q rc];
  journal_bind s st i a rc s' : sqlite_bind s st i a = (rc, s') -> journal s' = journal s;
  journal_step s st rc s' : sqlite_step s st = (rc, s') -> journal s' = journal s;
  journal_finalize s st rc s' : sqlite_finalize s st = (rc, s') -> journal s' = journal s;
  journal_exec s c q rc s' : sqlite_exec s c q = (rc, s') -> journal s' = journal s ++ [CExec c q rc];
  journal_open s f rc c s' : sqlite_open s f = (rc, c, s') -> journal s' = journal s;
  journal_close s c : journal (sqlite_close s c) = journal s ++ [CClose c];
  journal_remove s f : journal (sqlite_remove s f) = journal s
}.

(** ** Every SQLite has a journal *)

Record logged (S : Type) : Type := MkLogged { lg_state : S; lg_calls : list call }.
Arguments MkLogged {S}.
Arguments lg_state {S}.
Arguments lg_calls {S}.

Definition log_more {S} (s : logged S) (m : S) (cs : list call) : logged S := MkLogged m (lg_calls s ++ cs).

#[export] Instance logged_sqlite {S} `{SQ : Sqlite S} : Sqlite (logged S) := {
  sqlite_prepare s c q := let '(rc, st, m) := sqlite_prepare (lg_state s) c q in (rc, st, log_more s m [CPrepare c q rc]);
  sqlite_bind s st i a := let '(rc, m) := sqlite_bind (lg_state s) st i a in (rc, MkLogged m (lg_calls s));
  sqlite_step s st := let '(rc, m) := sqlite_step (lg_state s) st in (rc, MkLogged m (lg_calls s));
  sqlite_finalize s st := let '(rc, m) := sqlite_finalize (lg_state s) st in (rc, MkLogged m (lg_calls s));
  sqlite_exec s c q := let '(rc, m) := sqlite_exec (lg_state s) c q in (rc, log_more s m [CExec c q rc]);
  sqlite_open s f := let '(rc, c, m) := sqlite_open (lg_state s) f in (rc, c, MkLogged m (lg_calls s));
  sqlite_close s c := log_more s (sqlite_close (lg_state s) c) [CClose c];
  sqlite_remove s f := MkLogged (sqlite_remove (lg_state s) f) (lg_calls s);
  watch s := watch (lg_state s)
}.

(** Read a call of the logged SQLite as one of the SQLite below. *)
Ltac unlog E :=
  cbn [sqlite_prepare sqlite_bind sqlite_step sqlite_finalize sqlite_exec sqlite_open logged_sqlite] in E;
  repeat match type of E with context [match ?x with (_, _) => _ end] =>
    let H := fresh "Ecall" in destruct x eqn:H end;
  simplify_eq/=.

#[export] Program Instance logged_journal {S} `{SQ : Sqlite S} : Journal (logged S) := { journal := lg_calls }.
Solve All Obligations with (intros; try match goal with E : _ = (_, _) |- _ => unlog E end; done).

#[export] Program Instance logged_laws {S} `{SL : SqliteLaws S} : SqliteLaws (logged S) := {
  open_stmts s := open_stmts (lg_state s);
  rows_left s st := rows_left (lg_state s) st
}.
Next Obligation. intros S SQ SL s c q rc st s' E. unlog E. by eapply prepare_law. Qed.
Next Obligation. intros S SQ SL s st i a rc s' E. unlog E. by eapply bind_law. Qed.
Next Obligation. intros S SQ SL s st rc s' E. unlog E. by eapply step_law. Qed.
Next Obligation. intros S SQ SL s st rc s' E. unlog E. by eapply finalize_law. Qed.

(** ** The journal of a statement *)

Section statements.
Context {S T : Type} `{SQ : Sqlite S} `{JL : !Journal S} `{SM : StringMap T}.
Abbreviation world := (@world S T).
Abbreviation log_of w := (journal (w_sqlite w)).

(** The database at [p] is open on the connection [c]. *)
Definition open_on (w : world) (p c : Z) : Prop :=
  p <> 0 /\ exists db, w_dbs w !! p = Some db /\ db_state db = DB_FLAGS_STATE_OPEN /\ db_db db = c.

Lemma open_on_same w w' p c : w_dbs w' = w_dbs w -> open_on w p c -> open_on w' p c.
Proof. unfold open_on. by intros ->. Qed.

(** Behind [sqlite3_prepare_v2] the calls on a statement are not recorded. *)
Lemma journal_keeps J : keeps (fun _ => False) (fun s => journal s = J).
Proof.
  split; [done|intros s st i a rc s' <- E|intros s st rc s' <- E|intros s st rc s' <- E].
  - by eapply journal_bind.
  - by eapply journal_step.
  - by eapply journal_finalize.
Qed.

Context {P : Type} (callback : P -> world -> Z -> res (Z * P * world)).
Hypothesis Hcb : forall param w st, exists rc param', callback param w st = Ok (rc, param', w).

Lemma exec_journal fuel w p c stmt n param args k param' w' :
  open_on w p c -> i_dbExec callback fuel w p stmt n param args = Ok (k, param', w') ->
  w_dbs w' = w_dbs w /\
  exists rc, log_of w' = log_of w ++ [CPrepare c stmt rc] /\ (KSUCCESS k = true -> rc = SQLITE_OK).
Proof.
  intros (Hp & db & Hdb & Hst & <-). unfold i_dbExec, i_dbCheckState, db_of.
  rewrite (proj2 (Z.eqb_neq p 0)), Hdb by done. cbn [mbind res_bind]. rewrite Hst, Z.eqb_refl. cbn [negb].
  assert (Hcb' : forall q (w : world) st, True -> exists rc q', callback q w st = Ok (rc, q', w) /\ True).
  { intros q w1 st _. destruct (Hcb q w1 st) as (rc & q' & E). eauto. }
  destruct (sqlite_prepare (w_sqlite w) (db_db db) stmt) as [[rc st] sq] eqn:Ep. apply journal_prepare in Ep.
  destruct (Z.eqb_spec rc SQLITE_OK) as [Hrc|Hrc]; cbn [negb].
  2: { destruct (account _ _ _ _ _ _ _ _) as [w1|] eqn:Ea; [|done]. intros [= <- _ <-]. apply account_same in Ea as (-> & -> & _).
       split; [done|]. by exists rc. }
  change (w_sqlite (set_sqlite w sq)) with sq. pose proof (journal_keeps (journal sq)) as HK.
  destruct (i_dbExecBindVariables n 1 sq st args) as [[b sq1]|] eqn:Eb; [|done].
  pose proof (bind_preserves HK _ _ _ _ _ _ _ eq_refl Eb) as H2. cbv beta in H2. cbn [mbind res_bind]. destruct (negb b).
  { destruct (account _ _ _ _ _ _ _ _) as [w1|] eqn:Ea; [|done]. intros [= <- _ <-]. apply account_same in Ea as (-> & -> & _).
    split; [done|]. exists rc. cbn. by rewrite H2. }
  destruct (step_loop callback fuel _ st param 0 0 0) as [r|] eqn:Es; [|done].
  apply (step_loop_preserves callback (fun _ => True) Hcb' HK) in Es as [H3 H4]; [|done..]. cbn [mbind res_bind].
  destruct (sqlite_finalize (w_sqlite (lr_world r)) st) as [rc2 sq2] eqn:Ef. apply journal_finalize in Ef.
  destruct (account _ _ _ _ _ _ _ _) as [w1|] eqn:Ea; [|done]. intros [= _ _ <-]. apply account_same in Ea as (-> & -> & _).
  split; [done|]. exists rc. cbn. by rewrite Ef, H3, Ep.
Qed.
End statements.

End Journal.
