(* ===== verification/CmdManager.v ===== *)
(** * The command manager

    Models [src/svc_kernel/execute_unit/cmd_manager.c].  A job is one block of
    memory: the structure [JOB] (48 bytes), the command name and the data; it
    is kept as its address and its bytes.  The table of commands is in a
    database, queried through [i_dbExec]; what SQLite returns as a column, and
    the functions behind the stored pointers, are parameters.  Log output is
    left out. *)

From Stdlib Require Import Ascii String.
From stdpp Require Import gmap.
From S2P Require Import Prelude CString DList Queue Svc Stats Database.

Module CmdManager.
Import CStr Svc Stats Database.

(** ** Jobs *)

Record timeval : Type := MkTv { tv_sec : Z; tv_usec : Z }.

(** A job in memory: its address and its bytes. *)
Record job : Type := MkJob { j_addr : Z; j_bytes : list Z }.

(** The offsets of the fields of [JOB]. *)
Definition off_cmd : nat := 0.
Definition off_ts : nat := 8.
Definition off_flags : nat := 24.
Definition off_data : nat := 32.
Definition off_dataSize : nat := 40.
Definition sizeof_job : nat := 48.

Definition put_field (j : job) (off n : nat) (v : Z) : res job :=
  b ← DList.put (j_bytes j) off (le_bytes n v); Ok (MkJob (j_addr j) b).
Definition get_field (j : job) (off n : nat) : res Z := DList.get (j_bytes j) off n.

(** The bytes from a pointer into the job on. *)
Definition at_ptr (j : job) (ptr : Z) : res (list Z) :=
  let off := ptr - j_addr j in
  if (0 <=? off) && (off <=? Z.of_nat (length (j_bytes j))) then Ok (drop (Z.to_nat off) (j_bytes j))
  else Err OutOfBounds.

(** [i_cmdmgrJobStructInitialize] *)
Definition i_cmdmgrJobStructInitialize (j : job) (cmd : list Z) : res job :=
  let cmd_ptr := j_addr j + Z.of_nat sizeof_job in
  j ← put_field j off_cmd 8 cmd_ptr;
  len ← strlen cmd;
  put_field j off_data 8 (cmd_ptr + Z.of_nat len + 1).

(** [i_cmdmgrJobStructFormat] *)
Definition i_cmdmgrJobStructFormat (j : job) : res job :=
  let cmd_ptr := j_addr j + Z.of_nat sizeof_job in
  j ← put_field j off_cmd 8 cmd_ptr;
  cmd ← at_ptr j cmd_ptr;
  len ← strlen cmd;
  put_field j off_data 8 (cmd_ptr + Z.of_nat len + 1).

(** Copying to where a pointer field points. *)
Definition copy_to (j : job) (off : nat) (bytes : list Z) : res job :=
  ptr ← get_field j off 8;
  if ptr <? j_addr j then Err OutOfBounds
  else b ← DList.put (j_bytes j) (Z.to_nat (ptr - j_addr j)) bytes; Ok (MkJob (j_addr j) b).

(** [addr]: what [malloc] returns, 0 for [NULL]; [junk]: what the memory
    contains.  [pdata] has [dataSize] bytes. *)
Definition cmdmgrJobPrepare (addr : Z) (junk : nat -> Z) (cmd pdata : list Z) (ts : timeval) (flags : Z)
    : res (Z * option job) :=
  len ← strlen cmd;
  let dataSize := length pdata in
  if addr =? 0 then Ok (KSTATUS_OUT_OF_MEMORY, None)
  else
    let j := MkJob addr (junk <$> seq 0 (sizeof_job + (dataSize + len + 1))) in
    j ← i_cmdmgrJobStructInitialize j cmd;
    j ← copy_to j off_cmd (take (len + 1) cmd);
    j ← put_field j off_ts 8 (tv_sec ts);
    j ← put_field j (off_ts + 8) 8 (tv_usec ts);
    j ← put_field j off_flags 4 flags;
    j ← copy_to j off_data pdata;
    j ← put_field j off_dataSize 8 (Z.of_nat dataSize);
    Ok (KSTATUS_SUCCESS, Some j).

(** The string at [pjob->_cmd], with its terminator. *)
Definition job_cmd (j : job) : res (list Z) :=
  cmd_ptr ← get_field j off_cmd 8;
  cmd ← at_ptr j cmd_ptr;
  len ← strlen cmd;
  Ok (take (len + 1) cmd).

(** The arguments of a handler: [pjob->_ts] and the [_dataSize] bytes at
    [pjob->_data]. *)
Definition job_args (j : job) : res (timeval * list Z) :=
  sec ← get_field j off_ts 8;
  usec ← get_field j (off_ts + 8) 8;
  data_ptr ← get_field j off_data 8;
  data ← at_ptr j data_ptr;
  size ← get_field j off_dataSize 8;
  if Z.of_nat (length data) <? size then Err OutOfBounds
  else Ok (MkTv (swrap 64 sec) (swrap 64 usec), take (Z.to_nat size) data).

(** ** The manager *)

Definition CMD_MANAGER_QUEUE_SHORTOPS : nat := 0.
Definition CMD_MANAGER_QUEUE_LONGOPS : nat := 1.

Inductive JobMode : Type := JobModeSynchronous | JobModeAsynchronous.
Inductive JobQueueType : Type := JobQueueTypeNone | JobQueueTypeShortOps | JobQueueTypeLongOps.

Section cmdmgr.
Context {S T G : Type} `{SQ : Sqlite S} `{SM : StringMap T}.

(** [sqlite3_column_int64], [sqlite3_column_text] and [sqlite3_column_count]
    of the current row. *)
Context (column_int64 : S -> Z -> nat -> Z) (column_text : S -> Z -> nat -> list Z).
Context (column_count : S -> Z -> nat).

(** The kernel: its status, its database, its statistics list, the queues; and
    the variables of the commands. *)
Record kernel : Type := MkKernel {
  k_world : @world S T;
  k_status : Z;
  k_db : Z;
  k_stats : Z;
  k_queues : list (option Queue.queue_t);
  k_globals : G
}.

Definition set_world (k : kernel) (w : @world S T) : kernel :=
  MkKernel w (k_status k) (k_db k) (k_stats k) (k_queues k) (k_globals k).
Definition set_queue (k : kernel) (i : nat) (q : option Queue.queue_t) : kernel :=
  MkKernel (k_world k) (k_status k) (k_db k) (k_stats k) (<[i := q]> (k_queues k)) (k_globals k).

Definition set_status (k : kernel) (status : Z) : kernel :=
  MkKernel (k_world k) status (k_db k) (k_stats k) (k_queues k) (k_globals k).
Definition set_globals (k : kernel) (g : G) : kernel :=
  MkKernel (k_world k) (k_status k) (k_db k) (k_stats k) (k_queues k) g.

(** The functions behind the pointers of the table: executing a job, and
    creating or destroying a command. *)
Context (exec_fn : Z -> timeval -> list Z -> kernel -> res (Z * kernel)).
Context (call_fn : Z -> kernel -> res (Z * kernel)).

(** [fuel]: a bound on the rows of the queries. *)
Context (fuel : nat).

Definition cgCreateSchemaCmdList : list Z :=
  lit "create table if not exists cmdmgr_cmdlist (code text, description text, version integer, pjobdef integer, pexec integer, pcreate integer, pdestroy integer);".
Definition cgInsertCommand : list Z :=
  lit "insert into cmdmgr_cmdlist(code, description, version, pjobdef, pexec, pcreate, pdestroy)values (?, ?, ?, ?, ?, ?, ?);".

(** ** Internal API *)

Definition i_cmdmgrFindPtr_GetVal (retVal : Z) (w : @world S T) (stmt : Z) : res (Z * Z * @world S T) :=
  Ok (0, column_int64 (w_sqlite w) stmt 0, w).

Definition i_cmdmgrFindPtr (k : kernel) (cmd column_name : list Z) : res (Z * kernel) :=
  let query := str "select " ++ column_name ++ lit " from cmdmgr_cmdlist where code = ?;" in
  if (255 <? length query)%nat then Err OutOfBounds
  else
    '(_status, ptr, w) ← dbExecQuery i_cmdmgrFindPtr_GetVal fuel (k_world k) (k_db k) query 1 0 [BindText cmd];
    Ok (if KSUCCESS _status then ptr else 0, set_world k w).

Definition i_cmdmgrFindCreate (k : kernel) (cmd : list Z) := i_cmdmgrFindPtr k cmd (str "pcreate").
Definition i_cmdmgrFindDestroy (k : kernel) (cmd : list Z) := i_cmdmgrFindPtr k cmd (str "pdestroy").
Definition i_cmdmgrFindExec (k : kernel) (cmd : list Z) := i_cmdmgrFindPtr k cmd (str "pexec").

Definition i_cmdmgrJobExec (k : kernel) (j : job) : res (Z * kernel) :=
  if negb (svcKernelIsRunning (k_status k)) then Ok (KSTATUS_SVC_IS_STOPPING, k)
  else
    cmd ← job_cmd j;
    '(pexec, k) ← i_cmdmgrFindExec k cmd;
    if pexec =? 0 then Ok (KSTATUS_CMDMGR_COMMAND_NOT_FOUND, k)
    else
      '(ts, data) ← job_args j;
      '(ret, k) ← exec_fn pexec ts data k;
      Ok (if ret =? 0 then KSTATUS_SUCCESS else KSTATUS_UNSUCCESS, k).

(** ** External API *)

(** What a call that may wait in the queue leads to. *)
Inductive job_outcome : Type :=
| Done (status : Z) (k : kernel)
| Waiting (k : kernel).

Definition queue_of (k : kernel) (i : nat) : res Queue.queue_t :=
  o ← rd (k_queues k) i; deref o.

(** The asynchronous branch behind the choice of the queue.  [pad]: the
    padding of the queue's header; [waits]: what happens while the call waits.
    The job is freed at the end. *)
Definition job_enqueue (k : kernel) (j : job) (i : nat) (queueEntrySize : Z) (pad : list Z)
    (waits : list Queue.wait_t) : res job_outcome :=
  q ← queue_of k i;
  let '(ok, q) := Queue.queue_producer_new q in
  if (ok : bool) then
    if decide (queueEntrySize <= Z.of_nat (length (j_bytes j))) then
      o ← Queue.queue_write q (take (Z.to_nat queueEntrySize) (j_bytes j)) pad waits;
      match o with
      | Queue.Blocked q => Ok (Waiting (set_queue k i (Some q)))
      | Queue.Returned ret _ q =>
          let k := set_queue k i (Some (Queue.queue_producer_free q)) in
          Ok (Done (if (0 <? ret) && (ret =? queueEntrySize) then KSTATUS_SUCCESS else KSTATUS_UNSUCCESS) k)
      end
    else Err OutOfBounds
  else Ok (Done KSTATUS_UNSUCCESS (set_queue k i (Some q))).

Definition cmdmgrJobExec (k : kernel) (j : job) (mode : JobMode) (queueType : JobQueueType) (pad : list Z)
    (waits : list Queue.wait_t) : res job_outcome :=
  match mode with
  | JobModeAsynchronous =>
      dataSize ← get_field j off_dataSize 8;
      cmd_ptr ← get_field j off_cmd 8;
      cmd ← at_ptr j cmd_ptr;
      len ← strlen cmd;
      let queueEntrySize := u64 (dataSize + Z.of_nat len + 1 + Z.of_nat sizeof_job) in
      match queueType with
      | JobQueueTypeNone => Ok (Done KSTATUS_UNSUCCESS k)
      | JobQueueTypeShortOps => job_enqueue k j CMD_MANAGER_QUEUE_SHORTOPS queueEntrySize pad waits
      | JobQueueTypeLongOps => job_enqueue k j CMD_MANAGER_QUEUE_LONGOPS queueEntrySize pad waits
      end
  | JobModeSynchronous =>
      '(_status, k) ← i_cmdmgrJobExec k j; Ok (Done _status k)
  end.

(** ** Executors *)

(** The buffer of an executor: 1 MiB. *)
Definition executor_buffer : nat := 1024 * 1024.

(** [statsUpdate(&pThreadCtx->_statsEntry_..., value)] for the six counters of
    a queue, which are at [addr] on; [_stats_MemSizeMax] is the size the queue
    was created with, as [_stats_MemSizeCurrent] is. *)
Definition queue_stats (q : Queue.queue_t) : list Z :=
  [Queue.entriesCurrent q; Queue.entriesMax q; Queue.memUsageCurrent q; Queue.memUsageMax q;
   Queue.memSizeCurrent q; Queue.memSizeCurrent q].

Fixpoint publish (st : @stats_mgr_t T) (addr : Z) (vs : list Z) : res (@stats_mgr_t T) :=
  match vs with
  | [] => Ok st
  | v :: vs' => '(_, st) ← statsUpdate st addr v; publish st (addr + 16) vs'
  end.

(** What the executor does with a message that was read: it is copied without
    regard to the size of the buffer [buf] (address and bytes). *)
Definition executor_message (k : kernel) (buf : job) (ret : Z) (data : list Z) : res (kernel * job) :=
  b ← memcpy (j_bytes buf) 0 data 0 (length data);
  let buf := MkJob (j_addr buf) b in
  if 0 <? ret then
    buf ← i_cmdmgrJobStructFormat buf;
    '(_, k) ← i_cmdmgrJobExec k buf;
    Ok (k, buf)
  else Ok (k, buf).

(** Reading and executing one job in the loop of [i_cmdmgrExecutor].
    [waits]: what happens while the read waits.  [None]: it still waits. *)
Definition executor_step (k : kernel) (i : nat) (buf : job) (waits : list Queue.wait_t) : res (kernel * option job) :=
  q ← queue_of k i;
  o ← Queue.queue_read q waits;
  match o with
  | Queue.Blocked q => Ok (set_queue k i (Some q), None)
  | Queue.Returned ret data q =>
      '(k, buf) ← executor_message (set_queue k i (Some q)) buf ret data;
      Ok (k, Some buf)
  end.

(** One iteration of the loop; [stats]: the address of the counters. *)
Definition executor_iteration (k : kernel) (i : nat) (buf : job) (stats : Z) (waits : list Queue.wait_t)
    : res (kernel * option job) :=
  '(k, o) ← executor_step k i buf waits;
  match o with
  | None => Ok (k, None)
  | Some buf =>
      q ← queue_of k i;
      st ← publish (w_stats (k_world k)) stats (queue_stats q);
      Ok (set_world k (set_stats (k_world k) st), Some buf)
  end.

(** What became of a thread after the given events: it returned, waits in a
    call of the queue, or is at the start of the next iteration of its loop. *)
Inductive thread_end : Type :=
| Exits (status : Z) (k : kernel)
| Waits (k : kernel)
| Runs (k : kernel).

(** [i_cmdmgrExecutor]: [iters] gives, for each iteration, the status seen
    before it and what happens while its read waits; [mem]: address of the
    buffer, 0 when it cannot be allocated. *)
Fixpoint executor_loop (k : kernel) (i : nat) (buf : job) (stats : Z) (iters : list (Z * list Queue.wait_t))
    : res thread_end :=
  match iters with
  | [] => Ok (Runs k)
  | (status, waits) :: iters' =>
      let k := set_status k status in
      if svcKernelIsRunning status then
        '(k, o) ← executor_iteration k i buf stats waits;
        match o with
        | None => Ok (Waits k)
        | Some buf => executor_loop k i buf stats iters'
        end
      else Ok (Exits KSTATUS_SUCCESS k)
  end.

Definition i_cmdmgrExecutor (k : kernel) (i : nat) (mem : Z) (junk : nat -> Z) (stats : Z)
    (iters : list (Z * list Queue.wait_t)) : res thread_end :=
  if mem =? 0 then Ok (Exits KSTATUS_UNSUCCESS k)
  else
    q ← queue_of k i;
    let '(ok, q) := Queue.queue_consumer_new q in
    if negb ok then Ok (Exits KSTATUS_UNSUCCESS k)
    else
      e ← executor_loop (set_queue k i (Some q)) i (MkJob mem (junk <$> seq 0 executor_buffer)) stats iters;
      match e with
      | Exits status k => q ← queue_of k i; Ok (Exits status (set_queue k i (Some (Queue.queue_consumer_free q))))
      | _ => Ok e
      end.

(** ** Commands *)

(** [fns]: the addresses of the three functions; NULL is 0. *)
Definition cmdmgrAddCommand (k : kernel) (cmd description : list Z) (pexec pcreate pdestroy version : Z)
    : res (Z * kernel) :=
  '(ret, k) ← call_fn pcreate k;
  '(_status, k) ←
    (if negb (ret =? 0) then Ok (KSTATUS_UNSUCCESS, k)
     else
       '(_status, w) ← dbExec fuel (k_world k) (k_db k) cgInsertCommand 6
          [BindText cmd; BindText description; BindInt version; BindInt64 0;
           BindInt64 pexec; BindInt64 pcreate; BindInt64 pdestroy];
       Ok (_status, set_world k w));
  if negb (KSUCCESS _status) then '(_, k) ← call_fn pdestroy k; Ok (_status, k)
  else Ok (KSTATUS_SUCCESS, k).

(** The names of the counters of the two queues. *)
Definition queue_keys (i : nat) : list (list Z) :=
  let p := if (i =? 0)%nat then "ShortOps"%string else "LongOps"%string in
  (fun s => str p ++ lit s) <$>
    [" Entries Current"; " Entries Max"; " Memory Usage Current"; " Memory Usage Max";
     " Memory Size Current"; " Memory Size Max"]%string.

Definition queue_bulk (i : nat) (addr : Z) : list stats_bulk_init_t :=
  imap (fun n key => (key, STATS_FLAGS_TYPE_LAST, addr + 16 * Z.of_nat n)) (queue_keys i).

(** One queue of [cmdmgrStart]: creating it and registering its counters,
    which are at [addr] on. *)
Definition start_queue (k : kernel) (i size : nat) (malloc_ok mutexes_ok : bool) (addr : Z) : res (Z * kernel) :=
  let q := Queue.queue_create size malloc_ok mutexes_ok in
  let k := set_queue k i q in
  match q with
  | None => Ok (KSTATUS_UNSUCCESS, k)
  | Some _ =>
      '(_status, st) ← statsAllocBulk (w_stats (k_world k)) (k_stats k) (queue_bulk i addr);
      Ok (_status, set_world k (set_stats (k_world k) st))
  end.

(** [create_thread i]: the status of [psmgrCreateThread] for executor [i]. *)
Definition cmdmgrStart (k : kernel) (short_size long_size : nat) (mem : nat -> bool * bool) (addr : nat -> Z)
    (create_thread : nat -> Z) : res (Z * kernel) :=
  '(_status, k) ← start_queue k CMD_MANAGER_QUEUE_SHORTOPS short_size (mem O).1 (mem O).2 (addr O);
  if negb (KSUCCESS _status) then Ok (_status, k)
  else
    '(_status, k) ← start_queue k CMD_MANAGER_QUEUE_LONGOPS long_size (mem 1%nat).1 (mem 1%nat).2 (addr 1%nat);
    if negb (KSUCCESS _status) then Ok (_status, k)
    else
      '(_status, w) ← dbExec fuel (k_world k) (k_db k) cgCreateSchemaCmdList 0 [];
      let k := set_world k w in
      if negb (KSUCCESS _status) then Ok (_status, k)
      else if negb (KSUCCESS (create_thread O)) then Ok (create_thread O, k)
      else Ok (create_thread 1%nat, k).

(** The callback of the query in [cmdmgrStop]: [k] is threaded through the
    parameter, its database through the world. *)
Definition i_cmdmgrDestroySingleCommand (k : kernel) (w : @world S T) (stmt : Z) : res (Z * kernel * @world S T) :=
  if (column_count (w_sqlite w) stmt =? 0)%nat then Ok (0, k, w)
  else
  '(pdestroy, k) ← i_cmdmgrFindDestroy (set_world k w) (column_text (w_sqlite w) stmt 0);
  if pdestroy =? 0 then Ok (0, k, k_world k)
  else '(_, k) ← call_fn pdestroy k; Ok (0, k, k_world k).

(** What happens while a queue is destroyed: its states after each wait for
    its producers and its consumers, and what other threads have done to it and
    to the rest by then. *)
Record destroy_waits : Type := MkDestroyWaits {
  dw_producers : list Queue.queue_t;
  dw_consumers : list Queue.queue_t;
  dw_others : kernel -> res kernel
}.

(** [queue_destroy] on queue [i]; [None]: it still waits. *)
Definition stop_queue (k : kernel) (i : nat) (w : destroy_waits) : res (option kernel) :=
  k ← dw_others w k;
  q ← rd (k_queues k) i;
  Ok match Queue.queue_destroy q (dw_producers w) (dw_consumers w) with
     | Some _ => None
     | None => Some (set_queue k i None)
     end.

(** [ws i]: what happens while queue [i] is destroyed.  [None]: the call waits. *)
Definition cmdmgrStop (k : kernel) (ws : nat -> destroy_waits) : res (option kernel) :=
  o ← stop_queue k CMD_MANAGER_QUEUE_SHORTOPS (ws CMD_MANAGER_QUEUE_SHORTOPS);
  match o with
  | None => Ok None
  | Some k =>
      o ← stop_queue k CMD_MANAGER_QUEUE_LONGOPS (ws CMD_MANAGER_QUEUE_LONGOPS);
      match o with
      | None => Ok None
      | Some k =>
          '(_, k, w) ← dbExecQuery i_cmdmgrDestroySingleCommand fuel (k_world k) (k_db k) (lit "select code from cmdmgr_cmdlist") 0 k [];
          Ok (Some (set_world k w))
      end
  end.

End cmdmgr.
End CmdManager.
