(* ===== verification/CmdSpec.v ===== *)
(** * Correctness of the command manager

    A job survives the queue: what the executor extracts from the bytes it
    reads back is what was prepared, so the asynchronous call leads to the
    same execution as the synchronous one, unless the job is larger than the
    buffer of the executor. *)

From stdpp Require Import gmap.
From S2P Require Import Prelude CString DList Blocks Queue QueueSpec QueueProps Svc Stats Database DatabaseSpec CmdManager.

Module CmdSpec.
Import CStr Blocks Svc Stats Database DatabaseSpec CmdManager.

(** ** Memory as a sequence of blocks *)

Lemma at_ptr_ok j ptr off :
  ptr = j_addr j + Z.of_nat off -> (off <= length (j_bytes j))%nat -> at_ptr j ptr = Ok (drop off (j_bytes j)).
Proof.
  intros -> Hl. unfold at_ptr. replace (j_addr j + Z.of_nat off - j_addr j) with (Z.of_nat off) by lia.
  rewrite (proj2 (Z.leb_le 0 _)), (proj2 (Z.leb_le _ (Z.of_nat (length (j_bytes j))))) by lia.
  by rewrite Nat2Z.id.
Qed.

Lemma copy_to_ok j off ptr o bytes b :
  get_field j off 8 = Ok ptr -> ptr = j_addr j + Z.of_nat o -> DList.put (j_bytes j) o bytes = Ok b ->
  copy_to j off bytes = Ok (MkJob (j_addr j) b).
Proof.
  intros Hg -> Hp. unfold copy_to. rewrite Hg. cbn [mbind res_bind].
  rewrite (proj2 (Z.ltb_ge _ _)) by lia. replace (j_addr j + Z.of_nat o - j_addr j) with (Z.of_nat o) by lia.
  rewrite Nat2Z.id, Hp. done.
Qed.

Lemma strlen_term k rest : key_ok k -> strlen (term k ++ rest) = Ok (length k).
Proof.
  unfold term. induction 1 as [|b l Hb _ IH]; [done|]. cbn [app strlen].
  rewrite (proj2 (Z.eqb_neq b 0)) by lia. rewrite IH. done.
Qed.

(** ** The blocks of a job *)

(** The fields of [JOB] with its padding, the command and the data, and what
    is behind them. *)
Definition job_blocks (cmd_ptr sec usec flags : Z) (gap : list Z) (data_ptr size : Z) (k data rest : list Z)
    : list (list Z) :=
  [le_bytes 8 cmd_ptr; le_bytes 8 sec; le_bytes 8 usec; le_bytes 4 flags; gap; le_bytes 8 data_ptr; le_bytes 8 size;
   term k; data; rest].

Lemma le8_field z : is_u 64 z -> le_val (le_bytes 8 z) = z.
Proof. exact (le_val_bytes 8 z). Qed.

Lemma swrap_small z : 0 <= z < 2 ^ 63 -> swrap 64 z = z.
Proof. intros H. unfold swrap. rewrite Z.mod_small; lia. Qed.

Section layout.
Context (k data : list Z) (ts : timeval) (flags addr : Z).

Definition job_len : nat := sizeof_job + (length data + length k + 1).
Definition cmd_ptr : Z := addr + Z.of_nat sizeof_job.
Definition data_ptr : Z := addr + Z.of_nat sizeof_job + Z.of_nat (length k) + 1.

Definition blocks (gap rest : list Z) : list (list Z) :=
  job_blocks cmd_ptr (tv_sec ts) (tv_usec ts) flags gap data_ptr (Z.of_nat (length data)) k data rest.
End layout.

Ltac sizes :=
  unfold offset, off_cmd, off_ts, off_flags, off_data, off_dataSize, sizeof_job;
  cbn [take concat blocks job_blocks]; unfold term;
  rewrite ?length_app, ?length_le_bytes, ?length_app; cbn [length]; lia.

Section job.
Context (k data : list Z) (ts : timeval) (flags addr : Z).
Hypothesis Hk : key_ok k.
Hypothesis Hts : 0 <= tv_sec ts < 2 ^ 63 /\ 0 <= tv_usec ts < 2 ^ 63.
Hypothesis Haddr : 0 < addr /\ addr + Z.of_nat (job_len k data) < 2 ^ 64.
Local Abbreviation job_len := (job_len k data).
Local Abbreviation cmd_ptr := (cmd_ptr addr).
Local Abbreviation data_ptr := (data_ptr k addr).
Local Abbreviation blocks := (blocks k data ts flags addr).

Lemma ptr_range : is_u 64 cmd_ptr /\ is_u 64 data_ptr /\ is_u 64 (Z.of_nat (length data)).
Proof. unfold cmd_ptr, data_ptr, job_len, sizeof_job, is_u in *. lia. Qed.

Lemma term_string rest : Forall is_byte rest -> c_string (term k ++ rest) k.
Proof.
  intros Hr. split; [done|]. split; [by exists rest|]. unfold term. rewrite !list.Forall_app. split; [split|done].
  - eapply list.Forall_impl; [exact Hk|]. cbv beta. intros b Hb. unfold is_u. change (2 ^ 8) with 256. lia.
  - by repeat constructor.
Qed.

(** A job laid out in memory shows its command, time stamp and data. *)
Lemma view_blocks gap rest :
  length gap = 4%nat -> Forall is_byte data -> Forall is_byte rest ->
  let j := MkJob addr (concat (blocks gap rest)) in job_cmd j = Ok (term k) /\ job_args j = Ok (ts, data).
Proof.
  intros Hg Hd Hr j. destruct ptr_range as (Rc & Rd & Rs). destruct Haddr as [Ha _].
  assert (Hlen : length (concat (blocks gap rest)) = (job_len + length rest)%nat).
  { unfold blocks, job_blocks, job_len, sizeof_job, term. cbn [concat].
    rewrite !length_app, !length_le_bytes. cbn [length]. lia. }
  unfold job_cmd, job_args, get_field, j. cbn [j_bytes]. split.
  {
  rewrite (get_block _ 0 (le_bytes 8 cmd_ptr) off_cmd 8) by (reflexivity || sizes). cbn [mbind res_bind]. rewrite le8_field by done.
  rewrite (at_ptr_ok _ cmd_ptr sizeof_job) by (done || (cbn [j_bytes]; rewrite Hlen; unfold job_len; lia)).
  cbn [j_bytes mbind res_bind]. rewrite (drop_block _ 7) by sizes.
  change (concat (drop 7 (blocks gap rest))) with (term k ++ data ++ rest ++ []). rewrite app_nil_r.
  rewrite (strlen_c_string _ k) by (apply term_string; by apply list.Forall_app). cbn [mbind res_bind].
  f_equal. apply take_app_length'. unfold term. rewrite length_app. cbn [length]. lia. }
  rewrite (get_block _ 1 (le_bytes 8 (tv_sec ts)) off_ts 8) by (reflexivity || sizes). cbn [mbind res_bind].
  rewrite (get_block _ 2 (le_bytes 8 (tv_usec ts)) (off_ts + 8) 8) by (reflexivity || sizes). cbn [mbind res_bind].
  rewrite (get_block _ 5 (le_bytes 8 data_ptr) off_data 8) by (reflexivity || sizes). cbn [mbind res_bind].
  rewrite (le8_field data_ptr) by done.
  assert (Hle : (sizeof_job + length (term k) <= job_len)%nat)
    by (unfold job_len, term; rewrite length_app; cbn [length]; lia).
  rewrite (at_ptr_ok _ data_ptr (sizeof_job + length (term k)))
    by ((unfold data_ptr, term; cbn [j_addr]; rewrite length_app; cbn [length]; lia) || (cbn [j_bytes]; rewrite Hlen; lia)).
  cbn [j_bytes mbind res_bind]. rewrite (drop_block _ 8) by sizes.
  change (concat (drop 8 (blocks gap rest))) with (data ++ rest ++ []). rewrite app_nil_r.
  rewrite (get_block _ 6 (le_bytes 8 (Z.of_nat (length data))) off_dataSize 8) by (reflexivity || sizes).
  cbn [mbind res_bind]. rewrite (le8_field (Z.of_nat (length data))) by done.
  rewrite (proj2 (Z.ltb_ge _ _)) by (rewrite length_app; lia). rewrite Nat2Z.id, take_app_length.
  rewrite !le8_field by (unfold is_u; lia). rewrite !swrap_small by lia. by destruct ts.
Qed.

(** Formatting a job that was copied from another address repairs its
    pointers. *)
Lemma format_blocks cp dp gap rest :
  length gap = 4%nat -> Forall is_byte data -> Forall is_byte rest ->
  i_cmdmgrJobStructFormat (MkJob addr (concat (job_blocks cp (tv_sec ts) (tv_usec ts) flags gap dp
    (Z.of_nat (length data)) k data rest))) = Ok (MkJob addr (concat (blocks gap rest))).
Proof.
  intros Hg Hd Hr. unfold i_cmdmgrJobStructFormat, put_field. cbn [j_addr j_bytes]. fold cmd_ptr.
  rewrite (put_block _ 0 (le_bytes 8 cp)) by (reflexivity || (rewrite !length_le_bytes; done)).
  cbn [mbind res_bind]. set (bs := <[_ := _]> _).
  assert (Hlen : (sizeof_job <= length (concat bs))%nat).
  { unfold bs, sizeof_job. cbn [insert list_insert job_blocks concat]. rewrite !length_app, !length_le_bytes. lia. }
  rewrite (at_ptr_ok _ cmd_ptr sizeof_job) by done. cbn [j_bytes mbind res_bind].
  rewrite (drop_block _ 7) by (unfold bs; cbn [insert list_insert job_blocks]; sizes).
  change (concat (drop 7 bs)) with (term k ++ data ++ rest ++ []). rewrite app_nil_r.
  rewrite (strlen_c_string _ k) by (apply term_string; by apply list.Forall_app). cbn [mbind res_bind j_bytes j_addr].
  replace (cmd_ptr + Z.of_nat (length k) + 1) with data_ptr by done.
  rewrite (put_block bs 5 (le_bytes 8 dp));
    [|reflexivity|unfold bs; cbn [insert list_insert job_blocks]; sizes|rewrite !length_le_bytes; done].
  done.
Qed.

(** Preparing a job lays it out. *)
Lemma prepare_blocks junk rest :
  (forall i, is_byte (junk i)) ->
  exists gap, length gap = 4%nat /\ Forall is_byte gap /\
    cmdmgrJobPrepare addr junk (term k ++ rest) data ts flags =
      Ok (KSTATUS_SUCCESS, Some (MkJob addr (concat (blocks gap [])))).
Proof.
  intros Hj. destruct ptr_range as (Rc & Rd & _). unfold cmdmgrJobPrepare.
  pose proof (strlen_term k rest Hk) as Hlen. rewrite Hlen. cbn [mbind res_bind]. rewrite (proj2 (Z.eqb_neq addr 0)) by lia.
  destruct (split_blocks [8; 8; 8; 4; 4; 8; 8; length k + 1; length data; 0]%nat
    (junk <$> seq 0 (sizeof_job + (length data + length k + 1)))) as (bs & E & Hb).
  { rewrite length_fmap, length_seq. unfold sizeof_job. cbn. lia. }
  assert (Hbytes : Forall is_byte (concat bs)).
  { rewrite E. apply list.Forall_forall. intros b (i & -> & _)%list_elem_of_fmap. apply Hj. }
  rewrite <- E. clear E.
  destruct bs as [|b0 [|b1 [|b2 [|b3 [|gap [|b5 [|b6 [|b7 [|b8 [|b9 [|]]]]]]]]]]]; try discriminate Hb.
  injection Hb as L0 L1 L2 L3 Lg L5 L6 L7 L8 L9. apply nil_length_inv in L9 as ->.
  exists gap. split; [done|]. split.
  { cbn [concat] in Hbytes. rewrite !list.Forall_app in Hbytes. tauto. }
  clear Hbytes. unfold i_cmdmgrJobStructInitialize, put_field. cbn [j_addr j_bytes]. fold cmd_ptr.
  rewrite (put_block _ 0 b0) by (reflexivity || (rewrite length_le_bytes; done)). cbn [mbind res_bind].
  rewrite Hlen. cbn [mbind res_bind j_bytes j_addr].
  replace (cmd_ptr + Z.of_nat (length k) + 1) with data_ptr by done.
  cbn [insert list_insert].
  rewrite (put_block _ 5 b5) by (reflexivity || (rewrite length_le_bytes; done) || sizes). cbn [mbind res_bind].
  replace (take (length k + 1) (term k ++ rest)) with (term k)
    by (symmetry; apply take_app_length'; unfold term; rewrite length_app; cbn [length]; lia).
  cbn [insert list_insert].
  erewrite (copy_to_ok _ off_cmd cmd_ptr sizeof_job (term k));
    [|unfold get_field; cbn [j_bytes]; erewrite (get_block _ 0 (le_bytes 8 cmd_ptr) off_cmd 8) by reflexivity; by rewrite le8_field
     |done
     |cbn [j_bytes]; apply (put_block _ 7 b7); [reflexivity|sizes|rewrite L7; unfold term; rewrite length_app; done]].
  cbn [mbind res_bind j_bytes j_addr insert list_insert].
  rewrite (put_block _ 1 b1) by (reflexivity || (rewrite length_le_bytes; done) || sizes). cbn [mbind res_bind j_bytes j_addr insert list_insert].
  rewrite (put_block _ 2 b2) by (reflexivity || (rewrite length_le_bytes; done) || sizes). cbn [mbind res_bind j_bytes j_addr insert list_insert].
  rewrite (put_block _ 3 b3) by (reflexivity || (rewrite length_le_bytes; done) || sizes). cbn [mbind res_bind j_bytes j_addr insert list_insert].
  erewrite (copy_to_ok _ off_data data_ptr (sizeof_job + length (term k)) data);
    [|unfold get_field; cbn [j_bytes]; rewrite (get_block _ 5 (le_bytes 8 data_ptr) off_data 8) by (reflexivity || sizes); by rewrite le8_field
     |unfold data_ptr, term; cbn [j_addr]; rewrite length_app; cbn [length]; lia
     |cbn [j_bytes]; apply (put_block _ 8 b8); [reflexivity|sizes|done]].
  cbn [mbind res_bind j_bytes j_addr insert list_insert].
  rewrite (put_block _ 6 b6) by (reflexivity || (rewrite length_le_bytes; done) || sizes). cbn [mbind res_bind j_bytes j_addr insert list_insert].
  done.
Qed.
End job.

(** ** Through the queue *)

Lemma holds_clients N q es a p n :
  QueueSpec.holds N q es -> QueueSpec.holds N (Queue.set_clients q a p n) es.
Proof.
  intros (c & Hc & <- & Hw & Hr & Hp). exists (Queue.set_q c (Queue.set_clients (Queue.cq c) a p n)).
  split; [by apply QueueSpec.inv_clients|]. done.
Qed.

Lemma blocks_rest k data ts flags addr gap rest :
  concat (blocks k data ts flags addr gap []) ++ rest = concat (blocks k data ts flags addr gap rest).
Proof. unfold blocks, job_blocks. cbn [concat]. by rewrite <- !app_assoc, !app_nil_r. Qed.

Lemma blocks_length k data ts flags addr gap :
  length gap = 4%nat -> length (concat (blocks k data ts flags addr gap [])) = job_len k data.
Proof.
  intros Hg. unfold blocks, job_blocks, job_len, sizeof_job, term. cbn [concat].
  rewrite !length_app, !length_le_bytes. cbn [length]. lia.
Qed.

Lemma blocks_bytes k data ts flags addr gap :
  key_ok k -> Forall is_byte gap -> Forall is_byte data -> Forall is_byte (concat (blocks k data ts flags addr gap [])).
Proof.
  intros Hk Hg Hd. unfold blocks, job_blocks. cbn [concat].
  repeat (apply list.Forall_app; split); try apply le_bytes_byte; try done; [|by repeat constructor].
  eapply list.Forall_impl; [exact Hk|]. cbv beta. intros b Hb. unfold is_u. change (2 ^ 8) with 256. lia.
Qed.

Section deliver.
Context {S T G : Type} `{SQ : Sqlite S} (column_int64 : S -> Z -> nat -> Z).
Context (exec_fn : Z -> timeval -> list Z -> @kernel S T G -> res (Z * @kernel S T G)) (fuel : nat).

(** What executing a job comes to: looking up the command [cmd] and calling its
    handler with a time stamp and data. *)
Definition exec_view (k : @kernel S T G) (cmd : list Z) (ts : timeval) (data : list Z) : res (Z * @kernel S T G) :=
  if negb (svcKernelIsRunning (k_status k)) then Ok (KSTATUS_SVC_IS_STOPPING, k)
  else
    '(pexec, k) ← i_cmdmgrFindExec column_int64 fuel k cmd;
    if pexec =? 0 then Ok (KSTATUS_CMDMGR_COMMAND_NOT_FOUND, k)
    else
      '(ret, k) ← exec_fn pexec ts data k;
      Ok (if ret =? 0 then KSTATUS_SUCCESS else KSTATUS_UNSUCCESS, k).

Lemma exec_blocks k0 k data ts flags addr gap rest :
  key_ok k -> 0 <= tv_sec ts < 2 ^ 63 /\ 0 <= tv_usec ts < 2 ^ 63 ->
  0 < addr /\ addr + Z.of_nat (job_len k data) < 2 ^ 64 ->
  length gap = 4%nat -> Forall is_byte data -> Forall is_byte rest ->
  i_cmdmgrJobExec column_int64 exec_fn fuel k0 (MkJob addr (concat (blocks k data ts flags addr gap rest))) =
    exec_view k0 (term k) ts data.
Proof.
  intros Hk Hts Ha Hg Hd Hr. destruct (view_blocks k data ts flags addr Hk Hts Ha gap rest Hg Hd Hr) as [Ec Ea].
  unfold i_cmdmgrJobExec, exec_view. rewrite Ec. destruct (negb _); [done|]. cbn [mbind res_bind].
  destruct (i_cmdmgrFindExec _ _ _ _) as [[pexec k1]|]; [|done]. cbn [mbind res_bind]. by rewrite Ea.
Qed.

(** The size the asynchronous branch computes for a job. *)
Lemma enqueue_short k0 k data ts flags addr gap pad waits :
  key_ok k -> 0 <= tv_sec ts < 2 ^ 63 /\ 0 <= tv_usec ts < 2 ^ 63 ->
  0 < addr /\ addr + Z.of_nat (job_len k data) < 2 ^ 64 -> length gap = 4%nat -> Forall is_byte data ->
  let j := MkJob addr (concat (blocks k data ts flags addr gap [])) in
  cmdmgrJobExec column_int64 exec_fn fuel k0 j JobModeAsynchronous JobQueueTypeShortOps pad waits =
    job_enqueue k0 j CMD_MANAGER_QUEUE_SHORTOPS (Z.of_nat (job_len k data)) pad waits.
Proof.
  intros Hk Hts Ha Hg Hd j. destruct (ptr_range k data addr Ha) as (Rc & Rd & Rs).
  pose proof (blocks_length k data ts flags addr gap Hg) as Hl. subst j.
  cbn [cmdmgrJobExec]. unfold get_field. cbn [j_bytes].
  rewrite (get_block _ 6 (le_bytes 8 (Z.of_nat (length data))) off_dataSize 8) by (reflexivity || sizes).
  cbn [mbind res_bind]. rewrite le8_field by done.
  rewrite (get_block _ 0 (le_bytes 8 (cmd_ptr addr)) off_cmd 8) by (reflexivity || sizes).
  cbn [mbind res_bind]. rewrite le8_field by done.
  rewrite (at_ptr_ok _ (cmd_ptr addr) sizeof_job) by (done || (cbn [j_bytes]; rewrite Hl; unfold job_len; lia)).
  cbn [j_bytes mbind res_bind]. rewrite (drop_block _ 7) by sizes.
  change (concat (drop 7 (blocks k data ts flags addr gap []))) with (term k ++ data ++ [] ++ []).
  rewrite strlen_term by done. cbn [mbind res_bind].
  rewrite wrap_small by (unfold is_u, job_len, sizeof_job in *; lia).
  f_equal. unfold job_len. lia.
Qed.

(** ** Orders

    What a job in a queue asks for: a command, a time stamp and data. *)
Record order : Type := MkOrder { o_cmd : list Z; o_ts : timeval; o_data : list Z }.

Definition order_len (o : order) : nat := job_len (o_cmd o) (o_data o).

Definition order_ok (o : order) : Prop :=
  key_ok (o_cmd o) /\ Forall is_byte (o_data o) /\
  (0 <= tv_sec (o_ts o) < 2 ^ 63 /\ 0 <= tv_usec (o_ts o) < 2 ^ 63) /\ Z.of_nat (order_len o) < 2 ^ 31.
#[export] Instance order_ok_dec o : Decision (order_ok o).
Proof. unfold order_ok. apply _. Defined.

(** A queue entry is a job for the order, laid out for some address. *)
Definition carries (e : Queue.entry) (o : order) : Prop :=
  exists flags addr gap, length gap = 4%nat /\ Forall is_byte gap /\
    Queue.e_data e = concat (blocks (o_cmd o) (o_data o) (o_ts o) flags addr gap []).

Definition exec_order (k : @kernel S T G) (o : order) : res (Z * @kernel S T G) :=
  exec_view k (term (o_cmd o)) (o_ts o) (o_data o).

(** The executor executes the order of a job that was read, whatever its buffer
    held before, or overruns the buffer. *)
Lemma executor_message_ok e o (k : @kernel S T G) buf :
  order_ok o -> carries e o ->
  0 < j_addr buf /\ j_addr buf + Z.of_nat (order_len o) < 2 ^ 64 -> Forall is_byte (j_bytes buf) ->
  let '(ret, data) := QueueSpec.delivered e in
  if (order_len o <=? length (j_bytes buf))%nat then
    exists b, length b = length (j_bytes buf) /\ Forall is_byte b /\
      executor_message column_int64 exec_fn fuel k buf ret data = '(_, k2) ← exec_order k o; Ok (k2, MkJob (j_addr buf) b)
  else executor_message column_int64 exec_fn fuel k buf ret data = Err OutOfBounds.
Proof.
  intros (Hk & Hd & Hts & Hsize) (flags & addr & gap & Hg & Hgb & Edata) Hb Hbb.
  pose proof (blocks_length (o_cmd o) (o_data o) (o_ts o) flags addr gap Hg) as Hl. fold (order_len o) in Hl.
  rewrite <- Edata in Hl. set (n := order_len o) in *. unfold QueueSpec.delivered.
  assert (Hlen : Queue.e_len e = Z.of_nat n) by (unfold Queue.e_len; by rewrite Hl).
  rewrite Hlen, s32_small by lia. unfold executor_message.
  destruct (Nat.leb_spec n (length (j_bytes buf))) as [Hle|Hgt]; [|unfold memcpy; by rewrite decide_False by lia].
  unfold memcpy. rewrite decide_True by lia. cbn [mbind res_bind]. rewrite take_0, drop_0, take_ge by done.
  rewrite (proj2 (Z.ltb_lt 0 _)) by (unfold n, order_len, job_len, sizeof_job; lia). cbn [app Nat.add].
  set (rest := drop (length (Queue.e_data e)) (j_bytes buf)). assert (Hr : Forall is_byte rest) by (by apply Forall_drop).
  assert (Hrl : length rest = (length (j_bytes buf) - n)%nat) by (unfold rest; by rewrite length_drop, Hl).
  rewrite Edata, blocks_rest. unfold blocks at 1. rewrite (format_blocks (o_cmd o) (o_data o) (o_ts o) flags (j_addr buf)) by done.
  cbn [mbind res_bind]. rewrite exec_blocks by done. fold (exec_order k o).
  exists (concat (blocks (o_cmd o) (o_data o) (o_ts o) flags (j_addr buf) gap rest)). rewrite <- blocks_rest. split_and!.
  - rewrite length_app, blocks_length, Hrl by done. fold (order_len o) n. lia.
  - apply list.Forall_app. split; [by apply blocks_bytes|done].
  - done.
Qed.

(** The executor takes the oldest job and executes its order. *)
Lemma executor_step_ok N q es e o (k : @kernel S T G) i buf waits :
  order_ok o -> carries e o -> k_queues k !! i = Some (Some q) -> QueueSpec.holds N q (e :: es) ->
  0 < j_addr buf /\ j_addr buf + Z.of_nat (order_len o) < 2 ^ 64 -> Forall is_byte (j_bytes buf) ->
  exists q', QueueSpec.holds N q' es /\
    if (order_len o <=? length (j_bytes buf))%nat then
      exists b, length b = length (j_bytes buf) /\ Forall is_byte b /\
        executor_step column_int64 exec_fn fuel k i buf waits =
          '(_, k2) ← exec_order (set_queue k i (Some q')) o; Ok (k2, Some (MkJob (j_addr buf) b))
    else executor_step column_int64 exec_fn fuel k i buf waits = Err OutOfBounds.
Proof.
  intros Ho He Hq Hh Hb Hbb. destruct (QueueProps.queue_read_ok N q (e :: es) waits Hh) as (q' & Er & Hh'). exists q'. split; [done|].
  pose proof (executor_message_ok e o (set_queue k i (Some q')) buf Ho He Hb Hbb) as Hm. unfold QueueSpec.delivered in Hm.
  unfold executor_step, queue_of. rewrite (rd_lookup _ _ _ Hq). cbn [mbind res_bind deref]. rewrite Er. cbn [mbind res_bind].
  destruct (order_len o <=? length (j_bytes buf))%nat; [|by rewrite Hm].
  destruct Hm as (b & Hl & Hbb' & ->). exists b. split_and!; [done..|]. by destruct (exec_order _ o) as [[]|].
Qed.

Lemma deliver_ok N q (k0 : @kernel S T G) k data ts flags addr junk rest pad waits buf waits' :
  key_ok k -> Forall is_byte data -> (forall i, is_byte (junk i)) -> length pad = 4%nat ->
  0 <= tv_sec ts < 2 ^ 63 /\ 0 <= tv_usec ts < 2 ^ 63 ->
  0 < addr /\ addr + Z.of_nat (job_len k data) < 2 ^ 64 -> Z.of_nat (job_len k data) < 2 ^ 31 ->
  0 < j_addr buf /\ j_addr buf + Z.of_nat (job_len k data) < 2 ^ 64 -> Forall is_byte (j_bytes buf) ->
  k_queues k0 !! CMD_MANAGER_QUEUE_SHORTOPS = Some (Some q) -> QueueSpec.holds N q [] -> Queue.isActive q = true ->
  Queue.too_big q (Z.of_nat (job_len k data)) = false -> Queue.no_room q (Z.of_nat (job_len k data)) = false ->
  exists j k1 q', cmdmgrJobPrepare addr junk (term k ++ rest) data ts flags = Ok (KSTATUS_SUCCESS, Some j) /\
    i_cmdmgrJobExec column_int64 exec_fn fuel k0 j = exec_view k0 (term k) ts data /\
    cmdmgrJobExec column_int64 exec_fn fuel k0 j JobModeAsynchronous JobQueueTypeShortOps pad waits =
      Ok (Done KSTATUS_SUCCESS k1) /\ QueueSpec.holds N q' [] /\
    (if (job_len k data <=? length (j_bytes buf))%nat then
       exists buf', executor_step column_int64 exec_fn fuel k1 CMD_MANAGER_QUEUE_SHORTOPS buf waits' =
         '(_, k2) ← exec_view (set_queue k1 CMD_MANAGER_QUEUE_SHORTOPS (Some q')) (term k) ts data;
         Ok (k2, Some buf')
     else executor_step column_int64 exec_fn fuel k1 CMD_MANAGER_QUEUE_SHORTOPS buf waits' = Err OutOfBounds).
Proof.
  intros Hk Hd Hj Hpad Hts Ha Hsize Hb Hbb Hq Hh Hact Htb Hnr.
  destruct (prepare_blocks k data ts flags addr Hk Hts Ha junk rest Hj) as (gap & Hg & Hgb & Ep).
  set (bytes := concat (blocks k data ts flags addr gap [])) in *. set (n := job_len k data) in *.
  assert (Hl : length bytes = n) by (by apply blocks_length).
  assert (Hbytes : Forall is_byte bytes) by (by apply blocks_bytes).
  set (q1 := Queue.set_clients q (Queue.consumers q) (s32 (Queue.producers q + 1)) true).
  set (e := Queue.MkEntry bytes pad).
  assert (Hlen : Queue.e_len e = Z.of_nat n) by (unfold Queue.e_len, e; cbn [Queue.e_data]; by rewrite Hl).
  assert (He : Queue.entry_ok e) by (split; [done|]; split; [rewrite Hlen; lia|done]).
  pose proof (QueueProps.queue_write_ok N q1 [] e waits (holds_clients _ _ _ _ _ _ Hh) He) as Hw.
  rewrite Hlen in Hw. change (Queue.too_big q1) with (Queue.too_big q) in Hw. rewrite Htb in Hw.
  destruct (Hw Hnr) as (q2 & Ew & Hh2). clear Hw. cbn [Queue.e_data Queue.e_pad e app] in Ew, Hh2.
  set (q3 := Queue.queue_producer_free q2). assert (Hh3 : QueueSpec.holds N q3 [e]) by (by apply holds_clients).
  rewrite s32_small in Ew by lia.
  set (k1 := set_queue k0 CMD_MANAGER_QUEUE_SHORTOPS (Some q3)).
  assert (Hq1 : k_queues k1 !! CMD_MANAGER_QUEUE_SHORTOPS = Some (Some q3)).
  { apply list_lookup_insert_eq. by eapply lookup_lt_Some. }
  destruct (executor_step_ok N q3 [] e (MkOrder k ts data) k1 CMD_MANAGER_QUEUE_SHORTOPS buf waits') as (q4 & Hh4 & Ex); try done.
  { by exists flags, addr, gap. }
  exists (MkJob addr bytes), k1, q4. split; [done|]. split.
  { unfold bytes. by rewrite exec_blocks. }
  split; [|split; [done|]].
  - unfold bytes at 1. rewrite enqueue_short by done. fold bytes n. unfold job_enqueue, queue_of.
    rewrite (rd_lookup _ _ _ Hq). cbn [mbind res_bind deref].
    unfold Queue.queue_producer_new. rewrite Hact. fold q1. cbv iota beta.
    cbn [j_bytes]. rewrite decide_True by (rewrite Hl; lia). rewrite Nat2Z.id, take_ge, Ew by lia.
    cbn [mbind res_bind]. fold q3 k1. rewrite Z.eqb_refl, (proj2 (Z.ltb_lt 0 _)) by (unfold n, job_len, sizeof_job; lia). done.
  - change (order_len (MkOrder k ts data)) with n in Ex. destruct (n <=? length (j_bytes buf))%nat; [|done].
    destruct Ex as (b & _ & _ & Ex). by eexists.
Qed.
End deliver.

(** C11: a prepared job is the same whether it is executed directly or sent
    through the queue.  Direct execution looks up the command and calls its
    handler with the time stamp and the data; the asynchronous call stores the
    job and succeeds when there is room; and the executor that reads it back,
    into a buffer at another address and over whatever the buffer held, makes
    the same call.  A job larger than the buffer of the executor is written
    behind the end of the buffer. *)
Theorem cmd_async_delivers (S T G : Type) (SQ : Sqlite S) (column_int64 : S -> Z -> nat -> Z)
    (exec_fn : Z -> timeval -> list Z -> @kernel S T G -> res (Z * @kernel S T G)) (fuel : nat)
    N q (k0 : @kernel S T G) k data ts flags addr junk rest pad waits buf waits' :
  key_ok k -> Forall is_byte data -> (forall i, is_byte (junk i)) -> length pad = 4%nat ->
  0 <= tv_sec ts < 2 ^ 63 /\ 0 <= tv_usec ts < 2 ^ 63 ->
  0 < addr /\ addr + Z.of_nat (job_len k data) < 2 ^ 64 -> Z.of_nat (job_len k data) < 2 ^ 31 ->
  0 < j_addr buf /\ j_addr buf + Z.of_nat (job_len k data) < 2 ^ 64 -> Forall is_byte (j_bytes buf) ->
  k_queues k0 !! CMD_MANAGER_QUEUE_SHORTOPS = Some (Some q) -> QueueSpec.holds N q [] -> Queue.isActive q = true ->
  Queue.too_big q (Z.of_nat (job_len k data)) = false -> Queue.no_room q (Z.of_nat (job_len k data)) = false ->
  exists j k1 q', cmdmgrJobPrepare addr junk (term k ++ rest) data ts flags = Ok (KSTATUS_SUCCESS, Some j) /\
    i_cmdmgrJobExec column_int64 exec_fn fuel k0 j = exec_view column_int64 exec_fn fuel k0 (term k) ts data /\
    cmdmgrJobExec column_int64 exec_fn fuel k0 j JobModeAsynchronous JobQueueTypeShortOps pad waits =
      Ok (Done KSTATUS_SUCCESS k1) /\ QueueSpec.holds N q' [] /\
    (if (job_len k data <=? length (j_bytes buf))%nat then
       exists buf', executor_step column_int64 exec_fn fuel k1 CMD_MANAGER_QUEUE_SHORTOPS buf waits' =
         '(_, k2) ← exec_view column_int64 exec_fn fuel (set_queue k1 CMD_MANAGER_QUEUE_SHORTOPS (Some q')) (term k) ts data;
         Ok (k2, Some buf')
     else executor_step column_int64 exec_fn fuel k1 CMD_MANAGER_QUEUE_SHORTOPS buf waits' = Err OutOfBounds).
Proof. apply deliver_ok. Qed.

(** A queue of 256 bytes and a buffer of 100. *)
Definition sample_queue : Queue.queue_t := Queue.MkQueue (replicate 256 0) 0 0 0 0 true 0 0 0 0 256.

Definition sample_kernel : @kernel (gmap Z nat) unit unit :=
  MkKernel (MkWorld ∅ (MkStats ∅ 0 ∅ ∅) 0 ∅) SVC_KERNEL_STATUS_RUNNING 0 0 [Some sample_queue; None] tt.

Definition sample_exec (p : Z) (ts : timeval) (data : list Z) (k : @kernel (gmap Z nat) unit unit) := Ok (0, k).

Lemma cmd_async_delivers_witness :
  let col := fun (_ : gmap Z nat) (_ : Z) (_ : nat) => 77 in
  exists j k1 q' buf', cmdmgrJobPrepare 1000 (fun _ => 9) (term [65]) [1; 2; 3] (MkTv 5 6) 0 = Ok (KSTATUS_SUCCESS, Some j) /\
    cmdmgrJobExec col sample_exec 10 sample_kernel j JobModeAsynchronous JobQueueTypeShortOps [0; 0; 0; 0] [] =
      Ok (Done KSTATUS_SUCCESS k1) /\
    executor_step col sample_exec 10 k1 CMD_MANAGER_QUEUE_SHORTOPS (MkJob 5000 (replicate 100 7)) [] =
      '(_, k2) ← exec_view col sample_exec 10 (set_queue k1 CMD_MANAGER_QUEUE_SHORTOPS (Some q')) (term [65]) (MkTv 5 6) [1; 2; 3];
      Ok (k2, Some buf').
Proof.
  intros col.
  destruct (cmd_async_delivers (gmap Z nat) unit unit DatabaseSpec.mock_sqlite col sample_exec 10 256 sample_queue sample_kernel
    [65] [1; 2; 3] (MkTv 5 6) 0 1000 (fun _ => 9) [] [0; 0; 0; 0] [] (MkJob 5000 (replicate 100 7)) [])
    as (j & k1 & q' & E1 & _ & E2 & _ & buf' & E3).
  - decide_closed.
  - decide_closed.
  - intros _. split; [discriminate|reflexivity].
  - reflexivity.
  - decide_closed.
  - decide_closed.
  - reflexivity.
  - decide_closed.
  - decide_closed.
  - reflexivity.
  - apply QueueProps.fresh_holds; reflexivity.
  - reflexivity.
  - reflexivity.
  - reflexivity.
  - exists j, k1, q', buf'. split; [exact E1|]. split; [exact E2|exact E3].
Defined.

End CmdSpec.
