(* ===== verification/Executor.v ===== *)
(** * The executors serve their queues in order

    The loop of an executor against an interface for the commands
    ([HandlerLaws]): the jobs waiting in its queue are executed in the order
    in which they were stored, each once, and between two of them nothing
    changes but the queue, its published counters and the status of the
    service.  In any schedule of the threads at the queue, what is read is
    executed as it was stored. *)

From stdpp Require Import gmap.
From S2P Require Import Prelude CString DList Queue QueueSpec QueueProps Svc Stats Database DatabaseSpec CmdManager CmdSpec.

Module Executor.
Import CStr Svc Stats Database DatabaseSpec CmdManager CmdSpec.

(** ** Registered counters *)

Section registers.
Context {S T : Type} `{SQ : Sqlite S}.

(** Every counter of [w] is one of [w']. *)
Definition registers (w w' : @world S T) : Prop := dom (st_mem (w_stats w)) ⊆ dom (st_mem (w_stats w')).

#[export] Instance registers_preorder : PreOrder registers.
Proof. split; [intros w|intros w1 w2 w3]; unfold registers; set_solver. Qed.

Lemma registers_same (w w' : @world S T) : w_stats w' = w_stats w -> registers w w'.
Proof. unfold registers. by intros ->. Qed.

Lemma update_registers (st : @stats_mgr_t T) p v r st' :
  statsUpdate st p v = Ok (r, st') -> dom (st_mem st) ⊆ dom (st_mem st').
Proof.
  unfold statsUpdate. intros H. res_inv. destruct (update_counter _ _); simplify_eq/=. rewrite dom_insert_L. set_solver.
Qed.

Lemma bump_registers (w : @world S T) p s v w' : bump w p s v = Ok w' -> registers w w'.
Proof.
  unfold bump. destruct (p =? 0); [done|]. intros H. res_inv. destruct x as [r st]. simplify_eq/=. by eapply update_registers.
Qed.

Lemma account_registers (w : @world S T) p k a b c d e w' : account w p k a b c d e = Ok w' -> registers w w'.
Proof.
  unfold account. intros H. res_inv. destruct (KSUCCESS k); res_inv;
    repeat match goal with Hb : bump _ _ _ _ = Ok _ |- _ => apply bump_registers in Hb end;
    repeat (etrans; [eassumption|]); done.
Qed.

Section callback.
Context {P : Type} (callback : P -> @world S T -> Z -> res (Z * P * @world S T)).
Hypothesis Hcb : forall param w st rc param' w', callback param w st = Ok (rc, param', w') -> registers w w'.

Lemma step_loop_registers n w st param rc et ct r :
  step_loop callback n w st param rc et ct = Ok r -> registers w (lr_world r).
Proof.
  revert w param rc et ct. induction n as [|n IH]; intros w param rc et ct; [done|]. cbn [step_loop].
  destruct (sqlite_step (w_sqlite w) st) as [k sq]. destruct (_ || _); [|intros [= <-]; by apply registers_same].
  destruct (k =? SQLITE_DONE); [intros [= <-]; by apply registers_same|].
  destruct (callback param (set_sqlite w sq) st) as [[[c param'] w1]|] eqn:E; [|done]. apply Hcb in E. cbn [mbind res_bind].
  destruct (negb (c =? 0)); [intros [= <-]; exact E|]. intros H%IH. etrans; [exact E|exact H].
Qed.

Lemma exec_registers n w p stmt bindCnt param args k param' w' :
  i_dbExec callback n w p stmt bindCnt param args = Ok (k, param', w') -> registers w w'.
Proof.
  unfold i_dbExec. destruct (i_dbCheckState w p _) as [ok|]; [|done]. cbn [mbind res_bind].
  destruct (negb ok); [by intros [= _ _ <-]|].
  destruct (db_of w p) as [db|]; [|done]. cbn [mbind res_bind].
  destruct (sqlite_prepare (w_sqlite w) (db_db db) stmt) as [[rc st] sq]. destruct (negb (rc =? SQLITE_OK)).
  { intros H. res_inv. eapply (account_registers (set_sqlite w _)). eassumption. }
  change (w_sqlite (set_sqlite w sq)) with sq.
  destruct (i_dbExecBindVariables bindCnt 1 sq st args) as [[b sq1]|]; [|done]. cbn [mbind res_bind]. destruct (negb b).
  { intros H. res_inv. eapply (account_registers (set_sqlite (set_sqlite w _) _)). eassumption. }
  destruct (step_loop callback n _ st param 0 0 0) as [r|] eqn:Es; [|done]. apply step_loop_registers in Es. cbn [mbind res_bind].
  destruct (sqlite_finalize (w_sqlite (lr_world r)) st) as [rc2 sq2]. intros H. res_inv.
  etrans; [exact Es|]. by eapply (account_registers (set_sqlite (lr_world r) sq2)).
Qed.
End callback.

Lemma dbExec_registers n (w : @world S T) p stmt bindCnt args k w' :
  dbExec n w p stmt bindCnt args = Ok (k, w') -> registers w w'.
Proof.
  unfold dbExec. intros H. res_inv. destruct x as [[k' u] w1]. simplify_eq/=. eapply exec_registers; [|done].
  intros q w0 st rc q' w2 [= _ _ <-]. done.
Qed.
End registers.

(** ** Serving orders *)

(** The addresses of the six counters of a queue. *)
Definition counter_addrs (stats : Z) (n : nat) : list Z := (fun j => stats + 16 * Z.of_nat j) <$> seq 0 n.

(** The counters [publish] changes are registered, and not at address 0. *)
Definition registered {T} (st : @stats_mgr_t T) (stats : Z) (n : nat) : Prop :=
  Forall (fun a => a <> 0 /\ a ∈ dom (st_mem st)) (counter_addrs stats n).

Lemma counter_addrs_S stats n : counter_addrs stats (Datatypes.S n) = stats :: counter_addrs (stats + 16) n.
Proof.
  unfold counter_addrs. cbn [seq fmap list_fmap]. f_equal; [lia|]. rewrite <- fmap_S_seq, <- list_fmap_compose.
  apply list_fmap_ext. intros i x _. cbn. lia.
Qed.

Section serve.
Context {S T G : Type} `{SQ : Sqlite S} (column_int64 : S -> Z -> nat -> Z).
Abbreviation kernel := (@kernel S T G).
Context (exec_fn : Z -> timeval -> list Z -> kernel -> res (Z * kernel)) (fuel : nat).

(** What the executor relies on: from global variables in order, executing a
    command keeps them in order, leaves the queues alone and unregisters no
    counter. *)
Class HandlerLaws := {
  globals_ok : G -> Prop;
  handler_law p ts data k r k' :
    globals_ok (k_globals k) -> exec_fn p ts data k = Ok (r, k') ->
    globals_ok (k_globals k') /\ k_queues k' = k_queues k /\ registers (k_world k) (k_world k')
}.

(** [k'] is [k] but for the status, queue [i] and its counters at [stats]. *)
Record quiet (i : nat) (stats : Z) (k k' : kernel) : Prop := {
  q_db : k_db k' = k_db k;
  q_stats : k_stats k' = k_stats k;
  q_globals : k_globals k' = k_globals k;
  q_queues j : j <> i -> k_queues k' !! j = k_queues k !! j;
  q_sqlite : w_sqlite (k_world k') = w_sqlite (k_world k);
  q_list : w_DBList (k_world k') = w_DBList (k_world k);
  q_dbs : w_dbs (k_world k') = w_dbs (k_world k);
  q_heap : st_heap (w_stats (k_world k')) = st_heap (w_stats (k_world k));
  q_slist : st_list (w_stats (k_world k')) = st_list (w_stats (k_world k));
  q_trees : st_trees (w_stats (k_world k')) = st_trees (w_stats (k_world k));
  q_mem a : a ∉ counter_addrs stats 6 -> st_mem (w_stats (k_world k')) !! a = st_mem (w_stats (k_world k)) !! a
}.

#[export] Instance quiet_preorder i stats : PreOrder (quiet i stats).
Proof.
  split; [done|]. intros k1 k2 k3 [] []. split; intros; try congruence.
  - rewrite <- q_queues0 by done. auto.
  - rewrite <- q_mem0 by done. auto.
Qed.

(** The executor's contract: the orders are executed one after the other, each
    in a running service, up to the first one that fails. *)
Inductive served (i : nat) (stats : Z) : kernel -> list order -> res (@thread_end S T G) -> Prop :=
| served_nil k k' : quiet i stats k k' -> served i stats k [] (Ok (Runs k'))
| served_fail k k1 o os e :
    quiet i stats k k1 -> svcKernelIsRunning (k_status k1) = true ->
    exec_order column_int64 exec_fn fuel k1 o = Err e -> served i stats k (o :: os) (Err e)
| served_job k k1 o os st k2 r :
    quiet i stats k k1 -> svcKernelIsRunning (k_status k1) = true ->
    exec_order column_int64 exec_fn fuel k1 o = Ok (st, k2) -> served i stats k2 os r -> served i stats k (o :: os) r.

#[export] Instance served_proper i stats : Proper (quiet i stats ==> eq ==> eq ==> flip impl) (served i stats).
Proof.
  intros k' k Hk os ? <- r ? <- Hs. destruct Hs as [k k1 Hq|k k1 o os e Hq Hr He|k k1 o os st k2 r Hq Hr He Hs];
    assert (quiet i stats k' k1) as Hq' by (by etrans).
  - by apply served_nil.
  - by apply (served_fail i stats k' k1).
  - by apply (served_job i stats k' k1 o os st k2).
Qed.

Lemma publish_ok (st : @stats_mgr_t T) stats vs :
  registered st stats (length vs) ->
  exists st', publish st stats vs = Ok st' /\ st_heap st' = st_heap st /\ st_list st' = st_list st /\ st_trees st' = st_trees st /\
    dom (st_mem st) ⊆ dom (st_mem st') /\
    forall a, a ∉ counter_addrs stats (length vs) -> st_mem st' !! a = st_mem st !! a.
Proof.
  revert st stats. induction vs as [|v vs IH]; intros st stats Hr; cbn [publish length].
  { exists st. by split_and!. }
  unfold registered in Hr. cbn [length] in Hr. rewrite counter_addrs_S in Hr. apply list.Forall_cons in Hr as [[H0 Hin] Hr].
  apply elem_of_dom in Hin as [c Hc].
  assert (Hu : statsUpdate st stats v = Ok ((update_counter c v).1, set_counter st stats (update_counter c v).2)).
  { unfold statsUpdate, counter_of. rewrite (proj2 (Z.eqb_neq stats 0)), Hc by done. cbn [mbind res_bind].
    by destruct (update_counter c v). }
  pose proof (update_registers _ _ _ _ _ Hu) as Hd. rewrite Hu. cbn [mbind res_bind].
  destruct (IH (set_counter st stats (update_counter c v).2) (stats + 16)) as (st' & E & H1 & H2 & H3 & H4 & H5).
  { eapply list.Forall_impl; [exact Hr|]. cbv beta. intros a [? ?]. split; [done|]. set_solver. }
  exists st'. rewrite E. split_and!; try done; [set_solver|]. intros a Ha. rewrite counter_addrs_S in Ha.
  apply not_elem_of_cons in Ha as [Hne Ha]. rewrite H5 by done. cbn. by rewrite lookup_insert_ne.
Qed.

Context `{HL : HandlerLaws}.

Lemma exec_order_keeps (k : kernel) o r k' :
  globals_ok (k_globals k) -> exec_order column_int64 exec_fn fuel k o = Ok (r, k') ->
  globals_ok (k_globals k') /\ k_queues k' = k_queues k /\ registers (k_world k) (k_world k').
Proof.
  intros Hg. unfold exec_order, exec_view. destruct (negb _); [by intros [= _ <-]|].
  destruct (i_cmdmgrFindExec column_int64 fuel k (term (o_cmd o))) as [[pexec k1]|] eqn:E; [|done]. cbn [mbind res_bind].
  assert (k_globals k1 = k_globals k /\ k_queues k1 = k_queues k /\ registers (k_world k) (k_world k1)) as (E1 & E2 & E3).
  { unfold i_cmdmgrFindExec, i_cmdmgrFindPtr in E. destruct (_ <? _)%nat; [done|]. res_inv. destruct x as [[s ptr] w]. simplify_eq/=.
    split_and!; [done..|]. eapply exec_registers; [|done]. intros q w0 st rc q' w1 [= _ _ <-]. done. }
  destruct (pexec =? 0); [intros [= _ <-]; by rewrite E1|]. intros H. res_inv. destruct x as [ret k2]. simplify_eq/=.
  destruct (handler_law pexec (o_ts o) (o_data o) k1 ret k') as (F1 & F2 & F3); [by rewrite E1|done|].
  split_and!; [done|congruence|by etrans].
Qed.

(** A job fits in the buffer of the executor, and the buffer in memory. *)
Definition fits (buf : job) (o : order) : Prop :=
  (order_len o <= length (j_bytes buf))%nat /\ j_addr buf + Z.of_nat (order_len o) < 2 ^ 64.

Lemma loop_serves N i stats iters os es k q buf :
  Forall2 carries es os -> Forall order_ok os -> Forall (fits buf) os -> (length iters <= length os)%nat ->
  Forall (fun it => svcKernelIsRunning it.1 = true) iters ->
  0 < j_addr buf -> Forall is_byte (j_bytes buf) -> globals_ok (k_globals k) ->
  k_queues k !! i = Some (Some q) -> QueueSpec.holds N q es -> registered (w_stats (k_world k)) stats 6 ->
  let r := executor_loop column_int64 exec_fn fuel k i buf stats iters in
  served i stats k (take (length iters) os) r /\
  forall k', r = Ok (Runs k') -> globals_ok (k_globals k') /\ registers (k_world k) (k_world k') /\
    exists q', k_queues k' !! i = Some (Some q') /\ QueueSpec.holds N q' (drop (length iters) es).
Proof.
  revert os es k q buf. induction iters as [|[s waits] iters IH]; intros os es k q buf Hc Ho Hf Hl Hrun Ha Hb Hg Hq Hh Hr.
  { split; [by apply served_nil|]. intros k' [= <-]. split_and!; [done..|]. by exists q. }
  apply list.Forall_cons in Hrun as [Hs Hrun]. cbn [fst] in Hs. cbn [length] in Hl.
  destruct Hc as [|e o es os He Hc]; [cbn in Hl; lia|]. cbn [length] in Hl.
  apply list.Forall_cons in Ho as [Ho Hos]. apply list.Forall_cons in Hf as [[Hf1 Hf2] Hf].
  cbn [executor_loop take drop length]. rewrite Hs. set (k0 := set_status k s).
  destruct (executor_step_ok column_int64 exec_fn fuel N q es e o k0 i buf waits Ho He Hq Hh (conj Ha Hf2) Hb)
    as (q' & Hh' & Hx). rewrite (proj2 (Nat.leb_le _ _) Hf1) in Hx. destruct Hx as (b & Hbl & Hbb & Hx).
  unfold executor_iteration. rewrite Hx. set (k1 := set_queue k0 i (Some q')) in *.
  assert (Hk1 : quiet i stats k k1).
  { split; try done. intros j Hj. cbn. by rewrite list_lookup_insert_ne. }
  assert (Hq1 : k_queues k1 !! i = Some (Some q')) by (apply list_lookup_insert_eq; by eapply lookup_lt_Some).
  destruct (exec_order column_int64 exec_fn fuel k1 o) as [[st k2]|err] eqn:Ex; cbn [mbind res_bind].
  2: { split; [by apply (served_fail i stats k k1)|done]. }
  destruct (exec_order_keeps k1 o st k2 Hg Ex) as (Hg2 & Hq2 & Hr2).
  unfold queue_of. rewrite Hq2, (rd_lookup _ _ _ Hq1). cbn [mbind res_bind deref].
  assert (Hreg : registered (w_stats (k_world k2)) stats 6).
  { eapply list.Forall_impl; [exact Hr|]. cbv beta. intros a [? ?]. split; [done|]. by apply Hr2. }
  destruct (publish_ok (w_stats (k_world k2)) stats (queue_stats q') Hreg) as (st' & -> & E1 & E2 & E3 & E4 & E5).
  cbn [mbind res_bind]. set (k3 := set_world k2 _). change (length (queue_stats q')) with 6%nat in E5.
  assert (Hk3 : quiet i stats k2 k3) by (by split).
  destruct (IH os es k3 q' (MkJob (j_addr buf) b)) as [Hserved Hend]; try done; try lia.
  - eapply list.Forall_impl; [exact Hf|]. intros o' [? ?]. split; cbn [j_bytes j_addr]; [lia|done].
  - cbn. by rewrite Hq2.
  - eapply list.Forall_impl; [exact Hreg|]. cbv beta. intros a [? ?]. split; [done|]. by apply E4.
  - split; [|intros k' Ek; destruct (Hend k' Ek) as (? & Hr4 & ?); split; [done|]; split; [|done];
      etrans; [exact Hr2|]; etrans; [|exact Hr4]; exact E4].
    apply (served_job i stats k k1 o _ st k2); [done..|]. by rewrite Hk3.
Qed.
End serve.

(** C8: an executor serves its queue in order.  With a queue that holds jobs for
    the orders [os], a buffer that is large enough and its counters registered,
    each iteration of the loop in a running service takes the oldest job and
    executes it, with its command, time stamp and data; between two executions
    only the queue, its counters and the status change.  The jobs not reached
    stay in the queue.  The loop does not wait
    and fails only if an execution fails. *)
Theorem executor_serves (S T G : Type) (SQ : Sqlite S) (column_int64 : S -> Z -> nat -> Z)
    (exec_fn : Z -> timeval -> list Z -> @kernel S T G -> res (Z * @kernel S T G)) (fuel : nat) (HL : HandlerLaws exec_fn)
    N i stats iters os es (k : @kernel S T G) q buf :
  Forall2 carries es os -> Forall order_ok os -> Forall (fits buf) os -> (length iters <= length os)%nat ->
  Forall (fun it => svcKernelIsRunning it.1 = true) iters ->
  0 < j_addr buf -> Forall is_byte (j_bytes buf) -> globals_ok exec_fn (k_globals k) ->
  k_queues k !! i = Some (Some q) -> QueueSpec.holds N q es -> registered (w_stats (k_world k)) stats 6 ->
  let r := executor_loop column_int64 exec_fn fuel k i buf stats iters in
  served column_int64 exec_fn fuel i stats k (take (length iters) os) r /\
  forall k', r = Ok (Runs k') -> globals_ok exec_fn (k_globals k') /\ registers (k_world k) (k_world k') /\
    exists q', k_queues k' !! i = Some (Some q') /\ QueueSpec.holds N q' (drop (length iters) es).
Proof. apply loop_serves. Qed.

(** A handler that records what it is called with. *)
Abbreviation record_t := (list (Z * timeval * list Z)).

Definition recorder (p : Z) (ts : timeval) (data : list Z) (k : @kernel (gmap Z nat) unit record_t) :
  res (Z * @kernel (gmap Z nat) unit record_t) := Ok (0, set_globals k (k_globals k ++ [(p, ts, data)])).

#[export] Program Instance recorder_laws : HandlerLaws recorder := { globals_ok _ := True }.
Next Obligation. by intros p ts data k r k' _ [= _ <-]. Qed.

Definition order_a : order := MkOrder [65] (MkTv 5 6) [1; 2; 3].
Definition order_b : order := MkOrder [66; 67] (MkTv 7 8) [4].

(** The job of an order as it was laid out at address 1000. *)
Definition entry_of (o : order) : Queue.entry :=
  Queue.MkEntry (concat (blocks (o_cmd o) (o_data o) (o_ts o) 0 1000 [9; 9; 9; 9] [])) [0; 0; 0; 0].

Definition two_jobs : Queue.queue_t :=
  match Queue.queue_write sample_queue (Queue.e_data (entry_of order_a)) [0; 0; 0; 0] [] with
  | Ok (Queue.Returned _ _ q) =>
      match Queue.queue_write q (Queue.e_data (entry_of order_b)) [0; 0; 0; 0] [] with
      | Ok (Queue.Returned _ _ q) => q
      | _ => q
      end
  | _ => sample_queue
  end.

Lemma two_jobs_held : QueueSpec.holds 256 two_jobs [entry_of order_a; entry_of order_b].
Proof.
  assert (Hh : QueueSpec.holds 256 sample_queue []) by (apply QueueProps.fresh_holds; reflexivity).
  destruct (QueueProps.queue_write_ok 256 sample_queue [] (entry_of order_a) [] Hh ltac:(decide_closed) eq_refl) as (q1 & E1 & H1).
  vm_compute in E1. injection E1 as <-.
  destruct (QueueProps.queue_write_ok 256 _ _ (entry_of order_b) [] H1 ltac:(decide_closed) eq_refl) as (q2 & E2 & H2).
  vm_compute in E2. injection E2 as E2. assert (two_jobs = q2) as -> by (rewrite <- E2; vm_compute; reflexivity). exact H2.
Qed.

Definition job_kernel : @kernel (gmap Z nat) unit record_t :=
  MkKernel (MkWorld ∅ (MkStats ∅ 0 ∅ (list_to_map ((fun a => (a, MkCounter STATS_FLAGS_TYPE_LAST 0)) <$> counter_addrs 600 6)
      ∪ list_to_map ((fun s => (stat_addr 5000 s, MkCounter STATS_FLAGS_TYPE_SUM 0)) <$> all_stats)))
      0 {[ 5000 := MkDb 1 0 false DB_FLAGS_STATE_OPEN [] [] ]})
    SVC_KERNEL_STATUS_RUNNING 5000 0 [Some two_jobs; None] [].

Lemma executor_serves_witness :
  let col := fun (_ : gmap Z nat) (_ : Z) (_ : nat) => 77 in
  let it := (SVC_KERNEL_STATUS_RUNNING, [] : list Queue.wait_t) in
  exists k', executor_loop col recorder 200 job_kernel 0 (MkJob 9000 (replicate 100 7)) 600 [it; it] = Ok (Runs k') /\
    served col recorder 200 0 600 job_kernel [order_a; order_b] (Ok (Runs k')) /\
    k_globals k' = [(77, MkTv 5 6, [1; 2; 3]); (77, MkTv 7 8, [4])].
Proof.
  intros col it.
  destruct (executor_serves (gmap Z nat) unit record_t DatabaseSpec.mock_sqlite col recorder 200 recorder_laws
    256 0 600 [it; it] [order_a; order_b] [entry_of order_a; entry_of order_b] job_kernel two_jobs (MkJob 9000 (replicate 100 7)))
    as [Hs _].
  - constructor; [|constructor; [|constructor]]; by exists 0, 1000, [9; 9; 9; 9]; split_and!; [|decide_closed|].
  - decide_closed.
  - constructor; [|constructor; [|constructor]]; split; cbn; lia.
  - cbn. lia.
  - repeat constructor.
  - cbn. lia.
  - decide_closed.
  - exact I.
  - reflexivity.
  - apply two_jobs_held.
  - decide_closed.
  - assert (Hx : match executor_loop col recorder 200 job_kernel 0 (MkJob 9000 (replicate 100 7)) 600 [it; it] with
      | Ok (Runs k') => k_globals k' = [(77, MkTv 5 6, [1; 2; 3]); (77, MkTv 7 8, [4])] | _ => False end) by (vm_compute; reflexivity).
    cbn [length take] in Hs. destruct (executor_loop _ _ _ _ _ _ _ _) as [[| |k']|]; try contradiction.
    exists k'. split; [reflexivity|]. split; [exact Hs|exact Hx].
Defined.

(** ** Any schedule *)

(** C7: whatever the schedule of the threads that use a queue, the [n]-th
    message that a read returns is executed as the [n]-th order that was stored,
    with its command, time stamp and data, by any executor whose buffer is large
    enough and whatever that buffer held before. *)
Theorem interleaved_delivery (S T G : Type) (SQ : Sqlite S) (column_int64 : S -> Z -> nat -> Z)
    (exec_fn : Z -> timeval -> list Z -> @kernel S T G -> res (Z * @kernel S T G)) (fuel : nat) N q c s os :
  Queue.queue_create N true true = Some q -> Z.of_nat N < 2 ^ 63 -> Queue.reachable q (c, s) ->
  Forall2 carries (Queue.written c) os -> Forall order_ok os ->
  forall n ret data, Queue.got c !! n = Some (ret, data) ->
  exists o, os !! n = Some o /\
    forall (k : @kernel S T G) buf, 0 < j_addr buf -> Forall is_byte (j_bytes buf) -> fits buf o ->
    exists b, executor_message column_int64 exec_fn fuel k buf ret data =
      '(_, k') ← exec_order column_int64 exec_fn fuel k o; Ok (k', MkJob (j_addr buf) b).
Proof.
  intros Hq HN Hr Hc Ho n ret data Hn. destruct (QueueSpec.reachable_inv N q _ Hq HN Hr) as [Hi _]. cbn [fst] in Hi.
  rewrite (QueueSpec.ci_got _ _ Hi) in Hn. apply list_lookup_fmap_Some in Hn as (e & Ed & He).
  unfold QueueSpec.consumed in He. apply lookup_take_Some in He as [He _].
  destruct (Forall2_lookup_l _ _ _ _ _ Hc He) as (o & Hos & Hco). exists o. split; [done|].
  intros k buf Ha Hb [Hf1 Hf2]. pose proof (executor_message_ok column_int64 exec_fn fuel e o k buf
    (proj1 (list.Forall_lookup _ _) Ho _ _ Hos) Hco (conj Ha Hf2) Hb) as Hm.
  rewrite <- Ed, (proj2 (Nat.leb_le _ _) Hf1) in Hm. destruct Hm as (b & _ & _ & E). by exists b.
Qed.

(** Two jobs are written, the first one is read. *)
Definition sample_run (q : Queue.queue_t) : Queue.core :=
  let c1 := QueueProps.wrun 200 (Queue.set_wm (Queue.core0 q) (Some (Queue.WCheck (entry_of order_a) false))) in
  let c2 := QueueProps.wrun 200 (Queue.set_wm (Queue.set_wm c1 None) (Some (Queue.WCheck (entry_of order_b) false))) in
  QueueProps.rrun 200 (Queue.set_rm c2 (Some (Queue.RCheck false))).

Lemma interleaved_delivery_witness :
  exists q c s ret data, Queue.queue_create 256 true true = Some q /\ Queue.reachable q (c, s) /\
    Queue.got c = [(ret, data)] /\
    forall k, exists b, executor_message (fun _ _ _ => 4096) recorder 10 k (MkJob 5000 (replicate 100 7)) ret data =
      '(_, k') ← exec_order (fun _ _ _ => 4096) recorder 10 k order_a; Ok (k', MkJob 5000 b).
Proof.
  eexists _, (sample_run _), _, _, _. split; [reflexivity|]. set (q := Queue.MkQueue _ _ _ _ _ _ _ _ _ _ _).
  assert (Hr : Queue.reachable q (sample_run q, Queue.set_notify Queue.sched0 1 0)).
  { unfold sample_run. eapply rtc_l; [apply (Queue.s_w_lock _ _ (entry_of order_a) false); [done|done|decide_closed|reflexivity]|].
    etrans; [apply (QueueProps.wrun_steps 200); done|].
    eapply rtc_l; [apply Queue.s_w_unlock; [done|vm_compute; reflexivity]|].
    eapply rtc_l; [apply (Queue.s_w_lock _ _ (entry_of order_b) false); [done|done|decide_closed|vm_compute; reflexivity]|].
    etrans; [apply (QueueProps.wrun_steps 200); done|].
    eapply rtc_l; [apply (Queue.s_r_lock _ _ false); [done|vm_compute; reflexivity]|].
    apply QueueProps.rrun_steps. done. }
  split; [exact Hr|].
  assert (Hw : Queue.written (sample_run q) = [entry_of order_a; entry_of order_b]) by (vm_compute; reflexivity).
  assert (Hg : Queue.got (sample_run q) = [QueueSpec.delivered (entry_of order_a)]) by (vm_compute; reflexivity).
  split; [exact Hg|]. intros k.
  assert (Hc : Forall2 carries (Queue.written (sample_run q)) [order_a; order_b]).
  { rewrite Hw. constructor; [|constructor; [|constructor]]; by exists 0, 1000, [9; 9; 9; 9]; split_and!; [|decide_closed|]. }
  assert (Ho : Forall order_ok [order_a; order_b]) by decide_closed.
  assert (Hn : Queue.got (sample_run q) !! 0%nat = Some (QueueSpec.delivered (entry_of order_a))) by (rewrite Hg; reflexivity).
  destruct (interleaved_delivery (gmap Z nat) unit record_t DatabaseSpec.mock_sqlite (fun _ _ _ => 4096) recorder 10 256 q (sample_run q) _
    [order_a; order_b] eq_refl eq_refl Hr Hc Ho 0%nat _ _ Hn) as (o & Eo & H).
  injection Eo as <-. apply (H k (MkJob 5000 (replicate 100 7))); [done|decide_closed|split; cbn; lia].
Defined.

End Executor.
