(* ===== verification/Psmgr.v ===== *)
(** * The thread manager

    Models [src/svc_kernel/psmgr/psmgr.c].  Every thread has an entry in the
    doubly linked list of the manager for the time it runs; the main thread
    purges the list while it idles.  The functions are given on the heap of
    the list, with what other threads do in between as an argument; the
    handshake of [psmgrCreateThread] with the new thread is a step relation.
    Log output other than the dump of the list, and the clock, are left out. *)

From stdpp Require Import gmap.
From S2P Require Import Prelude CString DList Blocks DListSpec DListProps DListQuery Svc.

Module Psmgr.
Import CStr DList Blocks DListSpec DListProps DListQuery Svc.

(** ** The manager *)

(** The signals of [g_psmgrHandledSignalsMainNew] and their handlers. *)
Inductive signal : Type := SIGCHLD | SIGTERM | SIGINT.
Inductive sig_handler : Type := DefaultHandler | MainTerminate.

Definition g_psmgrHandledSignalsMainNew : list (signal * sig_handler) :=
  [(SIGCHLD, DefaultHandler); (SIGTERM, MainTerminate); (SIGINT, MainTerminate)].

(** [i_psmgrHandleMainTerminate] on the status of the service. *)
Definition i_psmgrHandleMainTerminate (status : Z) : Z := (svcKernelStatus status SVC_KERNEL_STATUS_STOP_PENDING).2.

(** The loop of [psmgrStart]: [ok s] tells whether [sigaction] succeeds.
    Returns the signals that were handled and whether all were. *)
Fixpoint install_signals (ok : signal -> bool) (l : list (signal * sig_handler)) : list (signal * sig_handler) * bool :=
  match l with
  | [] => ([], true)
  | (s, a) :: l' => if ok s then let '(r, b) := install_signals ok l' in ((s, a) :: r, b) else ([], false)
  end.

(** [plist]: what [malloc] returns for the list. *)
Definition psmgrStart (h : heap) (ok : signal -> bool) (plist : Z) : res (Z * Z * heap) :=
  if negb (install_signals ok g_psmgrHandledSignalsMainNew).2 then Ok (KSTATUS_UNSUCCESS, 0, h)
  else
    '(l, h) ← doublylinkedlistAlloc h plist;
    Ok (if l =? 0 then KSTATUS_UNSUCCESS else KSTATUS_SUCCESS, l, h).

(** The loop of [i_psmgrDumpList]: key, references, deletion flag and size of
    each record of the query.  The names it prints from the user data are left
    out. *)
Fixpoint dump_threads (fuel : nat) (buf : list Z) (off : nat) : res (list (Z * Z * Z * Z)) :=
  match fuel with
  | O => Err Diverges
  | S fuel' =>
      e ← doublylinkedlistQueryIsEnd buf off;
      if e : bool then Ok []
      else
        key ← get buf off 8; refs ← get buf (off + 8) 4; del ← get buf (off + 12) 1; size ← get buf (off + 16) 8;
        next ← doublylinkedlistQueryNext buf off;
        rest ← dump_threads fuel' buf next;
        Ok ((key, refs, del, size) :: rest)
  end.

(** [buff], [base]: the bytes and the address of the buffer on the stack.  The
    loop runs over the buffer also when the query did not fit in it. *)
Definition i_psmgrDumpList (h : heap) (threadList : Z) (buff : list Z) (base : Z) : res (list (Z * Z * Z * Z)) :=
  '(_, buff, _) ← doublylinkedlistQuery h threadList buff base 4096;
  dump_threads 4096 buff 0.

(** The handlers that [psmgrStop] restores are those before [psmgrStart]. *)
Definition psmgrStop (h : heap) (threadList : Z) (buff : list Z) (base : Z) : res heap :=
  _ ← i_psmgrDumpList h threadList buff base;
  h ← doublylinkedlistFreeDeletedEntries h threadList;
  doublylinkedlistFree h threadList.

(** [sleeping]: what other threads do while the main thread sleeps. *)
Definition psmgrIdle (h : heap) (threadList : Z) (sleeping : heap -> res heap) : res (Z * heap) :=
  e ← doublylinkedlistIsEmpty h threadList;
  h ← (if (e : bool) then Ok h else sleeping h);
  h ← doublylinkedlistFreeDeletedEntries h threadList;
  Ok (KSTATUS_SUCCESS, h).

(** The loop of [psmgrStopUserThreads]: [sleeps] is what happens during the
    seconds it sleeps; [None] when they do not suffice. *)
Fixpoint psmgrStopUserThreads (h : heap) (threadList : Z) (sleeps : list (heap -> res heap)) : res (option heap) :=
  if threadList =? 0 then Ok (Some h)
  else
    e ← doublylinkedlistIsEmpty h threadList;
    if (e : bool) then Ok (Some h)
    else match sleeps with
         | [] => Ok None
         | f :: sleeps' => h ← f h; psmgrStopUserThreads h threadList sleeps'
         end.

(** ** The life of a thread *)

Section thread.
(** [routine]: the thread's routine, which may let other threads change the
    heap.  [between]: what other threads do between the two releases. *)
Context (routine : heap -> res (Z * heap)) (between : heap -> res heap).

(** [i_psmgrExecRoutine] behind the handshake: [ctx] are the bytes of the
    context, [tid] the thread id, [p] what [malloc] returns for the entry,
    [status] the status of the service and [setname] what
    [pthread_setname_np] returns.  The result is indeterminate when the
    service is not running. *)
Definition i_psmgrExecRoutine (h : heap) (threadList tid : Z) (ctx : list Z) (p status setname : Z)
    : res (option Z * heap) :=
  '(p_threadCtx, h) ← doublylinkedlistAdd h threadList tid ctx p;
  if p_threadCtx =? 0 then Err NullDeref
  else
    '(ret, h) ←
      (if svcKernelIsRunning status then
         if setname =? 0 then '(r, h) ← routine h; Ok (Some r, h) else Ok (Some setname, h)
       else Ok (None, h));
    h ← doublylinkedlistDel h threadList p_threadCtx;
    h ← doublylinkedlistRelease h p_threadCtx;
    h ← between h;
    h ← doublylinkedlistRelease h p_threadCtx;
    Ok (ret, h).
End thread.

(** ** Creating a thread *)

(** What [psmgrCreateThread] checks and allocates before the handshake. *)
Definition create_checks (c_shortThreadName : list Z) (malloc_ok : bool) : res Z :=
  len ← strlen c_shortThreadName;
  Ok (if (15 <=? len)%nat then KSTATUS_INVALID_PARAMETERS
      else if malloc_ok then KSTATUS_SUCCESS else KSTATUS_OUT_OF_MEMORY).

(** Where the creator is, from [pthread_mutex_lock] on. *)
Inductive creator_pc : Type :=
| CLock            (* before locking the mutex *)
| CCreate          (* before [pthread_create] *)
| CTest            (* holds the mutex, before the test of [_threadStatus] *)
| CWait            (* in [pthread_cond_wait] *)
| CWoken           (* woken, competes for the mutex *)
| CUnlock          (* before unlocking the mutex *)
| CFail            (* behind the loop with [ret] not 0, before unlocking *)
| CDone (status : Z).

(** Where the new thread is, up to its routine. *)
Inductive child_pc : Type :=
| ENone            (* not created *)
| EAdd             (* before adding itself to the list *)
| ELock            (* before locking the mutex *)
| ERun             (* holds the mutex, before storing the status *)
| EBroadcast
| EUnlock
| EDestroy         (* before destroying the mutex and freeing the context *)
| EEntered.

Inductive owner : Type := Creator | Child.

Record hs_state : Type := MkHs {
  hs_mutex : option owner;
  hs_running : bool;       (* _threadStatus; indeterminate at first *)
  hs_freed : bool;         (* the context was freed *)
  hs_ret : bool;           (* [ret] is not 0 *)
  hs_creator : creator_pc;
  hs_child : child_pc;
  hs_fault : bool          (* a freed context was used: every access to it sets [x || f] *)
}.

(** A call of [pthread_cond_wait] that fails returns at once and leaves the
    mutex as it is (POSIX: its error checks act as if performed at the beginning
    of the call); one that returns 0 has released the mutex and taken it
    again. *)
Inductive hs_step : hs_state -> hs_state -> Prop :=
| h_lock m r f t e x : m = None ->
    hs_step (MkHs m r f t CLock e x) (MkHs (Some Creator) r f t CCreate e (x || f))
| h_create m r f t x :
    hs_step (MkHs m r f t CCreate ENone x) (MkHs m r f false CTest EAdd (x || f))
| h_create_fail m r f t x :
    hs_step (MkHs m r f t CCreate ENone x) (MkHs None r true true (CDone KSTATUS_UNSUCCESS) ENone (x || f))
| h_test_wait m f t e x :
    hs_step (MkHs m false f t CTest e x) (MkHs None false f t CWait e (x || f))
| h_wait_fail m f t e x :
    hs_step (MkHs m false f t CTest e x) (MkHs m false f true CTest e (x || f))
| h_test_go m f e x :
    hs_step (MkHs m true f false CTest e x) (MkHs m true f false CUnlock e (x || f))
| h_test_fail m f e x :
    hs_step (MkHs m true f true CTest e x) (MkHs m true f true CFail e (x || f))
| h_spurious m r f t e x :
    hs_step (MkHs m r f t CWait e x) (MkHs m r f t CWoken e x)
| h_relock r f t e x :
    hs_step (MkHs None r f t CWoken e x) (MkHs (Some Creator) r f false CTest e (x || f))
| h_unlock m r f t e x :
    hs_step (MkHs m r f t CUnlock e x) (MkHs None r f t (CDone KSTATUS_SUCCESS) e (x || f))
| h_fail m r f t e x :
    hs_step (MkHs m r f t CFail e x) (MkHs None r true t (CDone KSTATUS_UNSUCCESS) e (x || f))
| h_add m r f t c x :
    hs_step (MkHs m r f t c EAdd x) (MkHs m r f t c ELock (x || f))
| h_elock r f t c x :
    hs_step (MkHs None r f t c ELock x) (MkHs (Some Child) r f t c ERun (x || f))
| h_run m r f t c x :
    hs_step (MkHs m r f t c ERun x) (MkHs m true f t c EBroadcast (x || f))
| h_broadcast m r f t c x :
    hs_step (MkHs m r f t c EBroadcast x)
            (MkHs m r f t (match c with CWait => CWoken | _ => c end) EUnlock (x || f))
| h_eunlock m r f t c x :
    hs_step (MkHs m r f t c EUnlock x) (MkHs None r f t c EDestroy (x || f))
| h_destroy m r f t c x :
    hs_step (MkHs m r f t c EDestroy x) (MkHs m r true t c EEntered (x || f)).

(** [r]: whether [_threadStatus] in the memory that [malloc] returned is
    [THREAD_STATUS_RUNNING]; [psmgrCreateThread] does not initialise it. *)
Definition hs_init (r : bool) : hs_state := MkHs None r false false CLock ENone false.

(** ** Waiting for a thread *)

(** [psmgrWaitForThread]: [ret0] is the initial value of [ret], which is
    indeterminate; [joins] what the successive calls of
    [pthread_timedjoin_np] return. *)
Definition ETIMEDOUT : Z := 110.

Fixpoint wait_loop (ret : Z) (joins : list Z) : option Z :=
  if ret =? ETIMEDOUT then Some KSTATUS_UNSUCCESS
  else match joins with
       | [] => None
       | r :: joins' => if r =? 0 then Some KSTATUS_SUCCESS else wait_loop r joins'
       end.

Definition psmgrWaitForThread (ret0 : Z) (joins : list Z) : option Z := wait_loop ret0 joins.

(** ** Correctness *)

(** Taking an entry out and releasing it once leaves it without references. *)
Lemma leave_once h L act del p b :
  dll_ok h L ((p, b) :: act) del -> b_references b = 1 ->
  exists h1 h2 b', doublylinkedlistDel h L (movePtrToUserData p) = Ok h1 /\
    doublylinkedlistRelease h1 (movePtrToUserData p) = Ok h2 /\
    dll_ok h2 L act ((p, b') :: del) /\ b_references b' = 0.
Proof.
  intros Hd Hb. destruct (del_ok h L [] p b act del Hd) as (h1 & E1 & Hd1 & _). cbn [app] in Hd1.
  rewrite Hb in Hd1. change (0 <? 1) with true in Hd1. cbv iota in Hd1. apply lists_swap in Hd1.
  destruct (release_ok h1 _ _ true false [] p (mark_deleted b) del act Hd1) as (h2 & E2 & Hd2).
  apply lists_swap in Hd2. exists h1, h2, (add_references (mark_deleted b) (-1)).
  split; [done|]. split; [done|]. split; [exact Hd2|]. cbn. by rewrite Hb.
Qed.

(** The thread up to the first release, when its routine returns. *)
Lemma thread_life h L act del tid ctx p between r :
  dll_ok h L act del -> 0 < p -> h !! p = None ->
  exists h2 b, dll_ok h2 L act ((p, b) :: del) /\ b_references b = 0 /\
    i_psmgrExecRoutine (fun h => Ok (r, h)) between h L tid ctx p SVC_KERNEL_STATUS_RUNNING 0 =
      (h3 ← between h2; h4 ← doublylinkedlistRelease h3 (movePtrToUserData p); Ok (Some r, h4)).
Proof.
  intros Hd Hp Hfr. destruct (add_ok h L act del tid ctx p Hd ltac:(lia) Hfr) as (h1 & E1 & Hd1 & _).
  destruct (leave_once h1 L act del p _ Hd1 eq_refl) as (h2 & h3 & b & E2 & E3 & Hd3 & Hb).
  exists h3, b. split; [done|]. split; [done|]. unfold i_psmgrExecRoutine. rewrite E1. cbn [mbind res_bind].
  unfold movePtrToUserData at 1. rewrite (proj2 (Z.eqb_neq _ 0)) by (unfold sizeof_entry; lia).
  change (svcKernelIsRunning SVC_KERNEL_STATUS_RUNNING) with true. cbv iota. rewrite Z.eqb_refl. cbn [mbind res_bind].
  rewrite E2. cbn [mbind res_bind]. rewrite E3. done.
Qed.

(** A thread releases its entry twice although it holds one reference.
    Without interference the count wraps around to 2^32 - 1, so that no purge
    frees the entry while the list exists; and if the main thread purges the
    list between the two releases, the second one uses freed memory. *)
Theorem psmgr_double_release h L act del tid ctx p r :
  L <> 0 -> dll_ok h L act del -> 0 < p -> h !! p = None ->
  (exists h1 h2 b,
     i_psmgrExecRoutine (fun h => Ok (r, h)) (fun h => Ok h) h L tid ctx p SVC_KERNEL_STATUS_RUNNING 0 = Ok (Some r, h1) /\
     dll_ok h1 L act ((p, b) :: del) /\ b_references b = 2 ^ 32 - 1 /\
     doublylinkedlistFreeDeletedEntries h1 L = Ok h2 /\ dll_ok h2 L act ((p, b) :: filter in_use del)) /\
  i_psmgrExecRoutine (fun h => Ok (r, h)) (fun h => doublylinkedlistFreeDeletedEntries h L)
    h L tid ctx p SVC_KERNEL_STATUS_RUNNING 0 = Err UseAfterFree.
Proof.
  intros HL Hd Hp Hfr. split.
  - destruct (thread_life h L act del tid ctx p (fun h => Ok h) r Hd Hp Hfr) as (h2 & b & Hd2 & Hb & E).
    apply lists_swap in Hd2. destruct (release_ok h2 _ _ true false [] p b del act Hd2) as (h3 & E3 & Hd3).
    cbn [app] in Hd3. apply lists_swap in Hd3. destruct (purge_ok h3 L _ _ HL Hd3) as (h4 & E4 & Hd4 & _).
    exists h3, h4, (add_references b (-1)). assert (Hr : b_references (add_references b (-1)) = 2 ^ 32 - 1) by (cbn; by rewrite Hb).
    split; [rewrite E; cbn [mbind res_bind]; by rewrite E3|]. split; [done|]. split; [done|]. split; [done|].
    rewrite filter_cons_True in Hd4; [done|]. unfold in_use. cbn [snd]. rewrite Hr. done.
  - destruct (thread_life h L act del tid ctx p (fun h => doublylinkedlistFreeDeletedEntries h L) r Hd Hp Hfr)
      as (h2 & b & Hd2 & Hb & ->).
    destruct (purge_ok h2 L _ _ HL Hd2) as (h3 & -> & _ & W). cbn [mbind res_bind].
    assert (Hn : h3 !! p = None).
    { destruct (h3 !! p) as [n|] eqn:En; [|done]. destruct (W p) as [Hw _]. rewrite En in Hw.
      destruct (Hw ltac:(eauto)) as [[] _]. rewrite filter_cons_True by (unfold in_use; cbn; lia). apply list_elem_of_here. }
    unfold doublylinkedlistRelease, moveUserDataToPtr, movePtrToUserData.
    replace (p + sizeof_entry - sizeof_entry) with p by lia. unfold load_body, load. by rewrite Hn.
Qed.

Lemma psmgr_double_release_witness :
  exists h, doublylinkedlistAlloc ∅ 4096 = Ok (4096, h) /\
    i_psmgrExecRoutine (fun h => Ok (0, h)) (fun h => doublylinkedlistFreeDeletedEntries h 4096)
      h 4096 77 [1; 2] 8192 SVC_KERNEL_STATUS_RUNNING 0 = Err UseAfterFree.
Proof.
  destruct (alloc_ok ∅ 4096 ltac:(lia)) as (h & E & Hd).
  assert (Hfr : h !! 8192 = None) by (vm_compute in E; injection E as <-; vm_compute; reflexivity).
  destruct (psmgr_double_release h 4096 [] [] 77 [1; 2] 8192 0 ltac:(lia) Hd ltac:(lia) Hfr) as [_ H].
  exists h. split; [exact E|exact H].
Defined.

(** What the dump prints of an entry. *)
Definition shown (b : body) : Z * Z * Z * Z :=
  (b_key b, b_references b, Z.b2z (b_isDeleted b), Z.of_nat (b_size b)).

Lemma dump_threads_ok bs recs pre rest fuel :
  Forall2 is_record bs recs -> Forall (fun b => b_key b <> 0) bs -> (length bs < fuel)%nat ->
  dump_threads fuel (pre ++ concat recs ++ replicate 8 0 ++ rest) (length pre) = Ok (shown <$> bs).
Proof.
  intros Hr. revert pre fuel. induction Hr as [|b r bs recs Hb _ IH]; intros pre fuel Hk Hf;
    (destruct fuel as [|fuel]; [cbn in Hf; lia|]); cbn [dump_threads concat].
  { unfold doublylinkedlistQueryIsEnd. cbn [app]. rewrite <- (Nat.add_0_r (length pre)), get_app. done. }
  destruct Hb as (Hl & H0 & H8 & H12 & H16 & _). apply list.Forall_cons in Hk as [Hk1 Hk].
  rewrite <- (app_assoc r). set (tl := concat recs ++ _).
  pose proof (get_left _ tl _ _ _ H0) as G0. pose proof (get_left _ tl _ _ _ H8) as G8.
  pose proof (get_left _ tl _ _ _ H12) as G12. pose proof (get_left _ tl _ _ _ H16) as G16.
  unfold doublylinkedlistQueryIsEnd, doublylinkedlistQueryNext.
  rewrite <- (get_app pre) in G0, G8, G12, G16. rewrite Nat.add_0_r in G0.
  rewrite G0. cbn [mbind res_bind]. rewrite (proj2 (Z.eqb_neq _ 0)) by done.
  rewrite G8. cbn [mbind res_bind]. rewrite G12. cbn [mbind res_bind]. rewrite G16. cbn [mbind res_bind].
  replace (length pre + sizeof_query + Z.to_nat (Z.of_nat (b_size b)))%nat with (length (pre ++ r)) by (rewrite length_app; lia).
  subst tl. rewrite (app_assoc pre). rewrite IH by (done || cbn in Hf; lia). done.
Qed.

(** The dump of the thread list shows every entry of the list exactly
    once, the active ones before the deleted ones, with its key, references,
    deletion flag and size, when the records fit in the 4096 bytes of the
    buffer and no key is 0. *)
Lemma dump_list_ok h L act del buff base :
  dll_ok h L act del -> L <> 0 -> length buff = 4096%nat ->
  Forall (fun e => body_typed e.2 /\ b_key e.2 <> 0) (act ++ del) ->
  (records_size (act ++ del) + 8 <= 4096)%nat ->
  i_psmgrDumpList h L buff base = Ok (shown <$> (act ++ del).*2).
Proof.
  intros Hd HL Hb Ht Hs. rewrite list.Forall_and in Ht. destruct Ht as [Ht Hk]. unfold i_psmgrDumpList.
  destruct (query_ok h L act del buff base 4096 Hd HL Ht Hb Hs ltac:(lia)) as (recs & rest & -> & Hr).
  cbn [mbind res_bind]. apply (dump_threads_ok _ _ []); [done| |].
  - by apply list.Forall_fmap.
  - rewrite length_fmap. pose proof (records_size_length (act ++ del)). lia.
Qed.

(** *** The handshake *)

Definition creator_inside (c : creator_pc) : bool :=
  match c with CCreate | CTest | CUnlock | CFail => true | _ => false end.
Definition child_inside (e : child_pc) : bool :=
  match e with ERun | EBroadcast | EUnlock => true | _ => false end.
Definition child_marked (e : child_pc) : bool :=
  match e with EBroadcast | EUnlock | EDestroy | EEntered => true | _ => false end.

(** The new thread has still to wake the creator up. *)
Definition will_broadcast (e : child_pc) : Prop := e = EAdd \/ e = ELock \/ e = ERun \/ e = EBroadcast.

(** Where the creator may be as long as there is no thread, and where it can
    be with a failed wait behind it. *)
Definition alone (c : creator_pc) : Prop := c = CLock \/ c = CCreate \/ c = CDone KSTATUS_UNSUCCESS.
Definition waiting (c : creator_pc) : Prop := c = CTest \/ c = CWait \/ c = CWoken.

(** [r]: the flag at first.  The mutex is held by the one inside; the flag is
    set by the new thread; a failed wait leaves the creator in its loop with
    the flag cleared; the context is freed by the new thread, or when there is
    none; a sleeping creator will be woken. *)
Record hs_inv (r : bool) (s : hs_state) : Prop := {
  hi_mutex : hs_mutex s =
    (if creator_inside (hs_creator s) then Some Creator else if child_inside (hs_child s) then Some Child else None);
  hi_excl : creator_inside (hs_creator s) && child_inside (hs_child s) = false;
  hi_flag : hs_running s = r || child_marked (hs_child s);
  hi_success : r = false -> hs_creator s = CUnlock \/ hs_creator s = CDone KSTATUS_SUCCESS ->
    hs_child s = EDestroy \/ hs_child s = EEntered;
  hi_ret : hs_ret s = true -> hs_child s <> ENone -> waiting (hs_creator s) /\ (hs_creator s = CTest -> hs_running s = false);
  hi_no_fail : hs_creator s <> CFail;
  hi_freed : hs_freed s = true -> hs_child s = EEntered \/ hs_creator s = CDone KSTATUS_UNSUCCESS /\ hs_child s = ENone;
  hi_none : hs_child s = ENone <-> alone (hs_creator s);
  hi_failed : hs_creator s = CDone KSTATUS_UNSUCCESS -> hs_freed s = true;
  hi_wait : hs_creator s = CWait -> will_broadcast (hs_child s)
}.

Lemma hs_inv_init r : hs_inv r (hs_init r).
Proof. split; cbn; unfold alone; rewrite ?orb_false_r; naive_solver. Qed.

Lemma hs_inv_step r s s' : hs_inv r s -> hs_step s s' -> hs_inv r s'.
Proof.
  intros [H1 H2 H3 H4 H5 H6 H7 H8 H9 H10] Hst.
  destruct Hst; cbn [hs_mutex hs_running hs_freed hs_ret hs_creator hs_child hs_fault] in *;
    unfold alone, waiting, will_broadcast in *;
    repeat match goal with
    | c : creator_pc |- _ => destruct c
    | e : child_pc |- _ => destruct e
    end; cbn in *; try discriminate; try congruence;
    split; cbn; unfold alone, waiting, will_broadcast; rewrite ?orb_true_r, ?orb_false_r in *;
    try done; intuition (try congruence);
    match goal with H : CDone _ = CDone _ |- _ => by injection H end.
Qed.

Lemma hs_inv_reach r s : rtc hs_step (hs_init r) s -> hs_inv r s.
Proof.
  intros Hr. assert (hs_inv r (hs_init r)) as Hi by apply hs_inv_init.
  induction Hr as [|s1 s2 s3 Hs _ IH]; [done|]. apply IH. by eapply hs_inv_step.
Qed.



Lemma empty_ok h L act del : dll_ok h L act del -> doublylinkedlistIsEmpty h L = Ok (bool_decide (act = [])).
Proof.
  intros Hd. unfold doublylinkedlistIsEmpty, i_doublylinkedlistEntryHeaderIsEmpty.
  destruct (ring_first _ _ _ _ (do_act _ _ _ _ _ _ _ Hd)) as [Hn _]. destruct (load_nxt _ _ _ Hn) as (n & -> & En).
  cbn [mbind res_bind]. rewrite En. destruct act as [|[p b] act]; cbn [first_of fmap list_fmap hd fst].
  - by rewrite Z.eqb_refl.
  - destruct (next_entry h _ _ _ _ [] p b act del Hd) as (_ & _ & Hne & _). by rewrite (proj2 (Z.eqb_neq p _)) by done.
Qed.

(** Creating a thread can use the context after the new thread freed it:
    in some schedule the new thread frees the context before the creator,
    already woken, takes the mutex in it again. *)
Theorem psmgr_create_uses_freed :
  exists s, rtc hs_step (hs_init false) s /\ hs_fault s = true /\ hs_creator s = CTest /\ hs_child s = EEntered.
Proof.
  eexists. split.
  { unfold hs_init. eapply rtc_l; [by apply h_lock|]. eapply rtc_l; [apply h_create|].
    eapply rtc_l; [apply h_test_wait|]. eapply rtc_l; [apply h_add|]. eapply rtc_l; [apply h_elock|].
    eapply rtc_l; [apply h_run|]. eapply rtc_l; [apply h_broadcast|]. eapply rtc_l; [apply h_eunlock|].
    eapply rtc_l; [apply h_destroy|]. eapply rtc_l; [apply h_relock|]. apply rtc_refl. }
  done.
Qed.

End Psmgr.
