(* ===== verification/PacketAnalyze.v ===== *)
(** * Analysing packets

    Models [src/packet_analyze.c]: the command that decodes a captured frame,
    translates its addresses to ids through two caches over the database, and
    stores the packet.  The caches are binary search trees whose expire
    handlers work on the database.  The conversions of addresses to and from
    text, the name service and the clock are parameters.  A variable that a
    query left unset is [None].  Log output is left out. *)

From Stdlib Require Import Ascii String.
From stdpp Require Import gmap.
From S2P Require Import Prelude CString Timer DList Queue Svc Stats Database Bst Mapper CmdManager.

Module PacketAnalyze.
Import CStr Svc Stats Database CmdManager.

(** ** Statements *)

Definition cgStmtPackets : list Z :=
  lit "insert into packets(ts_sec, ts_usec,eth_src_id,eth_dst_id,eth_type,ip_vhl,ip_tos,ip_len,ip_id,ip_off,ip_ttl,ip_p,ip_sum,ip_src_id,ip_dst_id,payload)values (?,?,?,?,?,?,?,?,?,?,?,?,?,?,?,?);".
Definition cgStmtEthPopulate : list Z := lit "select eth_id, eth_addr from eth where activeflag = 1;".
Definition cgStmtEthUpdateActiveFlag : list Z := lit "update eth set activeflag = 0 where eth_addr = ? and activeflag = 1;".
Definition cgStmtEthCreate : list Z := lit "insert into eth(eth_id, ts_sec, ts_usec, eth_addr, activeflag)values (?, ?, ?, ?, ?);".
Definition cgStmtEthFetchPK : list Z := lit "select eth_id from eth where eth_addr = ? and activeflag = 1;".
Definition cgStmtIPPopulate : list Z := lit "select ip_id, ip_addr, hostname from ip where activeflag = 1;".
Definition cgStmtIPUpdateActiveFlag : list Z := lit "update ip set activeflag = 0 where ip_addr = ? and activeflag = 1;".
Definition cgStmtIPCreate : list Z :=
  lit "insert into ip(ip_id, ts_sec, ts_usec, ip_addr, hostname, activeflag)values (?, ?, ?, ?, ?, ?);".
Definition cgStmtIPFetchPK : list Z := lit "select ip_id from ip where ip_addr = ? and activeflag = 1;".
Definition cgStmtIPExpireCheck : list Z := lit "select ip_id from ip where ip_addr = ? and hostname = ? and activeflag = 1;".

Definition gc_IPCacheExpireTimeEntry : Z := 3600.
Definition gc_EthCacheExpireTimeEntry : Z := 300.

(** [sizeof(int)] *)
Definition sizeof_int : nat := 4.

(** An [int] variable in memory and back. *)
Definition int_bytes (v : option Z) : Bst.bytes :=
  match v with Some z => Some <$> le_bytes sizeof_int z | None => replicate sizeof_int None end.
Definition read_int (b : Bst.bytes) : option Z :=
  bs ← mapM id (take sizeof_int b); Some (s32 (le_val bs)).

(** ** Keys *)

Definition octet (ea : list Z) (i : nat) : Z := Z.land (default 0 (ea !! i)) 255.

Definition i_cmdPacketAnalyzeCacheEthStrToKey (ea : list Z) : Z :=
  Z.lor (Z.lor (Z.lor (Z.lor (Z.lor
    (Z.shiftl (octet ea 0) 40) (Z.shiftl (octet ea 1) 32)) (Z.shiftl (octet ea 2) 24))
    (Z.shiftl (octet ea 3) 16)) (Z.shiftl (octet ea 4) 8)) (octet ea 5).

Section analyze.
Context {S T : Type} `{SQ : Sqlite S} `{SM : StringMap T}.
Abbreviation world := (@world S T).

Context (column_int : S -> Z -> nat -> Z) (column_text : S -> Z -> nat -> option (list Z)).
Context (ether_aton : list Z -> option (list Z)) (ether_ntoa : list Z -> list Z).
Context (inet_aton : list Z -> option Z) (inet_ntoa : Z -> list Z).
Context (gethostbyaddr : Z -> option (list Z)).

(** What the real time clock shows when it is read in a state: [real_time 0]
    for the first reading in that state and [real_time 1] for the second. *)
Context (real_time : nat -> S -> Timer.timespec).

(** [pcap_db]: [getNiuchaczPcapDB()]; [fuel]: a bound on the rows of a query;
    [mem]: whether [malloc] succeeds. *)
Context (pcap_db : Z) (fuel : nat) (mem : bool).

Abbreviation cache := (Bst.bst_t world).

(** Adding seconds to a time stamp. *)
Definition later (ts : Timer.timespec) (secs : Z) : res Timer.timespec :=
  s ← Timer.s64 (Timer.tv_sec ts + secs); Ok (Timer.MkTs s (Timer.tv_nsec ts)).

(** The callback that reads a primary key. *)
Definition i_getPK (param : option Z) (w : world) (stmt : Z) : res (Z * option Z * world) :=
  Ok (0, Some (column_int (w_sqlite w) stmt 0), w).

(** ** Loading an id in a transaction *)

(** The statements between [dbTxnBegin] and [__cleanup]: each is a text, the
    number of variables and their values; the last one fetches the id. *)
Definition stmt_t : Type := list Z * nat * list bind_arg.

Definition load_id (w : world) (update create fetch : stmt_t) (id : option Z) : res (Z * option Z * world) :=
  let '(u, nu, au) := update in let '(c, nc, ac) := create in let '(f, nf, af) := fetch in
  '(_status, w) ← dbExec fuel w pcap_db u nu au;
  if negb (KSUCCESS _status) then Ok (_status, id, w)
  else
    '(_status, w) ← dbExec fuel w pcap_db c nc ac;
    if negb (KSUCCESS _status) then Ok (_status, id, w)
    else dbExecQuery i_getPK fuel w pcap_db f nf id af.

(** The part behind [__cleanup]: commit and remember the id, or roll back. *)
Definition finish_id (w : world) (_status : Z) (bst : cache) (key : Z) (id : option Z) (ts : Timer.timespec) (secs : Z)
    : res (option Z * cache * world) :=
  '(_status, w) ← (if KSUCCESS _status then dbTxnCommit w pcap_db else Ok (_status, w));
  if KSUCCESS _status then
    ts ← later ts secs;
    '(_, bst) ← Bst.bst_insert mem bst key (int_bytes id) sizeof_int (Some ts);
    Ok (id, bst, w)
  else
    '(_, w) ← dbTxnRollback w pcap_db;
    Ok (Some 0, bst, w).

(** Looking an id up in a cache, or loading it. *)
Definition cache_get (w : world) (bst : cache) (key secs : Z) (update : stmt_t) (create : Timer.timespec -> stmt_t)
    (fetch : stmt_t) : res (option Z * cache * world) :=
  '(r, buf, bst, w) ← Bst.bst_search bst w (real_time 0 (w_sqlite w)) key (replicate sizeof_int None) sizeof_int;
  let id := read_int buf in
  if s32 r =? Z.of_nat sizeof_int then Ok (id, bst, w)
  else
    let ts := real_time 1 (w_sqlite w) in
    '(_status, w) ← dbTxnBegin w pcap_db;
    if negb (KSUCCESS _status) then Ok (Some 0, bst, w)
    else
      '(_status, id, w) ← load_id w update (create ts) fetch id;
      finish_id w _status bst key id ts secs.

(** ** Ethernet addresses *)

Definition i_cmdPacketAnalyzeCacheEthExpireCheck : Bst.handler world :=
  fun w key ptr nBytes => Ok (gc_EthCacheExpireTimeEntry, ptr, w).

Definition i_cmdPacketAnalyzeCacheEthPopulate (bst : cache) (w : world) (stmt : Z) : res (Z * cache * world) :=
  text ← deref (column_text (w_sqlite w) stmt 1);
  match ether_aton text with
  | None => Ok (0, bst, w)
  | Some ea =>
      let ethID := column_int (w_sqlite w) stmt 0 in
      ts ← later (real_time 0 (w_sqlite w)) gc_EthCacheExpireTimeEntry;
      '(_, bst) ← Bst.bst_insert mem bst (i_cmdPacketAnalyzeCacheEthStrToKey ea) (int_bytes (Some ethID)) sizeof_int (Some ts);
      Ok (0, bst, w)
  end.

Definition i_cmdPacketAnalyzeCacheEthGet (w : world) (bst : cache) (ea : list Z) : res (option Z * cache * world) :=
  cache_get w bst (i_cmdPacketAnalyzeCacheEthStrToKey ea) gc_EthCacheExpireTimeEntry
    (cgStmtEthUpdateActiveFlag, 1%nat, [BindText (ether_ntoa ea)])
    (fun ts => (cgStmtEthCreate, 5%nat,
       [BindNull; BindInt64 (Timer.tv_sec ts); BindInt64 (Timer.tv_nsec ts); BindText (ether_ntoa ea); BindInt 1]))
    (cgStmtEthFetchPK, 1%nat, [BindText (ether_ntoa ea)]).

(** ** IP addresses *)

Definition host_name (ip : Z) : list Z := default (lit "Host Not Found") (gethostbyaddr ip).

(** The handler: it looks for an active row with the current host name. *)
Definition i_cmdPacketAnalyzeCacheIPExpireCheck : Bst.handler world :=
  fun w key ptr nBytes =>
    let ip := u32 key in
    '(_, ipID, w) ← dbExecQuery i_getPK fuel w pcap_db cgStmtIPExpireCheck 2 (Some 0)
        [BindText (inet_ntoa ip); BindText (host_name ip)];
    Ok (if default 0 ipID =? 0 then 0 else gc_IPCacheExpireTimeEntry, ptr, w).

Definition i_cmdPacketAnalyzeCacheIPPopulate (bst : cache) (w : world) (stmt : Z) : res (Z * cache * world) :=
  text ← deref (column_text (w_sqlite w) stmt 1);
  match inet_aton text with
  | None => Ok (0, bst, w)
  | Some ip =>
      let ipID := column_int (w_sqlite w) stmt 0 in
      ts ← later (real_time 0 (w_sqlite w)) gc_IPCacheExpireTimeEntry;
      '(_, bst) ← Bst.bst_insert mem bst ip (int_bytes (Some ipID)) sizeof_int (Some ts);
      Ok (0, bst, w)
  end.

Definition i_cmdPacketAnalyzeCacheIPGet (w : world) (bst : cache) (ip : Z) : res (option Z * cache * world) :=
  cache_get w bst ip gc_IPCacheExpireTimeEntry
    (cgStmtIPUpdateActiveFlag, 1%nat, [BindText (inet_ntoa ip)])
    (fun ts => (cgStmtIPCreate, 6%nat,
       [BindNull; BindInt64 (Timer.tv_sec ts); BindInt64 (Timer.tv_nsec ts); BindText (inet_ntoa ip);
        BindText (host_name ip); BindInt 1]))
    (cgStmtIPFetchPK, 1%nat, [BindText (inet_ntoa ip)]).

(** ** The command *)

(** [g_IPCache] and [g_EthCache]. *)
Record caches : Type := MkCaches { g_IPCache : option cache; g_EthCache : option cache }.

Definition cmdPacketAnalyzeExec (w : world) (cs : caches) (ts : timeval) (pdata : list Z) : res (Z * caches * world) :=
  '(ok, results) ← Mapper.mapFrame pdata (Z.of_nat (length pdata));
  if negb ok then Ok (-1, cs, w)
  else
    eth ← deref (g_EthCache cs);
    '(ethSrcID, eth, w) ← i_cmdPacketAnalyzeCacheEthGet w eth (Mapper.eth_shost (Mapper.m_ethernet results));
    '(ethDstID, eth, w) ← i_cmdPacketAnalyzeCacheEthGet w eth (Mapper.eth_dhost (Mapper.m_ethernet results));
    ip ← deref (g_IPCache cs);
    '(ipSrcID, ip, w) ← i_cmdPacketAnalyzeCacheIPGet w ip (Mapper.ip_src (Mapper.m_ip results));
    '(ipDstID, ip, w) ← i_cmdPacketAnalyzeCacheIPGet w ip (Mapper.ip_dst (Mapper.m_ip results));
    let cs := MkCaches (Some ip) (Some eth) in
    ethSrcID ← init ethSrcID; ethDstID ← init ethDstID; ipSrcID ← init ipSrcID; ipDstID ← init ipDstID;
    if (ethSrcID =? 0) || (ethDstID =? 0) || (ipSrcID =? 0) || (ipDstID =? 0) then Ok (-2, cs, w)
    else
      let i := Mapper.m_ip results in
      '(_status, w) ← dbExec fuel w pcap_db cgStmtPackets 16
         [BindInt64 (tv_sec ts); BindInt64 (tv_usec ts); BindInt ethSrcID; BindInt ethDstID;
          BindInt (Mapper.eth_type (Mapper.m_ethernet results)); BindInt (Mapper.ip_ihl i); BindInt (Mapper.ip_tos i);
          BindInt (Mapper.ip_len i); BindInt (Mapper.ip_id i); BindInt (Mapper.ip_off i); BindInt (Mapper.ip_ttl i);
          BindInt (Mapper.ip_protocol i); BindInt (Mapper.ip_sum i); BindInt ipSrcID; BindInt ipDstID;
          BindText (Mapper.m_payload results)];
      Ok (if KSUCCESS _status then 0 else -1, cs, w).

(** [mem_ip], [mem_eth]: whether the two allocations succeed. *)
Definition cmdPacketAnalyzeCreate (w : world) (cs : caches) (mem_ip mem_eth : bool) : res (Z * caches * world) :=
  match Bst.bst_create mem_ip (Some i_cmdPacketAnalyzeCacheIPExpireCheck) with
  | None => Ok (-1, MkCaches None (g_EthCache cs), w)
  | Some ip =>
      match Bst.bst_create mem_eth (Some i_cmdPacketAnalyzeCacheEthExpireCheck) with
      | None => Ok (-1, MkCaches (Some ip) None, w)
      | Some eth =>
          '(_status, ip, w) ← dbExecQuery i_cmdPacketAnalyzeCacheIPPopulate fuel w pcap_db cgStmtIPPopulate 0 ip [];
          if negb (KSUCCESS _status) then Ok (-1, MkCaches (Some ip) (Some eth), w)
          else
            '(_status, eth, w) ← dbExecQuery i_cmdPacketAnalyzeCacheEthPopulate fuel w pcap_db cgStmtEthPopulate 0 eth [];
            Ok (if KSUCCESS _status then 0 else -1, MkCaches (Some ip) (Some eth), w)
      end
  end.

Definition cmdPacketAnalyzeDestroy (cs : caches) : Z * caches := (0, MkCaches None None).

End analyze.
End PacketAnalyze.
