(* ===== verification/PacketSpec.v ===== *)
(** * Correctness of the address caches

    For any SQLite that obeys the rules of statements and transactions: a
    lookup of an address returns, runs the statements of one transaction in
    order ([txn_log]), remembers exactly the ids whose transaction was committed
    and leaves no transaction open unless its [ROLLBACK] failed.  A cache that
    starts empty is the exception: its first entry has no time stamp. *)

From Stdlib Require Import Ascii String.
From stdpp Require Import gmap.
From S2P Require Import Prelude CString ArtTree ArtMap Timer DList Svc Stats Database DatabaseSpec Journal Bst BstSpec CmdManager PacketAnalyze.

Module PacketSpec.
Import CStr ArtMap Timer Svc Stats Database DatabaseSpec Journal Bst BstSpec PacketAnalyze.

(** What SQLite promises about the transactions of a connection: a [BEGIN] that
    fails opens none, and none is open behind a [COMMIT] or a [ROLLBACK] that
    succeeds.  Nothing is said about a [ROLLBACK] that fails. *)
Class TxnLaws (S : Type) `{Sqlite S} := {
  in_txn : S -> Z -> bool;
  begin_law s c rc s' :
    sqlite_exec s c stmtBegin = (rc, s') -> rc <> SQLITE_OK -> in_txn s c = false -> in_txn s' c = false;
  commit_law s c s' : sqlite_exec s c stmtCommit = (SQLITE_OK, s') -> in_txn s' c = false;
  rollback_law s c s' : sqlite_exec s c stmtRollback = (SQLITE_OK, s') -> in_txn s' c = false
}.

#[export] Program Instance logged_txn {S} `{TL : TxnLaws S} : TxnLaws (logged S) := { in_txn s c := in_txn (lg_state s) c }.
Next Obligation. intros S SQ TL s c rc s' E Hrc Ht. unlog E. by eapply begin_law. Qed.
Next Obligation. intros S SQ TL s c s' E. unlog E. by eapply commit_law. Qed.
Next Obligation. intros S SQ TL s c s' E. unlog E. by eapply rollback_law. Qed.

(** ** Transactions in the journal *)

(** What one lookup asks of SQLite on the connection [c], [qs] being its three
    statements: nothing behind a [BEGIN] that fails; all statements and a
    successful [COMMIT]; or the statements up to the first that fails, or all
    and a failed [COMMIT], and a [ROLLBACK].  The flag says which it was. *)
Inductive txn_log (c : Z) (qs : list (list Z)) : bool -> list call -> Prop :=
| log_refused rc : rc <> SQLITE_OK -> txn_log c qs false [CExec c stmtBegin rc]
| log_committed :
    txn_log c qs true (CExec c stmtBegin SQLITE_OK :: ((fun q => CPrepare c q SQLITE_OK) <$> qs) ++ [CExec c stmtCommit SQLITE_OK])
| log_rolled_back rcs commits rc :
    (length rcs <= length qs)%nat ->
    commits = [] \/ length rcs = length qs /\ (exists rc', rc' <> SQLITE_OK /\ commits = [CExec c stmtCommit rc']) ->
    txn_log c qs false (CExec c stmtBegin SQLITE_OK :: zip_with (CPrepare c) qs rcs ++ commits ++ [CExec c stmtRollback rc]).

(** A [ROLLBACK] on the connection failed. *)
Definition rollback_failed (c : Z) (j : list call) : Prop := exists rc, rc <> SQLITE_OK /\ CExec c stmtRollback rc ∈ j.

Lemma rollback_failed_app c j j' : rollback_failed c j -> rollback_failed c (j ++ j').
Proof. intros (rc & Hrc & Hin). exists rc. split; [done|]. apply elem_of_app. by left. Qed.

(** A statement that reads or changes rows, by its first word. *)
Definition data_stmt (q : list Z) : Prop :=
  take 6 q ∈ [CStr.str "select"; CStr.str "insert"; CStr.str "update"].

#[export] Instance data_stmt_dec q : Decision (data_stmt q).
Proof. unfold data_stmt. apply _. Defined.

(** The statements of the caches. *)
Ltac stmt_closed := intros; split; [decide_closed|cbn; lia].

(** ** More iterations never change a result *)

Section mono.
Context {S T : Type} `{SQ : Sqlite S} `{SM : StringMap T}.
Context {P : Type} (callback : P -> @world S T -> Z -> res (Z * P * @world S T)).

Lemma step_loop_mono fuel fuel' (w : @world S T) st param rc et ct r :
  (fuel <= fuel')%nat -> step_loop callback fuel w st param rc et ct = Ok r ->
  step_loop callback fuel' w st param rc et ct = Ok r.
Proof.
  revert fuel' w param rc et ct. induction fuel as [|fuel IH]; intros [|fuel'] w param rc et ct Hf; cbn [step_loop]; try done; [lia|].
  destruct (sqlite_step (w_sqlite w) st) as [k sq]. destruct ((k =? SQLITE_DONE) || (k =? SQLITE_ROW)); [|done].
  destruct (k =? SQLITE_DONE); [done|]. destruct (callback param _ st) as [[[c q] w1]|]; [|done]. cbn [mbind res_bind].
  destruct (negb (c =? 0)); [done|]. apply IH. lia.
Qed.

Lemma exec_mono fuel fuel' (w : @world S T) p stmt n param args r :
  (fuel <= fuel')%nat -> i_dbExec callback fuel w p stmt n param args = Ok r ->
  i_dbExec callback fuel' w p stmt n param args = Ok r.
Proof.
  intros Hf. unfold i_dbExec. destruct (i_dbCheckState w p _) as [ok|]; [|done]. cbn [mbind res_bind].
  destruct (negb ok); [done|]. destruct (db_of w p) as [db|]; [|done]. cbn [mbind res_bind].
  destruct (sqlite_prepare (w_sqlite w) (db_db db) stmt) as [[rc st] sq].
  destruct (negb (rc =? SQLITE_OK)); [done|].
  destruct (i_dbExecBindVariables n 1 _ st args) as [[b sq1]|]; [|done]. cbn [mbind res_bind]. destruct (negb b); [done|].
  destruct (step_loop callback fuel _ st param 0 0 0) as [lr|] eqn:E; [|done].
  by rewrite (step_loop_mono _ _ _ _ _ _ _ _ _ Hf E).
Qed.
End mono.

(** ** Databases that can be used *)

Section analyze.
Context {S T : Type} `{SQ : Sqlite S} `{SL : !SqliteLaws S} `{TL : !TxnLaws S} `{JL : !Journal S} `{SM : StringMap T}.
Abbreviation world := (@world S T).
Abbreviation log_of w := (journal (w_sqlite w)).

Definition usable (w : world) (p : Z) : Prop :=
  0 < p /\ (exists db, w_dbs w !! p = Some db /\ db_state db = DB_FLAGS_STATE_OPEN) /\ exists f, counters_ok w p f.

(** The connection of a database, and whether it has an open transaction. *)
Definition conn_of (w : world) (p : Z) : Z := from_option db_db 0 (w_dbs w !! p).
Definition txn_open (w : world) (p : Z) : bool := in_txn (w_sqlite w) (conn_of w p).

Lemma conn_same w w' p : w_dbs w' = w_dbs w -> conn_of w' p = conn_of w p.
Proof. unfold conn_of. by intros ->. Qed.

Lemma usable_set w p sq : usable w p -> usable (set_sqlite w sq) p.
Proof. done. Qed.

Lemma usable_check w p : usable w p -> i_dbCheckState w p DB_FLAGS_STATE_OPEN = Ok true.
Proof.
  intros (Hp & (db & E & Hs) & _). unfold i_dbCheckState, db_of. rewrite (proj2 (Z.eqb_neq p 0)), E by lia.
  cbn [mbind res_bind]. by rewrite Hs, Z.eqb_refl.
Qed.

Lemma usable_db w p : usable w p -> exists db, db_of w p = Ok db /\ db_db db = conn_of w p.
Proof.
  intros (Hp & (db & E & _) & _). exists db. unfold db_of, conn_of. by rewrite (proj2 (Z.eqb_neq p 0)), E by lia.
Qed.

Lemma usable_bump w p s v : usable w p -> exists w', bump w p s v = Ok w' /\ usable w' p /\ w_sqlite w' = w_sqlite w /\ w_dbs w' = w_dbs w.
Proof.
  intros (Hp & Hdb & f & Hc). destruct (bump_ok w p f s v Hp Hc) as (w' & E & Hc' & Hs & Hd & _).
  exists w'. split; [done|]. rewrite Hs, Hd. split; [|done]. split; [done|]. rewrite Hd. by eauto.
Qed.

(** A statement whose callback only reads the row; [I]: an invariant of SQLite
    that the statements of this file keep. *)
Lemma usable_exec {P} (callback : P -> world -> Z -> res (Z * P * world)) (PI : P -> Prop) (I : S -> Prop) w p stmt n param args :
  keeps data_stmt I -> data_stmt stmt -> I (w_sqlite w) ->
  (forall param w st, PI param -> exists rc param', callback param w st = Ok (rc, param', w) /\ PI param') -> PI param ->
  usable w p -> (n <= length args)%nat ->
  exists fuel0 k param' w', usable w' p /\ w_dbs w' = w_dbs w /\ I (w_sqlite w') /\ PI param' /\
    forall fuel, (fuel0 <= fuel)%nat -> i_dbExec callback fuel w p stmt n param args = Ok (k, param', w').
Proof.
  intros HI HQ HIs Hcb HPI (Hp & (db & Hdb & Hst) & f & Hc) Hn.
  destruct (exec_ok callback PI Hcb w p db f stmt n param args Hp Hdb Hst Hc HPI Hn) as [fuel0 H].
  destruct (H fuel0 ltac:(lia)) as (k & param' & w' & f' & E & Hc' & _ & _ & HPI').
  destruct (exec_preserves callback PI Hcb HI _ _ _ _ _ _ _ _ _ _ HQ HPI HIs E) as [HI' Hd].
  exists fuel0, k, param', w'. split; [|split; [done|split; [done|split; [done|]]]].
  - split; [done|]. rewrite Hd. eauto.
  - intros fuel Hf. by eapply exec_mono.
Qed.

Lemma usable_open_on w p : usable w p -> open_on w p (conn_of w p).
Proof. intros (Hp & (db & E & Hs) & _). split; [lia|]. exists db. unfold conn_of. by rewrite E. Qed.

Lemma usable_begin w p :
  usable w p -> exists rc w', dbTxnBegin w p = Ok (if rc =? SQLITE_OK then KSTATUS_SUCCESS else KSTATUS_UNSUCCESS, w') /\
    usable w' p /\ w_dbs w' = w_dbs w /\ sqlite_exec (w_sqlite w) (conn_of w p) stmtBegin = (rc, w_sqlite w').
Proof.
  intros Hu. unfold dbTxnBegin. rewrite (usable_check w p Hu). cbn [mbind res_bind negb].
  destruct (usable_db w p Hu) as (db & -> & Ec). cbn [mbind res_bind]. rewrite Ec.
  destruct (sqlite_exec (w_sqlite w) (conn_of w p) stmtBegin) as [rc sq] eqn:E. eexists rc, _. split; [done|].
  split; [by apply usable_set|]. done.
Qed.

(** Both ends of a transaction. *)
Lemma usable_end stmt a b c w p :
  usable w p -> exists rc w', txn_end stmt a b c w p = Ok (if rc =? SQLITE_OK then KSTATUS_SUCCESS else KSTATUS_UNSUCCESS, w') /\
    usable w' p /\ w_dbs w' = w_dbs w /\ sqlite_exec (w_sqlite w) (conn_of w p) stmt = (rc, w_sqlite w').
Proof.
  intros Hu. unfold txn_end. rewrite (usable_check w p Hu). cbn [mbind res_bind negb].
  destruct (usable_db w p Hu) as (db & -> & Ec). cbn [mbind res_bind]. rewrite Ec.
  destruct (sqlite_exec (w_sqlite w) (conn_of w p) stmt) as [rc sq] eqn:E. apply (usable_set w p sq) in Hu.
  exists rc. destruct (Z.eqb_spec rc SQLITE_OK) as [->|Hrc].
  - destruct (usable_bump _ p a 1 Hu) as (w1 & -> & H1 & E1 & D1). cbn [mbind res_bind].
    destruct (usable_bump _ p b (watch sq) H1) as (w2 & -> & H2 & E2 & D2). cbn [mbind res_bind].
    exists w2. split; [done|]. split; [done|]. by rewrite D2, D1, E2, E1.
  - destruct (usable_bump _ p c 1 Hu) as (w1 & -> & H1 & E1 & D1). cbn [mbind res_bind].
    exists w1. split; [done|]. split; [done|]. by rewrite D1, E1.
Qed.

Lemma commit_closed w w' p :
  w_dbs w' = w_dbs w -> sqlite_exec (w_sqlite w) (conn_of w p) stmtCommit = (SQLITE_OK, w_sqlite w') -> txn_open w' p = false.
Proof. intros D E. unfold txn_open. rewrite (conn_same _ _ p D). by eapply commit_law. Qed.

Lemma rollback_closed w w' p :
  w_dbs w' = w_dbs w -> sqlite_exec (w_sqlite w) (conn_of w p) stmtRollback = (SQLITE_OK, w_sqlite w') -> txn_open w' p = false.
Proof. intros D E. unfold txn_open. rewrite (conn_same _ _ p D). by eapply rollback_law. Qed.

(** ** Loading an id *)

Context (column_int : S -> Z -> nat -> Z) (real_time : nat -> S -> timespec) (p : Z).

(** The statement reads or changes data and has a value for each of its
    variables. *)
Definition stmt_ok (s : stmt_t) : Prop := let '(q, n, args) := s in data_stmt q /\ (n <= length args)%nat.

Lemma usable_load (I : S -> Prop) w (u c f : stmt_t) id :
  keeps data_stmt I -> I (w_sqlite w) -> usable w p -> stmt_ok u -> stmt_ok c -> stmt_ok f ->
  exists fuel0 k id' w', usable w' p /\ w_dbs w' = w_dbs w /\ I (w_sqlite w') /\
    forall fuel, (fuel0 <= fuel)%nat -> load_id column_int p fuel w u c f id = Ok (k, id', w').
Proof.
  intros HI HIs Hu Ho1 Ho2 Ho3. destruct u as [[u nu] au], c as [[c nc] ac], f as [[f nf] af].
  destruct Ho1 as [Hd1 Ho1], Ho2 as [Hd2 Ho2], Ho3 as [Hd3 Ho3].
  assert (Hempty : forall q (w : world) st, True -> exists rc q', i_dbExecEmptyCallback q w st = Ok (rc, q', w) /\ True) by (intros; by eexists _, _).
  assert (Hpk : forall q (w : world) st, True -> exists rc q', i_getPK column_int q w st = Ok (rc, q', w) /\ True) by (intros; by eexists _, _).
  destruct (usable_exec _ (fun _ => True) I w p u nu tt au HI Hd1 HIs Hempty Logic.I Hu Ho1) as (n1 & k1 & [] & w1 & U1 & D1 & I1 & _ & E1).
  destruct (usable_exec _ (fun _ => True) I w1 p c nc tt ac HI Hd2 I1 Hempty Logic.I U1 Ho2) as (n2 & k2 & [] & w2 & U2 & D2 & I2 & _ & E2).
  destruct (usable_exec _ (fun _ => True) I w2 p f nf id af HI Hd3 I2 Hpk Logic.I U2 Ho3) as (n3 & k3 & id3 & w3 & U3 & D3 & I3 & _ & E3).
  destruct (KSUCCESS k1) eqn:K1; [destruct (KSUCCESS k2) eqn:K2|].
  - exists (n1 + n2 + n3)%nat, k3, id3, w3. split; [done|]. split; [congruence|]. split; [done|]. intros fuel Hf. unfold load_id, dbExec, dbExecQuery.
    rewrite E1 by lia. cbn [mbind res_bind]. rewrite K1. cbn [negb].
    rewrite E2 by lia. cbn [mbind res_bind]. rewrite K2. cbn [negb]. apply E3. lia.
  - exists (n1 + n2)%nat, k2, id, w2. split; [done|]. split; [congruence|]. split; [done|]. intros fuel Hf. unfold load_id, dbExec.
    rewrite E1 by lia. cbn [mbind res_bind]. rewrite K1. cbn [negb].
    rewrite E2 by lia. cbn [mbind res_bind]. by rewrite K2.
  - exists n1, k1, id, w1. split; [done|]. split; [done|]. split; [done|]. intros fuel Hf. unfold load_id, dbExec.
    rewrite E1 by lia. cbn [mbind res_bind]. by rewrite K1.
Qed.

Lemma empty_reads (q : unit) (w : world) st : exists rc q', i_dbExecEmptyCallback q w st = Ok (rc, q', w).
Proof. by eexists _, _. Qed.
Lemma pk_reads (q : option Z) (w : world) st : exists rc q', i_getPK column_int q w st = Ok (rc, q', w).
Proof. by eexists _, _. Qed.

(** The journal of a load: the statements up to the first that fails. *)
Lemma load_journal fuel (w : world) c (u cr f : stmt_t) id k id' (w' : world) :
  open_on w p c -> load_id column_int p fuel w u cr f id = Ok (k, id', w') ->
  exists rcs, log_of w' = log_of w ++ zip_with (CPrepare c) [u.1.1; cr.1.1; f.1.1] rcs /\ (length rcs <= 3)%nat /\
    (KSUCCESS k = true -> rcs = replicate 3 SQLITE_OK).
Proof.
  intros Ho. destruct u as [[u nu] au], cr as [[cr nc] ac], f as [[f nf] af]. unfold load_id, dbExec, dbExecQuery.
  destruct (i_dbExec _ fuel w p u nu tt au) as [[[k1 q1] w1]|] eqn:E1; [|done]. cbn [mbind res_bind].
  apply (exec_journal i_dbExecEmptyCallback empty_reads _ _ _ c) in E1 as (D1 & rc1 & L1 & K1); [|done].
  destruct (KSUCCESS k1) eqn:Ek1; cbn [negb].
  2: { intros [= <- _ <-]. exists [rc1]. split; [done|]. split; [cbn; lia|]. congruence. }
  apply (open_on_same w w1 p c D1) in Ho.
  destruct (i_dbExec _ fuel w1 p cr nc tt ac) as [[[k2 q2] w2]|] eqn:E2; [|done]. cbn [mbind res_bind].
  apply (exec_journal i_dbExecEmptyCallback empty_reads _ _ _ c) in E2 as (D2 & rc2 & L2 & K2); [|done].
  destruct (KSUCCESS k2) eqn:Ek2; cbn [negb].
  2: { intros [= <- _ <-]. exists [rc1; rc2]. split; [by rewrite L2, L1, <- app_assoc|]. split; [cbn; lia|]. congruence. }
  apply (open_on_same w1 w2 p c D2) in Ho. intros E3.
  apply (exec_journal (i_getPK column_int) pk_reads _ _ _ c) in E3 as (D3 & rc3 & L3 & K3); [|done].
  exists [rc1; rc2; rc3]. split; [by rewrite L3, L2, L1, <- !app_assoc|]. split; [done|].
  intros Hk. by rewrite (K1 eq_refl), (K2 eq_refl), (K3 Hk).
Qed.

Lemma length_int_bytes id : length (int_bytes id) = sizeof_int.
Proof. destruct id; cbn [int_bytes]; [by rewrite length_fmap, length_le_bytes|done]. Qed.

(** What a load leaves: nothing was remembered and the result is 0, or the id
    was committed and is in the cache. *)
Definition loaded (cached : bool) (t : bst_node) (h : handler world) (key : Z) (ts : timespec) (secs : Z)
    (r : option Z * bst_t world) : Prop :=
  if cached then
    exists t', r.2 = MkBst t' h /\ tree_ok 0 (2 ^ 64) t' /\
      to_map t' = <[key := MkEntry (if non_empty t then Some (MkTs (tv_sec ts + secs) (tv_nsec ts)) else None) sizeof_int (int_bytes r.1)]> (to_map t)
  else r = (Some 0, MkBst t h).

(** No transaction is open, or the [ROLLBACK] failed. *)
Definition closed_or_failed (w : world) (j : list call) : Prop := txn_open w p = false \/ rollback_failed (conn_of w p) j.

Lemma finish_ok w k t h key id ts secs :
  usable w p -> tree_ok 0 (2 ^ 64) t -> is_u 64 key -> to_map t !! key = None ->
  normal ts -> 0 <= secs < 2 ^ 31 ->
  let c := conn_of w p in
  exists r w' cached j, finish_id p true w k (MkBst t h) key id ts secs = Ok (r, w') /\
    usable w' p /\ w_dbs w' = w_dbs w /\ loaded cached t h key ts secs r /\ log_of w' = log_of w ++ j /\ closed_or_failed w' j /\
    if cached : bool then KSUCCESS k = true /\ j = [CExec c stmtCommit SQLITE_OK]
    else exists commits rc, j = commits ++ [CExec c stmtRollback rc] /\
           (commits = [] \/ KSUCCESS k = true /\ exists rc', rc' <> SQLITE_OK /\ commits = [CExec c stmtCommit rc']).
Proof.
  intros Hu Hok Hkey Hnone Hts Hsecs c. unfold finish_id.
  assert (exists k1 w1 commits, (if KSUCCESS k then dbTxnCommit w p else Ok (k, w)) = Ok (k1, w1) /\
     usable w1 p /\ w_dbs w1 = w_dbs w /\ log_of w1 = log_of w ++ commits /\
     if KSUCCESS k1 then txn_open w1 p = false /\ KSUCCESS k = true /\ commits = [CExec c stmtCommit SQLITE_OK]
     else commits = [] \/ KSUCCESS k = true /\ exists rc', rc' <> SQLITE_OK /\ commits = [CExec c stmtCommit rc'])
    as (k1 & w1 & commits & -> & U1 & D1 & L1 & C1).
  { destruct (KSUCCESS k) eqn:K; [|exists k, w, []; rewrite K, app_nil_r; by split_and!; auto].
    destruct (usable_end stmtCommit DbTxnCommit DbTxnCommitTime DbTxnCommitFail w p Hu) as (rc & w1 & E & U & D & Ex).
    eexists _, w1, _. split; [exact E|]. split; [done|]. split; [done|]. split; [by eapply journal_exec|].
    destruct (Z.eqb_spec rc SQLITE_OK) as [->|Hrc]; cbn [KSUCCESS].
    - split; [by eapply commit_closed|done].
    - right. split; [done|]. by exists rc. }
  cbn [mbind res_bind]. destruct (KSUCCESS k1).
  - destruct C1 as (T1 & Hk & ->). unfold later. destruct Hts as [Hs _]. change (2 ^ 33) with 8589934592 in Hs. change (2 ^ 31) with 2147483648 in Hsecs.
    rewrite s64_ok by (change (2 ^ 63) with 9223372036854775808; lia). cbn [mbind res_bind].
    destruct (bst_insert_ok t h key (int_bytes id) sizeof_int (MkTs (tv_sec ts + secs) (tv_nsec ts)) Hok Hkey)
      as (t' & -> & Hok' & Hm); [by rewrite length_int_bytes| |].
    { destruct t as [|k' l r e]; [done|]. cbn. destruct (Z.eqb_spec k' key) as [->|]; [|done].
      rewrite (proj1 (to_map_lookup _ _ _ key Hok)) in Hnone. cbn in Hnone. by rewrite Z.eqb_refl in Hnone. }
    cbn [mbind res_bind]. eexists (_, _), w1, true, _. split; [done|]. split; [done|]. split; [done|]. split; [|split; [done|split; [by left|done]]].
    exists t'. split; [done|]. split; [done|]. rewrite Hm, Hnone. unfold put_entry. do 2 f_equal.
    rewrite take_ge by (by rewrite length_int_bytes). by destruct (non_empty t).
  - destruct (usable_end stmtRollback DbTxnRollback DbTxnRollbackTime DbTxnRollbackFail w1 p U1) as (rc & w2 & E & U & D & Ex).
    unfold dbTxnRollback. rewrite E. cbn [mbind res_bind]. rewrite (conn_same _ _ p D1) in Ex. fold c in Ex.
    eexists (_, _), w2, false, (commits ++ [CExec c stmtRollback rc]). split; [done|]. split; [done|]. split; [congruence|]. split; [done|].
    split; [by rewrite (journal_exec _ _ _ _ _ Ex), L1, <- app_assoc|]. split; [|by exists commits, rc].
    destruct (decide (rc = SQLITE_OK)) as [->|Hrc].
    + left. apply (rollback_closed w1 w2 p D). by rewrite (conn_same _ _ p D1).
    + right. exists rc. split; [done|]. rewrite (conn_same _ _ p D), (conn_same _ _ p D1). apply elem_of_app. right. apply list_elem_of_here.
Qed.

(** A lookup in a cache that does not know the address. *)
Lemma cache_miss w t h key secs u c f :
  usable w p -> tree_ok 0 (2 ^ 64) t -> is_u 64 key -> to_map t !! key = None -> txn_open w p = false ->
  (forall s i, normal (real_time i s)) -> 0 <= secs < 2 ^ 31 -> stmt_ok u -> (forall ts, stmt_ok (c ts)) -> stmt_ok f ->
  let ts := real_time 1 (w_sqlite w) in
  exists fuel0 r w' cached j, usable w' p /\ w_dbs w' = w_dbs w /\ log_of w' = log_of w ++ j /\ closed_or_failed w' j /\
    txn_log (conn_of w p) [u.1.1; (c ts).1.1; f.1.1] cached j /\ loaded cached t h key ts secs r /\
    forall fuel, (fuel0 <= fuel)%nat ->
      cache_get column_int real_time p fuel true w (MkBst t h) key secs u c f = Ok (r, w').
Proof.
  intros Hu Hok Hkey Hnone Htx Hclock Hsecs Hou Hoc Hof ts.
  assert (Hs : forall buf, bst_search (MkBst t h) w (real_time 0 (w_sqlite w)) key buf sizeof_int = Ok (u64 (-1), buf, MkBst t h, w)).
  { intros buf. unfold bst_search. cbn [root]. rewrite <- (proj1 (to_map_lookup t _ _ key Hok)). by rewrite Hnone. }
  destruct (usable_begin w p Hu) as (rc & w1 & Eb & U1 & D1 & Ex). pose proof (journal_exec _ _ _ _ _ Ex) as L1.
  destruct (Z.eqb_spec rc SQLITE_OK) as [->|Hrc].
  - destruct (usable_load (fun _ => True) w1 u (c ts) f (read_int (replicate sizeof_int None)) (keeps_true _) I U1 Hou (Hoc ts) Hof)
      as (n & k2 & id & w2 & U2 & D2 & _ & El).
    destruct (load_journal n w1 (conn_of w1 p) u (c ts) f _ _ _ _ (usable_open_on w1 p U1) (El n ltac:(lia))) as (rcs & L2 & Hlen & Hall).
    destruct (finish_ok w2 k2 t h key id ts secs U2 Hok Hkey Hnone (Hclock _ _) Hsecs) as (r & w3 & cached & j & Ef & U3 & D3 & Ld & L3 & T3 & Hj).
    rewrite (conn_same _ _ p D1) in L2. rewrite (conn_same _ _ p D2), (conn_same _ _ p D1) in Hj.
    exists n, r, w3, cached. eexists. split; [done|]. split; [congruence|]. split; [by rewrite L3, L2, L1, <- !app_assoc|].
    split; [|split; [|split; [done|]]].
    + destruct T3 as [T3|(rc & Hrc & Hin)]; [by left|right]. exists rc. split; [done|]. rewrite !elem_of_app. auto.
    + cbn [app]. destruct cached.
      * destruct Hj as [Hk ->]. rewrite (Hall Hk). apply log_committed.
      * destruct Hj as (commits & rc & -> & Hc). apply log_rolled_back; [done|].
        destruct Hc as [?|[Hk Hc]]; [by left|right]. split; [by rewrite (Hall Hk)|done].
    + intros fuel Hf. unfold cache_get. rewrite Hs. cbn [mbind res_bind].
      rewrite Eb. cbn [mbind res_bind]. change (KSUCCESS KSTATUS_SUCCESS) with true. fold ts. cbn [negb]. cbv iota. rewrite El by done. exact Ef.
  - exists O, (Some 0, MkBst t h), w1, false. eexists. split; [done|]. split; [done|]. split; [done|].
    split; [left; unfold txn_open in *; rewrite (conn_same _ _ p D1); by eapply begin_law|]. split; [by apply log_refused|]. split; [done|].
    intros fuel _. unfold cache_get. rewrite Hs. cbn [mbind res_bind]. rewrite Eb. done.
Qed.

(** ** Ethernet addresses *)

Lemma is_u_lor w a b : 0 <= w -> is_u w a -> is_u w b -> is_u w (Z.lor a b).
Proof.
  intros Hw (Ha & Ha')%(is_u_testbit w) (Hb & Hb')%(is_u_testbit w); [|done..].
  apply is_u_testbit; [done|]. split; [apply Z.lor_nonneg; lia|]. intros i Hi. by rewrite Z.lor_spec, Ha', Hb'.
Qed.

Lemma octet_shift ea i n : 0 <= n <= 56 -> is_u 64 (Z.shiftl (octet ea i) n).
Proof.
  intros Hn. unfold octet. change 255 with (Z.ones 8). rewrite Z.land_ones, Z.shiftl_mul_pow2 by lia.
  pose proof (Z.mod_pos_bound (default 0 (ea !! i)) (2 ^ 8) ltac:(lia)) as H. unfold is_u.
  replace (2 ^ 64) with (2 ^ (64 - n) * 2 ^ n) by (rewrite <- Z.pow_add_r by lia; f_equal; lia).
  assert (2 ^ 8 <= 2 ^ (64 - n)) by (apply Z.pow_le_mono_r; lia). assert (0 < 2 ^ n) by (apply Z.pow_pos_nonneg; lia). nia.
Qed.

Lemma eth_key_range ea : is_u 64 (i_cmdPacketAnalyzeCacheEthStrToKey ea).
Proof.
  unfold i_cmdPacketAnalyzeCacheEthStrToKey. repeat apply is_u_lor; try lia; try (apply octet_shift; lia).
  rewrite <- (Z.shiftl_0_r (octet ea 5)). apply octet_shift. lia.
Qed.

(** An entry the cache can serve: an [int] with a time stamp of the clock. *)
Definition entry_served (e : entry) : Prop :=
  e_dataSize e = sizeof_int /\ exists d, e_dataTimeout e = Some d /\ normal d.

(** The entry behind a lookup at [now]. *)
Definition prolonged (now : timespec) (secs : Z) (e : entry) : entry :=
  match e_dataTimeout e with
  | Some d => if expired now d then MkEntry (Some (MkTs (tv_sec d + secs) (tv_nsec d))) (e_dataSize e) (e_data e) else e
  | None => e
  end.

Abbreviation eth_check := (@i_cmdPacketAnalyzeCacheEthExpireCheck S T).

Lemma eth_hit w t key e :
  tree_ok 0 (2 ^ 64) t -> to_map t !! key = Some e -> entry_served e -> (forall s i, normal (real_time i s)) ->
  exists t', tree_ok 0 (2 ^ 64) t' /\
    to_map t' = <[key := prolonged (real_time 0 (w_sqlite w)) gc_EthCacheExpireTimeEntry e]> (to_map t) /\
    forall fuel u c f, cache_get column_int real_time p fuel true w (MkBst t eth_check) key gc_EthCacheExpireTimeEntry u c f =
      Ok (read_int (e_data e), MkBst t' eth_check, w).
Proof.
  intros Hok He (Hsz & d & Hd & Hnd) Hclock. unfold cache_get, prolonged. rewrite Hd.
  set (now := real_time 0 (w_sqlite w)). assert (Hnow : normal now) by apply Hclock.
  assert (Hlen : length (e_data e) = sizeof_int).
  { rewrite (proj1 (to_map_lookup t _ _ key Hok)) in He. rewrite <- Hsz. by eapply find_entry_ok. }
  assert (Hread : take sizeof_int (e_data e) ++ drop sizeof_int (replicate sizeof_int None) = e_data e)
    by (rewrite drop_ge by done; rewrite take_ge by lia; by rewrite app_nil_r).
  destruct (expired now d) eqn:Hexp.
  - destruct (search_prolonged t eth_check w now key (replicate sizeof_int None) sizeof_int (2 ^ 64) Hok ltac:(done) Hnow
      e d gc_EthCacheExpireTimeEntry (e_data e) w He Hd Hnd Hexp ltac:(done) ltac:(done) ltac:(done)) as (t' & E & Hok' & Hm).
    rewrite Hsz, Nat.min_id, Hread in E. exists t'. split_and!; [done..|]. intros. by rewrite E.
  - pose proof (search_live t eth_check w now key (replicate sizeof_int None) sizeof_int (2 ^ 64) Hok ltac:(done) Hnow
      e d He Hd Hnd Hexp) as E. cbv zeta in E.
    rewrite Hsz, Nat.min_id, Hread in E. exists t. split_and!; [done|by rewrite insert_id|]. intros. by rewrite E.
Qed.

Lemma empty_root (w : world) fuel mem h key secs u c f id b w' :
  cache_get column_int real_time p fuel mem w (MkBst Null h) key secs u c f = Ok (id, b, w') -> id <> Some 0 ->
  root b = Node key Null Null (MkEntry None sizeof_int (int_bytes id)).
Proof.
  unfold cache_get. cbn [bst_search root bst_find_loop mbind res_bind].
  change (s32 (u64 (-1)) =? Z.of_nat sizeof_int) with false. cbn iota.
  destruct (dbTxnBegin w p) as [[k1 w1]|]; [|done]. cbn [mbind res_bind].
  destruct (KSUCCESS k1); cbn [negb]; [|by intros [= <- _ _]].
  destruct (load_id _ _ _ _ _ _ _ _) as [[[k2 id2] w2]|]; [|done]. cbn [mbind res_bind]. unfold finish_id.
  destruct (if KSUCCESS k2 then _ else _) as [[k3 w3]|]; [|done]. cbn [mbind res_bind]. destruct (KSUCCESS k3).
  - destruct (later _ _) as [ts|]; [|done]. cbn [mbind res_bind]. unfold bst_insert. cbn [root insert_loop i_bst_alloc_node].
    destruct mem; [|done]. unfold copy_in, memcpy. cbn [e_data e_dataTimeout e_dataSize].
    rewrite length_int_bytes. cbn. intros [= <- <- _] _. cbn. do 2 f_equal.
    rewrite drop_0, app_nil_r. by rewrite take_ge by (by rewrite length_int_bytes).
  - destruct (dbTxnRollback w3 p) as [[k4 w4]|]; [|done]. by intros [= <- _ _].
Qed.
End analyze.


(** ** A concrete SQLite with transactions *)

(** Statements as in the database layer, and whether a transaction is open. *)
#[export] Instance txn_sqlite : Sqlite (mock * bool) := {
  sqlite_prepare s c q := let '(rc, st, m) := sqlite_prepare s.1 c q in (rc, st, (m, s.2));
  sqlite_bind s st i a := let '(rc, m) := sqlite_bind s.1 st i a in (rc, (m, s.2));
  sqlite_step s st := let '(rc, m) := sqlite_step s.1 st in (rc, (m, s.2));
  sqlite_finalize s st := let '(rc, m) := sqlite_finalize s.1 st in (rc, (m, s.2));
  sqlite_exec s _ q := (SQLITE_OK, (s.1, bool_decide (q = stmtBegin)));
  sqlite_open s q := (SQLITE_OK, 1, s);
  sqlite_close s c := s;
  sqlite_remove s f := s;
  watch s := 3
}.

#[export] Program Instance txn_sqlite_laws : SqliteLaws (mock * bool) := {
  open_stmts s := open_stmts s.1;
  rows_left s st := rows_left s.1 st
}.
Next Obligation.
  intros [m b] c q rc st s' E. cbn in E. injection E as <- <- <-. cbn. split; [apply is_fresh|apply dom_insert_L].
Qed.
Next Obligation. cbn. intros [m b] st i a rc s' [= _ <-]. done. Qed.
Next Obligation.
  intros [m b] st rc s' E. unfold sqlite_step, txn_sqlite in E. cbn [fst snd] in E.
  destruct (sqlite_step m st) as [rc' m'] eqn:E'. injection E as <- <-. exact (step_law m st _ _ E').
Qed.
Next Obligation. cbn. intros [m b] st rc s' [= _ <-]. apply dom_delete_L. Qed.

#[export] Program Instance txn_laws : TxnLaws (mock * bool) := { in_txn s _ := s.2 }.
Next Obligation. cbn. intros s c rc s' [= <- <-]. done. Qed.
Next Obligation. cbn. intros s c s' [= <-]. done. Qed.
Next Obligation. cbn. intros s c s' [= <-]. done. Qed.

Abbreviation txn_mock := (logged (mock * bool)).

Definition packet_world : @world txn_mock ArtOps.art_tree :=
  MkWorld (MkLogged (w_sqlite sample_world, false) []) (w_stats sample_world) 0 (w_dbs sample_world).

(** The clock: 1000 seconds and half of one. *)
Definition sample_clock (i : nat) (s : txn_mock) : timespec := MkTs 1000 500000000.

(** A cache with one address, expired, and the lookup of it and of another. *)
Definition sample_cache : bst_node := Node 1 Null Null (MkEntry (Some (MkTs 900 0)) 4 (int_bytes (Some 77))).

Lemma packet_usable : usable packet_world 5000.
Proof.
  split; [lia|]. split; [by eexists|]. exists (fun _ => 0). intros s. destruct s; vm_compute; reflexivity.
Qed.


(** When the cache is empty, the first address whose id was loaded cannot be
    looked up again: its entry became the root and never got a time stamp, so
    the next lookup reads an indeterminate value. *)
Theorem packet_first_address_undefined (S T : Type) (SQ : Sqlite S) (SM : StringMap T)
    (column_int : S -> Z -> nat -> Z) (ether_ntoa : list Z -> list Z) (real_time : nat -> S -> timespec) (p : Z)
    fuel mem h (w : @world S T) ea id b w' :
  i_cmdPacketAnalyzeCacheEthGet column_int ether_ntoa real_time p fuel mem w (MkBst Null h) ea = Ok (id, b, w') -> id <> Some 0 ->
  forall fuel' w'', i_cmdPacketAnalyzeCacheEthGet column_int ether_ntoa real_time p fuel' mem w'' b ea = Err Uninitialised.
Proof.
  intros E Hid fuel' w''. unfold i_cmdPacketAnalyzeCacheEthGet in *. apply empty_root in E; [|done].
  destruct b as [r h']. cbn in E. subst r. unfold cache_get, bst_search. cbn [root bst_find_loop]. by rewrite Z.eqb_refl.
Qed.

Lemma packet_first_address_undefined_witness :
  exists b w', i_cmdPacketAnalyzeCacheEthGet (fun _ _ _ => 7) Datatypes.id sample_clock 5000 100 true packet_world
      (MkBst Null i_cmdPacketAnalyzeCacheEthExpireCheck) [0; 0; 0; 0; 0; 2] = Ok (Some 7, b, w') /\
    i_cmdPacketAnalyzeCacheEthGet (fun _ _ _ => 7) Datatypes.id sample_clock 5000 100 true w' b [0; 0; 0; 0; 0; 2] = Err Uninitialised.
Proof.
  set (r := i_cmdPacketAnalyzeCacheEthGet _ _ _ _ _ _ _ _ _).
  assert (Hid : match r with Ok (id, _, _) => id = Some 7 | Err _ => False end) by (vm_compute; reflexivity).
  destruct r as [[[id b] w']|] eqn:E; [|destruct Hid]. subst id. exists b, w'. split; [reflexivity|].
  exact (packet_first_address_undefined _ _ _ _ _ _ _ _ _ _ _ _ _ _ _ _ E ltac:(discriminate) 100%nat w').
Defined.

End PacketSpec.
