(* ===== verification/CmdStop.v ===== *)
(** * Stopping the command manager

    The table of commands is queried, and for each row the destructor of the
    command is looked up, by a query inside the query, and called.  For any
    SQLite in which reading other rows does not add rows to a query in
    progress, the manager stops: every loop ends, SQLite is asked for nothing
    but queries, and nothing but the caches, the counters and the state of
    SQLite changes. *)

From Stdlib Require Import Ascii String.
From stdpp Require Import gmap.
From S2P Require Import Prelude CString DList Queue Svc Stats Database DatabaseSpec Journal CmdManager PacketAnalyze PacketSpec.

Module CmdStop.
Import CStr Svc Stats Database DatabaseSpec Journal CmdManager PacketSpec.

Definition select_stmt (q : list Z) : Prop := take 6 q = str "select".

#[export] Instance select_stmt_dec q : Decision (select_stmt q).
Proof. unfold select_stmt. apply _. Defined.

(** What SQLite promises about several statements in progress: a statement keeps
    its text, and calls on other statements do not add rows to it, a step of one
    that changes the data excepted. *)
Class QueryLaws (S : Type) `{SL : SqliteLaws S} := {
  sql : S -> Z -> list Z;                 (* sqlite3_sql *)
  query_prepare s c q rc st s' :
    sqlite_prepare s c q = (rc, st, s') ->
    (rc = SQLITE_OK -> sql s' st = q) /\
    forall o, o ∈ open_stmts s -> sql s' o = sql s o /\ (rows_left s' o <= rows_left s o)%nat;
  query_bind s st i a rc s' :
    sqlite_bind s st i a = (rc, s') ->
    forall o, o ∈ open_stmts s -> sql s' o = sql s o /\ (o <> st -> (rows_left s' o <= rows_left s o)%nat);
  query_step s st rc s' :
    select_stmt (sql s st) -> sqlite_step s st = (rc, s') ->
    forall o, o ∈ open_stmts s -> sql s' o = sql s o /\ (o <> st -> (rows_left s' o <= rows_left s o)%nat);
  query_finalize s st rc s' :
    sqlite_finalize s st = (rc, s') ->
    forall o, o ∈ open_stmts s -> o <> st -> sql s' o = sql s o /\ (rows_left s' o <= rows_left s o)%nat
}.

#[export] Program Instance logged_query {S} `{SQ : Sqlite S} `{SL : !SqliteLaws S} `{QL : !QueryLaws S} : QueryLaws (logged S) := {
  sql s st := sql (lg_state s) st
}.
Next Obligation. intros S SQ SL QL s c q rc st s' E. unlog E. by eapply query_prepare. Qed.
Next Obligation. intros S SQ SL QL s st i a rc s' E. unlog E. by eapply query_bind. Qed.
Next Obligation. intros S SQ SL QL s st rc s' Hq E. unlog E. by eapply query_step. Qed.
Next Obligation. intros S SQ SL QL s st rc s' E. unlog E. by eapply query_finalize. Qed.

(** A query on the connection [c]. *)
Definition query_on (c : Z) (e : call) : Prop := exists q rc, e = CPrepare c q rc /\ select_stmt q.

Section worlds.
Context {S T : Type} `{SQ : Sqlite S} `{JL : !Journal S}.
Abbreviation world := (@world S T).

(** [w'] is [w] but for SQLite, of which only queries on [c] were asked, and the
    values of counters. *)
Record same_lists (c : Z) (w w' : world) : Prop := {
  sl_journal : exists j, journal (w_sqlite w') = journal (w_sqlite w) ++ j /\ Forall (query_on c) j;
  sl_dbs : w_dbs w' = w_dbs w;
  sl_list : w_DBList w' = w_DBList w;
  sl_heap : st_heap (w_stats w') = st_heap (w_stats w);
  sl_stats : st_list (w_stats w') = st_list (w_stats w);
  sl_trees : st_trees (w_stats w') = st_trees (w_stats w);
  sl_mem : dom (st_mem (w_stats w)) ⊆ dom (st_mem (w_stats w'))
}.

#[export] Instance same_lists_preorder c : PreOrder (same_lists c).
Proof.
  split; [intros w; split; try done; exists []; by rewrite app_nil_r|].
  intros w1 w2 w3 [(j1 & E1 & F1) H1 H2 H3 H4 H5 H6] [(j2 & E2 & F2) K1 K2 K3 K4 K5 K6]. split; [|congruence..|set_solver].
  exists (j1 ++ j2). split; [by rewrite E2, E1, app_assoc|by apply list.Forall_app].
Qed.

Lemma quiet_sqlite c w sq : journal sq = journal (w_sqlite w) -> same_lists c w (set_sqlite w sq).
Proof. intros E. split; try done. exists []. by rewrite app_nil_r. Qed.

Lemma prepare_lists (w : world) c q rc st sq :
  select_stmt q -> sqlite_prepare (w_sqlite w) c q = (rc, st, sq) -> same_lists c w (set_sqlite w sq).
Proof.
  intros Hq E. split; try done. exists [CPrepare c q rc]. split; [exact (journal_prepare _ _ _ _ _ _ E)|].
  constructor; [|constructor]. by exists q, rc.
Qed.

Lemma bump_lists c w p s v w' : bump w p s v = Ok w' -> same_lists c w w'.
Proof.
  unfold bump, statsUpdate. destruct (p =? 0); [done|]. intros H. res_inv.
  destruct x as [r st]. res_inv. destruct (update_counter _ _). simplify_eq/=.
  split; try done; [exists []; by rewrite app_nil_r|]. cbn. rewrite dom_insert_L. set_solver.
Qed.

Lemma account_lists q w p k a b c d e w' : account w p k a b c d e = Ok w' -> same_lists q w w'.
Proof.
  unfold account. intros H. res_inv. destruct (KSUCCESS k); res_inv;
    repeat match goal with Hb : bump _ _ _ _ = Ok _ |- _ => apply (bump_lists q) in Hb end;
    repeat (etrans; [eassumption|]); done.
Qed.
End worlds.

Section nested.
Context {S T : Type} `{SQ : Sqlite S} `{SL : !SqliteLaws S} `{QL : !QueryLaws S} `{JL : !Journal S} `{SM : StringMap T}.
Abbreviation world := (@world S T).

(** The query [o] is in progress and has at most [r] rows left. *)
Definition running (o : Z) (r : nat) (s : S) : Prop :=
  o ∈ open_stmts s /\ select_stmt (sql s o) /\ (rows_left s o <= r)%nat.

Section inner.
Context {P : Type} (callback : P -> world -> Z -> res (Z * P * world)).
Context (stmt : list Z) (Hsel : select_stmt stmt) (PI : P -> Prop) (o : Z) (r : nat) (c0 : Z).
Hypothesis Hcb : forall param w st rc param' w',
  callback param w st = Ok (rc, param', w') -> w' = w /\ (sql (w_sqlite w) st = stmt -> PI param -> PI param').

Lemma bind_running n i (sq : S) st args b sq' :
  running o r sq -> o <> st -> st ∈ open_stmts sq -> i_dbExecBindVariables n i sq st args = Ok (b, sq') ->
  running o r sq' /\ st ∈ open_stmts sq' /\ sql sq' st = sql sq st /\ journal sq' = journal sq.
Proof.
  revert i sq args. induction n as [|n IH]; intros i sq args Hr Hne Ho; cbn [i_dbExecBindVariables]; [by intros [= _ <-]|].
  assert (Hnext : forall a rc sq1, sqlite_bind sq st i a = (rc, sq1) -> running o r sq1 /\ st ∈ open_stmts sq1 /\ sql sq1 st = sql sq st /\ journal sq1 = journal sq).
  { intros a rc sq1 E. pose proof (bind_law _ _ _ _ _ _ E) as Eo. pose proof (query_bind _ _ _ _ _ _ E) as Hq.
    destruct Hr as (H1 & H2 & H3). destruct (Hq o H1) as [Q1 Q2]. destruct (Hq st Ho) as [Q3 _]. unfold running. rewrite Eo, Q1, Q3.
    apply journal_bind in E. split_and!; try done. specialize (Q2 Hne). lia. }
  destruct args as [|a args]; [done|].
  destruct a; try (by intros [= _ <-]); destruct (sqlite_bind sq st i _) as [rc sq1] eqn:E; destruct (Hnext _ _ _ E) as (R1 & O1 & E1 & J1);
    (destruct (rc =? SQLITE_OK); [rewrite <- E1, <- J1; by apply IH|by intros [= _ <-]]).
Qed.

Lemma inner_loop n w st param rc et ct lr :
  running o r (w_sqlite w) -> o <> st -> st ∈ open_stmts (w_sqlite w) -> sql (w_sqlite w) st = stmt -> PI param ->
  step_loop callback n w st param rc et ct = Ok lr ->
  running o r (w_sqlite (lr_world lr)) /\ same_lists c0 w (lr_world lr) /\ st ∈ open_stmts (w_sqlite (lr_world lr)) /\ PI (lr_param lr).
Proof.
  revert w param rc et ct. induction n as [|n IH]; intros w param rc et ct Hr Hne Ho Hst HP; [done|]. cbn [step_loop].
  destruct (sqlite_step (w_sqlite w) st) as [k sq] eqn:E. destruct (step_law _ _ _ _ E) as [Eo _].
  assert (Hq : select_stmt (sql (w_sqlite w) st)) by (by rewrite Hst). pose proof (query_step _ _ _ _ Hq E) as Hq'. clear Hq.
  destruct Hr as (H1 & H2 & H3). destruct (Hq' o H1) as [Q1 Q2]. destruct (Hq' st Ho) as [Q3 _].
  assert (Hr' : running o r sq) by (unfold running; rewrite Eo, Q1; split_and!; try done; specialize (Q2 Hne); lia).
  assert (Hst' : sql sq st = stmt) by congruence. rewrite <- Eo in Ho. pose proof (quiet_sqlite c0 w sq (journal_step _ _ _ _ E)) as Hl.
  destruct (_ || _); [|by intros [= <-]]. destruct (k =? SQLITE_DONE); [by intros [= <-]|].
  destruct (callback param (set_sqlite w sq) st) as [[[c q] w1]|] eqn:Ec; [|done]. apply Hcb in Ec as [-> HP']. cbn [mbind res_bind].
  specialize (HP' Hst' HP). destruct (negb (c =? 0)); [by intros [= <-]|].
  intros H. destruct (IH (set_sqlite w sq) _ _ _ _ Hr' Hne Ho Hst' HP' H) as (R & L & O & HPl).
  split_and!; try done. by etrans.
Qed.

Lemma account_running (w : world) sq p k a b c d e w' :
  account (set_sqlite w sq) p k a b c d e = Ok w' -> running o r sq -> same_lists c0 w (set_sqlite w sq) -> running o r (w_sqlite w') /\ same_lists c0 w w'.
Proof.
  intros Ha Hr Hl. pose proof (account_same _ _ _ _ _ _ _ _ _ Ha) as (-> & _). split; [done|].
  apply (account_lists c0) in Ha. by etrans.
Qed.

Lemma inner_exec n w p bindCnt param args k param' w' :
  (forall db, db_of w p = Ok db -> db_db db = c0) ->
  running o r (w_sqlite w) -> PI param -> i_dbExec callback n w p stmt bindCnt param args = Ok (k, param', w') ->
  running o r (w_sqlite w') /\ same_lists c0 w w' /\ PI param'.
Proof.
  intros Hconn Hr HP. unfold i_dbExec. destruct (i_dbCheckState w p _) as [ok|]; [|done]. cbn [mbind res_bind].
  destruct (negb ok); [by intros [= _ <- <-]|]. destruct (db_of w p) as [db|]; [|done]. cbn [mbind res_bind].
  rewrite (Hconn db eq_refl). clear Hconn.
  destruct (sqlite_prepare (w_sqlite w) c0 stmt) as [[rc st] sq] eqn:Ep.
  pose proof (prepare_lists w c0 stmt rc st sq Hsel Ep) as L1.
  destruct (query_prepare _ _ _ _ _ _ Ep) as [Q1 Q2]. apply prepare_law in Ep. destruct Hr as (H1 & H2 & H3).
  destruct (Q2 o H1) as [Q3 Q4].
  destruct (Z.eqb_spec rc SQLITE_OK) as [->|Hrc]; cbn [negb].
  2: { intros H. res_inv. apply and_assoc. split; [|done]. eapply account_running; [eassumption| |done]. unfold running. rewrite Ep, Q3. split_and!; [done..|lia]. }
  destruct Ep as [Hnew Hopen]. assert (o <> st) as Hne by congruence. specialize (Q1 eq_refl).
  assert (Hr1 : running o r sq) by (unfold running; rewrite Hopen, Q3; split_and!; [set_solver|done|lia]).
  change (w_sqlite (set_sqlite w sq)) with sq.
  destruct (i_dbExecBindVariables bindCnt 1 sq st args) as [[b sq1]|] eqn:Eb; [|done]. cbn [mbind res_bind].
  destruct (bind_running _ _ _ _ _ _ _ Hr1 Hne ltac:(set_solver) Eb) as (Hr2 & Ho2 & Hst2 & J2).
  assert (L2 : same_lists c0 w (set_sqlite w sq1)) by (etrans; [exact L1|]; by apply (quiet_sqlite c0 (set_sqlite w sq))).
  destruct (negb b).
  { intros H. res_inv. apply and_assoc. split; [|done]. by eapply (account_running w). }
  destruct (step_loop callback n _ st param 0 0 0) as [lr|] eqn:Es; [|done].
  apply inner_loop in Es as (Hr3 & L3 & Ho3 & HP3); [|done|done|done|cbn; congruence|done]. cbn [mbind res_bind].
  destruct (sqlite_finalize (w_sqlite (lr_world lr)) st) as [rc2 sq2] eqn:Ef. intros H. res_inv.
  assert (L4 : same_lists c0 (lr_world lr) (set_sqlite (lr_world lr) sq2)) by (apply quiet_sqlite; by eapply journal_finalize).
  assert (Hr4 : running o r sq2).
  { destruct Hr3 as (F1 & F2 & F3). destruct (query_finalize _ _ _ _ Ef o F1 Hne) as [G1 G2]. apply finalize_law in Ef.
    unfold running. rewrite Ef, G1. split_and!; [set_solver|done|lia]. }
  match goal with Ha : account _ _ _ _ _ _ _ _ = Ok _ |- _ => destruct (account_running _ _ _ _ _ _ _ _ _ _ Ha Hr4 L4) as [R5 L5] end.
  split_and!; [done| |done]. etrans; [|exact L5]. by etrans; [|exact L3].
Qed.
End inner.

(** ** The commands *)

Lemma usable_account (w : world) q p k a b c d e :
  usable w p -> exists w', account w p k a b c d e = Ok w' /\ usable w' p /\ same_lists q w w'.
Proof.
  intros (Hp & (db & Hdb & Hst) & f & Hc). destruct (account_ok w p f k a b c d e Hp Hc) as (w' & f' & E & Hc' & _ & _ & Hd & _).
  exists w'. split; [done|]. split; [|by eapply account_lists]. split; [done|]. rewrite Hd. eauto.
Qed.

Section stop.
Context {G : Type} (column_int64 : S -> Z -> nat -> Z) (column_text : S -> Z -> nat -> list Z) (column_count : S -> Z -> nat).
Abbreviation kernel := (@kernel S T G).
Context (call_fn : Z -> kernel -> res (Z * kernel)).

(** [k'] is [k] but for the world and the variables of the commands. *)
Definition frozen (k k' : kernel) : Prop :=
  k_status k' = k_status k /\ k_db k' = k_db k /\ k_stats k' = k_stats k /\ k_queues k' = k_queues k.

#[export] Instance frozen_preorder : PreOrder frozen.
Proof. split; [done|]. intros k1 k2 k3 (? & ? & ? & ?) (? & ? & ? & ?). unfold frozen. split_and!; congruence. Qed.

(** The statement that looks a destructor up. *)
Definition find_destroy : list Z := str "select " ++ str "pdestroy" ++ lit " from cmdmgr_cmdlist where code = ?;".

(** The pointers it finds are those of destructors, which return and change only
    variables of the commands. *)
Definition destructors : Prop :=
  forall s st k, sql s st = find_destroy -> column_int64 s st 0 <> 0 ->
  exists r k', call_fn (column_int64 s st 0%nat) k = Ok (r, k') /\ frozen k k' /\ k_world k' = k_world k.
Context (Hcall : destructors).

Lemma find_destroy_ok k cmd o r :
  usable (k_world k) (k_db k) -> running o r (w_sqlite (k_world k)) ->
  exists fuel0 ptr k', (ptr = 0 \/ exists s st, sql s st = find_destroy /\ ptr = column_int64 s st 0%nat) /\ usable (k_world k') (k_db k) /\ frozen k k' /\
    same_lists (conn_of (k_world k) (k_db k)) (k_world k) (k_world k') /\ running o r (w_sqlite (k_world k')) /\
    forall fuel, (fuel0 <= fuel)%nat -> i_cmdmgrFindDestroy column_int64 fuel k cmd = Ok (ptr, k').
Proof.
  intros Hu Hr. unfold i_cmdmgrFindDestroy, i_cmdmgrFindPtr. fold find_destroy.
  change (255 <? length find_destroy)%nat with false. cbv iota.
  set (PI := fun ptr => ptr = 0 \/ exists s st, sql s st = find_destroy /\ ptr = column_int64 s st 0%nat).
  assert (Hsel : select_stmt find_destroy) by decide_closed.
  destruct (usable_exec (i_cmdmgrFindPtr_GetVal column_int64) (fun _ => True) (fun _ => True) (k_world k) (k_db k) find_destroy 1 0 [BindText cmd])
    as (n & st & ptr & w' & U & _ & _ & _ & E); try done; [decide_closed| |].
  - intros q w st _. by eexists _, _.
  - assert (Hcb : forall param (w : world) st rc param' w', i_cmdmgrFindPtr_GetVal column_int64 param w st = Ok (rc, param', w') ->
      w' = w /\ (sql (w_sqlite w) st = find_destroy -> PI param -> PI param')).
    { intros q w s0 rc q' w0 [= _ <- <-]. split; [done|]. intros Hs _. right. by eexists _, _. }
    assert (Hconn : forall db, db_of (k_world k) (k_db k) = Ok db -> db_db db = conn_of (k_world k) (k_db k)).
    { intros db Edb. destruct (usable_db _ _ Hu) as (db' & Edb' & <-). congruence. }
    destruct (inner_exec _ find_destroy Hsel PI o r _ Hcb n (k_world k) (k_db k) 1 0 [BindText cmd] st ptr w' Hconn Hr
      ltac:(by left) (E n ltac:(lia))) as (R & L & HP).
    exists n, (if KSUCCESS st then ptr else 0), (set_world k w').
    split; [destruct (KSUCCESS st); [exact HP|by left]|]. split; [exact U|]. split; [done|]. split; [exact L|]. split; [exact R|].
    intros fuel Hf. unfold dbExecQuery. by rewrite (E fuel Hf).
Qed.

Lemma destroy_one k w o r :
  usable w (k_db k) -> running o r (w_sqlite w) ->
  exists fuel0 k' w', usable w' (k_db k) /\ frozen k k' /\ same_lists (conn_of w (k_db k)) w w' /\ running o r (w_sqlite w') /\
    forall fuel, (fuel0 <= fuel)%nat ->
      i_cmdmgrDestroySingleCommand column_int64 column_text column_count call_fn fuel k w o = Ok (0, k', w').
Proof.
  intros Hu Hr. unfold i_cmdmgrDestroySingleCommand. destruct (_ =? 0)%nat; [by exists O, k, w|].
  destruct (find_destroy_ok (set_world k w) (column_text (w_sqlite w) o 0) o r Hu Hr) as (n & ptr & k' & Hp & U & Fr & L & R & E).
  destruct (Z.eqb_spec ptr 0) as [E0|E0].
  - exists n, k', (k_world k'). split_and!; [done..|]. intros fuel Hf. rewrite (E fuel Hf). cbn [mbind res_bind]. by rewrite E0.
  - destruct Hp as [?|(s & st & Hs & ->)]; [done|]. destruct (Hcall s st k' Hs E0) as (rc & k2 & E2 & F2 & W2).
    exists n, k2, (k_world k2). rewrite W2. split_and!; [done|by etrans; [|exact F2]|done..|]. intros fuel Hf. rewrite (E fuel Hf).
    cbn [mbind res_bind]. rewrite (proj2 (Z.eqb_neq _ 0) E0), E2. cbn [mbind res_bind]. by rewrite W2.
Qed.

Abbreviation destroy_all fuel := (i_cmdmgrDestroySingleCommand column_int64 column_text column_count call_fn fuel).

(** The loop over the commands: at most [r] rows are left. *)
Lemma outer_loop r k w o rc et ct :
  usable w (k_db k) -> running o r (w_sqlite w) ->
  exists fuel0 lr, usable (lr_world lr) (k_db k) /\ frozen k (lr_param lr) /\ same_lists (conn_of w (k_db k)) w (lr_world lr) /\
    forall fuel n, (fuel0 <= fuel)%nat -> (r < n)%nat -> step_loop (destroy_all fuel) n w o k rc et ct = Ok lr.
Proof.
  revert k w rc et ct. induction r as [r IH] using lt_wf_ind; intros k w rc et ct Hu (H1 & H2 & H3).
  destruct (sqlite_step (w_sqlite w) o) as [c sq] eqn:E. destruct (step_law _ _ _ _ E) as [Eo Hlt].
  destruct (query_step _ _ _ _ H2 E o H1) as [Q1 _].
  pose proof (quiet_sqlite (conn_of w (k_db k)) w sq (journal_step _ _ _ _ E)) as L0.
  destruct ((c =? SQLITE_DONE) || (c =? SQLITE_ROW)) eqn:Ec; cycle 1.
  { eexists O, (MkLoop (set_sqlite w sq) k rc _ ct). split_and!; [done..|]. intros fuel [|n] _ Hn; [lia|]. cbn [step_loop]. by rewrite E, Ec. }
  destruct (c =? SQLITE_DONE) eqn:Ed.
  { eexists O, (MkLoop (set_sqlite w sq) k _ _ ct). split_and!; [done..|]. intros fuel [|n] _ Hn; [lia|]. cbn [step_loop]. by rewrite E, Ed. }
  cbn [orb] in Ec. specialize (Hlt (proj1 (Z.eqb_eq _ _) Ec)).
  assert (Hr1 : running o (rows_left sq o) sq) by (unfold running; rewrite Eo, Q1; done).
  destruct (destroy_one k (set_sqlite w sq) o _ Hu Hr1) as (f1 & k1 & w1 & U1 & F1 & L1 & R1 & E1).
  assert (Edb : k_db k1 = k_db k) by apply F1. rewrite <- Edb in U1.
  destruct (IH (rows_left sq o) ltac:(lia) k1 w1 (u32 (rc + 1)) (u64 (et + watch sq)) (u64 (ct + watch (w_sqlite w1))) U1 R1)
    as (f2 & lr & U2 & F2 & L2 & E2). rewrite Edb in U2.
  rewrite Edb, (conn_same _ _ _ (sl_dbs _ _ _ L1)) in L2. change (conn_of (set_sqlite w sq)) with (conn_of w) in *.
  exists (f1 + f2)%nat, lr. split_and!; [done|by etrans|etrans; [|exact L2]; by etrans; [|exact L1]|].
  intros fuel [|n] Hf Hn; [lia|]. cbn [step_loop]. rewrite E, Ed, Ec. cbn [orb]. rewrite (E1 fuel) by lia. cbn [mbind res_bind].
  change (negb (0 =? 0)) with false. cbv iota. apply E2; lia.
Qed.

Lemma commands_destroyed k :
  usable (k_world k) (k_db k) ->
  exists fuel0 st k' w', usable w' (k_db k) /\ frozen k k' /\ same_lists (conn_of (k_world k) (k_db k)) (k_world k) w' /\
    forall fuel, (fuel0 <= fuel)%nat ->
      dbExecQuery (destroy_all fuel) fuel (k_world k) (k_db k) (lit "select code from cmdmgr_cmdlist") 0 k [] = Ok (st, k', w').
Proof.
  intros Hu. set (w := k_world k) in *. set (p := k_db k) in *. set (q := lit _). destruct (usable_db w p Hu) as (db & Hdb & Hc). set (c := conn_of w p) in *.
  destruct (sqlite_prepare (w_sqlite w) c q) as [[rc st] sq] eqn:Ep.
  assert (Hsel : select_stmt q) by decide_closed. pose proof (prepare_lists w c q rc st sq Hsel Ep) as L0.
  destruct (query_prepare _ _ _ _ _ _ Ep) as [Q1 _]. pose proof (prepare_law _ _ _ _ _ _ Ep) as Ho.
  destruct (Z.eqb_spec rc SQLITE_OK) as [->|Hrc].
  2: { destruct (usable_account (set_sqlite w sq) c p KSTATUS_UNSUCCESS (watch sq) 0 0 0 0 Hu) as (w' & Ea & U & L).
       exists O, KSTATUS_UNSUCCESS, k, w'. split_and!; [done..|by etrans; [|exact L]|]. intros fuel _. unfold dbExecQuery, i_dbExec.
       rewrite (usable_check w p Hu). cbn [mbind res_bind negb]. rewrite Hdb. cbn [mbind res_bind].
       rewrite Hc, Ep, (proj2 (Z.eqb_neq _ _) Hrc). cbn [negb]. by rewrite Ea. }
  destruct Ho as [_ Hopen].
  destruct (outer_loop (rows_left sq st) k (set_sqlite (set_sqlite w sq) sq) st 0 0 0 Hu) as (f1 & lr & U1 & F1 & L1 & E1).
  { unfold running. cbn. rewrite Hopen, Q1 by done. split_and!; [set_solver|done|lia]. }
  destruct (sqlite_finalize (w_sqlite (lr_world lr)) st) as [rc2 sq2] eqn:Ef.
  set (status := if rc2 =? SQLITE_OK then (if lr_rowCount lr =? 0 then KSTATUS_DB_EXEC_ERROR else KSTATUS_SUCCESS) else KSTATUS_DB_EXEC_ERROR).
  assert (L2 : same_lists c (lr_world lr) (set_sqlite (lr_world lr) sq2)) by (apply quiet_sqlite; by eapply journal_finalize).
  destruct (usable_account (set_sqlite (lr_world lr) sq2) c p status (watch sq) (watch sq) (lr_execTime lr) (lr_callbackTime lr) (watch sq2) U1)
    as (w' & Ea & U & L).
  exists (f1 + Datatypes.S (rows_left sq st))%nat, status, (lr_param lr), w'. split_and!; [done..| |].
  { etrans; [|exact L]. etrans; [|exact L2]. etrans; [|exact L1]. exact L0. }
  intros fuel Hf. unfold dbExecQuery, i_dbExec. rewrite (usable_check w p Hu). cbn [mbind res_bind negb]. rewrite Hdb. cbn [mbind res_bind].
  rewrite Hc, Ep. cbn [negb Z.eqb]. change (negb (SQLITE_OK =? SQLITE_OK)) with false. cbv iota.
  cbn [i_dbExecBindVariables mbind res_bind negb]. change (w_sqlite (set_sqlite w sq)) with sq.
  rewrite E1 by lia. cbn [mbind res_bind]. rewrite Ef. fold status. by rewrite Ea.
Qed.

(** ** The queues *)

(** No other thread does anything while the queues are destroyed. *)
Definition alone (ws : nat -> @destroy_waits S T G) : Prop := forall i k, dw_others (ws i) k = Ok k.

(** The clients of a queue leave while it is destroyed, or there is no queue. *)
Definition leaves (o : option Queue.queue_t) (w : @destroy_waits S T G) : Prop :=
  match o with
  | None => True
  | Some q =>
      Exists (fun q => Queue.producers q <= 0) (q :: dw_producers w) /\
      (Exists (fun q => Queue.consumers q <= 0) (dw_consumers w) \/ Forall (fun q => Queue.consumers q <= 0) (q :: dw_producers w))
  end.

Lemma await_ends f (q : Queue.queue_t) ws :
  Exists (fun q => f q <= 0) (q :: ws) -> exists q', Queue.await f q ws = (q', true) /\ q' ∈ q :: ws.
Proof.
  revert q. induction ws as [|q1 ws IH]; intros q Hex; cbn [Queue.await]; destruct (Z.ltb_spec 0 (f q)) as [Hlt|Hge];
    try (exists q; split; [done|apply list_elem_of_here]).
  - apply List.Exists_cons in Hex as [?|Hex]; [lia|]. by apply List.Exists_nil in Hex.
  - apply List.Exists_cons in Hex as [?|Hex]; [lia|]. destruct (IH q1 Hex) as (q' & E & Hin). exists q'. split; [done|by apply list_elem_of_further].
Qed.

Lemma destroy_ends o (w : @destroy_waits S T G) : leaves o w -> Queue.queue_destroy o (dw_producers w) (dw_consumers w) = None.
Proof.
  destruct o as [q|]; [|done]. intros [Hp Hc]. unfold Queue.queue_destroy. set (q0 := Queue.set_clients _ _ _ _).
  assert (Hp0 : Exists (fun q => Queue.producers q <= 0) (q0 :: dw_producers w)) by (apply List.Exists_cons in Hp; by apply List.Exists_cons).
  destruct (await_ends _ _ _ Hp0) as (q1 & -> & Hq1). cbn [negb].
  assert (Hc1 : Exists (fun q => Queue.consumers q <= 0) (q1 :: dw_consumers w)).
  { destruct Hc as [Hc|Hc]; [by apply List.Exists_cons; right|]. apply List.Exists_cons. left.
    assert (Forall (fun q => Queue.consumers q <= 0) (q0 :: dw_producers w)) as Hc0 by (apply list.Forall_cons in Hc; by apply list.Forall_cons).
    exact (proj1 (list.Forall_forall _ _) Hc0 q1 Hq1). }
  by destruct (await_ends _ _ _ Hc1) as (q2 & -> & _).
Qed.

Lemma stop_leaves ws (k : kernel) i o :
  alone ws -> k_queues k !! i = Some o -> leaves o (ws i) -> stop_queue k i (ws i) = Ok (Some (set_queue k i None)).
Proof.
  intros Ha Hq Hi. unfold stop_queue, rd. rewrite Ha. cbn [mbind res_bind]. rewrite Hq. cbn [mbind res_bind].
  by rewrite (destroy_ends o).
Qed.

(** The manager of a program whose threads have ended stops. *)
Lemma stop_ok k ws q0 q1 :
  usable (k_world k) (k_db k) -> alone ws -> k_queues k = [q0; q1] ->
  leaves q0 (ws CMD_MANAGER_QUEUE_SHORTOPS) -> leaves q1 (ws CMD_MANAGER_QUEUE_LONGOPS) ->
  exists fuel0 k', usable (k_world k') (k_db k) /\ same_lists (conn_of (k_world k) (k_db k)) (k_world k) (k_world k') /\
    k_db k' = k_db k /\ k_stats k' = k_stats k /\ k_queues k' = [None; None] /\
    forall fuel, (fuel0 <= fuel)%nat ->
      cmdmgrStop column_int64 column_text column_count call_fn fuel k ws = Ok (Some k').
Proof.
  intros Hu Ha Hq H0 H1. set (k2 := set_queue (set_queue k CMD_MANAGER_QUEUE_SHORTOPS None) CMD_MANAGER_QUEUE_LONGOPS None).
  destruct (commands_destroyed k2 Hu) as (n & st & k' & w' & U & (F1 & F2 & F3 & F4) & L & E).
  exists n, (set_world k' w'). split_and!; [done..| |]; [cbn; rewrite F4; cbn; by rewrite Hq|].
  intros fuel Hf. unfold cmdmgrStop. rewrite (stop_leaves ws k _ q0) by (done || by rewrite Hq). cbn [mbind res_bind].
  rewrite (stop_leaves ws _ _ q1) by (done || (cbn; by rewrite Hq)). cbn [mbind res_bind]. fold k2. by rewrite (E fuel Hf).
Qed.
End stop.
End nested.
End CmdStop.
