(* ===== verification/Mount.v ===== *)
(** * From the configuration to an open database

    Mounting a database of the configuration enters it in the list of the
    manager and registers its counters in a list of statistics of its own;
    opening it by its name then finds it.  The lists of both managers live in
    one heap, and neither call disturbs the other's list. *)

From Stdlib Require Import Ascii String.
From stdpp Require Import gmap.
From S2P Require Import Prelude CString ArtTree ArtMap DList DListSpec DListProps Svc Stats StatsSpec Database DatabaseSpec PacketAnalyze PacketSpec.

Module Mount.
Import CStr ArtMap DList DListSpec DListProps Svc Stats Database DatabaseSpec PacketSpec.

(** ** What adding an entry leaves alone *)

Lemma set_next_frame h a v h' z : set_next h a v = Ok h' -> z <> a -> h' !! z = h !! z.
Proof. unfold set_next. intros H Hz. res_inv. by rewrite lookup_insert_ne. Qed.
Lemma set_prev_frame h a v h' z : set_prev h a v = Ok h' -> z <> a -> h' !! z = h !! z.
Proof. unfold set_prev. intros H Hz. res_inv. by rewrite lookup_insert_ne. Qed.
Lemma set_body_frame h a b h' z : set_body h a b = Ok h' -> z <> a -> h' !! z = h !! z.
Proof. unfold set_body. intros H Hz. res_inv. by rewrite lookup_insert_ne. Qed.

Lemma header_add_frame h s p f h' z :
  nxt h s = Some f -> p <> s -> i_doublylinkedlistEntryHeaderAdd h s p = Ok h' -> z ∉ [p; s; f] -> h' !! z = h !! z.
Proof.
  intros Hs Hne H Hz. rewrite !not_elem_of_cons in Hz. destruct Hz as (Hp & Hs' & Hf & _).
  unfold i_doublylinkedlistEntryHeaderAdd, i_doublylinkedlistEntryHeaderNext in H.
  destruct (load_nxt h s f Hs) as (n & En & Hn). rewrite En in H. cbn [mbind res_bind] in H. rewrite Hn in H.
  apply bind_Ok in H as (h1 & E1 & H). apply bind_Ok in H as (h2 & E2 & H).
  assert (nxt h2 s = Some f) as Hs2.
  { unfold nxt in *. by rewrite (set_prev_frame _ _ _ _ _ E2), (set_next_frame _ _ _ _ _ E1). }
  destruct (load_nxt h2 s f Hs2) as (n2 & En2 & Hn2). rewrite En2 in H. cbn [mbind res_bind] in H. rewrite Hn2 in H.
  apply bind_Ok in H as (h3 & E3 & E4).
  by rewrite (set_next_frame _ _ _ _ _ E4), (set_prev_frame _ _ _ _ _ E3), (set_prev_frame _ _ _ _ _ E2), (set_next_frame _ _ _ _ _ E1).
Qed.

(** The nodes of the list at [plist]. *)
Abbreviation nodes_of plist act del := (nodes (activeEntries plist) (deletedEntries plist) act del).

Lemma add_frame h plist act del key data p r h' z :
  dll_ok h plist act del -> h !! p = None -> doublylinkedlistAdd h plist key data p = Ok (r, h') ->
  z ∉ p :: nodes_of plist act del -> h' !! z = h !! z.
Proof.
  intros Hd Hfr H Hz. apply not_elem_of_cons in Hz as [Hzp Hz]. unfold doublylinkedlistAdd in H.
  destruct (p =? 0); [by injection H as _ <-|]. set (h0 := <[p := _]> h) in H.
  apply bind_Ok in H as (h1 & E1 & H). apply bind_Ok in H as (h2 & E2 & H). injection H as _ <-.
  destruct (header_init_inv _ _ _ E1) as [n1 ->].
  assert (Hout : forall y, y ∈ nodes_of plist act del -> y <> p).
  { intros y Hy ->. destruct (dll_cells _ _ _ _ _ _ _ _ Hd Hy). congruence. }
  assert (Hlook : forall y, y <> p -> (<[p := n1]> h0) !! y = h !! y) by (intros y Hy; unfold h0; by rewrite !lookup_insert_ne).
  destruct (ring_first _ _ _ _ (do_act _ _ _ _ _ _ _ Hd)) as [Hn _].
  rewrite (header_add_frame (<[p := n1]> h0) (activeEntries plist) p (first_of (activeEntries plist) act.*1) h2 z); [by apply Hlook| | |done|].
  - unfold nxt in *. rewrite Hlook; [done|]. apply Hout. unfold nodes. apply list_elem_of_here.
  - intros Ep. apply (Hout p); [|done]. rewrite Ep. apply list_elem_of_here.
  - rewrite !not_elem_of_cons. split; [done|]. unfold nodes in Hz. rewrite !not_elem_of_cons, not_elem_of_app in Hz.
    destruct Hz as (HA & HD & Ha & _). split; [done|]. split; [|apply not_elem_of_nil]. intros ->.
    pose proof (head_in _ _ _ _ (do_act _ _ _ _ _ _ _ Hd)) as Hin. apply elem_of_cons in Hin as [?|?]; done.
Qed.

Section mount.
Context {S T : Type} `{SQ : Sqlite S} `{SM : StringMap T}.
Abbreviation world := (@world S T).
Abbreviation heap_of w := (st_heap (w_stats w)).

Lemma create_frame (st : @stats_mgr_t T) act del buf tmp p r st' z :
  dll_ok (st_heap st) (st_list st) act del -> st_heap st !! p = None -> p <> 0 -> statsCreate st buf tmp p = Ok (r, st') ->
  z ∉ p :: nodes_of (st_list st) act del -> st_heap st' !! z = st_heap st !! z.
Proof.
  intros Hd Hfr Hp H Hz. unfold statsCreate in H. apply bind_Ok in H as (len & _ & H).
  destruct (tmp =? 0); [by injection H as _ <-|]. destruct (_ <? _); [done|].
  apply bind_Ok in H as (key & _ & H). apply bind_Ok in H as ([q h] & E1 & H). pose proof (add_frame _ _ _ _ _ _ _ _ _ z Hd Hfr E1 Hz) as F1.
  unfold doublylinkedlistAdd in E1. rewrite (proj2 (Z.eqb_neq p 0)) in E1 by done.
  apply bind_Ok in E1 as (? & _ & E1). apply bind_Ok in E1 as (? & _ & E1). injection E1 as Eq _. subst q.
  destruct (_ =? 0); [done|]. apply bind_Ok in H as (b & _ & H). apply bind_Ok in H as (h' & E2 & H). injection H as _ <-.
  cbn. rewrite <- F1. eapply set_body_frame; [exact E2|]. apply not_elem_of_cons in Hz as [Hz _].
  unfold moveUserDataToPtr, movePtrToUserData. replace (p + sizeof_entry - sizeof_entry) with p by lia. done.
Qed.

(** The lists of the two managers, apart from each other in one heap. *)
Record two_lists (w : world) (sact sdel dact ddel : entries) : Prop := {
  tl_stats : dll_ok (heap_of w) (st_list (w_stats w)) sact sdel;
  tl_dbs : dll_ok (heap_of w) (w_DBList w) dact ddel;
  tl_apart : forall z, z ∈ nodes_of (st_list (w_stats w)) sact sdel -> z ∈ nodes_of (w_DBList w) dact ddel -> False
}.

Lemma nodes_cons A D p b act del z : z ∈ nodes A D ((p, b) :: act) del <-> z = p \/ z ∈ nodes A D act del.
Proof. unfold nodes. cbn [fmap list_fmap fst app]. rewrite !elem_of_cons. tauto. Qed.

(** The counters a mounted database registers, by name. *)
Definition db_items (p_db : Z) : list StatsSpec.item :=
  (fun s => (take (length (stat_key s) - 1) (stat_key s), (stat_key s, STATS_FLAGS_TYPE_SUM, stat_addr p_db s))) <$> all_stats.

Lemma all_stats_all s : s ∈ all_stats.
Proof. destruct s; decide_closed. Qed.

Lemma db_items_ok p_db : 0 < p_db -> StatsSpec.items_ok ∅ (db_items p_db).
Proof.
  intros Hp. split.
  - unfold db_items. apply list.Forall_fmap. apply list.Forall_forall. intros s _. split; [destruct s; decide_closed|].
    unfold stat_addr. destruct s; cbn; lia.
  - unfold db_items. rewrite <- list_fmap_compose. decide_closed.
  - unfold db_items. rewrite <- !list_fmap_compose. apply NoDup_fmap_2_strong; [|decide_closed].
    intros s s' _ _ H. exact (stat_addr_inj p_db s s' H).
  - intros k ptr _. by rewrite lookup_empty.
Qed.

Lemma clear_counters_heap (st : @stats_mgr_t T) p :
  st_heap (clear_counters st p) = st_heap st /\ st_list (clear_counters st p) = st_list st /\
  st_trees (clear_counters st p) = st_trees st.
Proof. unfold clear_counters. induction all_stats as [|s l IH]; [done|]. exact IH. Qed.

(** The key of a name of eight bytes. *)
Lemma name_key name : length name = 8%nat -> get (term name) 0 8 = Ok (le_val name).
Proof.
  intros Hl. unfold get. rewrite decide_True by (unfold term; rewrite length_app; cbn; lia). do 2 f_equal. unfold term.
  change (drop 0 (name ++ [0])) with (name ++ [0]). by rewrite take_app_length' by lia.
Qed.

(** Such a name fills the short name but for its terminator. *)
Lemma short_name buf name : c_string buf name -> length name = 8%nat -> strncpy buf 9 = Ok (term name).
Proof.
  intros Hc Hl. unfold strncpy. rewrite (strlen_c_string _ _ Hc), Hl. cbn [mbind res_bind]. f_equal.
  destruct Hc as (_ & [r ->] & _). unfold term. rewrite <- app_assoc, (take_app_length' name) by lia.
  rewrite take_app_ge, Hl, take_replicate by lia. done.
Qed.

(** The names of the sixteen counters of a database, each with the counter it
    stands for. *)
Definition counter_names : list (string * db_stat) :=
  [("db exec", DbExec); ("db exec fail", DbExecFail); ("db exec time", DbExecTime);
   ("db prepare time", DbPrepareTime); ("db bind time", DbBindTime); ("db finalize time", DbFinalizeTime);
   ("db callback time", DbCallbackTime); ("db txn time", DbTxnTime); ("db txn commit", DbTxnCommit);
   ("db txn commit fail", DbTxnCommitFail); ("db txn commit time", DbTxnCommitTime);
   ("db txn rollback", DbTxnRollback); ("db txn rollback fail", DbTxnRollbackFail);
   ("db txn rollback time", DbTxnRollbackTime); ("db open", DbOpen); ("db open time", DbOpenTime)]%string.

(** The map of the statistics list of the database at [p]. *)
Definition counter_map (p : Z) : amap := list_to_map ((fun '(n, s) => (str n, stat_addr p s)) <$> counter_names).

Lemma counter_map_register p : 0 < p -> StatsSpec.register ∅ (db_items p) = counter_map p.
Proof.
  intros Hp. rewrite StatsSpec.register_map by apply (StatsSpec.io_names _ _ (db_items_ok p Hp)).
  rewrite (right_id_L ∅ _). reflexivity.
Qed.

(** The database at [p] is mounted: its record, its counters, at zero, and its
    statistics list [sl], whose tree maps the sixteen names to them. *)
Record mounted (p sl : Z) (name file : list Z) (dropOnClose : bool) (w : world) : Prop := {
  mn_db : w_dbs w !! p = Some (MkDb 0 sl dropOnClose DB_FLAGS_STATE_MOUNTED (term name) file);
  mn_counters : counters_ok w p (fun _ => 0);
  mn_names : exists t, st_trees (w_stats w) !! sl = Some t /\ sm_rep t (counter_map p)
}.

(** The user's view: every name finds its counter. *)
Lemma mounted_find p sl name file dropOnClose w n s :
  sl <> 0 -> mounted p sl name file dropOnClose w -> (n, s) ∈ counter_names ->
  statsFind (w_stats w) sl (lit n) = Ok (stat_addr p s).
Proof.
  intros Hsl [_ _ (t & Ht & Hr)] Hin.
  assert (Hk : counter_map p !! str n = Some (stat_addr p s)).
  { apply elem_of_list_to_map_1; [|apply list_elem_of_fmap; by exists (n, s)].
    rewrite <- list_fmap_compose. decide_closed. }
  assert (Hc : c_string (lit n) (str n)).
  { revert Hin. cut (Forall (fun ns : string * db_stat => c_string (lit ns.1) (str ns.1)) counter_names); [|decide_closed].
    rewrite list.Forall_forall. intros H Hin. exact (H _ Hin). }
  rewrite (StatsSpec.find_ok (w_stats w) sl t _ (lit n) (str n) Hsl Ht Hr Hc) by (rewrite Hk; by eexists). by rewrite Hk.
Qed.

Lemma mount_ok w sact sdel dact ddel dbName name file dropOnClose p tmp ps :
  two_lists w sact sdel dact ddel -> c_string dbName name -> length name = 8%nat ->
  0 < p -> 0 < ps -> p <> ps -> tmp <> 0 -> heap_of w !! p = None -> heap_of w !! ps = None ->
  exists w' bs bd, i_dbMount w (MkCfg (Some dbName) (Some file) (Some dropOnClose)) p tmp ps = Ok (KSTATUS_SUCCESS, w') /\
    two_lists w' ((ps, bs) :: sact) sdel ((p, bd) :: dact) ddel /\ (b_key bd = le_val name /\ b_key bs = le_val name) /\
    mounted (movePtrToUserData p) (movePtrToUserData ps) name file dropOnClose w' /\
    (forall q, q <> movePtrToUserData ps -> st_trees (w_stats w') !! q = st_trees (w_stats w) !! q) /\ w_sqlite w' = w_sqlite w.
Proof.
  intros [Hs Hd Hap] Hc Hl Hp Hps Hne Htmp Hfp Hfps. unfold i_dbMount. cbn [cfg_dbName cfg_fileName cfg_dropOnClose].
  rewrite (short_name dbName name Hc Hl). cbn [mbind res_bind]. rewrite (name_key name Hl). cbn [mbind res_bind].
  set (data := replicate 20 0 ++ _).
  destruct (add_ok (heap_of w) (w_DBList w) dact ddel (le_val name) data p Hd ltac:(lia) Hfp) as (h1 & E1 & Hd1 & C1).
  pose proof (fun z => add_frame _ _ _ _ _ _ _ _ _ z Hd Hfp E1) as F1. rewrite E1. cbn [mbind res_bind].
  set (p_db := movePtrToUserData p) in *. assert (Hpdb : 0 < p_db) by (unfold p_db, movePtrToUserData, sizeof_entry; lia).
  set (st1 := clear_counters _ p_db). destruct (clear_counters_heap (set_heap (w_stats w) h1) p_db) as (Hh1 & Hl1 & Ht1). fold st1 in Hh1, Hl1, Ht1.
  cbn [st_heap st_list st_trees set_heap] in Hh1, Hl1, Ht1. rewrite (proj2 (Z.eqb_neq p_db 0)) by lia.
  set (bd := new_body (le_val name) data) in *.
  assert (Hsp : forall z, z ∈ nodes_of (st_list (w_stats w)) sact sdel -> z ∉ p :: nodes_of (w_DBList w) dact ddel).
  { intros z Hz. apply not_elem_of_cons. split; [|by intros ?; eapply Hap].
    intros ->. destruct (dll_cells _ _ _ _ _ _ _ _ Hs Hz). congruence. }
  assert (Hs1 : dll_ok (st_heap st1) (st_list st1) sact sdel).
  { rewrite Hh1, Hl1. eapply lists_frame; [exact Hs|]. intros z Hz. by apply F1, Hsp. }
  assert (Hfps1 : h1 !! ps = None).
  { destruct (h1 !! ps) as [n|] eqn:En; [|done]. destruct (proj1 (C1 ps) ltac:(eauto)) as [?|[? ?]]; congruence. }
  assert (Hct : c_string (term name) name).
  { destruct Hc as (Hk & [r ->] & Hb). split; [done|]. split; [done|]. by apply list.Forall_app in Hb as [? _]. }
  cbn [w_stats set_stats].
  destruct (StatsSpec.create_ok st1 sact sdel (term name) name tmp ps Hs1 Hct) as (st2 & bs & E2 & Hs2 & L2 & _ & Ht2 & Hm2 & Hkb & _);
    [unfold term; rewrite length_app; cbn; lia|lia|done|done|by rewrite Hh1|].
  pose proof (fun z => create_frame st1 sact sdel (term name) tmp ps _ st2 z Hs1 ltac:(by rewrite Hh1) ltac:(lia) E2) as F2.
  rewrite E2. cbn [mbind res_bind]. set (sl := movePtrToUserData ps) in *.
  assert (Hsl : sl <> 0) by (unfold sl, movePtrToUserData, sizeof_entry; lia). rewrite (proj2 (Z.eqb_neq sl 0)) by done.
  cbn [w_stats set_stats set_db]. change (mount_stats (stat_addr p_db)) with (db_items p_db).*2.
  destruct (StatsSpec.alloc_bulk (db_items p_db) st2 sl sm_init ∅ Hsl) as (st3 & t & E3 & H3 & L3 & Ht3 & Hr3 & _ & Hall);
    [by rewrite Ht2, lookup_insert_eq|apply sm_init_rep|by apply db_items_ok|].
  rewrite E3. cbn [mbind res_bind]. change (negb (KSUCCESS KSTATUS_SUCCESS)) with false. cbv iota.
  rewrite (name_key name Hl) in Hkb. injection Hkb as Hkb. pose proof (fun q => StatsSpec.alloc_bulk_trees _ _ _ _ _ q E3) as T3.
  eexists _, bs, bd. split; [done|]. split; [|split; [by split|split; [|split; [|done]]]].
  - rewrite Hl1 in *. split; cbn [w_stats set_db set_stats w_DBList]; rewrite ?H3, ?L3, ?L2, ?Hl1 in *.
    + done.
    + eapply lists_frame; [exact Hd1|]. intros z Hz. rewrite <- Hh1. apply F2. apply not_elem_of_cons. split.
      * intros ->. destruct (dll_cells _ _ _ _ _ _ _ _ Hd1 Hz). congruence.
      * apply nodes_cons in Hz as [->|Hz]; [|by intros ?; eapply Hap].
        intros Hz. destruct (dll_cells _ _ _ _ _ _ _ _ Hs Hz). congruence.
    + intros z [->|Hz]%nodes_cons [Ez|Hz']%nodes_cons; [done| | |by eapply Hap].
      * destruct (dll_cells _ _ _ _ _ _ _ _ Hd Hz'). congruence.
      * subst z. destruct (dll_cells _ _ _ _ _ _ _ _ Hs Hz). congruence.
  - split; [cbn; apply lookup_insert_eq| |exists t; split; [exact Ht3|by rewrite <- counter_map_register]].
    intros s. cbn. refine (proj2 (Hall (take (length (stat_key s) - 1) (stat_key s)) (stat_key s) STATS_FLAGS_TYPE_SUM (stat_addr p_db s) _)).
    apply list_elem_of_fmap. exists s. split; [done|apply all_stats_all].
  - intros q Hq. cbn [w_stats set_db set_stats]. rewrite T3 by done. rewrite Ht2, lookup_insert_ne by done. by rewrite Ht1.
Qed.

Context `{SL : !SqliteLaws S}.

(** Any statement without variables on a database in use. *)
Lemma usable_dbExec (w : world) p stmt :
  usable w p -> exists fuel0 k w', usable w' p /\ forall fuel, (fuel0 <= fuel)%nat -> dbExec fuel w p stmt 0 [] = Ok (k, w').
Proof.
  intros (Hp & (db & Hdb & Hst) & f & Hc).
  assert (Hcb : forall (q : unit) (w : world) (st : Z), True -> exists rc q', i_dbExecEmptyCallback q w st = Ok (rc, q', w) /\ True) by eauto.
  destruct (exec_ok i_dbExecEmptyCallback (fun _ => True) Hcb w p db f stmt 0 tt [] Hp Hdb Hst Hc I ltac:(cbn; lia)) as [fuel0 H].
  destruct (H fuel0 ltac:(lia)) as (k & q & w' & f' & E & Hc' & _).
  destruct (exec_preserves i_dbExecEmptyCallback (fun _ => True) Hcb (keeps_true (fun _ => True)) _ _ _ _ _ _ _ _ _ _ I I I E) as [_ Hd].
  exists fuel0, k, w'. split; [split; [done|]; rewrite Hd; eauto|]. intros fuel Hf. unfold dbExec.
  by rewrite (exec_mono _ _ _ _ _ _ _ _ _ _ Hf E).
Qed.

Lemma open_ok w dact ddel p sl bd name file dropOnClose openT :
  dll_ok (heap_of w) (w_DBList w) ((p, bd) :: dact) ddel -> b_key bd = le_val name -> length name = 8%nat -> 0 < p ->
  mounted (movePtrToUserData p) sl name file dropOnClose w ->
  exists fuel0 k w', (forall fuel, (fuel0 <= fuel)%nat -> dbOpen fuel openT w (term name) = Ok (k, movePtrToUserData p, w')) /\
    if (sqlite_open (w_sqlite w) file).1.1 =? 0 then usable w' (movePtrToUserData p) else k = KSTATUS_DB_OPEN_ERROR.
Proof.
  intros Hd Hk Hl Hp [Hdb Hc _]. set (p_db := movePtrToUserData p) in *.
  assert (Hpdb : 0 < p_db) by (unfold p_db, movePtrToUserData, sizeof_entry; lia).
  pose proof (find_loop_ok (heap_of w) _ _ _ _ (le_val name) [] ((p, bd) :: dact) ddel (fuel_of (heap_of w)) Hd
    (nodes_fuel _ _ _ _ _ _ _ Hd)) as Hfind.
  cbn [list_find snd] in Hfind. rewrite decide_True in Hfind by done. destruct Hfind as (h' & Hfind & _).
  assert (Hfd : doublylinkedlistFind (heap_of w) (w_DBList w) (le_val name) = Ok (p_db, h')).
  { unfold doublylinkedlistFind. destruct (first_entry _ _ _ _ _ _ _ Hd) as [-> _]. exact Hfind. }
  set (w1 := set_stats w (set_heap (w_stats w) h')).
  assert (Hdb1 : db_of w1 p_db = Ok (MkDb 0 sl dropOnClose DB_FLAGS_STATE_MOUNTED (term name) file)).
  { unfold db_of. rewrite (proj2 (Z.eqb_neq p_db 0)) by lia. cbn. by rewrite Hdb. }
  destruct (sqlite_open (w_sqlite w) file) as [[rc conn] sq] eqn:Eo. cbn [fst snd].
  unfold dbOpen. setoid_rewrite (name_key name Hl). cbn [mbind res_bind]. setoid_rewrite Hfd. cbn [mbind res_bind].
  rewrite (proj2 (Z.eqb_neq p_db 0)) by lia. fold w1. setoid_rewrite Hdb1. cbn [mbind res_bind db_file_name].
  change (w_sqlite w1) with (w_sqlite w). rewrite Eo. destruct (rc =? 0) eqn:Erc; cbn [negb].
  2: { by eexists O, _, _. }
  set (w2 := set_db _ p_db _). assert (Hu : usable w2 p_db).
  { split; [done|]. split; [|by exists (fun _ => 0)]. eexists. split; [apply lookup_insert_eq|done]. }
  destruct (usable_dbExec w2 p_db (lit "PRAGMA journal_mode = WAL;") Hu) as (f1 & k1 & w3 & Hu3 & E3).
  destruct (KSUCCESS k1) eqn:Ek1.
  2: { exists f1, k1, w3. split; [|done]. intros fuel Hf. rewrite (E3 fuel Hf). cbn [mbind res_bind]. by rewrite Ek1. }
  destruct (usable_dbExec w3 p_db (lit "PRAGMA synchronous = NORMAL;") Hu3) as (f2 & k2 & w4 & Hu4 & E4).
  destruct (KSUCCESS k2) eqn:Ek2.
  2: { exists (f1 + f2)%nat, k2, w4. split; [|done]. intros fuel Hf. rewrite (E3 fuel) by lia. cbn [mbind res_bind]. rewrite Ek1.
       cbn [negb]. rewrite (E4 fuel) by lia. cbn [mbind res_bind]. by rewrite Ek2. }
  destruct (usable_bump w4 p_db DbOpenTime openT Hu4) as (w5 & E5 & Hu5 & _).
  destruct (usable_bump w5 p_db DbOpen 1 Hu5) as (w6 & E6 & Hu6 & _).
  exists (f1 + f2)%nat, KSTATUS_SUCCESS, w6. split; [|done]. intros fuel Hf. rewrite (E3 fuel) by lia. cbn [mbind res_bind]. rewrite Ek1.
  cbn [negb]. rewrite (E4 fuel) by lia. cbn [mbind res_bind]. rewrite Ek2. cbn [negb]. rewrite E5. cbn [mbind res_bind]. by rewrite E6.
Qed.
End mount.


(** An empty list of databases at 4096 and an empty list of statistics at 8192. *)
Definition empty_lists : heap :=
  match doublylinkedlistAlloc ∅ 4096 with
  | Ok (_, h) => match doublylinkedlistAlloc h 8192 with Ok (_, h) => h | Err _ => ∅ end
  | Err _ => ∅
  end.

Definition empty_world : @world mock ArtOps.art_tree := MkWorld ∅ (MkStats empty_lists 8192 ∅ ∅) 4096 ∅.

Lemma empty_two_lists : two_lists empty_world [] [] [] [].
Proof.
  destruct (alloc_ok ∅ 4096 ltac:(lia)) as (h1 & E1 & H1). destruct (alloc_ok h1 8192 ltac:(lia)) as (h2 & E2 & H2).
  assert (empty_lists = h2) as Eh by (unfold empty_lists; by rewrite E1, E2).
  split.
  - cbn. by rewrite Eh.
  - cbn. rewrite Eh. eapply lists_frame; [exact H1|]. intros z Hz.
    vm_compute in E1. injection E1 as <-. vm_compute in E2. injection E2 as <-.
    unfold nodes in Hz. cbn in Hz. rewrite !elem_of_cons in Hz. destruct Hz as [->|[->|Hz%elem_of_nil]]; [by vm_compute..|done].
  - intros z Hz Hz'. unfold nodes in Hz, Hz'. cbn in Hz, Hz'. rewrite !elem_of_cons, elem_of_nil in Hz, Hz'.
    unfold activeEntries, deletedEntries in *. lia.
Qed.


End Mount.
