(* ===== verification/Commands.v ===== *)
(** * The commands of the program

    Models [src/import_pcap.c] and [src/export_file.c], and the functions
    behind the pointers that [cmd_sync] stores for the three commands.  A
    capture file is the list of its packets; a written file is its contents,
    under its name.  The variables of the commands (the database, the caches
    and the files) are the globals of the kernel.  Log output is left out. *)

From Stdlib Require Import Ascii String.
From stdpp Require Import gmap.
From S2P Require Import Prelude CString Timer DList Queue Svc Stats Database DatabaseSpec Bst Mapper CmdManager PacketAnalyze.

Module Commands.
Import CStr Svc Stats Database CmdManager PacketAnalyze.

(** [sizeof(cmd_import_cfg_t)] and [sizeof(cmd_export_cfg_t)] *)
Definition sizeof_cfg : nat := 255.

(** The file name at the start of the data of a command. *)
Definition file_name (pdata : list Z) : res (list Z) := len ← strlen pdata; Ok (take len pdata).

(** ** Lines of an export *)

Definition export_buffer : nat := 512.

(** [strcat(buffer, s)]; [None]: a null pointer. *)
Definition strcat (buffer : list Z) (s : option (list Z)) : res (list Z) :=
  s ← deref s;
  n ← strlen buffer;
  len ← strlen s;
  memcpy buffer n s 0 (len + 1).

(** The loop over the columns from [i] on, [n] of them left. *)
Fixpoint cat_columns (text : nat -> option (list Z)) (n i : nat) (buffer : list Z) : res (list Z) :=
  match n with
  | O => Ok buffer
  | Datatypes.S n' =>
      buffer ← (if (0 <? i)%nat then strcat buffer (Some (lit "|")) else Ok buffer);
      buffer ← strcat buffer (text i);
      cat_columns text n' (Datatypes.S i) buffer
  end.

(** One line: the columns, the end of the line, and what [write] gets. *)
Definition export_line (text : nat -> option (list Z)) (n : nat) : res (list Z) :=
  buffer ← cat_columns text n 0 (replicate export_buffer 0);
  buffer ← strcat buffer (Some [10; 0]);
  len ← strlen buffer;
  Ok (take len buffer).

(** An open file: how many of the bytes it is passed [write] writes, given the
    contents so far; 0 when it fails. *)
Definition file_t : Type := list Z -> list Z -> nat.

(** [cmd_export_onefile_t], with the contents of the file. *)
Record cmd_export_onefile_t : Type := MkFile { f_fd : file_t; f_contents : list Z; f_isHeaderPrinted : bool }.

(** The contents after [write(fd, bytes, length)], whose result is ignored. *)
Definition write (fd : file_t) (contents bytes : list Z) : list Z := contents ++ take (fd contents bytes) bytes.

Section commands.
Context {S T : Type} `{SQ : Sqlite S} `{SM : StringMap T}.
Context (column_int : S -> Z -> nat -> Z) (column_text column_name : S -> Z -> nat -> option (list Z)).
Context (column_count : S -> Z -> nat).
Context (ether_aton : list Z -> option (list Z)) (ether_ntoa : list Z -> list Z).
Context (inet_aton : list Z -> option Z) (inet_ntoa : Z -> list Z).
Context (gethostbyaddr : Z -> option (list Z)) (real_time : nat -> S -> Timer.timespec).

(** [pcap_open_offline]: the packets of a capture file, [None] when it cannot
    be read; [file_open]: a file opened for writing, [None] when it cannot be. *)
Context (pcap_open_offline : list Z -> option (list (timeval * list Z))) (file_open : list Z -> option file_t).
Context (fuel : nat) (mem : bool).

(** [g_Main._db], the caches, and the files written so far. *)
Record globals : Type := MkGlobals {
  g_db : Z;
  g_caches : @caches S T;
  g_files : gmap (list Z) (list Z)
}.

Abbreviation kernel := (@kernel S T globals).

Definition getNiuchaczPcapDB (k : kernel) : Z := g_db (k_globals k).

Definition set_caches (k : kernel) (cs : @caches S T) : kernel :=
  set_globals k (MkGlobals (g_db (k_globals k)) cs (g_files (k_globals k))).
Definition set_file (k : kernel) (name contents : list Z) : kernel :=
  set_globals k (MkGlobals (g_db (k_globals k)) (g_caches (k_globals k)) (<[name := contents]> (g_files (k_globals k)))).

(** ** Analysing packets *)

Definition packet_exec (k : kernel) (ts : timeval) (pdata : list Z) : res (Z * kernel) :=
  '(r, cs, w) ← cmdPacketAnalyzeExec column_int ether_ntoa inet_ntoa gethostbyaddr real_time (getNiuchaczPcapDB k) fuel mem
     (k_world k) (g_caches (k_globals k)) ts pdata;
  Ok (r, set_caches (set_world k w) cs).

Definition packet_create (k : kernel) : res (Z * kernel) :=
  '(r, cs, w) ← cmdPacketAnalyzeCreate column_int column_text ether_aton inet_aton inet_ntoa gethostbyaddr real_time
     (getNiuchaczPcapDB k) fuel mem (k_world k) (g_caches (k_globals k)) mem mem;
  Ok (r, set_caches (set_world k w) cs).

Definition packet_destroy (k : kernel) : res (Z * kernel) :=
  let '(r, cs) := cmdPacketAnalyzeDestroy (g_caches (k_globals k)) in Ok (r, set_caches k cs).

(** ** Importing *)

(** The loop over the packets of the file. *)
Fixpoint import_loop (k : kernel) (packets : list (timeval * list Z)) : res kernel :=
  match packets with
  | [] => Ok k
  | (ts, packet) :: packets' => '(_, k) ← packet_exec k ts packet; import_loop k packets'
  end.

Definition i_importPcap (k : kernel) (pfile_name : list Z) : res (Z * kernel) :=
  match pcap_open_offline pfile_name with
  | None => Ok (-1, k)
  | Some packets => k ← import_loop k packets; Ok (0, k)
  end.

Definition cmdImportPcapExec (k : kernel) (ts : timeval) (pdata : list Z) : res (Z * kernel) :=
  if negb (length pdata =? sizeof_cfg)%nat then Ok (-1, k)
  else name ← file_name pdata; i_importPcap k name.

Definition cmdImportPcapCreate : Z := 0.
Definition cmdImportPcapDestroy : Z := 0.

(** ** Exporting *)

Definition i_cmdExportCallback (f : cmd_export_onefile_t) (w : @world S T) (stmt : Z)
    : res (Z * cmd_export_onefile_t * @world S T) :=
  let n := column_count (w_sqlite w) stmt in
  f ← (if f_isHeaderPrinted f then Ok f
       else
         header ← export_line (column_name (w_sqlite w) stmt) n;
         Ok (MkFile (f_fd f) (write (f_fd f) (f_contents f) header) true));
  row ← export_line (column_text (w_sqlite w) stmt) n;
  Ok (0, MkFile (f_fd f) (write (f_fd f) (f_contents f) row) (f_isHeaderPrinted f), w).

Definition cmdExportFileExec (k : kernel) (ts : timeval) (pdata : list Z) : res (Z * kernel) :=
  if negb (length pdata =? sizeof_cfg)%nat then Ok (-1, k)
  else
    name ← file_name pdata;
    match file_open name with
    | None => Ok (-1, k)
    | Some fd =>
      '(_, f, w) ← dbExecQuery i_cmdExportCallback fuel (k_world k) (getNiuchaczPcapDB k) (lit "select * from packets;") 0
         (MkFile fd [] false) [];
      Ok (0, set_file (set_world k w) name (f_contents f))
    end.

Definition cmdExportFileCreate : Z := 0.
Definition cmdExportFileDestroy : Z := 0.

(** ** The functions behind the pointers *)

(** The addresses of the functions: three commands, each with its exec, create
    and destroy function.  Calling anything else is undefined. *)
Inductive command : Type := PacketAnalyzeCmd | ImportPcapCmd | ExportFileCmd.
Definition command_index (c : command) : Z := match c with PacketAnalyzeCmd => 0 | ImportPcapCmd => 1 | ExportFileCmd => 2 end.
Definition exec_addr (c : command) : Z := 4096 + 48 * command_index c.
Definition create_addr (c : command) : Z := 4112 + 48 * command_index c.
Definition destroy_addr (c : command) : Z := 4128 + 48 * command_index c.

Definition exec_fn (p : Z) (ts : timeval) (pdata : list Z) (k : kernel) : res (Z * kernel) :=
  if p =? exec_addr PacketAnalyzeCmd then packet_exec k ts pdata
  else if p =? exec_addr ImportPcapCmd then cmdImportPcapExec k ts pdata
  else if p =? exec_addr ExportFileCmd then cmdExportFileExec k ts pdata
  else Err NullDeref.

Definition call_fn (p : Z) (k : kernel) : res (Z * kernel) :=
  if p =? create_addr PacketAnalyzeCmd then packet_create k
  else if p =? destroy_addr PacketAnalyzeCmd then packet_destroy k
  else if p =? create_addr ImportPcapCmd then Ok (cmdImportPcapCreate, k)
  else if p =? destroy_addr ImportPcapCmd then Ok (cmdImportPcapDestroy, k)
  else if p =? create_addr ExportFileCmd then Ok (cmdExportFileCreate, k)
  else if p =? destroy_addr ExportFileCmd then Ok (cmdExportFileDestroy, k)
  else Err NullDeref.

End commands.

(** ** Correctness of the export *)

(** The buffer holds the text [body] and zeros behind it. *)
Definition text_buffer (body : list Z) : list Z := body ++ replicate (export_buffer - length body) 0.

Lemma strcat_text body s k :
  key_ok body -> (length body < export_buffer)%nat -> c_string s k ->
  strcat (text_buffer body) (Some s) =
    if (length (body ++ k) <? export_buffer)%nat then Ok (text_buffer (body ++ k)) else Err OutOfBounds.
Proof.
  intros Hb Hl Hs. unfold strcat. cbn [mbind res_bind deref].
  assert (Hbuf : c_string (text_buffer body) body).
  { split; [done|]. split.
    - exists (replicate (export_buffer - length body - 1) 0). unfold text_buffer, term. rewrite <- app_assoc.
      f_equal. destruct (export_buffer - length body)%nat as [|d] eqn:E; [lia|]. cbn. by rewrite Nat.sub_0_r.
    - apply list.Forall_app. split; [|apply list.Forall_replicate; done].
      eapply list.Forall_impl; [exact Hb|]. cbv beta. unfold is_u. change (2 ^ 8) with 256. lia. }
  rewrite (strlen_c_string _ _ Hbuf), (strlen_c_string _ _ Hs). cbn [mbind res_bind].
  assert (Ht : length (text_buffer body) = export_buffer) by (unfold text_buffer; rewrite length_app, length_replicate; lia).
  destruct Hs as (_ & [r ->] & _). unfold memcpy, term. rewrite Ht, !length_app. cbn [length].
  destruct (Nat.ltb_spec (length body + length k) export_buffer) as [Hf|Hf].
  - rewrite decide_True by lia. f_equal. rewrite drop_0. unfold text_buffer.
    rewrite take_app_length, take_app_le, take_ge, length_app by (rewrite length_app; cbn; lia).
    rewrite drop_app_ge by lia. rewrite drop_replicate, <- !app_assoc. do 2 f_equal. cbn [app].
    destruct (export_buffer - (length body + length k))%nat as [|d] eqn:E; [lia|]. cbn [replicate]. do 2 f_equal. lia.
  - rewrite decide_False by lia. done.
Qed.

Definition bar (i : nat) : list Z := if (0 <? i)%nat then [124] else [].

(** The columns from [i] on, separated by bars. *)
Fixpoint joined (cols : nat -> list Z) (n i : nat) : list Z :=
  match n with
  | O => []
  | Datatypes.S n' => bar i ++ cols i ++ joined cols n' (Datatypes.S i)
  end.

(** The first column from [i] on without a text. *)
Fixpoint first_null (cols : nat -> option (list Z)) (n i : nat) : option nat :=
  match n with
  | O => None
  | Datatypes.S n' => match cols i with None => Some i | Some _ => first_null cols n' (Datatypes.S i) end
  end.

Definition line_fits (l : list Z) : bool := (length l <? export_buffer)%nat.

(** What comes of a line: its text, a null pointer that is followed, or a write
    behind the buffer, whichever comes first. *)
Definition line_outcome (cols : nat -> option (list Z)) (n : nat) : res (list Z) :=
  let body m := joined (fun i => default [] (cols i)) m 0 in
  match first_null cols n 0 with
  | None => if line_fits (body n ++ [10]) then Ok (body n ++ [10]) else Err OutOfBounds
  | Some i => if line_fits (body i ++ bar i) then Err NullDeref else Err OutOfBounds
  end.

(** The texts SQLite returns: [None] for the [NULL] of a column. *)
Definition texts_of (text : nat -> option (list Z)) (cols : nat -> option (list Z)) (n : nat) : Prop :=
  forall i, (i < n)%nat ->
  match cols i with None => text i = None | Some k => exists s, text i = Some s /\ c_string s k end.

Lemma first_null_bounds cols n i j : first_null cols n i = Some j -> (i <= j < i + n)%nat.
Proof.
  revert i. induction n as [|n IH]; intros i; [done|]. cbn [first_null]. destruct (cols i); [|intros [= <-]; lia].
  intros H%IH. lia.
Qed.

Section lines.
Context (text cols : nat -> option (list Z)) (N : nat).
Hypothesis Htext : texts_of text cols N.
Abbreviation col i := (default [] (cols i)).

Lemma key_ok_app a b : key_ok a -> key_ok b -> key_ok (a ++ b).
Proof. intros. by apply list.Forall_app. Qed.

Lemma col_ok i : (i < N)%nat -> key_ok (col i).
Proof. intros Hi. specialize (Htext i Hi). destruct (cols i); [by destruct Htext as (s & _ & [Hk _])|constructor]. Qed.

Lemma bar_ok i : key_ok (bar i).
Proof. unfold bar. destruct (0 <? i)%nat; decide_closed. Qed.

Lemma joined_ok n i : (i + n <= N)%nat -> key_ok (joined (fun i => col i) n i).
Proof.
  revert i. induction n as [|n IH]; intros i Hi; cbn [joined]; [constructor|].
  apply key_ok_app; [apply bar_ok|]. apply key_ok_app; [apply col_ok; lia|apply IH; lia].
Qed.

Lemma cat_bar i body :
  key_ok body -> line_fits body = true ->
  (if (0 <? i)%nat then strcat (text_buffer body) (Some (lit "|")) else Ok (text_buffer body)) =
    if line_fits (body ++ bar i) then Ok (text_buffer (body ++ bar i)) else Err OutOfBounds.
Proof.
  intros Hb Hl. unfold bar. destruct (0 <? i)%nat; [|by rewrite app_nil_r, Hl].
  apply strcat_text; [done|by apply Nat.ltb_lt|]. change (lit "|") with (term [124]). decide_closed.
Qed.

Lemma fits_app a b : line_fits (a ++ b) = true -> line_fits a = true.
Proof. unfold line_fits. rewrite length_app, !Nat.ltb_lt. lia. Qed.

Lemma fits_prefix a b : line_fits a = false -> line_fits (a ++ b) = false.
Proof. unfold line_fits. rewrite length_app, !Nat.ltb_ge. lia. Qed.

Lemma cat_columns_ok n i body :
  (i + n <= N)%nat -> key_ok body -> line_fits body = true ->
  cat_columns text n i (text_buffer body) =
    match first_null cols n i with
    | None => let r := body ++ joined (fun i => col i) n i in if line_fits r then Ok (text_buffer r) else Err OutOfBounds
    | Some j => if line_fits (body ++ joined (fun i => col i) (j - i) i ++ bar j) then Err NullDeref else Err OutOfBounds
    end.
Proof.
  revert i body. induction n as [|n IH]; intros i body Hi Hb Hl; cbn [cat_columns joined first_null].
  { by rewrite app_nil_r, Hl. }
  rewrite (cat_bar i body Hb Hl). pose proof (Htext i ltac:(lia)) as Ht.
  destruct (cols i) as [k|] eqn:Ek.
  2: { rewrite Ht, Nat.sub_diag. cbn [joined app]. by destruct (line_fits (body ++ bar i)). }
  destruct Ht as (s & -> & Hs). pose proof Hs as [Hk _].
  assert (Hb1 : key_ok (body ++ bar i)) by (apply key_ok_app; [done|apply bar_ok]).
  assert (Hb2 : key_ok ((body ++ bar i) ++ k)) by (by apply key_ok_app).
  assert (Hj : forall j, (Datatypes.S i <= j)%nat ->
    joined (fun i => col i) (j - i) i = bar i ++ k ++ joined (fun i => col i) (j - Datatypes.S i) (Datatypes.S i)).
  { intros j Hj. replace (j - i)%nat with (Datatypes.S (j - Datatypes.S i)) by lia. cbn [joined]. by rewrite Ek. }
  destruct (line_fits (body ++ bar i)) eqn:H1; cbn [mbind res_bind].
  2: { destruct (first_null cols n (Datatypes.S i)) as [j|] eqn:En.
       - apply first_null_bounds in En. rewrite (Hj j), <- !app_assoc, (app_assoc body) by lia. by rewrite fits_prefix.
       - cbn zeta. by rewrite (app_assoc body), fits_prefix. }
  rewrite (strcat_text _ _ _ Hb1 (proj1 (Nat.ltb_lt _ _) H1) Hs). fold (line_fits ((body ++ bar i) ++ k)).
  destruct (line_fits ((body ++ bar i) ++ k)) eqn:H2; cbn [mbind res_bind].
  2: { destruct (first_null cols n (Datatypes.S i)) as [j|] eqn:En.
       - apply first_null_bounds in En. rewrite (Hj j), <- !app_assoc, (app_assoc body), (app_assoc (body ++ _)) by lia.
         by rewrite fits_prefix.
       - cbn zeta. cbn [default]. by rewrite (app_assoc body), (app_assoc (body ++ _)), fits_prefix. }
  rewrite (IH (Datatypes.S i) _ ltac:(lia) Hb2 H2). destruct (first_null cols n (Datatypes.S i)) as [j|] eqn:En.
  - apply first_null_bounds in En. by rewrite (Hj j), <- !app_assoc by lia.
  - cbn zeta. cbn [default]. by rewrite <- !app_assoc.
Qed.

Lemma export_line_ok : export_line text N = line_outcome cols N.
Proof.
  unfold export_line, line_outcome. change (replicate export_buffer 0) with (text_buffer []).
  rewrite cat_columns_ok by (lia || apply list.Forall_nil_2 || reflexivity). cbn [app].
  destruct (first_null cols N 0) as [i|]; cbn zeta; [rewrite Nat.sub_0_r; by destruct (line_fits _)|].
  set (line := joined (fun i => col i) N 0). pose proof (joined_ok N 0 ltac:(lia)) as Hj. fold line in Hj.
  destruct (line_fits line) eqn:H1; cbn [mbind res_bind]; [|by rewrite fits_prefix].
  rewrite (strcat_text _ _ [10] Hj (proj1 (Nat.ltb_lt _ _) H1)) by decide_closed. fold (line_fits (line ++ [10])).
  destruct (line_fits (line ++ [10])) eqn:H2; cbn [mbind res_bind]; [|done]. apply Nat.ltb_lt in H2.
  assert (Hl : strlen (text_buffer (line ++ [10])) = Ok (length (line ++ [10]))).
  { assert (Hk : key_ok (line ++ [10])) by (apply key_ok_app; [done|decide_closed]). revert H2 Hk.
    generalize (line ++ [10]). clear. intros l H2 Hk.
    unfold text_buffer. destruct (export_buffer - length l)%nat as [|d] eqn:E; [lia|]. clear E H2.
    induction Hk as [|b l Hb _ IH]; [done|]. cbn [app strlen]. destruct (Z.eqb_spec b 0); [lia|]. by rewrite IH. }
  rewrite Hl. cbn [mbind res_bind]. unfold text_buffer. by rewrite take_app_length.
Qed.
End lines.

(** C38: exporting a row.  A line holds the columns separated by bars and a
    newline; the row is passed to [write], and before the first row of the file,
    and only then, a line with the names of the columns; how much of a line
    reaches the file is up to [write], whose result is ignored, and with full
    writes the file grows by exactly the two lines.  A line of more than 511
    characters is written behind the end of the buffer, and a column that is
    [NULL] is a null pointer that [strcat] follows. *)
Theorem export_callback_lines (S T : Type) (SQ : Sqlite S) (column_text column_name : S -> Z -> nat -> option (list Z))
    (column_count : S -> Z -> nat) (f : cmd_export_onefile_t) (w : @world S T) stmt names cols :
  let n := column_count (w_sqlite w) stmt in
  texts_of (column_name (w_sqlite w) stmt) names n -> texts_of (column_text (w_sqlite w) stmt) cols n ->
  let header := if f_isHeaderPrinted f then Ok [] else line_outcome names n in
  let row := line_outcome cols n in
  let fd := f_fd f in
  i_cmdExportCallback column_text column_name column_count f w stmt =
    match header, row with
    | Ok h, Ok r => Ok (0, MkFile fd (write fd (write fd (f_contents f) h) r) true, w)
    | Ok _, Err e | Err e, _ => Err e
    end /\
  forall h r, header = Ok h -> row = Ok r -> (forall c b, (length b <= fd c b)%nat) ->
    i_cmdExportCallback column_text column_name column_count f w stmt = Ok (0, MkFile fd (f_contents f ++ h ++ r) true, w).
Proof.
  intros n Hn Hc header row fd.
  assert (E : i_cmdExportCallback column_text column_name column_count f w stmt =
    match header, row with
    | Ok h, Ok r => Ok (0, MkFile fd (write fd (write fd (f_contents f) h) r) true, w)
    | Ok _, Err e | Err e, _ => Err e
    end).
  { unfold i_cmdExportCallback. fold n. rewrite (export_line_ok _ _ n Hn), (export_line_ok _ _ n Hc). fold row.
    subst header fd. destruct f as [fd contents [|]]; cbn [mbind res_bind f_fd f_contents f_isHeaderPrinted].
    - destruct row; [|done]. cbn [mbind res_bind]. unfold write at 3. by rewrite take_nil, app_nil_r.
    - destruct (line_outcome names n); [|done]. by destruct row. }
  split; [done|]. intros h r Eh Er Hfull. rewrite E, Eh, Er. unfold write.
  by rewrite !take_ge, <- app_assoc by apply Hfull.
Qed.

(** A row with the columns "12" and "7" named "a" and "b", and a row whose second
    column is [NULL]. *)
Lemma export_callback_lines_witness :
  let name := fun (_ : gmap Z nat) (_ : Z) (i : nat) => Some (if (i =? 0)%nat then lit "a" else lit "b") in
  let text := fun (_ : gmap Z nat) (_ : Z) (i : nat) => Some (if (i =? 0)%nat then lit "12" else lit "7") in
  let null := fun (_ : gmap Z nat) (_ : Z) (i : nat) => if (i =? 0)%nat then Some (lit "12") else None in
  let full := fun (_ bytes : list Z) => length bytes in
  exists w : @world (gmap Z nat) unit,
    i_cmdExportCallback text name (fun _ _ => 2%nat) (MkFile full [] false) w 1 =
      Ok (0, MkFile full [97; 124; 98; 10; 49; 50; 124; 55; 10] true, w) /\
    i_cmdExportCallback null name (fun _ _ => 2%nat) (MkFile full [] false) w 1 = Err NullDeref.
Proof.
  intros name text null full. exists (MkWorld ∅ (MkStats ∅ 0 ∅ ∅) 0 ∅). split.
  - destruct (export_callback_lines (gmap Z nat) unit DatabaseSpec.mock_sqlite text name (fun _ _ => 2%nat) (MkFile full [] false)
      (MkWorld ∅ (MkStats ∅ 0 ∅ ∅) 0 ∅) 1 (fun i => Some (if (i =? 0)%nat then [97] else [98]))
      (fun i => Some (if (i =? 0)%nat then [49; 50] else [55]))) as [_ H].
    + intros i _. exists (if (i =? 0)%nat then lit "a" else lit "b"). split; [reflexivity|]. destruct (i =? 0)%nat; decide_closed.
    + intros i _. exists (if (i =? 0)%nat then lit "12" else lit "7"). split; [reflexivity|]. destruct (i =? 0)%nat; decide_closed.
    + apply (H [97; 124; 98; 10] [49; 50; 124; 55; 10]); [reflexivity|reflexivity|]. intros c b. apply Nat.le_refl.
  - destruct (export_callback_lines (gmap Z nat) unit DatabaseSpec.mock_sqlite null name (fun _ _ => 2%nat) (MkFile full [] false)
      (MkWorld ∅ (MkStats ∅ 0 ∅ ∅) 0 ∅) 1 (fun i => Some (if (i =? 0)%nat then [97] else [98]))
      (fun i => if (i =? 0)%nat then Some [49; 50] else None)) as [H _].
    + intros i _. exists (if (i =? 0)%nat then lit "a" else lit "b"). split; [reflexivity|]. destruct (i =? 0)%nat; decide_closed.
    + intros i _. unfold null. destruct (i =? 0)%nat; [|reflexivity]. exists (lit "12"). split; [reflexivity|decide_closed].
    + exact H.
Defined.

End Commands.
