(* ===== verification/PacketExec.v ===== *)
(** * The packet command keeps its caches well formed

    For any SQLite that obeys the rules of statements and transactions: whatever
    frame arrives, the command ends with two well-formed caches, an open
    database and no open transaction other than one whose [ROLLBACK] failed,
    unless it reads a variable that was never set or runs out of memory;
    importing a capture file does so for all its frames.  Unlike the
    description of a single lookup, nothing is assumed about the order of the
    keys in a cache, which a deletion does not keep for keys above [INT_MAX]. *)

From stdpp Require Import gmap.
From S2P Require Import Prelude CString ArtTree ArtMap Timer DList Svc Stats Database DatabaseSpec Journal Bst BstSpec Mapper CmdManager PacketAnalyze PacketSpec Commands.

Module PacketExec.
Import CStr ArtMap Timer Svc Stats Database DatabaseSpec Journal Bst BstSpec CmdManager PacketAnalyze PacketSpec Commands.

(** What SQLite promises about statements and transactions: while no prepared
    statement controls transactions ([calm]), statements that read or change
    rows open none. *)
Class StmtLaws (S : Type) `{TL : TxnLaws S} := {
  calm : S -> Prop;
  calm_prepare s c q rc st s' :
    data_stmt q -> calm s -> sqlite_prepare s c q = (rc, st, s') -> calm s' /\ (forall c, in_txn s c = false -> in_txn s' c = false);
  calm_bind s st i a rc s' :
    calm s -> sqlite_bind s st i a = (rc, s') -> calm s' /\ (forall c, in_txn s c = false -> in_txn s' c = false);
  calm_step s st rc s' :
    calm s -> sqlite_step s st = (rc, s') -> calm s' /\ (forall c, in_txn s c = false -> in_txn s' c = false);
  calm_finalize s st rc s' :
    calm s -> sqlite_finalize s st = (rc, s') -> calm s' /\ (forall c, in_txn s c = false -> in_txn s' c = false);
  calm_exec s c q rc s' : calm s -> sqlite_exec s c q = (rc, s') -> calm s'
}.

#[export] Program Instance logged_stmt {S} `{ML : StmtLaws S} : StmtLaws (logged S) := { calm s := calm (lg_state s) }.
Next Obligation. intros S SQ TL ML s c q rc st s' Hq Hc E. unlog E. by eapply calm_prepare. Qed.
Next Obligation. intros S SQ TL ML s st i a rc s' Hc E. unlog E. by eapply calm_bind. Qed.
Next Obligation. intros S SQ TL ML s st rc s' Hc E. unlog E. by eapply calm_step. Qed.
Next Obligation. intros S SQ TL ML s st rc s' Hc E. unlog E. by eapply calm_finalize. Qed.
Next Obligation. intros S SQ TL ML s c q rc s' Hc E. unlog E. by eapply calm_exec. Qed.

(** ** Runs that end alike for every large bound *)

(** For all large enough bounds [run] gives the same outcome, which satisfies
    [Q]; [wrap] puts the parts that mention the bound back. *)
Definition settles {A B} (wrap : nat -> A -> B) (Q : res A -> Prop) (run : nat -> res B) : Prop :=
  exists fuel0 out, Q out /\ forall fuel, (fuel0 <= fuel)%nat -> run fuel = (a ← out; Ok (wrap fuel a)).

Lemma settles_ok {A B} (wrap : nat -> A -> B) (Q : res A -> Prop) a :
  Q (Ok a) -> settles wrap Q (fun fuel => Ok (wrap fuel a)).
Proof. intros Ha. by exists O, (Ok a). Qed.

(** The run ends with [a], whatever the bound. *)
Ltac settle_with a := exists O, (Ok a); split; [|intros ? ?; reflexivity].

Lemma settles_err {A B} (wrap : nat -> A -> B) (Q : res A -> Prop) e :
  Q (Err e) -> settles wrap Q (fun _ => Err e).
Proof. intros He. by exists O, (Err e). Qed.

Lemma settles_bind {A B C D} (wrap : nat -> A -> B) (wrap' : nat -> C -> D) (Q : res A -> Prop) (Q' : res C -> Prop)
    (run : nat -> res B) (k : nat -> B -> res D) :
  settles wrap Q run -> (forall e, Q (Err e) -> Q' (Err e)) ->
  (forall a, Q (Ok a) -> settles wrap' Q' (fun fuel => k fuel (wrap fuel a))) ->
  settles wrap' Q' (fun fuel => run fuel ≫= k fuel).
Proof.
  intros (n & [a|e] & HQ & Hrun) He Hk.
  - destruct (Hk a HQ) as (n' & out & HQ' & Hrun'). exists (n + n')%nat, out. split; [done|]. intros fuel Hf.
    rewrite Hrun by lia. cbn [mbind res_bind]. apply Hrun'. lia.
  - exists n, (Err e). split; [by apply He|]. intros fuel Hf. by rewrite Hrun.
Qed.

Lemma settles_ext {A B} (wrap : nat -> A -> B) (Q : res A -> Prop) run run' :
  (forall fuel, run fuel = run' fuel) -> settles wrap Q run' -> settles wrap Q run.
Proof. intros E (n & out & HQ & H). exists n, out. split; [done|]. intros fuel Hf. rewrite E. by apply H. Qed.

(** ** Caches *)

(** A time stamp of a cache: a reading of the clock before 2106, prolonged. *)
Definition stamped (d : timespec) : Prop := 0 <= Timer.tv_sec d < 2 ^ 32 + 3600 /\ 0 <= tv_nsec d < NSEC.

Lemma stamped_normal d : stamped d -> normal d.
Proof. unfold stamped, normal. change (2 ^ 32) with 4294967296. change (2 ^ 33) with 8589934592. lia. Qed.

(** An entry holds an [int]; its time stamp is unset or one of a cache. *)
Definition sound_entry (e : entry) : Prop :=
  e_dataSize e = sizeof_int /\ length (e_data e) = sizeof_int /\
  match e_dataTimeout e with Some d => stamped d | None => True end.

Fixpoint sound (t : bst_node) : Prop :=
  match t with
  | Null => True
  | Node k l r e => sound_entry e /\ sound l /\ sound r
  end.

#[export] Instance stamped_dec d : Decision (stamped d).
Proof. unfold stamped. apply _. Defined.
#[export] Instance sound_entry_dec e : Decision (sound_entry e).
Proof. unfold sound_entry. destruct (e_dataTimeout e); apply _. Defined.
#[export] Instance sound_dec t : Decision (sound t).
Proof. induction t; cbn; apply _. Defined.

Lemma find_sound t key e : sound t -> bst_find_loop t key = Some e -> sound_entry e.
Proof.
  induction t as [|k l IHl r IHr e']; [done|]. intros (He & Hl & Hr). cbn.
  destruct (k =? key); [by intros [= <-]|]. destruct (key <? k); auto.
Qed.

Lemma update_sound t key e : sound t -> sound_entry e -> sound (update_node t key e).
Proof.
  induction t as [|k l IHl r IHr e']; [done|]. intros (He & Hl & Hr) He'. cbn.
  destruct (k =? key); [done|]. destruct (key <? k); cbn; auto.
Qed.

Lemma delete_sound t key : sound t -> sound (i_bst_delete_node t key).
Proof.
  revert key. induction t as [|k l IHl r IHr e]; [done|]. intros key (He & Hl & Hr). cbn -[i_bst_min_value].
  destruct (_ <? k); [by split_and!; [|apply IHl|]|]. destruct (k <? _); [by split_and!; [| |apply IHr]|].
  destruct l as [|kl ll rl el]; [done|]. destruct r as [|kr lr rr er]; [done|].
  destruct (i_bst_min_value (Node kr lr rr er)) as [|temp lm rm em]; [by split_and!|].
  split_and!; [done|exact Hl|by apply (IHr temp)].
Qed.

(** An insertion into a cache fails only for lack of memory. *)
Lemma insert_sound mem parent t key buf ts :
  sound t -> length buf = sizeof_int -> stamped ts ->
  match insert_loop mem parent t key buf sizeof_int (Some ts) with
  | Ok t' => sound t'
  | Err e => mem = false /\ e = NullDeref
  end.
Proof.
  intros Ht Hb Hts. revert parent. induction t as [|k l IHl r IHr e]; intros parent; cbn [insert_loop].
  - unfold i_bst_alloc_node. destruct mem; [|done].
    rewrite copy_in_ok by (done || (cbn; lia) || lia). cbn [mbind res_bind e_dataTimeout e_dataSize e_data].
    assert (sound_entry (MkEntry None sizeof_int (take sizeof_int buf ++ drop sizeof_int (replicate sizeof_int None)))) as He.
    { split_and!; [done| |done]. cbn [e_data]. rewrite length_app, length_take, length_drop, length_replicate. lia. }
    destruct parent; cbn; [|done]. destruct He as (? & ? & _). done.
  - destruct Ht as (He & Hl & Hr). specialize (IHl Hl true). specialize (IHr Hr true). destruct (k =? key).
    + destruct He as (Hs & Hd & Ho). rewrite Hs. cbn [Nat.leb sizeof_int].
      rewrite copy_in_ok by (unfold entry_ok; lia). cbn [mbind res_bind].
      split_and!; [|done..]. split_and!; [done| |done]. cbn [e_data]. rewrite length_app, length_take, length_drop. lia.
    + destruct (key <? k).
      * destruct (insert_loop mem true l key buf sizeof_int (Some ts)); cbn [mbind res_bind]; [by split_and!|done].
      * destruct (insert_loop mem true r key buf sizeof_int (Some ts)); cbn [mbind res_bind]; [by split_and!|done].
Qed.

(** ** Statements outside transactions *)

Section exec.
Context {S T : Type} `{SQ : Sqlite S} `{SL : !SqliteLaws S} `{TL : !TxnLaws S} `{ML : !StmtLaws S} `{JL : !Journal S} `{SM : StringMap T}.
Abbreviation world := (@world S T).
Context (mem : bool) (J0 : list call).   (* whether [malloc] succeeds; the journal at first *)
Context (column_int : S -> Z -> nat -> Z) (ether_ntoa : list Z -> list Z) (inet_ntoa : Z -> list Z).
Context (gethostbyaddr : Z -> option (list Z)) (real_time : nat -> S -> timespec) (p : Z).

(** The clock shows a time before 2106. *)
Definition clock_ok : Prop :=
  forall i s, 0 <= Timer.tv_sec (real_time i s) < 2 ^ 32 /\ 0 <= tv_nsec (real_time i s) < NSEC.
Context (Hclock : clock_ok).

(** The state of SQLite on the connection [c]: since the journal was [J0], each
    transaction was closed or its [ROLLBACK] failed. *)
Definition since (s : S) : Prop := exists j, journal s = J0 ++ j.
Definition settled (c : Z) (s : S) : Prop :=
  exists j, journal s = J0 ++ j /\ (in_txn s c = false \/ rollback_failed c j).

(** The database is open and settled. *)
Definition ready (w : world) : Prop :=
  usable w p /\ calm (w_sqlite w) /\ settled (conn_of w p) (w_sqlite w).

Lemma settled_since c s : settled c s -> since s.
Proof. intros (j & E & _). by exists j. Qed.

Lemma since_more s s' j : since s -> journal s' = journal s ++ j -> since s'.
Proof. intros (j0 & E0) E. exists (j0 ++ j). by rewrite E, E0, app_assoc. Qed.

(** A call that extends the journal and opens no transaction. *)
Lemma settled_more c s s' j :
  settled c s -> journal s' = journal s ++ j -> (in_txn s c = false -> in_txn s' c = false) -> settled c s'.
Proof.
  intros (j0 & E0 & H) E Ht. exists (j0 ++ j). split; [by rewrite E, E0, app_assoc|].
  destruct H as [H|H]; [left; auto|right; by apply rollback_failed_app].
Qed.

Lemma settled_same c s s' :
  settled c s -> journal s' = journal s -> (in_txn s c = false -> in_txn s' c = false) -> settled c s'.
Proof. intros H E. apply (settled_more c s s' [] H). by rewrite app_nil_r. Qed.

Lemma calm_keeps : keeps data_stmt (fun s => calm s /\ since s).
Proof.
  split.
  - intros s c q rc st s' Hq [Hc Hs] E. split; [by eapply calm_prepare|]. eapply since_more, journal_prepare; done.
  - intros s st i a rc s' [Hc Hs] E. split; [by eapply calm_bind|]. unfold since. by rewrite (journal_bind _ _ _ _ _ _ E).
  - intros s st rc s' [Hc Hs] E. split; [by eapply calm_step|]. unfold since. by rewrite (journal_step _ _ _ _ E).
  - intros s st rc s' [Hc Hs] E. split; [by eapply calm_finalize|]. unfold since. by rewrite (journal_finalize _ _ _ _ E).
Qed.

Lemma quiet_keeps c : keeps data_stmt (fun s => calm s /\ settled c s).
Proof.
  split.
  - intros s c' q rc st s' Hq [Hc Hs] E. destruct (calm_prepare _ _ _ _ _ _ Hq Hc E) as [Hc' Ht].
    split; [done|]. eapply settled_more; [exact Hs|by eapply journal_prepare|apply Ht].
  - intros s st i a rc s' [Hc Hs] E. destruct (calm_bind _ _ _ _ _ _ Hc E) as [Hc' Ht].
    split; [done|]. eapply settled_same; [exact Hs|by eapply journal_bind|apply Ht].
  - intros s st rc s' [Hc Hs] E. destruct (calm_step _ _ _ _ Hc E) as [Hc' Ht].
    split; [done|]. eapply settled_same; [exact Hs|by eapply journal_step|apply Ht].
  - intros s st rc s' [Hc Hs] E. destruct (calm_finalize _ _ _ _ Hc E) as [Hc' Ht].
    split; [done|]. eapply settled_same; [exact Hs|by eapply journal_finalize|apply Ht].
Qed.

Lemma ready_exec {P} (callback : P -> world -> Z -> res (Z * P * world)) (PI : P -> Prop) w stmt n param args :
  (forall param w st, PI param -> exists rc param', callback param w st = Ok (rc, param', w) /\ PI param') -> PI param ->
  data_stmt stmt -> (n <= length args)%nat -> ready w ->
  settles (fun _ r => r) (fun out => match out with Ok (_, param', w') => ready w' /\ PI param' | Err _ => False end)
    (fun fuel => i_dbExec callback fuel w p stmt n param args).
Proof.
  intros Hcb HPI Hq Hn (Hu & Hc). destruct (usable_exec callback PI _ w p stmt n param args (quiet_keeps (conn_of w p)) Hq Hc Hcb HPI Hu Hn)
    as (fuel0 & k & param' & w' & U' & D' & Hc' & HPI' & E).
  rewrite <- (conn_same w w' p D') in Hc'. exists fuel0, (Ok (k, param', w')). split; [by split|]. exact E.
Qed.

(** ** Lookups *)

(** A handler that leaves the data alone and prolongs by an hour at most. *)
Definition handler_ok (h : nat -> handler world) : Prop :=
  forall w key data n, ready w ->
  settles (fun _ r => r)
    (fun out => match out with Ok (next, data', w') => 0 <= next <= 3600 /\ data' = data /\ ready w' | Err _ => False end)
    (fun fuel => h fuel w key data n).

Lemma eth_handler_ok : handler_ok (fun _ => i_cmdPacketAnalyzeCacheEthExpireCheck).
Proof.
  intros w key data n Hr. apply (settles_ok (fun _ r => r)). split_and!; [|done..]. unfold gc_EthCacheExpireTimeEntry. lia.
Qed.

Lemma ip_handler_ok : handler_ok (i_cmdPacketAnalyzeCacheIPExpireCheck column_int inet_ntoa gethostbyaddr p).
Proof.
  intros w key data n Hr. unfold i_cmdPacketAnalyzeCacheIPExpireCheck, dbExecQuery. eapply settles_bind.
  - apply (ready_exec _ (fun _ => True)); [by intros; eexists _, _|done|decide_closed|cbn; lia|exact Hr].
  - done.
  - intros [[k id] w'] [Hr' _]. apply (settles_ok (fun _ r => r)). split_and!; [| |done|done];
      unfold gc_IPCacheExpireTimeEntry; destruct (default 0 id =? 0); lia.
Qed.

Section lookup.
Context (h : nat -> handler world) (Hh : handler_ok h).

(** How a run may fail: it reads a variable that was never set, or it writes to
    the [NULL] of a failed [malloc]. *)
Definition crash (e : cerror) : Prop := e = Uninitialised \/ mem = false /\ e = NullDeref.

(** What a search and a lookup leave. *)
Definition searched (out : res (Z * bytes * bst_node * world)) : Prop :=
  match out with Ok (_, buf, t', w') => length buf = sizeof_int /\ sound t' /\ ready w' | Err e => e = Uninitialised end.
Definition looked_up (out : res (option Z * bst_node * world)) : Prop :=
  match out with Ok (_, t', w') => sound t' /\ ready w' | Err e => crash e end.

Lemma copy_out_sound e :
  sound_entry e -> exists b, copy_out e (replicate sizeof_int None) sizeof_int = Ok (4, b) /\ length b = sizeof_int.
Proof.
  intros (Hs & Hd & _). unfold copy_out, memcpy. rewrite Hs. cbn [Nat.min sizeof_int].
  rewrite decide_True by (rewrite length_replicate; unfold sizeof_int in *; lia). eexists. split; [done|].
  rewrite take_0, drop_0, drop_ge, app_nil_l, app_nil_r, length_take by done. unfold sizeof_int in *. lia.
Qed.

Lemma search_settles w t key :
  ready w -> sound t ->
  settles (fun fuel r => let '(n, buf, t', w') := r in (n, buf, MkBst t' (h fuel), w')) searched
    (fun fuel => bst_search (MkBst t (h fuel)) w (real_time 0 (w_sqlite w)) key (replicate sizeof_int None) sizeof_int).
Proof.
  intros Hr Ht. unfold bst_search. cbn [root expireHandler]. set (now := real_time 0 (w_sqlite w)).
  destruct (bst_find_loop t key) as [e|] eqn:Hf.
  2: { settle_with (u64 (-1), replicate sizeof_int (@None Z), t, w). by split_and!. }
  pose proof (find_sound _ _ _ Ht Hf) as He. destruct (copy_out_sound e He) as (b & Eb & Hb).
  pose proof He as (Hs & Hd & Hts). destruct (e_dataTimeout e) as [d|] eqn:Hto; [|by apply settles_err].
  assert (settles (fun fuel r => let '(n, buf, t', w') := r in (n, buf, MkBst t' (h fuel), w')) searched
    (fun fuel => '(n, b) ← copy_out e (replicate sizeof_int None) sizeof_int; Ok (n, b, MkBst t (h fuel), w))) as Hhit.
  { rewrite Eb. cbn [mbind res_bind]. settle_with (4, b, t, w). by split_and!. }
  destruct (timerIsNull (Some d)); [exact Hhit|].
  destruct (Hclock O (w_sqlite w)) as [Hn1 Hn2]. fold now in Hn1, Hn2.
  assert (Hnow : normal now) by (apply stamped_normal; split; [lia|done]).
  unfold timerCmp. rewrite !to_ns_ok by (done || by apply stamped_normal). cbn [mbind res_bind].
  destruct (0 <? _) eqn:Hexp; [|exact Hhit]. clear Hhit.
  eapply settles_bind; [by apply Hh|done|]. intros [[next data] w'] (Hnext & -> & Hr'). cbv beta iota.
  destruct (0 <? next).
  - assert (Hsec : Timer.tv_sec d <= Timer.tv_sec now).
    { destruct Hts as [_ Hns]. unfold ns, NSEC in *.
      destruct (Z.eqb_spec (Timer.tv_sec now * 1000000000 + tv_nsec now) (Timer.tv_sec d * 1000000000 + tv_nsec d)); [done|].
      destruct (Z.ltb_spec (Timer.tv_sec now * 1000000000 + tv_nsec now) (Timer.tv_sec d * 1000000000 + tv_nsec d)); [done|]. lia. }
    rewrite s64_ok by (destruct Hts as [Hts _]; lia). cbn [mbind res_bind].
    set (e' := MkEntry _ _ _). assert (sound_entry e') as He'.
    { split_and!; [done..|]. destruct Hts as [Hts Hns]. split; cbn; lia. }
    destruct (copy_out_sound e' He') as (b' & -> & Hb'). cbn [mbind res_bind].
    settle_with (4, b', update_node t key e', w'). split_and!; [done|by apply update_sound|done..].
  - unfold bst_delete. cbn [root expireHandler].
    settle_with (u64 (-2), replicate sizeof_int (@None Z),
      i_bst_delete_node (update_node t key (MkEntry (Some d) (e_dataSize e) (e_data e))) key, w').
    split_and!; [done| |done..]. apply delete_sound, update_sound; [done|]. by split_and!.
Qed.

(** The part behind [__cleanup] settles the transaction. *)
Lemma finish_ready w k t key id ts secs :
  usable w p -> calm (w_sqlite w) -> since (w_sqlite w) -> sound t -> 0 <= secs <= 3600 ->
  0 <= Timer.tv_sec ts < 2 ^ 32 /\ 0 <= tv_nsec ts < NSEC ->
  exists out, looked_up out /\
    forall hd : handler world, finish_id p mem w k (MkBst t hd) key id ts secs =
      ('(id', t', w') ← out; Ok (id', MkBst t' hd, w')).
Proof.
  intros Hu Hc Hs Ht Hsecs [Hts1 Hts2]. unfold finish_id.
  assert (exists k1 w1, (if KSUCCESS k then dbTxnCommit w p else Ok (k, w)) = Ok (k1, w1) /\
     usable w1 p /\ calm (w_sqlite w1) /\ since (w_sqlite w1) /\ (KSUCCESS k1 = true -> txn_open w1 p = false))
    as (k1 & w1 & -> & U1 & C1 & S1 & T1).
  { destruct (KSUCCESS k) eqn:K; [|eexists k, w; split_and!; [done..|congruence]].
    destruct (usable_end stmtCommit DbTxnCommit DbTxnCommitTime DbTxnCommitFail w p Hu) as (rc & w1 & E & U & D & Ex).
    eexists _, w1. split; [exact E|]. split; [done|]. split; [by eapply calm_exec|].
    split; [by eapply since_more, journal_exec|]. destruct (Z.eqb_spec rc SQLITE_OK) as [->|Hrc]; [|done].
    intros _. by eapply commit_closed. }
  cbn [mbind res_bind]. destruct (KSUCCESS k1).
  - unfold later. rewrite s64_ok by lia. cbn [mbind res_bind]. unfold bst_insert. cbn [root expireHandler].
    pose proof (insert_sound mem false t key (int_bytes id) (MkTs (Timer.tv_sec ts + secs) (tv_nsec ts)) Ht (length_int_bytes id)
      ltac:(split; cbn; lia)) as Hi.
    destruct (insert_loop mem false t key _ _ _) as [t'|e].
    + exists (Ok (id, t', w1)). split; [|done]. split; [done|]. split; [done|]. split; [done|].
      destruct S1 as (j & Ej). exists j. split; [done|]. left. by apply T1.
    + exists (Err e). split; [by right|done].
  - destruct (usable_end stmtRollback DbTxnRollback DbTxnRollbackTime DbTxnRollbackFail w1 p U1) as (rc & w2 & E & U & D & Ex).
    unfold dbTxnRollback. rewrite E. cbn [mbind res_bind]. exists (Ok (Some 0, t, w2)). split; [|done].
    split; [done|]. split; [done|]. split; [by eapply calm_exec|]. destruct S1 as (j & Ej).
    exists (j ++ [CExec (conn_of w1 p) stmtRollback rc]). split; [by rewrite (journal_exec _ _ _ _ _ Ex), Ej, app_assoc|].
    rewrite (conn_same _ _ p D). destruct (decide (rc = SQLITE_OK)) as [->|Hrc].
    + left. pose proof (rollback_closed w1 w2 p D Ex) as Hx. unfold txn_open in Hx. by rewrite (conn_same _ _ p D) in Hx.
    + right. exists rc. split; [done|]. apply elem_of_app. right. apply list_elem_of_here.
Qed.

(** A lookup in a cache. *)
Lemma get_settles w t key secs u c f :
  ready w -> sound t -> 0 <= secs <= 3600 -> stmt_ok u -> (forall ts, stmt_ok (c ts)) -> stmt_ok f ->
  settles (fun fuel r => let '(id, t', w') := r in (id, MkBst t' (h fuel), w')) looked_up
    (fun fuel => cache_get column_int real_time p fuel mem w (MkBst t (h fuel)) key secs u c f).
Proof.
  intros Hr Ht Hsecs Hou Hoc Hof. unfold cache_get. eapply settles_bind; [by apply search_settles|by intros e He; left|].
  intros [[[n buf] t1] w1] (Hbuf & Ht1 & Hr1). cbv beta iota. set (id := read_int buf).
  destruct (s32 n =? Z.of_nat sizeof_int); [by settle_with (id, t1, w1)|]. set (ts := real_time 1 (w_sqlite w1)).
  destruct Hr1 as (U1 & C1 & T1). destruct (usable_begin w1 p U1) as (rc & w2 & -> & U2 & D2 & Eb). cbn [mbind res_bind].
  assert (C2 : calm (w_sqlite w2)) by (by eapply calm_exec). pose proof (journal_exec _ _ _ _ _ Eb) as Lb.
  destruct (Z.eqb_spec rc SQLITE_OK) as [->|Hrc].
  2: { settle_with (Some 0, t1, w2). split; [done|]. split; [done|]. split; [done|]. rewrite (conn_same _ _ p D2).
       eapply settled_more; [exact T1|exact Lb|by eapply begin_law]. }
  assert (S2 : since (w_sqlite w2)) by (eapply since_more; [by eapply settled_since|exact Lb]).
  destruct (usable_load column_int p _ w2 u (c ts) f id calm_keeps (conj C2 S2) U2 Hou (Hoc ts) Hof)
    as (fuel0 & k3 & id3 & w3 & U3 & _ & [C3 S3] & El).
  destruct (finish_ready w3 k3 t1 key id3 ts secs U3 C3 S3 Ht1 Hsecs (Hclock _ _)) as (out & Hout & Ef).
  exists fuel0, out. split; [done|]. intros fuel Hf. change (negb (KSUCCESS KSTATUS_SUCCESS)) with false. cbv iota.
  rewrite El by done. cbn [mbind res_bind]. rewrite Ef. by destruct out as [[[? ?] ?]|].
Qed.
End lookup.

(** ** The command *)

Abbreviation ip_check := (i_cmdPacketAnalyzeCacheIPExpireCheck (T := T) column_int inet_ntoa gethostbyaddr p).
Abbreviation eth_check := (@i_cmdPacketAnalyzeCacheEthExpireCheck S T).

(** The two caches of a program whose queries are bounded by [fuel]. *)
Definition caches_of (fuel : nat) (tip teth : bst_node) : @caches S T :=
  MkCaches (Some (MkBst tip (ip_check fuel))) (Some (MkBst teth eth_check)).

Abbreviation exec fuel := (cmdPacketAnalyzeExec column_int ether_ntoa inet_ntoa gethostbyaddr real_time p fuel mem).

(** What the command leaves: well-formed caches, an open database and no open
    transaction other than one whose [ROLLBACK] failed; or it has crashed. *)
Definition analyzed (out : res (Z * bst_node * bst_node * world)) : Prop :=
  match out with
  | Ok (r, tip', teth', w') => r ∈ [0; -1; -2] /\ sound tip' /\ sound teth' /\ ready w'
  | Err e => crash e
  end.

Abbreviation wrap_exec := (fun fuel r => let '(k, tip', teth', w') := r in (k, caches_of fuel tip' teth', w')).

Lemma eth_get_settles w t ea :
  ready w -> sound t ->
  settles (fun _ r => let '(id, t', w') := r in (id, MkBst t' eth_check, w')) looked_up
    (fun fuel => i_cmdPacketAnalyzeCacheEthGet column_int ether_ntoa real_time p fuel mem w (MkBst t eth_check) ea).
Proof.
  intros Hr Ht. unfold i_cmdPacketAnalyzeCacheEthGet.
  apply (get_settles (fun _ => eth_check) eth_handler_ok); [done|done|unfold gc_EthCacheExpireTimeEntry; lia|stmt_closed..].
Qed.

Lemma ip_get_settles w t ip :
  ready w -> sound t ->
  settles (fun fuel r => let '(id, t', w') := r in (id, MkBst t' (ip_check fuel), w')) looked_up
    (fun fuel => i_cmdPacketAnalyzeCacheIPGet column_int inet_ntoa gethostbyaddr real_time p fuel mem w (MkBst t (ip_check fuel)) ip).
Proof.
  intros Hr Ht. unfold i_cmdPacketAnalyzeCacheIPGet.
  apply (get_settles ip_check ip_handler_ok); [done|done|unfold gc_IPCacheExpireTimeEntry; lia|stmt_closed..].
Qed.

Lemma exec_settles w tip teth ts frame m :
  ready w -> sound tip -> sound teth -> Mapper.mapFrame frame (Z.of_nat (length frame)) = Ok (true, m) ->
  settles wrap_exec analyzed (fun fuel => exec fuel w (caches_of fuel tip teth) ts frame).
Proof.
  intros Hr Hi He Em. unfold cmdPacketAnalyzeExec. rewrite Em. cbn [mbind res_bind negb deref caches_of g_EthCache g_IPCache].
  eapply settles_bind; [by apply eth_get_settles|done|]. intros [[esrc te1] w1] [He1 Hr1]. cbv beta iota.
  eapply settles_bind; [by apply eth_get_settles|done|]. intros [[edst te2] w2] [He2 Hr2]. cbv beta iota.
  eapply settles_bind; [by apply ip_get_settles|done|]. intros [[isrc ti1] w3] [Hi1 Hr3]. cbv beta iota.
  eapply settles_bind; [by apply ip_get_settles|done|]. intros [[idst ti2] w4] [Hi2 Hr4]. cbv beta iota.
  destruct esrc as [es|]; [|by apply settles_err; left]. destruct edst as [ed|]; [|by apply settles_err; left].
  destruct isrc as [isr|]; [|by apply settles_err; left]. destruct idst as [id|]; [|by apply settles_err; left].
  cbn [mbind res_bind init]. destruct (_ || _).
  { settle_with (-2, ti2, te2, w4). split_and!; [decide_closed|done..]. }
  unfold dbExec. eapply (settles_bind (fun _ r => r)).
  { eapply (settles_bind (fun _ r => r) (fun _ r => r) _ (fun out => match out with Ok (_, w') => ready w' | Err _ => False end)).
    - apply (ready_exec _ (fun _ => True)); [by intros; eexists _, _|done|decide_closed|cbn; lia|exact Hr4].
    - done.
    - intros [[k []] w5] [Hr5 _]. by settle_with (k, w5). }
  - done.
  - intros [k w5] Hr5. cbv beta iota. settle_with (if KSUCCESS k then 0 else -1, ti2, te2, w5).
    split_and!; [destruct (KSUCCESS k); decide_closed|done..].
Qed.

(** The frames that are read behind their end. *)
Definition overread (frame : list Z) : bool :=
  let n := Z.of_nat (length frame) in
  let hl := Mapper.header_length frame in
  (n <? 34) || ((20 <=? hl) && (n <? 14 + hl)).
Definition frame_ok (frame : list Z) : Prop := Forall is_byte frame /\ Z.of_nat (length frame) < 2 ^ 64.

Lemma exec_sound w tip teth ts frame :
  ready w -> sound tip -> sound teth -> frame_ok frame ->
  if overread frame then forall fuel, exec fuel w (caches_of fuel tip teth) ts frame = Err OutOfBounds
  else if Mapper.header_length frame <? 20
  then forall fuel, exec fuel w (caches_of fuel tip teth) ts frame = Ok (-1, caches_of fuel tip teth, w)
  else settles wrap_exec analyzed (fun fuel => exec fuel w (caches_of fuel tip teth) ts frame).
Proof.
  intros Hr Hi He [Hb Hl]. destruct (Mapper.map_frame_ok frame Hb Hl) as (H1 & H2 & H3 & H4). unfold overread.
  destruct (Z.ltb_spec (Z.of_nat (length frame)) 34) as [Hn|Hn].
  { intros fuel. unfold cmdPacketAnalyzeExec. by rewrite (H1 Hn). }
  destruct (Z.leb_spec 20 (Mapper.header_length frame)) as [Hh|Hh]; cbn [orb andb].
  - destruct (Z.ltb_spec (Z.of_nat (length frame)) (14 + Mapper.header_length frame)) as [Hs|Hs].
    { intros fuel. unfold cmdPacketAnalyzeExec. by rewrite (H3 Hn Hh Hs). }
    rewrite (proj2 (Z.ltb_ge _ _) Hh). destruct (H4 Hn Hh Hs) as (m & Em & _). by eapply exec_settles.
  - rewrite (proj2 (Z.ltb_lt _ _) Hh). destruct (H2 Hn Hh) as (m & Em & _). intros fuel. unfold cmdPacketAnalyzeExec. by rewrite Em.
Qed.

(** ** Importing a file *)

Abbreviation kernel := (@kernel S T (@globals S T)).
Abbreviation packet_run fuel := (packet_exec column_int ether_ntoa inet_ntoa gethostbyaddr real_time fuel mem).
Abbreviation import fuel := (import_loop column_int ether_ntoa inet_ntoa gethostbyaddr real_time fuel mem).

(** The kernel [k] with the given caches. *)
Definition kernel_of (fuel : nat) (k : kernel) (tip teth : bst_node) : kernel := set_caches k (caches_of fuel tip teth).

Definition imported (out : res (kernel * bst_node * bst_node)) : Prop :=
  match out with
  | Ok (k', tip', teth') => sound tip' /\ sound teth' /\ ready (k_world k') /\ getNiuchaczPcapDB k' = p
  | Err e => crash e
  end.

Abbreviation wrap_import := (fun fuel r => let '(k', tip', teth') := r in kernel_of fuel k' tip' teth').

Lemma packet_run_sound k tip teth ts frame :
  ready (k_world k) -> getNiuchaczPcapDB k = p -> sound tip -> sound teth -> frame_ok frame -> overread frame = false ->
  settles (fun fuel r => (r.1, wrap_import fuel r.2)) (fun out => imported (r ← out; Ok r.2))
    (fun fuel => packet_run fuel (kernel_of fuel k tip teth) ts frame).
Proof.
  intros Hr Hp Hi He Hf Ho. pose proof (exec_sound (k_world k) tip teth ts frame Hr Hi He Hf) as Hx. rewrite Ho in Hx.
  unfold packet_exec. change (getNiuchaczPcapDB (kernel_of ?fuel k tip teth)) with (getNiuchaczPcapDB k). rewrite Hp.
  change (k_world (kernel_of ?fuel k tip teth)) with (k_world k).
  change (g_caches (k_globals (kernel_of ?fuel k tip teth))) with (caches_of fuel tip teth).
  eapply (settles_bind wrap_exec _ analyzed).
  - destruct (_ <? 20); [|exact Hx]. exists O, (Ok (-1, tip, teth, k_world k)). split; [split_and!; [decide_closed|done..]|].
    intros fuel _. apply Hx.
  - done.
  - intros [[[r tip'] teth'] w'] (_ & Hi' & He' & Hr'). cbv beta iota.
    settle_with (r, (set_world k w', tip', teth')). by split_and!.
Qed.

Lemma import_sound k tip teth packets :
  ready (k_world k) -> getNiuchaczPcapDB k = p -> sound tip -> sound teth ->
  Forall (fun pk => frame_ok pk.2 /\ overread pk.2 = false) packets ->
  settles wrap_import imported (fun fuel => import fuel (kernel_of fuel k tip teth) packets).
Proof.
  intros Hr Hp Hi He Hall. revert k tip teth Hr Hp Hi He.
  induction Hall as [|[ts frame] packets [Hf Ho] _ IH]; intros k tip teth Hr Hp Hi He; cbn [import_loop].
  { by settle_with (k, tip, teth). }
  eapply settles_bind; [by apply packet_run_sound|done|].
  intros [r [[k' tip'] teth']] (Hi' & He' & Hr' & Hp'). cbv beta iota. cbn [fst snd].
  destruct (IH k' tip' teth' Hr' Hp' Hi' He') as (n & out & Hout & E). by exists n, out.
Qed.

(** ** Creating the caches *)

Context (column_text : S -> Z -> nat -> option (list Z)) (ether_aton : list Z -> option (list Z)).
Context (inet_aton : list Z -> option Z).

(** Memory is available, and the addresses in the database are not NULL. *)
Context (Hmem : mem = true).
Context (Htext : forall s st, is_Some (column_text s st 1%nat)).

(** A callback on caches that leaves the handler alone, on trees. *)
Definition tree_level (cb : bst_t world -> world -> Z -> res (Z * bst_t world * world)) (t : bst_node) (w : world) (st : Z)
    : res (Z * bst_node * world) :=
  '(rc, b, w) ← cb (MkBst t i_bst_default_expire_handler) w st; Ok (rc, root b, w).

Abbreviation ip_populate := (i_cmdPacketAnalyzeCacheIPPopulate (T := T) column_int column_text inet_aton real_time mem).
Abbreviation eth_populate := (i_cmdPacketAnalyzeCacheEthPopulate (T := T) column_int column_text ether_aton real_time mem).

(** A callback that stores an id under a key, or skips the row. *)
Lemma populate_insert (w : world) key id secs t :
  sound t -> 0 <= secs <= 3600 ->
  exists t', sound t' /\ forall hd : handler world,
    (ts ← later (real_time 0 (w_sqlite w)) secs;
     '(_, bst) ← bst_insert mem (MkBst t hd) key (int_bytes (Some id)) sizeof_int (Some ts); Ok (0, bst, w)) =
    Ok (0, MkBst t' hd, w).
Proof.
  intros Ht Hs. destruct (Hclock O (w_sqlite w)) as [H1 H2]. unfold later. rewrite s64_ok by lia. cbn [mbind res_bind].
  pose proof (insert_sound mem false t key (int_bytes (Some id)) (MkTs (Timer.tv_sec (real_time 0 (w_sqlite w)) + secs) (tv_nsec (real_time 0 (w_sqlite w))))
    Ht (length_int_bytes _) ltac:(split; cbn; lia)) as Hi. unfold bst_insert. cbn [root].
  destruct (insert_loop mem false t key _ _ _) as [t'|e]; [by exists t'|]. destruct Hi as [Hi _]. congruence.
Qed.

(** Both populate callbacks keep a cache well formed and do not look at its
    handler. *)
Definition populates (cb : bst_t world -> world -> Z -> res (Z * bst_t world * world)) : Prop :=
  forall t w st, sound t -> exists t', sound t' /\ forall hd, cb (MkBst t hd) w st = Ok (0, MkBst t' hd, w).

Lemma ip_populates : populates ip_populate.
Proof.
  intros t w st Ht. unfold i_cmdPacketAnalyzeCacheIPPopulate. destruct (Htext (w_sqlite w) st) as [s ->]. cbn [deref mbind res_bind].
  destruct (inet_aton s) as [ip|]; [|by exists t]. apply populate_insert; [done|unfold gc_IPCacheExpireTimeEntry; lia].
Qed.

Lemma eth_populates : populates eth_populate.
Proof.
  intros t w st Ht. unfold i_cmdPacketAnalyzeCacheEthPopulate. destruct (Htext (w_sqlite w) st) as [s ->]. cbn [deref mbind res_bind].
  destruct (ether_aton s) as [ea|]; [|by exists t]. apply populate_insert; [done|unfold gc_EthCacheExpireTimeEntry; lia].
Qed.

(** The loop over the rows, for a callback on trees and one on caches. *)
Lemma step_loop_tree cb (hd : handler world) fuel w st t rc et ct :
  populates cb -> sound t ->
  step_loop cb fuel w st (MkBst t hd) rc et ct =
    (r ← step_loop (tree_level cb) fuel w st t rc et ct;
     Ok (MkLoop (lr_world r) (MkBst (lr_param r) hd) (lr_rowCount r) (lr_execTime r) (lr_callbackTime r))).
Proof.
  intros Hcb. revert w t rc et ct. induction fuel as [|fuel IH]; intros w t rc et ct Ht; cbn [step_loop]; [done|].
  destruct (sqlite_step (w_sqlite w) st) as [k sq]. destruct ((k =? SQLITE_DONE) || (k =? SQLITE_ROW)); [|done].
  destruct (k =? SQLITE_DONE); [done|]. destruct (Hcb t (set_sqlite w sq) st Ht) as (t' & Ht' & E).
  assert (tree_level cb t (set_sqlite w sq) st = Ok (0, t', set_sqlite w sq)) as E' by (unfold tree_level; by rewrite E).
  rewrite E, E'. cbn [mbind res_bind]. change (negb (0 =? 0)) with false. cbv iota. by apply IH.
Qed.

Lemma exec_tree cb (hd : handler world) fuel w stmt n t args :
  populates cb -> sound t ->
  i_dbExec cb fuel w p stmt n (MkBst t hd) args =
    ('(k, t', w') ← i_dbExec (tree_level cb) fuel w p stmt n t args; Ok (k, MkBst t' hd, w')).
Proof.
  intros Hcb Ht. unfold i_dbExec. destruct (i_dbCheckState w p _) as [ok|]; [|done]. cbn [mbind res_bind].
  destruct (negb ok); [done|]. destruct (db_of w p) as [db|]; [|done]. cbn [mbind res_bind].
  destruct (sqlite_prepare (w_sqlite w) (db_db db) stmt) as [[rc st] sq].
  destruct (negb (rc =? SQLITE_OK)); [by destruct (account _ _ _ _ _ _ _ _)|].
  destruct (i_dbExecBindVariables n 1 _ st args) as [[b sq1]|]; [|done]. cbn [mbind res_bind].
  destruct (negb b); [by destruct (account _ _ _ _ _ _ _ _)|].
  rewrite (step_loop_tree cb hd) by done. destruct (step_loop (tree_level cb) _ _ _ _ _ _ _) as [r|]; [|done].
  cbn [mbind res_bind lr_world lr_param lr_rowCount lr_execTime lr_callbackTime].
  destruct (sqlite_finalize _ st) as [rc2 sq2]. by destruct (account _ _ _ _ _ _ _ _).
Qed.

(** Filling a cache from the database. *)
Lemma populate_settles cb (hd : nat -> handler world) w stmt t :
  populates cb -> sound t -> data_stmt stmt -> ready w ->
  settles (fun fuel r => let '(k, t', w') := r in (k, MkBst t' (hd fuel), w'))
    (fun out => match out with Ok (_, t', w') => sound t' /\ ready w' | Err _ => False end)
    (fun fuel => dbExecQuery cb fuel w p stmt 0 (MkBst t (hd fuel)) []).
Proof.
  intros Hcb Ht Hq Hr. unfold dbExecQuery. eapply settles_ext; [intros fuel; by apply exec_tree|].
  eapply (settles_bind (fun _ r => r)).
  - apply (ready_exec (tree_level cb) sound); [|done|done|cbn; lia|done].
    intros t1 w1 st Ht1. destruct (Hcb t1 w1 st Ht1) as (t' & Ht' & E). exists 0, t'. unfold tree_level. by rewrite E.
  - done.
  - intros [[k t'] w'] [Hr' Ht']. by settle_with (k, t', w').
Qed.

(** The caches a program starts with. *)
Lemma create_sound w cs :
  ready w ->
  settles wrap_exec (fun out => match out with Ok (r, tip, teth, w') => r ∈ [0; -1] /\ sound tip /\ sound teth /\ ready w' | Err _ => False end)
    (fun fuel => cmdPacketAnalyzeCreate column_int column_text ether_aton inet_aton inet_ntoa gethostbyaddr real_time p fuel mem w cs mem mem).
Proof.
  intros Hr. unfold cmdPacketAnalyzeCreate.
  assert (Hcr : forall hd : option (handler world), bst_create mem hd = Some (MkBst Null (default i_bst_default_expire_handler hd)))
    by (intros hd; unfold bst_create; by rewrite Hmem).
  eapply settles_ext; [intros fuel; rewrite !Hcr; cbv [default from_option id]; reflexivity|].
  eapply settles_bind; [by apply (populate_settles _ ip_check); [apply ip_populates| |decide_closed|]|done|].
  intros [[k tip] w1] [Hi Hr1]. cbv beta iota. destruct (KSUCCESS k); cbn [negb].
  2: { settle_with (-1, tip, Null, w1). split_and!; [decide_closed|done..]. }
  eapply settles_bind; [by apply (populate_settles _ (fun _ => eth_check)); [apply eth_populates| |decide_closed|]|done|].
  intros [[k' teth] w2] [He Hr2]. cbv beta iota. settle_with (if KSUCCESS k' then 0 else -1, tip, teth, w2).
  split_and!; [destruct (KSUCCESS k'); decide_closed|done..].
Qed.

(** The command is created, then a file is imported. *)
Definition lifecycle (fuel : nat) (k : kernel) (packets : list (timeval * list Z)) : res kernel :=
  '(_, k) ← packet_create column_int column_text ether_aton inet_aton inet_ntoa gethostbyaddr real_time fuel mem k;
  import fuel k packets.

Lemma lifecycle_sound k packets :
  ready (k_world k) -> getNiuchaczPcapDB k = p -> Forall (fun pk => frame_ok pk.2 /\ overread pk.2 = false) packets ->
  settles wrap_import imported (fun fuel => lifecycle fuel k packets).
Proof.
  intros Hr Hp Hall. unfold lifecycle, packet_create. rewrite Hp.
  eapply (settles_bind (fun fuel r => (r.1, wrap_import fuel r.2)) _ (fun out => imported (r ← out; Ok r.2))).
  - eapply settles_bind; [by apply create_sound|done|].
    intros [[[r tip] teth] w'] (_ & Hi & He & Hr'). cbv beta iota.
    settle_with (r, (set_world k w', tip, teth)). by split_and!.
  - done.
  - intros [r [[k' tip] teth]] (Hi & He & Hr' & Hp'). cbv beta iota. cbn [fst snd]. by apply import_sound.
Qed.
End exec.

(** C6: the packet command on any frame, for every SQLite that obeys its rules, a
    clock before 2106 and well-formed caches over an open database with no open
    transaction, whether or not memory is available.  A frame that ends inside a
    header it announces is read behind its end, one with a header length below
    20 bytes is rejected without a change.  For every other frame the command
    ends, for every large enough bound on the rows alike, with 0, -1 or -2, again
    with well-formed caches, an open database, and no open transaction unless the
    command has run a ROLLBACK that failed.  There are two other outcomes: it
    reads an id or a time stamp that was never set, or, only when [malloc]
    fails, it writes through [NULL]. *)
Theorem packet_exec_sound (S T : Type) (SQ : Sqlite S) (SL : SqliteLaws S) (TL : TxnLaws S) (ML : StmtLaws S) (JL : Journal S)
    (SM : StringMap T) (column_int : S -> Z -> nat -> Z) (ether_ntoa : list Z -> list Z) (inet_ntoa : Z -> list Z)
    (gethostbyaddr : Z -> option (list Z)) (real_time : nat -> S -> timespec) (p : Z) (mem : bool)
    (w : @world S T) (tip teth : bst_node) (ts : timeval) (frame : list Z) :
  clock_ok real_time -> usable w p -> calm (w_sqlite w) -> txn_open w p = false ->
  sound tip -> sound teth -> frame_ok frame ->
  let caches fuel := caches_of column_int inet_ntoa gethostbyaddr p fuel in
  let run fuel := cmdPacketAnalyzeExec column_int ether_ntoa inet_ntoa gethostbyaddr real_time p fuel mem w (caches fuel tip teth) ts frame in
  if overread frame then forall fuel, run fuel = Err OutOfBounds
  else if Mapper.header_length frame <? 20 then forall fuel, run fuel = Ok (-1, caches fuel tip teth, w)
  else settles (fun fuel r => let '(k, tip', teth', w') := r in (k, caches fuel tip' teth', w'))
         (analyzed mem (journal (w_sqlite w)) p) run.
Proof.
  intros Hc Hu Hcalm Ht Hi He Hf. apply exec_sound; try done. split; [done|]. split; [done|].
  exists []. split; [by rewrite app_nil_r|by left].
Qed.

(** C22: the whole life of the caches, when memory is available, the clock shows a
    time before 2106, the addresses in the database are not NULL and the frames
    of the capture file are long enough for the headers they announce: created
    from the database by the command and used to import the file, the caches end
    well formed, over an open database with no open transaction unless a ROLLBACK
    failed; the only other outcome is that an id or a time stamp was read that
    was never set, which does happen when the database has no address yet. *)
Theorem packet_lifecycle_sound (S T : Type) (SQ : Sqlite S) (SL : SqliteLaws S) (TL : TxnLaws S) (ML : StmtLaws S) (JL : Journal S)
    (SM : StringMap T) (column_int : S -> Z -> nat -> Z) (ether_ntoa : list Z -> list Z) (inet_ntoa : Z -> list Z)
    (gethostbyaddr : Z -> option (list Z)) (real_time : nat -> S -> timespec) (p : Z)
    (column_text : S -> Z -> nat -> option (list Z)) (ether_aton : list Z -> option (list Z)) (inet_aton : list Z -> option Z)
    (k : @kernel S T (@globals S T)) (packets : list (timeval * list Z)) :
  clock_ok real_time -> (forall s st, is_Some (column_text s st 1%nat)) ->
  usable (k_world k) p -> calm (w_sqlite (k_world k)) -> txn_open (k_world k) p = false -> getNiuchaczPcapDB k = p ->
  Forall (fun pk => frame_ok pk.2 /\ overread pk.2 = false) packets ->
  settles (fun fuel r => let '(k', tip, teth) := r in kernel_of column_int inet_ntoa gethostbyaddr p fuel k' tip teth)
    (imported true (journal (w_sqlite (k_world k))) p)
    (fun fuel =>
       '(_, k) ← packet_create column_int column_text ether_aton inet_aton inet_ntoa gethostbyaddr real_time fuel true k;
       import_loop column_int ether_ntoa inet_ntoa gethostbyaddr real_time fuel true k packets).
Proof.
  intros Hc Ht Hu Hcalm Htx Hp Hall. eapply (lifecycle_sound true _ column_int ether_ntoa); try done. split; [done|]. split; [done|].
  exists []. split; [by rewrite app_nil_r|by left].
Qed.

(** An address whose number is not an [int] is never forgotten: its expired entry,
    for which the database has no row with the current host name, survives its
    deletion and keeps its old time stamp, so that every later lookup of the
    address finds it expired and stores a new row. *)
Theorem packet_ip_reloaded :
  let ip := 192 * 2 ^ 24 + 1 in
  let column := fun (s : txn_mock) (_ : Z) (_ : nat) => if (lg_state s).2 then 7 else 0 in
  let tree id := Node 5 Null (Node ip Null Null (MkEntry (Some (MkTs 900 0)) 4 (int_bytes (Some id)))) (MkEntry (Some (MkTs 5000 0)) 4 (int_bytes (Some 1))) in
  let check := i_cmdPacketAnalyzeCacheIPExpireCheck column (fun _ => []) (fun _ => None) 5000 200 in
  let get w t := i_cmdPacketAnalyzeCacheIPGet column (fun _ => []) (fun _ => None) sample_clock 5000 200 true w (MkBst t check) ip in
  ('(id1, b1, w1) ← get packet_world (tree 3);
   '(id2, b2, w2) ← get w1 (root b1);
   Ok (id1, root b1, id2, root b2, st_mem (w_stats w2) !! stat_addr 5000 DbTxnCommit)) =
  Ok (Some 7, tree 7, Some 7, tree 7, Some (MkCounter STATS_FLAGS_TYPE_SUM 2)).
Proof. vm_compute. reflexivity. Qed.

(** ** Witnesses *)

#[export] Program Instance txn_stmt_laws : StmtLaws (mock * bool) := { calm := fun _ => True }.
Next Obligation. cbn. intros s c q rc st s' _ _ [= _ _ <-]. done. Qed.
Next Obligation. cbn. intros s st i a rc s' _ [= _ <-]. done. Qed.
Next Obligation.
  intros s st rc s' _ E. unfold sqlite_step, txn_sqlite in E. destruct (sqlite_step s.1 st) as [rc' m]. by injection E as _ <-.
Qed.
Next Obligation. cbn. intros s st rc s' _ [= _ <-]. done. Qed.
Next Obligation. done. Qed.

Lemma sample_clock_ok : clock_ok sample_clock.
Proof. intros i s. cbn. unfold NSEC. change (2 ^ 32) with 4294967296. lia. Qed.

Lemma sample_frame_ok : frame_ok Mapper.sample_frame.
Proof. split; [decide_closed|reflexivity]. Qed.

Definition sample_kernel : @kernel txn_mock ArtOps.art_tree (@globals txn_mock ArtOps.art_tree) :=
  MkKernel packet_world 0 0 0 [] (MkGlobals 5000 (MkCaches None None) ∅).

Lemma packet_exec_sound_witness :
  exists fuel0 out, analyzed true [] 5000 out /\ forall fuel, (fuel0 <= fuel)%nat ->
    cmdPacketAnalyzeExec (fun _ _ _ => 7) Datatypes.id (fun _ => []) (fun _ => None) sample_clock 5000 fuel true packet_world
      (caches_of (fun _ _ _ => 7) (fun _ => []) (fun _ => None) 5000 fuel sample_cache sample_cache) (MkTv 0 0) Mapper.sample_frame =
    ('(k, tip, teth, w') ← out; Ok (k, caches_of (fun _ _ _ => 7) (fun _ => []) (fun _ => None) 5000 fuel tip teth, w')).
Proof.
  pose proof (packet_exec_sound _ ArtOps.art_tree _ _ _ _ _ _ (fun _ _ _ => 7) Datatypes.id (fun _ => []) (fun _ => None) sample_clock 5000 true
    packet_world sample_cache sample_cache (MkTv 0 0) Mapper.sample_frame sample_clock_ok packet_usable I eq_refl ltac:(decide_closed)
    ltac:(decide_closed) sample_frame_ok) as H. cbv zeta in H.
  change (overread Mapper.sample_frame) with false in H. change (Mapper.header_length Mapper.sample_frame <? 20) with false in H.
  destruct H as (fuel0 & out & Hout & E). exists fuel0, out. split; [exact Hout|]. intros fuel Hf. rewrite (E fuel Hf).
  destruct out as [[[[k tip] teth] w']|e]; reflexivity.
Defined.

Lemma packet_lifecycle_sound_witness :
  exists fuel0 out, imported true [] 5000 out /\ forall fuel, (fuel0 <= fuel)%nat ->
    lifecycle true (fun _ _ _ => 7) Datatypes.id (fun _ => []) (fun _ => None) sample_clock (fun _ _ _ => Some [49; 0]) (fun _ => Some [0; 0; 0; 0; 0; 1])
      (fun _ => Some 9) fuel sample_kernel [(MkTv 1 2, Mapper.sample_frame)] =
    ('(k, tip, teth) ← out; Ok (kernel_of (fun _ _ _ => 7) (fun _ => []) (fun _ => None) 5000 fuel k tip teth)).
Proof.
  destruct (packet_lifecycle_sound _ ArtOps.art_tree _ _ _ _ _ _ (fun _ _ _ => 7) Datatypes.id (fun _ => []) (fun _ => None) sample_clock 5000
    (fun _ _ _ => Some [49; 0]) (fun _ => Some [0; 0; 0; 0; 0; 1]) (fun _ => Some 9) sample_kernel [(MkTv 1 2, Mapper.sample_frame)]
    sample_clock_ok ltac:(by eexists) packet_usable I eq_refl ltac:(reflexivity)
    ltac:(constructor; [split; [exact sample_frame_ok|reflexivity]|constructor]))
    as (fuel0 & out & Hout & E).
  exists fuel0, out. split; [exact Hout|]. intros fuel Hf. unfold lifecycle. rewrite (E fuel Hf).
  destruct out as [[[k tip] teth]|e]; reflexivity.
Defined.

End PacketExec.
