(* ===== verification/Main.v ===== *)
(** * The service and the main program

    Models [src/svc_kernel/svc_kernel.c] (start, main loop and exit) and
    [src/main.c].  The parts of the service are composed as the code composes
    them.  What comes from outside is in the record [boot] for the start
    (results of [malloc], of the configuration and of [psmgrCreateThread]) and
    in lists of events for the two loops.  The daemon's file descriptors, the
    configuration object and log output are left out. *)

From Stdlib Require Import Ascii String.
From stdpp Require Import gmap.
From S2P Require Import Prelude CString Timer DList Queue Svc Stats Database Bst CmdManager Psmgr PacketAnalyze Commands.

Module Main.
Import CStr DList Svc Stats Database CmdManager Psmgr PacketAnalyze Commands.

(** ** The texts of main.c *)

Definition cgCreateSchemaPackets : list Z :=
  lit "create table if not exists packets(ts_sec unsigned big int,ts_usec unsigned big int,eth_src_id int,eth_dst_id int,eth_type int,ip_vhl int,ip_tos int,ip_len int,ip_id int,ip_off int,ip_ttl int,ip_p int,ip_sum int,ip_src_id int,ip_dst_id int,payload text,foreign key(eth_src_id) references eth(eth_id),foreign key(eth_dst_id) references eth(eth_id),foreign key(ip_src_id) references ip(ip_id),foreign key(ip_dst_id) references ip(ip_id));".
Definition cgCreateSchemaEth : list Z :=
  lit "create table if not exists eth(eth_id integer primary key,ts_sec unsigned big int,ts_usec unsigned int,eth_addr text,activeflag int);".
Definition cgCreateSchemaIP : list Z :=
  lit "create table if not exists ip(ip_id integer primary key,ts_sec unsigned big int,ts_usec unsigned int,ip_addr text,hostname text,activeflag int);".
Definition cgCreateView_PacketsPerDate : list Z :=
  lit "create view if not exists report$packetsperdate as select report_date, count(*) cnt, sum(ip_len) as bytes from (select date(datetime(ts_sec, 'unixepoch')) as report_date, ip_len from packets) group by report_date order by report_date desc;".

Definition gc_statsKey_NiuchaczPCAPEnqTime : list Z := lit "PCAP Enq time".
Definition gc_statsKey_NiuchaczPCAPEnq : list Z := lit "PCAP Enq".
Definition gc_statsKey_NiuchaczPCAPEnqFail : list Z := lit "PCAP Enq fail".

(** The addresses of the three counters of [g_Main]. *)
Record main_counters : Type := MkMainCounters { c_enq : Z; c_enqTime : Z; c_enqFail : Z }.

Section main.
Context {S T : Type} `{SQ : Sqlite S} `{SM : StringMap T}.
Abbreviation kernel := (@kernel S T (@globals S T)).

Context (column_int64 : S -> Z -> nat -> Z) (column_text : S -> Z -> nat -> list Z) (column_count : S -> Z -> nat).
Context (exec_fn : Z -> timeval -> list Z -> kernel -> res (Z * kernel)) (call_fn : Z -> kernel -> res (Z * kernel)).
Context (fuel : nat) (counters : main_counters).

Definition kexec (k : kernel) (p : Z) (stmt : list Z) : res (Z * kernel) :=
  '(_status, w) ← dbExec fuel (k_world k) p stmt 0 []; Ok (_status, set_world k w).

Definition kstats (k : kernel) (p_entry value : Z) : res kernel :=
  '(_, st) ← statsUpdate (w_stats (k_world k)) p_entry value; Ok (set_world k (set_stats (k_world k) st)).

(** ** Capturing packets *)

(** What the calls of libpcap before the loop return. *)
Record pcap_setup : Type := MkSetup { p_open : bool; p_ethernet : bool; p_compile : bool; p_setfilter : bool }.

(** One iteration of the loop: the status [svcKernelIsRunning] sees, the queue
    of jobs as the other threads left it, the packet [pcap_next] returns, the
    readings of the clock, what [malloc] returns for the job and what its
    memory holds, the padding of the queue's header, and what happens while the
    job waits for room in the queue. *)
Record capture : Type := MkCapture {
  ca_status : Z;
  ca_queue : option Queue.queue_t;
  ca_packet : option (timeval * list Z);
  ca_start : Timer.timespec;
  ca_stop : Timer.timespec;
  ca_addr : Z;
  ca_junk : nat -> Z;
  ca_pad : list Z;
  ca_waits : list Queue.wait_t
}.

(** [cmdmgrJobCleanup]; [freed]: whether the job was freed already. *)
Definition cmdmgrJobCleanup (freed : bool) : res bool := if freed then Err DoubleFree else Ok true.

(** The body of the loop for a packet.  [cmdmgrJobExec] has freed the job. *)
Definition capture_packet (k : kernel) (c : capture) (ts : timeval) (packet : list Z) : res (kernel + kernel) :=
  '(_status, pjob) ← cmdmgrJobPrepare (ca_addr c) (ca_junk c) (lit "PACKET_ANALYZE") packet ts 0;
  if negb (KSUCCESS _status) then k ← kstats k (c_enqFail counters) 1; Ok (inl k)
  else
    j ← init pjob;
    o ← cmdmgrJobExec column_int64 exec_fn fuel k j JobModeAsynchronous JobQueueTypeShortOps (ca_pad c) (ca_waits c);
    match o with
    | Waiting k => Ok (inr k)
    | Done _status k =>
        if negb (KSUCCESS _status) then
          _ ← cmdmgrJobCleanup true;
          k ← kstats k (c_enqFail counters) 1; Ok (inl k)
        else
          t ← Timer.timerWatchStop (ca_start c) (ca_stop c);
          k ← kstats k (c_enqTime counters) t;
          k ← kstats k (c_enq counters) 1;
          Ok (inl k)
    end.

Abbreviation thread_end := (@thread_end S T (@globals S T)).

(** The loop; a thread that waits does so for room in the queue. *)
Fixpoint pcap_loop (k : kernel) (cs : list capture) : res thread_end :=
  match cs with
  | [] => Ok (Runs k)
  | c :: cs' =>
      let k := set_queue (set_status k (ca_status c)) CMD_MANAGER_QUEUE_SHORTOPS (ca_queue c) in
      if negb (svcKernelIsRunning (k_status k)) then Ok (Exits KSTATUS_SUCCESS k)
      else match ca_packet c with
           | None => pcap_loop k cs'
           | Some (ts, packet) =>
               r ← capture_packet k c ts packet;
               match r with
               | inl k => pcap_loop k cs'
               | inr k => Ok (Waits k)
               end
           end
  end.

Definition pcap_thread_routine (k : kernel) (s : pcap_setup) (cs : list capture) : res thread_end :=
  if negb (p_open s) then Ok (Exits KSTATUS_UNSUCCESS k)
  else if negb (p_ethernet s) then Ok (Exits KSTATUS_UNSUCCESS k)
  else if negb (p_compile s) then Ok (Exits KSTATUS_UNSUCCESS k)
  else if negb (p_setfilter s) then Ok (Exits KSTATUS_UNSUCCESS k)
  else pcap_loop k cs.

(** ** Preparing the database and the commands *)

Definition schema_sync (k : kernel) : res (Z * kernel) :=
  '(_status, k) ← kexec k (getNiuchaczPcapDB k) cgCreateSchemaEth;
  if negb (KSUCCESS _status) then Ok (_status, k)
  else
    '(_status, k) ← kexec k (getNiuchaczPcapDB k) cgCreateSchemaIP;
    if negb (KSUCCESS _status) then Ok (_status, k)
    else
      '(_status, k) ← kexec k (getNiuchaczPcapDB k) cgCreateSchemaPackets;
      if negb (KSUCCESS _status) then Ok (_status, k)
      else kexec k (getNiuchaczPcapDB k) cgCreateView_PacketsPerDate.

Definition add_command (k : kernel) (code description : string) (c : command) : res (Z * kernel) :=
  cmdmgrAddCommand call_fn fuel k (lit code) (lit description) (exec_addr c) (create_addr c) (destroy_addr c) 1.

Definition cmd_sync (k : kernel) : res (Z * kernel) :=
  '(_status, k) ← add_command k "PACKET_ANALYZE" "Analyze network packets and store it in DB file" PacketAnalyzeCmd;
  if negb (KSUCCESS _status) then Ok (_status, k)
  else
    '(_status, k) ← add_command k "IMPORT_PCAP" "Import PCAP file to DB" ImportPcapCmd;
    if negb (KSUCCESS _status) then Ok (_status, k)
    else
      '(_status, k) ← add_command k "EXPORT_FILE" "Export DB to file" ExportFileCmd;
      Ok (if negb (KSUCCESS _status) then _status else KSTATUS_SUCCESS, k).

(** ** Running one command from the command line *)

(** [testExportFile] and [testImportPcap]: [addr], [junk]: the memory of the
    job; [stack]: what the configuration on the stack holds; [ts]: the time
    stamp on the stack.  Neither is initialised before. *)
Definition test_command (code : string) (k : kernel) (name : list Z) (addr : Z) (junk stack : nat -> Z) (ts : timeval)
    : res (Z * kernel) :=
  len ← strlen name;
  cfg ← memcpy (stack <$> seq 0 sizeof_cfg) 0 name 0 (len + 1);
  '(_status, pjob) ← cmdmgrJobPrepare addr junk (lit code) cfg ts 0;
  if negb (KSUCCESS _status) then Ok (_status, k)
  else
    j ← init pjob;
    o ← cmdmgrJobExec column_int64 exec_fn fuel k j JobModeSynchronous JobQueueTypeNone [] [];
    match o with
    | Done _status k => Ok (if negb (KSUCCESS _status) then _status else KSTATUS_SUCCESS, k)
    | Waiting k => Ok (KSTATUS_SUCCESS, k)
    end.

Definition testExportFile := test_command "EXPORT_FILE".
Definition testImportPcap := test_command "IMPORT_PCAP".

(** ** The service *)

(** [g_psmgrCfg._threadList] and [g_Main._stats_list] beside the kernel. *)
Record service : Type := MkService { s_k : kernel; s_threadList : Z; s_main_stats : Z }.

(** What the start of the service gets from outside. *)
Record boot : Type := MkBoot {
  bt_config : bool;                                   (* config_read_file *)
  bt_stats_list : Z;                                  (* malloc in statsmgrStart *)
  bt_kernel_tmp : Z; bt_kernel_list : Z;              (* malloc in statsCreate *)
  bt_kernel_name : list Z;                            (* KERNEL and what follows it in memory *)
  bt_signals : signal -> bool; bt_thread_list : Z;    (* psmgrStart *)
  bt_instances : option (list (instance_cfg * (Z * Z * Z))); bt_db_list : Z;   (* dbmgrStart *)
  bt_open_time : Z;                                   (* dbOpen *)
  bt_queue_mem : nat -> bool * bool; bt_queue_stats : nat -> Z; bt_create_thread : nat -> Z  (* cmdmgrStart *)
}.

Definition with_heap (k : kernel) (h : heap) : kernel :=
  set_world k (set_stats (k_world k) (set_heap (w_stats (k_world k)) h)).
Definition heap_of (k : kernel) : heap := st_heap (w_stats (k_world k)).

(** The sizes of the two queues: 1 GiB and 1 MiB. *)
Definition short_queue_size : nat := Z.to_nat (1024 * 1024 * 1024).
Definition long_queue_size : nat := Z.to_nat (1024 * 1024).

(** From [dbmgrStart] on. *)
Definition init_databases (b : boot) (s : service) : res (Z * service) :=
  let upd k := MkService k (s_threadList s) (s_main_stats s) in
  let k := s_k s in
  '(_status, w) ← dbmgrStart (k_world k) (bt_instances b) (bt_db_list b);
  let k := set_world k w in
  if negb (KSUCCESS _status) then Ok (_status, upd k)
  else
    '(_status, db, w) ← dbOpen fuel (bt_open_time b) (k_world k) (lit "DB_KRNL0");
    let k := MkKernel w (k_status k) db (k_stats k) (k_queues k) (k_globals k) in
    if negb (KSUCCESS _status) then Ok (_status, upd k)
    else
      '(_status, k) ← cmdmgrStart fuel k short_queue_size long_queue_size (bt_queue_mem b) (bt_queue_stats b) (bt_create_thread b);
      if negb (KSUCCESS _status) then Ok (_status, upd k)
      else Ok (svcUpdateStart, upd k).

Definition svcKernelInit (b : boot) (s : service) : res (Z * service) :=
  let upd k := MkService k (s_threadList s) (s_main_stats s) in
  let k := set_status (s_k s) SVC_KERNEL_STATUS_START_PENDING in
  if negb (bt_config b) then Ok (KSTATUS_UNSUCCESS, upd k)
  else
    '(_status, st) ← statsmgrStart (w_stats (k_world k)) (bt_stats_list b);
    let k := set_world k (set_stats (k_world k) st) in
    if negb (KSUCCESS _status) then Ok (_status, upd k)
    else
      '(l, st) ← statsCreate (w_stats (k_world k)) (bt_kernel_name b) (bt_kernel_tmp b) (bt_kernel_list b);
      let k := MkKernel (set_stats (k_world k) st) (k_status k) (k_db k) l (k_queues k) (k_globals k) in
      if l =? 0 then Ok (KSTATUS_UNSUCCESS, upd k)
      else
        '(_status, tl, h) ← psmgrStart (heap_of k) (bt_signals b) (bt_thread_list b);
        let s := MkService (with_heap k h) tl (s_main_stats s) in
        if negb (KSUCCESS _status) then Ok (_status, s) else init_databases b s.

Abbreviation destroy_waits := (@destroy_waits S T (@globals S T)).

(** The exit down to [psmgrStop].  [ws]: what happens while the queues are
    destroyed; [buff], [base]: the buffer on the stack of the dump of the
    threads.  [None]: it waits for the clients of a queue. *)
Definition stop_parts (s : service) (ws : nat -> destroy_waits) (buff : list Z) (base : Z) : res (option kernel) :=
  o ← cmdmgrStop column_int64 column_text column_count call_fn fuel (s_k s) ws;
  match o with
  | None => Ok None
  | Some k =>
      w ← dbClose (k_world k) (k_db k);
      w ← dbmgrStop w;
      let k := set_world k w in
      h ← psmgrStop (heap_of k) (s_threadList s) buff base;
      Ok (Some (with_heap k h))
  end.

Definition svcKernelExit (s : service) (ws : nat -> destroy_waits) (buff : list Z) (base : Z) : res (option service) :=
  let upd k := MkService k (s_threadList s) (s_main_stats s) in
  o ← stop_parts s ws buff base;
  match o with
  | None => Ok None
  | Some k =>
      st ← statsDestroy (w_stats (k_world k)) (k_stats k);
      st ← statsmgrStop st;
      Ok (Some (upd (set_world k (set_stats (k_world k) st))))
  end.

(** One second of the main loop: the status seen, and what other threads do to
    the heap while it sleeps. *)
Record tick : Type := MkTick { tk_status : Z; tk_sleep : heap -> res heap; tk_buff : list Z; tk_base : Z }.

(** The loop; [i] counts up to the next dump.  The result is the kernel behind
    the loop, or [None] when the service still runs after the given seconds, and
    the dumps. *)
Fixpoint main_loop (k : kernel) (threadList : Z) (i : nat) (ts : list tick)
    : res (option kernel * list (Z * list (Z * list line))) :=
  match ts with
  | [] => Ok (None, [])
  | t :: ts' =>
      let k := set_status k (tk_status t) in
      if negb (svcKernelIsRunning (k_status k)) then Ok (Some k, [])
      else
        '(_, h) ← psmgrIdle (heap_of k) threadList (tk_sleep t);
        let k := with_heap k h in
        let i := Datatypes.S i in
        if (60 <? i)%nat then
          d ← statsmgrDump (w_stats (k_world k)) (tk_buff t) (tk_base t);
          '(o, ds) ← main_loop k threadList 0 ts';
          Ok (o, d :: ds)
        else main_loop k threadList i ts'
  end.

(** [sleeps]: what happens while it waits for the threads; [None] when the
    service still runs or the threads do not end. *)
Definition svcKernelMainLoop (s : service) (ts : list tick) (sleeps : list (heap -> res heap)) : res (option service) :=
  '(o, _) ← main_loop (s_k s) (s_threadList s) 0 ts;
  match o with
  | None => Ok None
  | Some k =>
      o ← psmgrStopUserThreads (heap_of k) (s_threadList s) sleeps;
      Ok match o with
         | Some h => Some (MkService (with_heap k h) (s_threadList s) (s_main_stats s))
         | None => None
         end
  end.

(** ** The main program *)

(** [la_argv]: the array [argv], NULL behind its last word; [la_addr] to [la_ts]:
    the memory that a test command finds. *)
Record launch : Type := MkLaunch {
  la_argv : list (option (list Z));
  la_device : bool;                                  (* NIUCHACZ.deviceName is set *)
  la_testMode : bool;                                (* NIUCHACZ.testMode is set *)
  la_stats_tmp : Z; la_stats_list : Z;               (* malloc in statsCreate *)
  la_open_time : Z;                                  (* dbOpen *)
  la_create_thread : Z;                              (* psmgrCreateThread *)
  la_addr : Z; la_junk : nat -> Z; la_stack : nat -> Z; la_ts : timeval;
  la_ticks : list tick; la_sleeps : list (heap -> res heap);
  la_stop : nat -> destroy_waits;                    (* while the queues are destroyed *)
  la_buff : list Z; la_base : Z
}.

(** The [strcmp]s of the test mode. *)
Definition same_string (a : list Z) (b : string) : res bool :=
  len ← strlen a; Ok (bool_decide (take len a = str b)).

Definition run_test (l : launch) (k : kernel) : res kernel :=
  arg ← rd (la_argv l) 2; word ← deref arg;
  export ← same_string word "EXPORT_FILE";
  if export : bool then
    name ← rd (la_argv l) 3; name ← deref name;
    '(_, k) ← testExportFile k name (la_addr l) (la_junk l) (la_stack l) (la_ts l); Ok k
  else
    import ← same_string word "IMPORT_PCAP";
    if import : bool then
      name ← rd (la_argv l) 3; name ← deref name;
      '(_, k) ← testImportPcap k name (la_addr l) (la_junk l) (la_stack l) (la_ts l); Ok k
    else Ok k.

(** The three labels at the end; the result is [exit(0)] with the final state,
    or [None] when the program waits. *)
Definition exit_from (l : launch) (s : service) : res (option service) := svcKernelExit s (la_stop l) (la_buff l) (la_base l).
Definition close_database (l : launch) (s : service) : res (option service) :=
  w ← dbClose (k_world (s_k s)) (getNiuchaczPcapDB (s_k s));
  exit_from l (MkService (set_world (s_k s) w) (s_threadList s) (s_main_stats s)).
Definition free_stats (l : launch) (s : service) : res (option service) :=
  st ← statsDestroy (w_stats (k_world (s_k s))) (s_main_stats s);
  close_database l (MkService (set_world (s_k s) (set_stats (k_world (s_k s)) st)) (s_threadList s) (s_main_stats s)).

(** Registering the three counters, each with its own test. *)
Definition main_stats : list stats_bulk_init_t :=
  [(gc_statsKey_NiuchaczPCAPEnq, STATS_FLAGS_TYPE_SUM, c_enq counters);
   (gc_statsKey_NiuchaczPCAPEnqTime, STATS_FLAGS_TYPE_SUM, c_enqTime counters);
   (gc_statsKey_NiuchaczPCAPEnqFail, STATS_FLAGS_TYPE_SUM, c_enqFail counters)].

(** From [svcKernelMainLoop] on.  [None]: the program runs, or waits for its
    threads. *)
Definition end_service (l : launch) (s : service) : res (option service) :=
  o ← svcKernelMainLoop s (la_ticks l) (la_sleeps l);
  match o with None => Ok None | Some s => free_stats l s end.

(** From [svcKernelStatus(SVC_KERNEL_STATUS_RUNNING)] on.  [None]: the program
    runs, or waits for its threads. *)
Definition run_service (l : launch) (s : service) : res (option service) :=
  let upd k := MkService k (s_threadList s) (s_main_stats s) in
  let k := set_status (s_k s) (svcKernelStatus (k_status (s_k s)) SVC_KERNEL_STATUS_RUNNING).2 in
  '(_status, k) ← cmd_sync k;
  if negb (KSUCCESS _status) then close_database l (upd k)
  else
    if negb (la_testMode l) then
      if negb (KSUCCESS (la_create_thread l)) then close_database l (upd k) else end_service l (upd k)
    else
      k ← run_test l k;
      end_service l (upd (set_status k (svcKernelStatus (k_status k) SVC_KERNEL_STATUS_STOP_PENDING).2)).

(** The end of the statements up to [svcKernelStatus]. *)
Definition start_main (l : launch) (s : service) : res (option service) :=
  '(sl, st) ← statsCreate (w_stats (k_world (s_k s))) (lit "NIUCHACZ") (la_stats_tmp l) (la_stats_list l);
  let s := MkService (set_world (s_k s) (set_stats (k_world (s_k s)) st)) (s_threadList s) sl in
  if sl =? 0 then free_stats l s
  else
    '(_status, st) ← statsAllocBulk (w_stats (k_world (s_k s))) sl main_stats;
    let s := MkService (set_world (s_k s) (set_stats (k_world (s_k s)) st)) (s_threadList s) sl in
    if negb (KSUCCESS _status) then free_stats l s else run_service l s.

Definition main (b : boot) (l : launch) (s : service) : res (option service) :=
  '(_status, s) ← svcKernelInit b s;
  if negb (KSUCCESS _status) then exit_from l s
  else if negb (la_device l) then exit_from l s
  else
    '(_status, db, w) ← dbOpen fuel (la_open_time l) (k_world (s_k s)) (lit "DB_LIVE0");
    let g := k_globals (s_k s) in
    let k := set_globals (set_world (s_k s) w) (MkGlobals db (g_caches g) (g_files g)) in
    let s := MkService k (s_threadList s) (s_main_stats s) in
    if negb (KSUCCESS _status) then exit_from l s
    else
      '(_status, k) ← schema_sync (s_k s);
      let s := MkService k (s_threadList s) (s_main_stats s) in
      if negb (KSUCCESS _status) then close_database l s else start_main l s.

End main.
End Main.
