(* ===== verification/MainSpec.v ===== *)
(** * Correctness of the main program

    The capture thread counts every packet exactly once; a command given on
    the command line runs on exactly its file; and what goes wrong: a start
    that fails early ends in a null dereference, one that fails late never ends,
    and a packet captured while its queue is destroyed frees its job twice. *)

From Stdlib Require Import Ascii String.
From stdpp Require Import gmap.
From S2P Require Import Prelude CString ArtTree ArtMap Timer DList DListProps Queue QueueSpec QueueProps Svc Stats Database DatabaseSpec Bst CmdManager CmdSpec Psmgr Mapper PacketAnalyze PacketSpec CmdStop Commands Main.

Module MainSpec.
Import CStr ArtMap DList Svc Stats Database DatabaseSpec CmdManager CmdSpec Psmgr PacketAnalyze CmdStop Commands Main.

Section capture.
Context {S T : Type} `{SQ : Sqlite S} `{SM : StringMap T}.
Abbreviation kernel := (@kernel S T (@globals S T)).
Context (column_int64 : S -> Z -> nat -> Z) (exec_fn : Z -> timeval -> list Z -> kernel -> res (Z * kernel)).
Context (fuel : nat) (counters : main_counters).

(** The two counters of packets are at [e] and [f]. *)
Definition counts (k : kernel) (e f : Z) : Prop :=
  let m := st_mem (w_stats (k_world k)) in
  m !! c_enq counters = Some (MkCounter STATS_FLAGS_TYPE_SUM e) /\
  m !! c_enqFail counters = Some (MkCounter STATS_FLAGS_TYPE_SUM f) /\
  is_Some (m !! c_enqTime counters) /\ length (k_queues k) = 2%nat.

Definition distinct_counters : Prop :=
  c_enq counters <> 0 /\ c_enqFail counters <> 0 /\ c_enqTime counters <> 0 /\ c_enq counters <> c_enqFail counters /\
  c_enqTime counters <> c_enq counters /\ c_enqTime counters <> c_enqFail counters.

(** A queue in service in which an entry of [n] bytes can be stored. *)
Definition serves (N n : nat) (q : Queue.queue_t) : Prop :=
  (exists es, QueueSpec.holds N q es) /\ Queue.isActive q = true /\ Queue.too_big q (Z.of_nat n) = false.

Abbreviation packet_job := (job_len (str "PACKET_ANALYZE")).

(** An iteration that takes a packet: values of their C types, a clock that
    does not go back, and a queue that stays in service. *)
Definition capture_ok (N : nat) (c : capture) : Prop :=
  match ca_packet c with
  | None => True
  | Some (ts, packet) =>
      Forall is_byte packet /\ (forall i, is_byte (ca_junk c i)) /\ length (ca_pad c) = 4%nat /\
      (0 <= tv_sec ts < 2 ^ 63 /\ 0 <= tv_usec ts < 2 ^ 63) /\
      0 <= ca_addr c /\ ca_addr c + Z.of_nat (packet_job packet) < 2 ^ 64 /\ Z.of_nat (packet_job packet) < 2 ^ 31 /\
      Timer.normal (ca_start c) /\ Timer.normal (ca_stop c) /\ Timer.ns (ca_start c) <= Timer.ns (ca_stop c) /\
      (exists q, ca_queue c = Some q /\ serves N (packet_job packet) q) /\
      Forall (fun w => serves N (packet_job packet) w.1 /\ w.2 = false) (ca_waits c)
  end.

Lemma serves_clients N n q a p : serves N n q -> serves N n (Queue.set_clients q a p true).
Proof. intros ((es & H) & _ & Ht). split; [exists es; by apply holds_clients|]. done. Qed.

(** Writing an entry that fits into a queue in service returns its size, or waits. *)
Lemma write_serves N q e waits :
  Queue.entry_ok e -> serves N (length (Queue.e_data e)) q ->
  Forall (fun w => serves N (length (Queue.e_data e)) w.1 /\ w.2 = false) waits ->
  exists q', Queue.queue_write q (Queue.e_data e) (Queue.e_pad e) waits = Ok (Queue.Returned (s32 (Queue.e_len e)) tt q') \/
    Queue.queue_write q (Queue.e_data e) (Queue.e_pad e) waits = Ok (Queue.Blocked q').
Proof.
  intros He Hq Hw. assert (Ht : Queue.too_big q (Queue.e_len e) = false) by apply Hq.
  unfold Queue.queue_write. fold (Queue.e_len e). rewrite Ht. clear Ht.
  revert q Hq. induction Hw as [|[q1 b] waits [Hq1 Hb] _ IH]; intros q Hq; cbn [Queue.write_loop]; fold (Queue.e_len e);
    (destruct (Queue.no_room q (Queue.e_len e)) eqn:Hr; cycle 1;
      [destruct Hq as ((es & Hh) & _ & Ht); pose proof (QueueProps.queue_write_ok N q es e [] Hh He) as Hw1;
       unfold Queue.queue_write in Hw1; fold (Queue.e_len e) in Hw1, Ht; rewrite Ht in Hw1;
       destruct (Hw1 Hr) as (q' & E & _); cbn [Queue.write_loop] in E; fold (Queue.e_len e) in E; rewrite Hr in E;
       exists q'; by left|]).
  - exists q. by right.
  - cbn [fst snd] in Hq1, Hb. subst b. destruct Hq1 as (Hh & Ha & Ht). rewrite Ha. cbn [negb]. by apply IH.
Qed.

Lemma kstats_ok (k : kernel) p v c :
  p <> 0 -> st_mem (w_stats (k_world k)) !! p = Some c ->
  exists k', kstats k p v = Ok k' /\ k_queues k' = k_queues k /\
    st_mem (w_stats (k_world k')) = <[p := (update_counter c v).2]> (st_mem (w_stats (k_world k))).
Proof.
  intros Hp Hc. unfold kstats, statsUpdate, counter_of. rewrite (proj2 (Z.eqb_neq p 0)), Hc by done. cbn [mbind res_bind].
  destruct (update_counter c v) as [r c'] eqn:E. cbn [mbind res_bind]. eexists. split; [done|]. split; [done|]. done.
Qed.

(** The job of a packet is stored, or waits for room; nothing else changes. *)
Lemma capture_enqueue N k c ts packet :
  capture_ok N c -> ca_packet c = Some (ts, packet) -> ca_addr c <> 0 ->
  k_queues k !! CMD_MANAGER_QUEUE_SHORTOPS = Some (ca_queue c) ->
  exists j q', cmdmgrJobPrepare (ca_addr c) (ca_junk c) (lit "PACKET_ANALYZE") packet ts 0 = Ok (KSTATUS_SUCCESS, Some j) /\
    let k' := set_queue k CMD_MANAGER_QUEUE_SHORTOPS (Some q') in
    let r := cmdmgrJobExec column_int64 exec_fn fuel k j JobModeAsynchronous JobQueueTypeShortOps (ca_pad c) (ca_waits c) in
    r = Ok (Done KSTATUS_SUCCESS k') \/ r = Ok (Waiting k').
Proof.
  intros Hc Hp Haddr Hq. unfold capture_ok in Hc. rewrite Hp in Hc.
  destruct Hc as (Hb & Hj & Hpad & Hts & Ha0 & Ha & Hn & _ & _ & _ & (q & Eq & Hs) & Hw). rewrite Eq in Hq.
  assert (Hk : key_ok (str "PACKET_ANALYZE")) by decide_closed.
  destruct (prepare_blocks (str "PACKET_ANALYZE") packet ts 0 (ca_addr c) Hk Hts ltac:(lia) (ca_junk c) [] Hj) as (gap & Hg & Hgb & E).
  rewrite app_nil_r in E. change (lit "PACKET_ANALYZE") with (term (str "PACKET_ANALYZE")).
  pose proof (blocks_length (str "PACKET_ANALYZE") packet ts 0 (ca_addr c) gap Hg) as Hl.
  pose proof (blocks_bytes (str "PACKET_ANALYZE") packet ts 0 (ca_addr c) gap Hk Hgb Hb) as Hbb.
  set (bytes := concat _) in *. set (e := Queue.MkEntry bytes (ca_pad c)).
  assert (He : Queue.entry_ok e) by (split; [done|]; unfold Queue.e_len; cbn [Queue.e_data e]; rewrite Hl; split; [lia|done]).
  rewrite <- Hl in Hs, Hw. change bytes with (Queue.e_data e) in Hs, Hw.
  destruct (write_serves N (Queue.set_clients q (Queue.consumers q) (s32 (Queue.producers q + 1)) true) e (ca_waits c) He
    (serves_clients _ _ _ _ _ Hs) Hw) as (q1 & Hwr).
  assert (Hx : cmdmgrJobExec column_int64 exec_fn fuel k (MkJob (ca_addr c) bytes) JobModeAsynchronous JobQueueTypeShortOps
      (ca_pad c) (ca_waits c) =
    job_enqueue k (MkJob (ca_addr c) bytes) CMD_MANAGER_QUEUE_SHORTOPS (Z.of_nat (packet_job packet)) (ca_pad c) (ca_waits c)).
  { unfold bytes. apply enqueue_short; [done|done|lia|done|done]. }
  unfold job_enqueue, queue_of, rd in Hx. rewrite Hq in Hx. cbn [mbind res_bind deref] in Hx.
  unfold Queue.queue_producer_new in Hx. rewrite (proj1 (proj2 Hs)) in Hx. cbv iota beta in Hx. cbn [j_bytes] in Hx.
  rewrite decide_True, Nat2Z.id, take_ge in Hx by lia. cbn [Queue.e_data Queue.e_pad e] in Hwr.
  exists (MkJob (ca_addr c) bytes).
  destruct Hwr as [Ew|Ew]; rewrite Ew in Hx; cbn [mbind res_bind] in Hx; eexists; (split; [exact E|]); [left|right; exact Hx].
  unfold Queue.e_len in Hx. cbn [Queue.e_data e] in Hx.
  rewrite Hl, s32_small, Z.eqb_refl, (proj2 (Z.ltb_lt 0 _)) in Hx by (unfold job_len, sizeof_job in *; lia). exact Hx.
Qed.

(** The packets of some iterations whose job is stored, and those whose job
    cannot be allocated. *)
Definition enqueued (cs : list capture) : Z :=
  Z.of_nat (length (filter (fun c => ca_packet c <> None /\ ca_addr c <> 0) cs)).
Definition refused (cs : list capture) : Z :=
  Z.of_nat (length (filter (fun c => ca_packet c <> None /\ ca_addr c = 0) cs)).

(** One packet: it is counted once, or the thread waits. *)
Lemma capture_counts N k c ts packet e f :
  distinct_counters -> counts k e f -> capture_ok N c -> ca_packet c = Some (ts, packet) ->
  k_queues k !! CMD_MANAGER_QUEUE_SHORTOPS = Some (ca_queue c) ->
  exists r, capture_packet column_int64 exec_fn fuel counters k c ts packet = Ok r /\
    match r with
    | inl k' => counts k' (if ca_addr c =? 0 then e else u64 (e + 1)) (if ca_addr c =? 0 then u64 (f + 1) else f)
    | inr k' => counts k' e f
    end.
Proof.
  intros (Z1 & Z2 & Z3 & N1 & N2 & N3) (He & Hf & [x Hx] & Hl) Hc Hp Hq. unfold capture_packet.
  destruct (Z.eqb_spec (ca_addr c) 0) as [Ha|Ha].
  - assert (Hj : cmdmgrJobPrepare (ca_addr c) (ca_junk c) (lit "PACKET_ANALYZE") packet ts 0 = Ok (KSTATUS_OUT_OF_MEMORY, None)).
    { unfold cmdmgrJobPrepare. change (strlen (lit "PACKET_ANALYZE")) with (Ok 14%nat). by rewrite Ha. }
    rewrite Hj. cbn [mbind res_bind]. change (negb (KSUCCESS KSTATUS_OUT_OF_MEMORY)) with true. cbv iota.
    destruct (kstats_ok k _ 1 _ Z2 Hf) as (k' & -> & Eq & Hm). eexists. split; [done|]. unfold counts. rewrite Hm, Eq.
    split_and!; [by rewrite lookup_insert_ne|by rewrite lookup_insert_eq|rewrite lookup_insert_ne by done; by exists x|done].
  - destruct (capture_enqueue N k c ts packet Hc Hp Ha Hq) as (j & q' & -> & Hr). cbv zeta in Hr. cbn [mbind res_bind].
    change (negb (KSUCCESS KSTATUS_SUCCESS)) with false. cbv iota. cbn [init mbind res_bind].
    set (k1 := set_queue k _ (Some q')) in *. assert (Hl1 : length (k_queues k1) = 2%nat) by (cbn; by rewrite length_insert).
    destruct Hr as [->| ->]; cbn [mbind res_bind];
      [|exists (inr k1); split; [done|]; split_and!; [done..|by exists x|done]].
    change (negb (KSUCCESS KSTATUS_SUCCESS)) with false. cbv iota. unfold capture_ok in Hc. rewrite Hp in Hc.
    destruct Hc as (_ & _ & _ & _ & _ & _ & _ & T1 & T2 & T3 & _). rewrite Timer.watch_stop_ok by done. cbn [mbind res_bind].
    destruct (kstats_ok k1 _ (Timer.ns (ca_stop c) - Timer.ns (ca_start c)) _ Z3 Hx) as (k2 & -> & Eq2 & Hm2). cbn [mbind res_bind].
    assert (He2 : st_mem (w_stats (k_world k2)) !! c_enq counters = Some (MkCounter STATS_FLAGS_TYPE_SUM e))
      by (by rewrite Hm2, lookup_insert_ne).
    destruct (kstats_ok k2 _ 1 _ Z1 He2) as (k3 & -> & Eq3 & Hm3). eexists. split; [done|]. unfold counts.
    rewrite Eq3, Eq2, Hm3, Hm2. split_and!; [by rewrite lookup_insert_eq|by rewrite !lookup_insert_ne| |done].
    rewrite lookup_insert_ne, lookup_insert_eq by done. by eexists.
Qed.

(** The iterations before the service stops. *)
Fixpoint taken (cs : list capture) : list capture :=
  match cs with
  | [] => []
  | c :: cs' => if svcKernelIsRunning (ca_status c) then c :: taken cs' else []
  end.

Lemma enqueued_cons c cs :
  enqueued (c :: cs) = (if bool_decide (ca_packet c <> None) && negb (ca_addr c =? 0) then 1 else 0) + enqueued cs.
Proof.
  unfold enqueued. rewrite filter_cons. destruct (Z.eqb_spec (ca_addr c) 0), (ca_packet c); case_bool_decide; cbn [andb negb];
    (destruct (decide _) as [[? ?]|?]); cbn [length]; try tauto; lia || naive_solver.
Qed.

Lemma refused_cons c cs :
  refused (c :: cs) = (if bool_decide (ca_packet c <> None) && (ca_addr c =? 0) then 1 else 0) + refused cs.
Proof.
  unfold refused. rewrite filter_cons. destruct (Z.eqb_spec (ca_addr c) 0), (ca_packet c); case_bool_decide; cbn [andb negb];
    (destruct (decide _) as [[? ?]|?]); cbn [length]; try tauto; lia || naive_solver.
Qed.

Lemma loop_counts N k cs e f :
  distinct_counters -> counts k e f -> is_u 64 e -> is_u 64 f -> Forall (capture_ok N) (taken cs) ->
  exists r, pcap_loop column_int64 exec_fn fuel counters k cs = Ok r /\
    match r with
    | Exits s k' => s = KSTATUS_SUCCESS /\ taken cs <> cs /\ counts k' (u64 (e + enqueued (taken cs))) (u64 (f + refused (taken cs)))
    | Runs k' => taken cs = cs /\ counts k' (u64 (e + enqueued cs)) (u64 (f + refused cs))
    | Waits k' => exists before c after, taken cs = before ++ c :: after /\ ca_packet c <> None /\
        counts k' (u64 (e + enqueued before)) (u64 (f + refused before))
    end.
Proof.
  intros Hd. revert k e f. induction cs as [|c cs IH]; intros k e f Hc Ue Uf Hok; cbn [pcap_loop taken] in *.
  { eexists. split; [done|]. cbv beta iota. by rewrite !Z.add_0_r, !wrap_small. }
  set (k1 := set_queue _ _ _). change (k_status k1) with (ca_status c).
  assert (Hc1 : counts k1 e f) by (destruct Hc as (? & ? & ? & ?); split_and!; [done..|]; cbn; by rewrite length_insert).
  assert (Hq1 : k_queues k1 !! CMD_MANAGER_QUEUE_SHORTOPS = Some (ca_queue c)).
  { cbn. apply list_lookup_insert_eq. destruct Hc as (_ & _ & _ & Hl). unfold CMD_MANAGER_QUEUE_SHORTOPS. cbn. lia. }
  destruct (svcKernelIsRunning (ca_status c)); cbn [negb].
  2: { eexists. split; [done|]. cbv beta iota. by rewrite !Z.add_0_r, !wrap_small. }
  apply list.Forall_cons in Hok as [Hok Hoks]. destruct (ca_packet c) as [[ts packet]|] eqn:Ep.
  - destruct (capture_counts N k1 c ts packet e f Hd Hc1 Hok Ep Hq1) as ([k2|k2] & -> & Hc2); cbn [mbind res_bind].
    2: { eexists. split; [done|]. exists [], c, (taken cs). split; [done|]. split; [by rewrite Ep|]. by rewrite !Z.add_0_r, !wrap_small. }
    destruct (IH _ _ _ Hc2) as (r & -> & Hr); [by destruct (_ =? _); [|apply wrap_range]|by destruct (_ =? _); [apply wrap_range|]|done|].
    assert (Ee : forall l, u64 ((if ca_addr c =? 0 then e else u64 (e + 1)) + enqueued l) = u64 (e + enqueued (c :: l))).
    { intros l. rewrite enqueued_cons, Ep, bool_decide_true by done. destruct (_ =? 0); cbn [andb negb]; [done|].
      rewrite wrap_add_l. f_equal. lia. }
    assert (Ef : forall l, u64 ((if ca_addr c =? 0 then u64 (f + 1) else f) + refused l) = u64 (f + refused (c :: l))).
    { intros l. rewrite refused_cons, Ep, bool_decide_true by done. destruct (_ =? 0); cbn [andb negb]; [|done].
      rewrite wrap_add_l. f_equal. lia. }
    exists r. split; [done|]. destruct r as [s k'|k'|k'].
    + destruct Hr as (-> & Hne & Hr). split; [done|]. split; [congruence|]. by rewrite <- Ee, <- Ef.
    + destruct Hr as (l & c' & l' & El & Hp' & Hc'). exists (c :: l), c', l'. rewrite <- Ee, <- Ef. by rewrite El.
    + destruct Hr as [-> Hr]. split; [done|]. by rewrite <- Ee, <- Ef.
  - destruct (IH _ _ _ Hc1 Ue Uf Hoks) as (r & -> & Hr).
    assert (Ee : forall l, enqueued (c :: l) = enqueued l) by (intros l; rewrite enqueued_cons, Ep; cbn; lia).
    assert (Ef : forall l, refused (c :: l) = refused l) by (intros l; rewrite refused_cons, Ep; cbn; lia).
    exists r. split; [done|]. destruct r as [s k'|k'|k'].
    + destruct Hr as (-> & Hne & Hr). split; [done|]. split; [congruence|]. by rewrite Ee, Ef.
    + destruct Hr as (l & c' & l' & El & Hp' & Hc'). exists (c :: l), c', l'. rewrite Ee, Ef, El. done.
    + destruct Hr as [-> Hr]. split; [done|]. by rewrite Ee, Ef.
Qed.
End capture.

(** C16: the capture thread counts every packet it takes exactly once: packets
    whose job can be allocated as enqueued, the others as failed, modulo 2^64.
    While its queue stays in service and its jobs fit, the thread never fails:
    it returns exactly when it sees the service stop, or waits for room in the
    queue with all packets before counted. *)
Theorem pcap_counts_packets (S T : Type) (SQ : Sqlite S) (SM : StringMap T) (column_int64 : S -> Z -> nat -> Z)
    (exec_fn : Z -> timeval -> list Z -> @kernel S T (@globals S T) -> res (Z * @kernel S T (@globals S T)))
    (fuel : nat) (counters : main_counters) N (k : @kernel S T (@globals S T)) cs e f :
  distinct_counters counters -> counts counters k e f -> is_u 64 e -> is_u 64 f -> Forall (capture_ok N) (taken cs) ->
  exists r, pcap_loop column_int64 exec_fn fuel counters k cs = Ok r /\
    match r with
    | Exits s k' => s = KSTATUS_SUCCESS /\ taken cs <> cs /\
        counts counters k' (u64 (e + enqueued (taken cs))) (u64 (f + refused (taken cs)))
    | Runs k' => taken cs = cs /\ counts counters k' (u64 (e + enqueued cs)) (u64 (f + refused cs))
    | Waits k' => exists before c after, taken cs = before ++ c :: after /\ ca_packet c <> None /\
        counts counters k' (u64 (e + enqueued before)) (u64 (f + refused before))
    end.
Proof. apply loop_counts. Qed.

(** A queue of 256 bytes, three counters, and two packets: for the second the
    job cannot be allocated. *)
Definition sample_counters_at : main_counters := MkMainCounters 100 116 132.

Definition sample_job_queue (active : bool) : Queue.queue_t := Queue.MkQueue (replicate 256 0) 0 0 0 0 active 0 0 0 0 256.

Definition sample_main_kernel (active : bool) : @kernel (gmap Z nat) ArtOps.art_tree (@globals (gmap Z nat) ArtOps.art_tree) :=
  MkKernel
    (MkWorld ∅ (MkStats ∅ 4096 ∅
       (<[100 := MkCounter STATS_FLAGS_TYPE_SUM 5]> (<[116 := MkCounter STATS_FLAGS_TYPE_SUM 0]>
         (<[132 := MkCounter STATS_FLAGS_TYPE_SUM 2]> (st_mem (w_stats sample_world)))))) 0 (w_dbs sample_world))
    SVC_KERNEL_STATUS_RUNNING 5000 0
    [Some (sample_job_queue active); None]
    (MkGlobals 5000 (MkCaches None None) ∅).

Definition sample_capture (addr : Z) : capture :=
  MkCapture SVC_KERNEL_STATUS_RUNNING (Some (sample_job_queue true)) (Some (MkTv 7 8, [1; 2; 3])) (Timer.MkTs 1 0) (Timer.MkTs 1 50)
    addr (fun _ => 9) [0; 0; 0; 0] [].

Lemma sample_capture_ok addr : 0 <= addr < 2 ^ 63 -> capture_ok 256 (sample_capture addr).
Proof.
  intros Ha. unfold capture_ok. cbn [ca_packet sample_capture ca_junk ca_pad ca_addr ca_start ca_stop ca_queue ca_waits].
  assert (Hn : Z.of_nat (job_len (str "PACKET_ANALYZE") [1; 2; 3]) = 66) by reflexivity. rewrite Hn.
  split; [decide_closed|]. split; [intros; decide_closed|]. split; [done|]. split; [decide_closed|].
  split; [lia|]. split; [lia|]. split; [lia|]. split; [decide_closed|]. split; [decide_closed|]. split; [decide_closed|].
  split; [|constructor]. exists (sample_job_queue true). split; [done|]. split; [|done]. exists [].
  apply QueueProps.fresh_holds; reflexivity.
Qed.

Lemma pcap_counts_packets_witness :
  exists k', pcap_loop (fun _ _ _ => 0) (fun _ _ _ k => Ok (0, k)) 10 sample_counters_at (sample_main_kernel true)
      [sample_capture 9000; sample_capture 0] = Ok (Runs k') /\
    counts sample_counters_at k' 6 3.
Proof.
  destruct (pcap_counts_packets _ _ _ _ (fun _ _ _ => 0) (fun _ _ _ k => Ok (0, k)) 10 sample_counters_at 256 (sample_main_kernel true)
    [sample_capture 9000; sample_capture 0] 5 2) as (r & E & Hr).
  - decide_closed.
  - split_and!; [vm_compute; reflexivity..|vm_compute; eauto|reflexivity].
  - decide_closed.
  - decide_closed.
  - change (taken _) with [sample_capture 9000; sample_capture 0].
    constructor; [|constructor; [|constructor]]; apply sample_capture_ok; lia.
  - assert (Hx : match pcap_loop (fun _ _ _ => 0) (fun _ _ _ k => Ok (0, k)) 10 sample_counters_at (sample_main_kernel true)
      [sample_capture 9000; sample_capture 0] with Ok (Runs _) => True | _ => False end) by (vm_compute; exact I).
    rewrite E in Hx. destruct r as [s k'|k'|k']; try contradiction. destruct Hr as [_ Hc]. exists k'. split; [exact E|exact Hc].
Defined.

(** A packet that is captured while its queue refuses new producers, as it
    does from the start of its destruction, frees its job twice: the failed
    [cmdmgrJobExec] has already freed it. *)
Theorem pcap_refused_double_free (S T : Type) (SQ : Sqlite S) (SM : StringMap T) (column_int64 : S -> Z -> nat -> Z)
    (exec_fn : Z -> timeval -> list Z -> @kernel S T (@globals S T) -> res (Z * @kernel S T (@globals S T)))
    (fuel : nat) (counters : main_counters) (k : @kernel S T (@globals S T)) c ts packet q :
  k_queues k !! CMD_MANAGER_QUEUE_SHORTOPS = Some (Some q) -> Queue.isActive q = false ->
  Forall is_byte packet -> (forall i, is_byte (ca_junk c i)) ->
  0 <= tv_sec ts < 2 ^ 63 /\ 0 <= tv_usec ts < 2 ^ 63 ->
  0 < ca_addr c /\ ca_addr c + Z.of_nat (job_len (str "PACKET_ANALYZE") packet) < 2 ^ 64 ->
  capture_packet column_int64 exec_fn fuel counters k c ts packet = Err DoubleFree.
Proof.
  intros Hq Ha Hp Hj Hts Haddr. unfold capture_packet.
  assert (Hk : key_ok (str "PACKET_ANALYZE")) by decide_closed.
  destruct (prepare_blocks (str "PACKET_ANALYZE") packet ts 0 (ca_addr c) Hk Hts Haddr (ca_junk c) [] Hj) as (gap & Hg & _ & E).
  rewrite app_nil_r in E. change (lit "PACKET_ANALYZE") with (term (str "PACKET_ANALYZE")). rewrite E. cbn [mbind res_bind].
  change (negb (KSUCCESS KSTATUS_SUCCESS)) with false. cbn [init mbind res_bind].
  rewrite enqueue_short by done. unfold job_enqueue, queue_of, rd. rewrite Hq. cbn [mbind res_bind deref].
  unfold Queue.queue_producer_new. by rewrite Ha.
Qed.

Lemma pcap_refused_double_free_witness :
  capture_packet (fun _ _ _ => 0) (fun _ _ _ k => Ok (0, k)) 10 sample_counters_at (sample_main_kernel false)
    (sample_capture 9000) (MkTv 7 8) [1; 2; 3] = Err DoubleFree.
Proof.
  apply (pcap_refused_double_free _ _ _ _ _ _ _ _ _ _ _ _ (Queue.MkQueue (replicate 256 0) 0 0 0 0 false 0 0 0 0 256)).
  - vm_compute. reflexivity.
  - reflexivity.
  - decide_closed.
  - intros i. cbn. decide_closed.
  - decide_closed.
  - decide_closed.
Defined.

(** ** A start that fails early *)

Section failed_start.
Context {S T : Type} `{SQ : Sqlite S} `{SM : StringMap T}.
Abbreviation kernel := (@kernel S T (@globals S T)).
Context (column_int64 : S -> Z -> nat -> Z) (column_text : S -> Z -> nat -> list Z) (column_count : S -> Z -> nat).
Context (call_fn : Z -> kernel -> res (Z * kernel)) (fuel : nat).

(** The variables of a program that has created nothing: null pointers. *)
Definition unstarted (s : @service S T) : Prop :=
  k_queues (s_k s) = [None; None] /\ k_db (s_k s) = 0 /\ k_stats (s_k s) = 0 /\
  w_DBList (k_world (s_k s)) = 0 /\ s_threadList s = 0.

Lemma dump_threads_end n buf off : (0 < n)%nat -> get buf off 8 = Ok 0 -> dump_threads n buf off = Ok [].
Proof. destruct n as [|n]; [lia|]. intros _ E. cbn [dump_threads]. unfold doublylinkedlistQueryIsEnd. by rewrite E. Qed.

Lemma psmgr_stop_none h buff base : length buff = 4096%nat -> psmgrStop h 0 buff base = Ok h.
Proof.
  intros Hb. unfold psmgrStop, i_psmgrDumpList, doublylinkedlistQuery. cbn [Z.eqb mbind res_bind].
  change (8 <? 4096)%nat with true. cbv iota. unfold put, memcpy. rewrite length_replicate, decide_True by lia.
  cbn [mbind res_bind]. rewrite dump_threads_end; [done|lia|]. unfold get. rewrite take_0, drop_0, app_nil_l, take_ge by done.
  by rewrite decide_True by (rewrite length_app; cbn [length replicate]; lia).
Qed.

(** All parts but the statistics accept that they were not started, and change
    nothing. *)
Lemma unstarted_parts s ws buff base :
  unstarted s -> alone ws -> length buff = 4096%nat ->
  stop_parts column_int64 column_text column_count call_fn fuel s ws buff base = Ok (Some (s_k s)).
Proof.
  intros (Hq & Hdb & Hst & Hl & Ht) Ha Hb. unfold stop_parts, cmdmgrStop.
  rewrite (stop_leaves _ _ _ None Ha) by (done || by rewrite Hq). cbn [mbind res_bind].
  rewrite (stop_leaves _ _ _ None Ha) by (done || (cbn; by rewrite Hq)). cbn [mbind res_bind].
  unfold dbExecQuery, i_dbExec, dbClose, dbmgrStop. cbn [k_db k_world set_queue]. rewrite Hdb.
  cbn [i_dbCheckState Z.eqb mbind res_bind negb set_world k_world k_db set_queue]. rewrite Hdb.
  cbn [i_dbCheckState Z.eqb mbind res_bind negb set_world k_world k_db set_queue]. rewrite Hl, Ht.
  cbn [doublylinkedlistFreeDeletedEntries doublylinkedlistFree Z.eqb mbind res_bind].
  rewrite psmgr_stop_none by done. cbn [mbind res_bind]. destruct s as [[[? [] ? ?] ? ? ? ? ?] ? ?]. cbn in *. by subst.
Qed.

(** A start that does not get to the statistics list of the kernel: no
    configuration, or no memory for the lists or for the name. *)
Definition fails_early (b : boot) : Prop :=
  bt_config b = false \/ bt_stats_list b = 0 \/ (bt_kernel_tmp b = 0 /\ exists n, strlen (bt_kernel_name b) = Ok n).

(** A start in which only the entry of the list has no memory. *)
Definition fails_at_list (b : boot) : Prop :=
  bt_config b = true /\ bt_stats_list b <> 0 /\ bt_kernel_tmp b <> 0 /\ bt_kernel_list b = 0 /\
  exists n key, strlen (bt_kernel_name b) = Ok n /\ Z.of_nat n + 1 < 2 ^ 32 /\ get (bt_kernel_name b) 0 8 = Ok key.

Lemma init_fails_early b (s : @service S T) :
  unstarted s -> fails_early b -> exists st s', svcKernelInit fuel b s = Ok (st, s') /\ KSUCCESS st = false /\ unstarted s'.
Proof.
  intros Hu Hb. unfold fails_early in Hb. unfold svcKernelInit. destruct (bt_config b); cbn [negb]; [|by eexists _, _].
  unfold statsmgrStart. destruct (Z.eqb_spec (bt_stats_list b) 0) as [E|E].
  { rewrite E. by eexists _, _. }
  destruct Hb as [Hc|[Hc|[Htmp [n Hn]]]]; [discriminate Hc|by destruct E|].
  destruct (DListProps.alloc_ok (st_heap (w_stats (k_world (set_status (s_k s) SVC_KERNEL_STATUS_START_PENDING)))) _ E) as (h & -> & _).
  cbn [mbind res_bind]. rewrite (proj2 (Z.eqb_neq _ _) E).
  change (negb (KSUCCESS KSTATUS_SUCCESS)) with false. cbv iota. unfold statsCreate. rewrite Hn. cbn [mbind res_bind].
  rewrite Htmp. cbn [Z.eqb mbind res_bind]. eexists _, _. split; [done|]. split; [done|].
  destruct Hu as (? & ? & ? & ? & ?). by split_and!.
Qed.

Lemma init_fails_at_list b (s : @service S T) :
  fails_at_list b ->
  exists st, statsmgrStart (w_stats (k_world (s_k s))) (bt_stats_list b) = Ok (KSTATUS_SUCCESS, st) /\
    statsCreate st (bt_kernel_name b) (bt_kernel_tmp b) (bt_kernel_list b) = Err NullDeref /\
    svcKernelInit fuel b s = Err NullDeref.
Proof.
  intros (Hc & Hs & Htmp & Hp & n & key & Hn & Hlen & Hkey). unfold statsmgrStart.
  destruct (DListProps.alloc_ok (st_heap (w_stats (k_world (s_k s)))) _ Hs) as (h & E & Hd).
  set (st := MkStats h (bt_stats_list b) (st_trees (w_stats (k_world (s_k s)))) (st_mem (w_stats (k_world (s_k s))))).
  assert (Ec : statsCreate st (bt_kernel_name b) (bt_kernel_tmp b) (bt_kernel_list b) = Err NullDeref).
  { unfold statsCreate. rewrite Hn. cbn [mbind res_bind]. rewrite (proj2 (Z.eqb_neq _ _) Htmp), wrap_small by (unfold is_u; lia).
    rewrite Z.ltb_irrefl, Hkey. cbn [mbind res_bind]. by rewrite Hp. }
  exists st. rewrite E. cbn [mbind res_bind]. rewrite (proj2 (Z.eqb_neq _ _) Hs). split_and!; [done..|].
  unfold svcKernelInit, statsmgrStart. rewrite Hc. cbn [negb].
  change (w_stats (k_world (set_status (s_k s) SVC_KERNEL_STATUS_START_PENDING))) with (w_stats (k_world (s_k s))).
  rewrite E. cbn [mbind res_bind]. rewrite (proj2 (Z.eqb_neq _ _) Hs).
  change (negb (KSUCCESS KSTATUS_SUCCESS)) with false. cbv iota. cbn [k_world set_world set_stats w_stats]. fold st. by rewrite Ec.
Qed.
End failed_start.

(** C40: when the service cannot be started because its configuration cannot be
    read or there is no memory for the statistics of the kernel, the program
    ends in a null dereference.  If the start fails before the statistics list of
    the kernel is made, it says so; the exit path then stops the commands, the
    databases and the threads, all of which accept that they were not started
    and change nothing, and destroys the statistics list that was never created:
    [statsDestroy] dereferences the null pointer.  If the entry of that list
    cannot be allocated, [statsCreate] itself does. *)
Theorem main_failed_start_crashes (S T : Type) (SQ : Sqlite S) (SM : StringMap T) (column_int64 : S -> Z -> nat -> Z)
    (column_text : S -> Z -> nat -> list Z) (column_count : S -> Z -> nat)
    (exec_fn : Z -> timeval -> list Z -> @kernel S T (@globals S T) -> res (Z * @kernel S T (@globals S T)))
    (call_fn : Z -> @kernel S T (@globals S T) -> res (Z * @kernel S T (@globals S T)))
    (fuel : nat) (counters : main_counters) (b : boot) (l : launch) (s : service) :
  unstarted s -> fails_early b \/ fails_at_list b -> alone (la_stop l) -> length (la_buff l) = 4096%nat ->
  main column_int64 column_text column_count exec_fn call_fn fuel counters b l s = Err NullDeref /\
  ((fails_early b /\ exists status s',
      svcKernelInit fuel b s = Ok (status, s') /\ KSUCCESS status = false /\
      stop_parts column_int64 column_text column_count call_fn fuel s' (la_stop l) (la_buff l) (la_base l) = Ok (Some (s_k s')) /\
      statsDestroy (w_stats (k_world (s_k s'))) (k_stats (s_k s')) = Err NullDeref) \/
   (fails_at_list b /\ exists st,
      statsmgrStart (w_stats (k_world (s_k s))) (bt_stats_list b) = Ok (KSTATUS_SUCCESS, st) /\
      statsCreate st (bt_kernel_name b) (bt_kernel_tmp b) (bt_kernel_list b) = Err NullDeref /\
      svcKernelInit fuel b s = Err NullDeref)).
Proof.
  intros Hu [Hb|Hb] Ha Hl; unfold main.
  - destruct (init_fails_early fuel b s Hu Hb) as (st & s' & E & Hst & Hu'). rewrite E. cbn [mbind res_bind]. rewrite Hst. cbn [negb].
    pose proof (unstarted_parts column_int64 column_text column_count call_fn fuel s' (la_stop l) (la_buff l) (la_base l) Hu' Ha Hl) as Ep.
    assert (Ed : statsDestroy (w_stats (k_world (s_k s'))) (k_stats (s_k s')) = Err NullDeref).
    { destruct Hu' as (_ & _ & -> & _). done. }
    split; [unfold exit_from, svcKernelExit; rewrite Ep; cbn [mbind res_bind]; by rewrite Ed|]. left. split; [done|]. by exists st, s'.
  - destruct (init_fails_at_list fuel b s Hb) as (st & E1 & E2 & E3). rewrite E3. split; [done|]. right. split; [done|]. by exists st.
Qed.

(** ** A start that fails late *)

(** An executor that sees a service that starts does not return. *)
Lemma executor_stays {S T G} `{SQ : Sqlite S} column_int64 (exec_fn : Z -> timeval -> list Z -> @kernel S T G -> res (Z * @kernel S T G))
    fuel (k : @kernel S T G) i buf stats iters :
  Forall (fun it => it.1 = SVC_KERNEL_STATUS_START_PENDING) iters ->
  forall st k', executor_loop column_int64 exec_fn fuel k i buf stats iters <> Ok (Exits st k').
Proof.
  intros Hi. revert k buf. induction Hi as [|[s waits] iters Hs _ IH]; intros k buf st k'; [done|]. cbn [fst] in Hs. subst s.
  cbn [executor_loop]. change (svcKernelIsRunning SVC_KERNEL_STATUS_START_PENDING) with true. cbv iota.
  destruct (executor_iteration _ _ _ _ _ _ _ _) as [[k1 [b|]]|]; cbn [mbind res_bind]; [apply IH|done|done].
Qed.

(** When the name of the device is missing in the configuration, the program
    does not end: the exit path waits for executors that nobody has told to
    stop. *)
Theorem start_without_device_hangs (S T : Type) (SQ : Sqlite S) (SM : StringMap T) (column_int64 : S -> Z -> nat -> Z)
    (column_text : S -> Z -> nat -> list Z) (column_count : S -> Z -> nat)
    (exec_fn : Z -> timeval -> list Z -> @kernel S T (@globals S T) -> res (Z * @kernel S T (@globals S T)))
    (call_fn : Z -> @kernel S T (@globals S T) -> res (Z * @kernel S T (@globals S T)))
    (fuel : nat) (counters : main_counters) (b : boot) (l : launch) (s s' : service) st k q :
  svcKernelInit fuel b s = Ok (st, s') -> KSUCCESS st = true -> la_device l = false ->
  dw_others (la_stop l CMD_MANAGER_QUEUE_SHORTOPS) (s_k s') = Ok k ->
  k_queues k !! CMD_MANAGER_QUEUE_SHORTOPS = Some (Some q) -> Queue.producers q <= 0 ->
  Forall (fun q => 0 < Queue.consumers q) (q :: dw_consumers (la_stop l CMD_MANAGER_QUEUE_SHORTOPS)) ->
  main column_int64 column_text column_count exec_fn call_fn fuel counters b l s = Ok None.
Proof.
  intros Hi Hst Hd Ho Hq Hp Hc. unfold main. rewrite Hi. cbn [mbind res_bind]. rewrite Hst, Hd. cbn [negb].
  unfold exit_from, svcKernelExit, stop_parts, cmdmgrStop, stop_queue. rewrite Ho. cbn [mbind res_bind]. unfold rd. rewrite Hq. cbn [mbind res_bind].
  unfold Queue.queue_destroy. set (q0 := Queue.set_clients _ _ _ _).
  assert (E0 : Queue.await Queue.producers q0 (dw_producers (la_stop l CMD_MANAGER_QUEUE_SHORTOPS)) = (q0, true)).
  { destruct (dw_producers _); cbn [Queue.await]; by rewrite (proj2 (Z.ltb_ge _ _)). }
  rewrite E0. cbv beta iota. cbn [negb].
  assert (E1 : forall q ws, Forall (fun q => 0 < Queue.consumers q) (q :: ws) -> (Queue.await Queue.consumers q ws).2 = false).
  { intros q1 ws Hf. revert q1 Hf. induction ws as [|q2 ws IH]; intros q1 Hf; apply list.Forall_cons in Hf as [H1 Hf];
      cbn [Queue.await]; rewrite (proj2 (Z.ltb_lt _ _) H1); [done|by apply IH]. }
  assert (Hc0 : Forall (fun q => 0 < Queue.consumers q) (q0 :: dw_consumers (la_stop l CMD_MANAGER_QUEUE_SHORTOPS))).
  { apply list.Forall_cons in Hc as [H1 Hc]. by constructor. }
  apply E1 in Hc0. destruct (Queue.await Queue.consumers q0 _) as [q1 gone]. cbn [snd] in Hc0. by subst gone.
Qed.

(** No configuration, or no memory for the entry of the list of the kernel. *)
Definition sample_boot (config : bool) : boot :=
  MkBoot config 4096 64 0 (term (str "KERNEL") ++ [0]) (fun _ => true) 0 None 0 0 (fun _ => (true, true)) (fun _ => 0) (fun _ => 0).

Definition sample_launch : @launch (gmap Z nat) ArtOps.art_tree :=
  MkLaunch [Some []; Some []; None] true false 0 0 0 0 0 (fun _ => 0) (fun _ => 0) (MkTv 0 0) [] []
    (fun _ => MkDestroyWaits [] [] (fun k => Ok k)) (replicate 4096 0) 0.

Definition sample_service : @service (gmap Z nat) ArtOps.art_tree :=
  MkService (MkKernel (MkWorld ∅ (MkStats ∅ 0 ∅ ∅) 0 ∅) 0 0 0 [None; None] (MkGlobals 0 (MkCaches None None) ∅)) 0 0.

Lemma main_failed_start_crashes_witness :
  (exists status s', svcKernelInit 10 (sample_boot false) sample_service = Ok (status, s') /\
     statsDestroy (w_stats (k_world (s_k s'))) (k_stats (s_k s')) = Err NullDeref) /\
  svcKernelInit 10 (sample_boot true) sample_service = Err NullDeref.
Proof.
  assert (Hl : fails_at_list (sample_boot true)).
  { split; [reflexivity|]. split; [done|]. split; [done|]. split; [reflexivity|].
    eexists 6%nat, _. split; [reflexivity|]. split; [lia|vm_compute; reflexivity]. }
  assert (He : fails_early (sample_boot false)) by (by left).
  split.
  - destruct (main_failed_start_crashes _ _ _ _ (fun _ _ _ => 0) (fun _ _ _ => []) (fun _ _ => 1%nat) (fun _ _ _ k => Ok (0, k))
      (fun _ k => Ok (0, k)) 10 sample_counters_at (sample_boot false) sample_launch sample_service) as [_ [(_ & st & s' & E & _ & _ & Ed)|(Hx & _)]].
    + repeat split.
    + by left.
    + intros i k. reflexivity.
    + reflexivity.
    + by exists st, s'.
    + destruct Hx as [Hx _]. discriminate Hx.
  - destruct (main_failed_start_crashes _ _ _ _ (fun _ _ _ => 0) (fun _ _ _ => []) (fun _ _ => 1%nat) (fun _ _ _ k => Ok (0, k))
      (fun _ k => Ok (0, k)) 10 sample_counters_at (sample_boot true) sample_launch sample_service) as [_ [(Hx & _)|(_ & st & _ & _ & E)]].
    + repeat split.
    + by right.
    + intros i k. reflexivity.
    + reflexivity.
    + destruct Hx as [Hx|[Hx|[Hx _]]]; discriminate Hx.
    + exact E.
Defined.

(** ** Commands from the command line *)

(** The configuration on the stack behind [strcpy]. *)
Definition test_cfg (stack : nat -> Z) (name : list Z) : list Z :=
  term name ++ drop (length name + 1) (stack <$> seq 0 sizeof_cfg).

Lemma test_cfg_ok stack name :
  key_ok name -> (forall i, is_byte (stack i)) ->
  memcpy (stack <$> seq 0 sizeof_cfg) 0 (term name) 0 (length name + 1) =
    (if (length name <? sizeof_cfg)%nat then Ok (test_cfg stack name) else Err OutOfBounds) /\
  ((length name < sizeof_cfg)%nat ->
     length (test_cfg stack name) = sizeof_cfg /\ Forall is_byte (test_cfg stack name) /\
     file_name (test_cfg stack name) = Ok name).
Proof.
  intros Hn Hs. assert (Ht : length (term name) = (length name + 1)%nat) by (unfold term; by rewrite length_app).
  assert (Hl : length (stack <$> seq 0 sizeof_cfg) = sizeof_cfg) by (by rewrite length_fmap, length_seq).
  split.
  - unfold memcpy, test_cfg. rewrite Hl, Ht. destruct (Nat.ltb_spec (length name) sizeof_cfg).
    + rewrite decide_True by lia. rewrite take_0, drop_0. f_equal. cbn [app]. rewrite take_ge by lia. done.
    + rewrite decide_False by lia. done.
  - intros H. unfold test_cfg. split; [rewrite length_app, length_drop, Hl; lia|]. split.
    + apply list.Forall_app. split.
      * unfold term. apply list.Forall_app. split; [|by repeat constructor].
        eapply list.Forall_impl; [exact Hn|]. cbv beta. intros b Hb. unfold is_u. change (2 ^ 8) with 256. lia.
      * apply list.Forall_drop. apply list.Forall_fmap. apply list.Forall_true. exact Hs.
    + unfold file_name. rewrite strlen_term by done. cbn [mbind res_bind]. f_equal.
      unfold term. rewrite <- app_assoc. by rewrite take_app_length.
Qed.

Section test_command.
Context {S T : Type} `{SQ : Sqlite S} `{SM : StringMap T}.
Abbreviation kernel := (@kernel S T (@globals S T)).
Context (column_int64 : S -> Z -> nat -> Z) (exec_fn : Z -> timeval -> list Z -> kernel -> res (Z * kernel)) (fuel : nat).

(** A command with a name that fits runs its function once. *)
Lemma test_command_runs code (k : kernel) name addr junk stack ts :
  key_ok (str code) -> key_ok name -> (forall i, is_byte (junk i)) -> (forall i, is_byte (stack i)) ->
  0 <= tv_sec ts < 2 ^ 63 /\ 0 <= tv_usec ts < 2 ^ 63 -> (length name < sizeof_cfg)%nat ->
  0 < addr /\ addr + Z.of_nat (job_len (str code) (test_cfg stack name)) < 2 ^ 64 ->
  test_command column_int64 exec_fn fuel code k (term name) addr junk stack ts =
    exec_view column_int64 exec_fn fuel k (lit code) ts (test_cfg stack name).
Proof.
  intros Hc Hn Hj Hs Hts Hl Ha. destruct (test_cfg_ok stack name Hn Hs) as [Ecfg Hcfg]. destruct (Hcfg Hl) as (Hlen & Hb & _).
  unfold test_command. rewrite <- (app_nil_r (term name)) at 1. rewrite strlen_term by done. cbn [mbind res_bind].
  rewrite Ecfg, (proj2 (Nat.ltb_lt _ _) Hl). cbn [mbind res_bind].
  destruct (prepare_blocks (str code) (test_cfg stack name) ts 0 addr Hc Hts Ha junk [] Hj) as (gap & Hg & _ & E).
  rewrite app_nil_r in E. change (lit code) with (term (str code)). rewrite E. cbn [mbind res_bind].
  change (negb (KSUCCESS KSTATUS_SUCCESS)) with false. cbn [init mbind res_bind cmdmgrJobExec].
  rewrite (exec_blocks column_int64 exec_fn fuel k (str code) (test_cfg stack name) ts 0 addr gap []) by done.
  unfold exec_view. destruct (svcKernelIsRunning (k_status k)); cbn [negb mbind res_bind]; [|done].
  destruct (i_cmdmgrFindExec _ _ _ _) as [[pexec k1]|]; [|done]. cbn [mbind res_bind]. destruct (pexec =? 0); [done|].
  destruct (exec_fn pexec ts _ k1) as [[ret k2]|]; [|done]. cbn [mbind res_bind].
  by destruct (ret =? 0).
Qed.
End test_command.

Section import.
Context {S T : Type} `{SQ : Sqlite S} `{SM : StringMap T}.
Abbreviation kernel := (@kernel S T (@globals S T)).

(** The packets of a file given to [analyze], each once and in their order; the
    results are ignored, and the first one on which it does not return ends the
    program. *)
Inductive imports (analyze : kernel -> timeval -> list Z -> res (Z * kernel)) : kernel -> list (timeval * list Z) -> res kernel -> Prop :=
| imports_end k : imports analyze k [] (Ok k)
| imports_next k ts packet rc k1 packets r :
    analyze k ts packet = Ok (rc, k1) -> imports analyze k1 packets r -> imports analyze k ((ts, packet) :: packets) r
| imports_fails k ts packet e packets :
    analyze k ts packet = Err e -> imports analyze k ((ts, packet) :: packets) (Err e).

Context (column_int : S -> Z -> nat -> Z) (ether_ntoa : list Z -> list Z) (inet_ntoa : Z -> list Z)
  (gethostbyaddr : Z -> option (list Z)) (real_time : nat -> S -> Timer.timespec) (fuel : nat) (mem : bool).

Lemma import_loop_imports packets k :
  imports (packet_exec column_int ether_ntoa inet_ntoa gethostbyaddr real_time fuel mem) k packets
    (import_loop column_int ether_ntoa inet_ntoa gethostbyaddr real_time fuel mem k packets).
Proof.
  revert k. induction packets as [|[ts packet] packets IH]; intros k; cbn [import_loop]; [constructor|].
  destruct (packet_exec _ _ _ _ _ _ _ k ts packet) as [[rc k1]|e] eqn:E; cbn [mbind res_bind]; [|by constructor].
  eapply imports_next; [exact E|apply IH].
Qed.
End import.

(** C39: in the test mode, [IMPORT_PCAP] and a file name on the command line run
    the import of that file: in a service that runs and in whose table the
    command is found, the packets of the file are analyzed, each once and in the
    order of the file, and the command reports success; a file that cannot be
    opened is reported as a failure, as is a job without memory, and nothing is
    analyzed.  A name of 255 bytes or more overruns the configuration on the
    stack, and any other first word than the two commands does nothing. *)
Theorem test_import_runs (S T : Type) (SQ : Sqlite S) (SM : StringMap T) (column_int64 : S -> Z -> nat -> Z)
    (column_int : S -> Z -> nat -> Z) (column_text column_name : S -> Z -> nat -> option (list Z)) (column_count : S -> Z -> nat)
    (ether_ntoa : list Z -> list Z) (inet_ntoa : Z -> list Z) (gethostbyaddr : Z -> option (list Z))
    (real_time : nat -> S -> Timer.timespec) (pcap_open_offline : list Z -> option (list (timeval * list Z)))
    (file_open : list Z -> option file_t) (fuel : nat) (mem : bool) (k k1 : @kernel S T (@globals S T)) (l : @launch S T) word name :
  la_argv l !! 2%nat = Some (Some (term word)) -> la_argv l !! 3%nat = Some (Some (term name)) -> key_ok word -> key_ok name ->
  (forall i, is_byte (la_junk l i)) -> (forall i, is_byte (la_stack l i)) ->
  0 <= tv_sec (la_ts l) < 2 ^ 63 /\ 0 <= tv_usec (la_ts l) < 2 ^ 63 -> 0 <= la_addr l < 2 ^ 63 ->
  svcKernelIsRunning (k_status k) = true ->
  i_cmdmgrFindExec column_int64 fuel k (lit "IMPORT_PCAP") = Ok (exec_addr ImportPcapCmd, k1) ->
  let exec_fn := Commands.exec_fn column_int column_text column_name column_count ether_ntoa inet_ntoa gethostbyaddr real_time
     pcap_open_offline file_open fuel mem in
  let test := testImportPcap column_int64 exec_fn fuel k (term name) (la_addr l) (la_junk l) (la_stack l) (la_ts l) in
  let run := run_test column_int64 exec_fn fuel l k in
  (word <> str "EXPORT_FILE" -> word <> str "IMPORT_PCAP" -> run = Ok k) /\
  (word = str "IMPORT_PCAP" ->
   if (length name <? 255)%nat then
     if la_addr l =? 0 then test = Ok (KSTATUS_OUT_OF_MEMORY, k) /\ run = Ok k
     else match pcap_open_offline name with
          | None => test = Ok (KSTATUS_UNSUCCESS, k1) /\ run = Ok k1
          | Some packets =>
              exists r, imports (packet_exec column_int ether_ntoa inet_ntoa gethostbyaddr real_time fuel mem) k1 packets r /\
                test = (k2 ← r; Ok (KSTATUS_SUCCESS, k2)) /\ run = r
          end
   else test = Err OutOfBounds /\ run = Err OutOfBounds).
Proof.
  intros H2 H3 Hw Hn Hj Hs Hts Ha Hrun Hfind exec_fn test run.
  assert (Hword : forall b, same_string (term word) b = Ok (bool_decide (word = str b))).
  { intros b. unfold same_string. rewrite <- (app_nil_r (term word)). rewrite strlen_term by done. cbn [mbind res_bind].
    unfold term. by rewrite <- app_assoc, take_app_length. }
  assert (Erun : run = if bool_decide (word = str "EXPORT_FILE") then run else
    if bool_decide (word = str "IMPORT_PCAP") then '(_, k) ← test; Ok k else Ok k).
  { unfold run, run_test, rd. rewrite H2, H3. cbn [mbind res_bind deref]. rewrite !Hword. cbn [mbind res_bind].
    destruct (bool_decide (word = str "EXPORT_FILE")); [done|]. cbn [mbind res_bind]. by destruct (bool_decide _). }
  split.
  { intros W1 W2. rewrite Erun. by rewrite !bool_decide_eq_false_2. }
  intros ->. rewrite bool_decide_eq_false_2, bool_decide_eq_true_2 in Erun by done. clear H2 Hw Hword.
  assert (Hc : key_ok (str "IMPORT_PCAP")) by decide_closed.
  destruct (test_cfg_ok (la_stack l) name Hn Hs) as [Ecfg Hcfg]. change 255%nat with sizeof_cfg.
  destruct (Nat.ltb_spec (length name) sizeof_cfg) as [Hl|Hl]; cycle 1.
  { assert (E : test = Err OutOfBounds) by (unfold test, testImportPcap, test_command; rewrite <- (app_nil_r (term name)) at 1;
      rewrite strlen_term by done; cbn [mbind res_bind]; by rewrite Ecfg). by rewrite Erun, E. }
  destruct (Hcfg Hl) as (Hlen & _ & Hfile). destruct (Z.eqb_spec (la_addr l) 0) as [H0|H0].
  { assert (E : test = Ok (KSTATUS_OUT_OF_MEMORY, k)).
    { unfold test, testImportPcap, test_command. rewrite <- (app_nil_r (term name)) at 1. rewrite strlen_term by done. cbn [mbind res_bind].
      rewrite Ecfg. cbn [mbind res_bind]. unfold cmdmgrJobPrepare. change (strlen (lit "IMPORT_PCAP")) with (Ok 11%nat). by rewrite H0. }
    by rewrite Erun, E. }
  assert (E : test = exec_view column_int64 exec_fn fuel k (lit "IMPORT_PCAP") (la_ts l) (test_cfg (la_stack l) name)).
  { unfold test, testImportPcap. apply test_command_runs; try done. unfold job_len. rewrite Hlen. unfold sizeof_cfg, sizeof_job.
    change (length (str "IMPORT_PCAP")) with 11%nat. lia. }
  unfold exec_view in E. rewrite Hrun in E. cbn [negb] in E. rewrite Hfind in E. cbn [mbind res_bind] in E.
  change (exec_addr ImportPcapCmd =? 0) with false in E. cbn iota in E. unfold exec_fn, Commands.exec_fn in E.
  change (exec_addr ImportPcapCmd =? exec_addr PacketAnalyzeCmd) with false in E.
  change (exec_addr ImportPcapCmd =? exec_addr ImportPcapCmd) with true in E. cbn iota in E.
  unfold cmdImportPcapExec in E. rewrite Hlen, Nat.eqb_refl, Hfile in E. cbn [negb mbind res_bind] in E. unfold i_importPcap in E.
  destruct (pcap_open_offline name) as [packets|]; [|by rewrite Erun, E].
  eexists. split; [apply import_loop_imports|]. rewrite Erun, E. by destruct (import_loop _ _ _ _ _ _ _ _ _).
Qed.

(** The test mode with the word and the file name given, and a file of two packets. *)
Definition import_launch : @launch (gmap Z nat) ArtOps.art_tree :=
  MkLaunch [Some []; Some []; Some (lit "IMPORT_PCAP"); Some (lit "ab"); None] true true 0 0 0 0 9000 (fun _ => 9) (fun _ => 8) (MkTv 0 0) [] []
    (fun _ => MkDestroyWaits [] [] (fun k => Ok k)) (replicate 4096 0) 0.

Definition import_file : list (timeval * list Z) := [(MkTv 1 2, Mapper.sample_frame); (MkTv 3 4, Mapper.sample_frame)].

Definition import_kernel : @kernel (gmap Z nat) ArtOps.art_tree (@globals (gmap Z nat) ArtOps.art_tree) :=
  set_caches (sample_main_kernel true)
    (MkCaches (Some (Bst.MkBst PacketSpec.sample_cache (i_cmdPacketAnalyzeCacheIPExpireCheck (fun _ _ _ => 7) (fun _ => []) (fun _ => None) 5000 400)))
       (Some (Bst.MkBst PacketSpec.sample_cache i_cmdPacketAnalyzeCacheEthExpireCheck))).

Lemma test_import_runs_witness :
  exists k1 k2,
    imports (packet_exec (fun _ _ _ => 7) Datatypes.id (fun _ => []) (fun _ => None) (fun _ _ => Timer.MkTs 1000 500000000) 400 true) k1 import_file (Ok k2) /\
    run_test (fun _ _ _ => exec_addr ImportPcapCmd)
      (Commands.exec_fn (fun _ _ _ => 7) (fun _ _ _ => None) (fun _ _ _ => None) (fun _ _ => 0%nat) Datatypes.id (fun _ => []) (fun _ => None)
         (fun _ _ => Timer.MkTs 1000 500000000) (fun _ => Some import_file) (fun _ => None) 400 true)
      400 import_launch import_kernel = Ok k2.
Proof.
  set (r := i_cmdmgrFindExec (fun _ _ _ => exec_addr ImportPcapCmd) 400 import_kernel (lit "IMPORT_PCAP")).
  assert (Hr : match r with Ok (p, _) => p = exec_addr ImportPcapCmd | Err _ => False end) by (vm_compute; reflexivity).
  destruct r as [[p k1]|] eqn:E; [|contradiction]. subst p.
  destruct (test_import_runs _ _ _ _ (fun _ _ _ => exec_addr ImportPcapCmd) (fun _ _ _ => 7) (fun _ _ _ => None) (fun _ _ _ => None) (fun _ _ => 0%nat)
    Datatypes.id (fun _ => []) (fun _ => None) (fun _ _ => Timer.MkTs 1000 500000000) (fun _ => Some import_file) (fun _ => None) 400 true
    import_kernel k1 import_launch (str "IMPORT_PCAP") (str "ab") eq_refl eq_refl ltac:(decide_closed) ltac:(decide_closed)
    ltac:(intros i; decide_closed) ltac:(intros i; decide_closed) ltac:(decide_closed) ltac:(decide_closed) eq_refl E) as [_ H].
  destruct (H eq_refl) as (o & Him & _ & Erun).
  assert (Hok : match run_test (fun _ _ _ => exec_addr ImportPcapCmd)
      (Commands.exec_fn (fun _ _ _ => 7) (fun _ _ _ => None) (fun _ _ _ => None) (fun _ _ => 0%nat) Datatypes.id (fun _ => []) (fun _ => None)
         (fun _ _ => Timer.MkTs 1000 500000000) (fun _ => Some import_file) (fun _ => None) 400 true)
      400 import_launch import_kernel with Ok _ => True | Err _ => False end) by (vm_compute; exact I).
  rewrite Erun in Hok. destruct o as [k2|]; [|contradiction]. exists k1, k2. split; [exact Him|exact Erun].
Defined.

End MainSpec.
