(* ===== verification/Pipeline.v ===== *)
(** * From the capture to the database

    The commands of the program satisfy the interface of the executors, and a
    packet that is captured is what the executor hands to the packet command:
    captured packets are analysed once each and in the order of their capture. *)

From Stdlib Require Import Ascii String.
From stdpp Require Import gmap.
From S2P Require Import Prelude CString ArtTree ArtMap Timer DList Queue QueueSpec QueueProps Svc Stats Database DatabaseSpec Bst CmdManager CmdSpec Executor Mapper PacketAnalyze PacketSpec Commands Main MainSpec.

Module Pipeline.
Import CStr ArtMap Svc Stats Database DatabaseSpec CmdManager CmdSpec Executor PacketAnalyze Commands Main MainSpec.

(** ** The commands as handlers *)

(** Split the results of the calls a run consists of. *)
Ltac split_run :=
  repeat match goal with
  | H : context [let '(_, _) := ?x in _] |- _ => destruct x eqn:?
  | H : context [if ?b then _ else _] |- _ => destruct b eqn:?
  | H : (_ ≫= _) = Ok _ |- _ => apply bind_Ok in H; destruct H as (? & ? & H)
  | H : Err _ = Ok _ |- _ => discriminate H
  | H : Ok _ = Ok _ |- _ => injection H as H
  | p : _ * _ |- _ => destruct p
  end; simplify_eq.

Section commands.
Context {S T : Type} `{SQ : Sqlite S} `{SM : StringMap T}.
Abbreviation world := (@world S T).
Context (column_int : S -> Z -> nat -> Z) (column_text column_name : S -> Z -> nat -> option (list Z)).
Context (column_count : S -> Z -> nat).
Context (ether_aton : list Z -> option (list Z)) (ether_ntoa : list Z -> list Z).
Context (inet_aton : list Z -> option Z) (inet_ntoa : Z -> list Z).
Context (gethostbyaddr : Z -> option (list Z)) (real_time : nat -> S -> Timer.timespec).
Context (pcap_open_offline : list Z -> option (list (timeval * list Z))) (file_open : list Z -> option file_t).
Context (fuel : nat) (mem : bool).

Lemma txn_begin_registers (w : world) p k w' : dbTxnBegin w p = Ok (k, w') -> registers w w'.
Proof. unfold dbTxnBegin. intros H. split_run; by try apply registers_same. Qed.

Lemma txn_end_registers stmt d t f (w : world) p k w' : txn_end stmt d t f w p = Ok (k, w') -> registers w w'.
Proof.
  unfold txn_end. intros H. split_run; try done.
  all: repeat match goal with Hb : bump _ _ _ _ = Ok _ |- _ => apply bump_registers in Hb end.
  - etrans; [|eassumption]. done.
  - done.
Qed.

Lemma pk_registers n (w : world) p stmt c param args k param' w' :
  dbExecQuery (i_getPK column_int) n w p stmt c param args = Ok (k, param', w') -> registers w w'.
Proof. apply exec_registers. intros q w0 st rc q' w1 [= _ _ <-]. done. Qed.

(** A cache whose handler for expired entries unregisters no counter. *)
Definition handler_ok (h : Bst.handler world) : Prop :=
  forall w key ptr n r ptr' w', h w key ptr n = Ok (r, ptr', w') -> registers w w'.

Definition cache_ok (c : Bst.bst_t world) : Prop := handler_ok (Bst.expireHandler c).

Lemma search_registers c (w : world) ts key buf n r b c' w' :
  cache_ok c -> Bst.bst_search c w ts key buf n = Ok (r, b, c', w') -> cache_ok c' /\ registers w w'.
Proof.
  intros Hc. unfold Bst.bst_search. destruct (Bst.bst_find_loop _ _) as [e|]; [|by intros [= _ _ <- <-]].
  destruct (Bst.e_dataTimeout e) as [t|]; [|done]. intros H. split_run; try done.
  all: split; [exact Hc|]. all: eapply Hc; eassumption.
Qed.

Lemma cache_insert_ok c key buf n ts r c' :
  cache_ok c -> Bst.bst_insert mem c key buf n ts = Ok (r, c') -> cache_ok c'.
Proof. intros Hc. unfold Bst.bst_insert. intros H. by split_run. Qed.

Lemma load_registers p (w : world) u c f id k id' w' :
  load_id column_int p fuel w u c f id = Ok (k, id', w') -> registers w w'.
Proof.
  unfold load_id. intros H. split_run;
    repeat match goal with
    | E : dbExec _ _ _ _ _ _ = Ok _ |- _ => apply dbExec_registers in E
    | E : dbExecQuery _ _ _ _ _ _ _ _ = Ok _ |- _ => apply pk_registers in E
    end; repeat (etrans; [eassumption|]); done.
Qed.

Lemma finish_registers p (w : world) k c key id ts secs r c' w' :
  cache_ok c -> finish_id p mem w k c key id ts secs = Ok (r, c', w') -> cache_ok c' /\ registers w w'.
Proof.
  intros Hc. unfold finish_id. intros H. split_run;
    repeat match goal with
    | E : dbTxnCommit _ _ = Ok _ |- _ => apply txn_end_registers in E
    | E : dbTxnRollback _ _ = Ok _ |- _ => apply txn_end_registers in E
    | E : Bst.bst_insert _ _ _ _ _ _ = Ok _ |- _ => apply cache_insert_ok in E; [|done]
    end; split; try done; by etrans.
Qed.

Lemma get_registers p (w : world) c key secs u cr f r c' w' :
  cache_ok c -> cache_get column_int real_time p fuel mem w c key secs u cr f = Ok (r, c', w') -> cache_ok c' /\ registers w w'.
Proof.
  intros Hc. unfold cache_get. intros H.
  apply bind_Ok in H as ([[[n buf] c1] w1] & Hs & H). apply search_registers in Hs as [Hc1 H1]; [|done].
  destruct (s32 n =? Z.of_nat sizeof_int); [by injection H as _ <- <-|].
  apply bind_Ok in H as ([st w2] & Hb & H). apply txn_begin_registers in Hb.
  destruct (negb (KSUCCESS st)); [injection H as _ <- <-; split; [done|by etrans]|].
  apply bind_Ok in H as ([[st' id] w3] & Hl & H). apply load_registers in Hl.
  apply finish_registers in H as [Hc' H4]; [|done]. split; [done|]. by repeat (etrans; [eassumption|]).
Qed.

(** The caches that exist are in order. *)
Definition caches_ok (cs : @caches S T) : Prop :=
  (forall c, g_IPCache cs = Some c -> cache_ok c) /\ (forall c, g_EthCache cs = Some c -> cache_ok c).

Lemma analyze_registers p (w : world) cs ts frame r cs' w' :
  caches_ok cs -> cmdPacketAnalyzeExec column_int ether_ntoa inet_ntoa gethostbyaddr real_time p fuel mem w cs ts frame = Ok (r, cs', w') ->
  caches_ok cs' /\ registers w w'.
Proof.
  intros [Hip Heth]. unfold cmdPacketAnalyzeExec. intros H.
  apply bind_Ok in H as ([ok results] & _ & H). destruct (negb ok); [injection H as _ <- <-; by repeat split|].
  destruct (g_EthCache cs) as [eth|]; [|done]. specialize (Heth eth eq_refl). cbn [deref mbind res_bind] in H.
  apply bind_Ok in H as ([[i1 eth1] w1] & E1 & H). apply get_registers in E1 as [C1 R1]; [|done].
  apply bind_Ok in H as ([[i2 eth2] w2] & E2 & H). apply get_registers in E2 as [C2 R2]; [|done].
  destruct (g_IPCache cs) as [ip|]; [|done]. specialize (Hip ip eq_refl). cbn [deref mbind res_bind] in H.
  apply bind_Ok in H as ([[i3 ip1] w3] & E3 & H). apply get_registers in E3 as [C3 R3]; [|done].
  apply bind_Ok in H as ([[i4 ip2] w4] & E4 & H). apply get_registers in E4 as [C4 R4]; [|done].
  assert (caches_ok (MkCaches (Some ip2) (Some eth2))) as Hcs by (by split; intros ? [= <-]).
  assert (registers w w4) as R by (by repeat (etrans; [eassumption|])).
  apply bind_Ok in H as (j1 & _ & H). apply bind_Ok in H as (j2 & _ & H).
  apply bind_Ok in H as (j3 & _ & H). apply bind_Ok in H as (j4 & _ & H).
  destruct (_ || _); [by injection H as _ <- <-|]. apply bind_Ok in H as ([st w5] & E5 & H).
  apply dbExec_registers in E5. injection H as _ <- <-. split; [done|by etrans].
Qed.

Abbreviation kernel := (@kernel S T (@globals S T)).

(** What executing a command keeps. *)
Definition kept (k k' : kernel) : Prop :=
  caches_ok (g_caches (k_globals k')) /\ k_queues k' = k_queues k /\ registers (k_world k) (k_world k').

Lemma packet_exec_kept k ts frame r k' :
  caches_ok (g_caches (k_globals k)) ->
  packet_exec column_int ether_ntoa inet_ntoa gethostbyaddr real_time fuel mem k ts frame = Ok (r, k') -> kept k k'.
Proof.
  intros Hc. unfold packet_exec. intros H. apply bind_Ok in H as ([[r' cs] w] & E & H).
  apply analyze_registers in E as [Hcs Hr]; [|done]. by injection H as _ <-.
Qed.

Lemma import_loop_kept k packets k' :
  caches_ok (g_caches (k_globals k)) ->
  import_loop column_int ether_ntoa inet_ntoa gethostbyaddr real_time fuel mem k packets = Ok k' -> kept k k'.
Proof.
  revert k. induction packets as [|[ts frame] packets IH]; intros k Hc H; cbn [import_loop] in H; [by injection H as <-|].
  apply bind_Ok in H as ([r k1] & E & H). apply packet_exec_kept in E as (C1 & Q1 & R1); [|done].
  destruct (IH k1 C1 H) as (C2 & Q2 & R2). split; [done|]. split; [congruence|by etrans].
Qed.

(** The handlers the packet command creates its caches with are in order. *)
Lemma command_caches_ok p ip eth :
  Bst.expireHandler ip = i_cmdPacketAnalyzeCacheIPExpireCheck column_int inet_ntoa gethostbyaddr p fuel ->
  Bst.expireHandler eth = i_cmdPacketAnalyzeCacheEthExpireCheck -> caches_ok (MkCaches (Some ip) (Some eth)).
Proof.
  intros Eip Eeth. split; intros c [= <-]; unfold cache_ok; [rewrite Eip|rewrite Eeth]; intros w key ptr n r ptr' w' H.
  - unfold i_cmdPacketAnalyzeCacheIPExpireCheck in H. apply bind_Ok in H as ([[st id] w1] & E & H).
    injection H as _ _ <-. by eapply pk_registers.
  - by injection H as _ _ <-.
Qed.

#[export] Program Instance exec_fn_laws :
    HandlerLaws (Commands.exec_fn column_int column_text column_name column_count ether_ntoa inet_ntoa gethostbyaddr real_time
      pcap_open_offline file_open fuel mem) := { globals_ok g := caches_ok (g_caches g) }.
Next Obligation.
  cbv beta. intros p ts data k r k' Hc. unfold Commands.exec_fn.
  destruct (p =? exec_addr PacketAnalyzeCmd); [by apply packet_exec_kept|].
  destruct (p =? exec_addr ImportPcapCmd).
  { unfold cmdImportPcapExec. destruct (negb _); [by intros [= _ <-]|]. intros H. apply bind_Ok in H as (name & _ & H).
    unfold i_importPcap in H. destruct (pcap_open_offline name) as [packets|]; [|by injection H as _ <-].
    apply bind_Ok in H as (k1 & E & H). injection H as _ <-. by eapply import_loop_kept. }
  destruct (p =? exec_addr ExportFileCmd); [|done].
  unfold cmdExportFileExec. destruct (negb _); [by intros [= _ <-]|]. intros H. apply bind_Ok in H as (name & _ & H).
  destruct (file_open name) as [fd|]; [|by injection H as _ <-]. apply bind_Ok in H as ([[st f] w] & E & H). injection H as _ <-.
  split; [done|]. split; [done|]. eapply exec_registers; [|exact E].
  intros q w0 st0 rc q' w1 Hcb. unfold i_cmdExportCallback in Hcb. split_run; done.
Qed.
End commands.

(** ** Rounds of capturing and executing *)

(** The order a captured packet stands for. *)
Definition packet_order (p : timeval * list Z) : order := MkOrder (str "PACKET_ANALYZE") p.1 p.2.
Definition orders (cs : list capture) : list order := packet_order <$> omap ca_packet cs.

(** The orders fit in a queue of [N] bytes together. *)
Definition stored_size (o : order) : nat := Queue.hdr_size + order_len o.
Definition room (N : nat) (os : list order) : Prop := (sum_list_with stored_size os <= N)%nat.

Lemma carried_size N q es os :
  QueueSpec.holds N q es -> Forall2 carries es os ->
  length (QueueSpec.enc_all es) = sum_list_with stored_size os.
Proof.
  intros (c & Hc & _ & _ & _ & <-) H2. assert (Hok : Forall Queue.entry_ok (QueueSpec.pending c)).
  { apply list.Forall_drop. eapply list.Forall_impl; [apply (QueueSpec.ci_written _ _ Hc)|]. by intros e [? _]. }
  revert Hok. induction H2 as [|e o es os (flags & addr & gap & Hg & _ & Ed) _ IH]; intros Hok; [done|].
  apply list.Forall_cons in Hok as [He Hok]. rewrite QueueSpec.enc_all_cons, length_app, QueueSpec.length_enc, IH by done.
  cbn [sum_list_with]. by rewrite Ed, blocks_length.
Qed.

Lemma held_room N q es os e o :
  QueueSpec.holds N q es -> Forall2 carries es os -> Queue.entry_ok e -> length (Queue.e_data e) = order_len o ->
  room N (os ++ [o]) -> Queue.too_big q (Queue.e_len e) = false -> Queue.no_room q (Queue.e_len e) = false.
Proof.
  intros Hh H2 He Hl Hroom Htb. pose proof (carried_size N q es os Hh H2) as Hsz.
  destruct Hh as (c & Hc & <- & _ & _ & Hp). pose proof (QueueSpec.ci_bound _ _ Hc) as HN.
  assert (QueueSpec.small N e) as Hs by (eapply QueueSpec.too_big_small; [done|apply Hc|done]).
  unfold Queue.no_room. rewrite (QueueSpec.entry_size_enc N e He Hs HN), (QueueSpec.ci_mem _ _ Hc), (QueueSpec.ci_usage _ _ Hc), Hp, Hsz.
  unfold room in Hroom. rewrite sum_list_with_app in Hroom. cbn [sum_list_with] in Hroom. unfold stored_size at 2 in Hroom.
  rewrite QueueSpec.length_enc, Hl by done. apply Z.ltb_ge.
  rewrite wrap_small by (split; [lia|change (2 ^ 64) with (2 * 2 ^ 63); lia]). lia.
Qed.

Section rounds.
Context {S T : Type} `{SQ : Sqlite S} `{SM : StringMap T}.
Abbreviation kernel := (@kernel S T (@globals S T)).
Context (column_int64 : S -> Z -> nat -> Z) (exec_fn : Z -> timeval -> list Z -> kernel -> res (Z * kernel)) `{HL : !HandlerLaws exec_fn}.
Context (fuel : nat) (counters : main_counters) (stats : Z) (N : nat).

(** The state between two calls: the queue of short operations, of [N] bytes,
    holds jobs for the orders [os], and the counters of the queue and of the
    capture thread are registered. *)
Record pipe (k : kernel) (os : list order) : Prop := {
  p_queue : exists q es, k_queues k !! CMD_MANAGER_QUEUE_SHORTOPS = Some (Some q) /\ QueueSpec.holds N q es /\ Forall2 carries es os;
  p_orders : Forall order_ok os;
  p_globals : globals_ok exec_fn (k_globals k);
  p_stats : registered (w_stats (k_world k)) stats 6;
  p_enq : c_enq counters ∈ dom (st_mem (w_stats (k_world k))) /\ c_enq counters <> 0;
  p_enqTime : c_enqTime counters ∈ dom (st_mem (w_stats (k_world k))) /\ c_enqTime counters <> 0
}.

(** No other thread changes the queue while the packets are captured. *)
Fixpoint undisturbed (k : kernel) (cs : list capture) : Prop :=
  match cs with
  | [] => True
  | c :: cs' =>
      k_queues k !! CMD_MANAGER_QUEUE_SHORTOPS = Some (ca_queue c) /\
      forall k', pcap_loop column_int64 exec_fn fuel counters k [c] = Ok (Runs k') -> undisturbed k' cs'
  end.

(** Publishing a value keeps everything but counters. *)
Lemma kstats_keeps (k : kernel) a v :
  a ∈ dom (st_mem (w_stats (k_world k))) -> a <> 0 ->
  exists k', kstats k a v = Ok k' /\ k_queues k' = k_queues k /\ k_globals k' = k_globals k /\ registers (k_world k) (k_world k').
Proof.
  intros [c Hc]%elem_of_dom Ha. unfold kstats.
  assert (Hu : statsUpdate (w_stats (k_world k)) a v =
    Ok ((update_counter c v).1, set_counter (w_stats (k_world k)) a (update_counter c v).2)).
  { unfold statsUpdate, counter_of. rewrite (proj2 (Z.eqb_neq a 0)), Hc by done. cbn [mbind res_bind]. by destruct (update_counter c v). }
  pose proof (update_registers _ _ _ _ _ Hu). rewrite Hu. cbn [mbind res_bind]. eexists. by split_and!.
Qed.

Lemma capture_stores k c ts packet os :
  pipe k os -> capture_ok N c -> ca_packet c = Some (ts, packet) -> ca_addr c <> 0 ->
  k_queues k !! CMD_MANAGER_QUEUE_SHORTOPS = Some (ca_queue c) -> room N (os ++ [packet_order (ts, packet)]) ->
  exists k', capture_packet column_int64 exec_fn fuel counters k c ts packet = Ok (inl k') /\
    pipe k' (os ++ [packet_order (ts, packet)]).
Proof.
  intros [(q & es & Hq & Hh & H2) Hos Hg Hst He Ht] Hc Hp Haddr Hqc Hroom. unfold capture_ok in Hc. rewrite Hp in Hc.
  destruct Hc as (Hb & Hj & Hpad & Hts & Ha0 & Ha & Hn & T1 & T2 & T3 & (q0 & Eq & _ & Hact & Htb) & _).
  rewrite Hq, Eq in Hqc. injection Hqc as <-. unfold capture_packet.
  assert (Hk : key_ok (str "PACKET_ANALYZE")) by decide_closed. set (o := packet_order (ts, packet)) in *.
  destruct (prepare_blocks (str "PACKET_ANALYZE") packet ts 0 (ca_addr c) Hk Hts ltac:(lia) (ca_junk c) [] Hj) as (gap & Hgap & Hgb & E).
  rewrite app_nil_r in E. change (lit "PACKET_ANALYZE") with (term (str "PACKET_ANALYZE")). rewrite E. cbn [mbind res_bind].
  change (negb (KSUCCESS KSTATUS_SUCCESS)) with false. cbn [init mbind res_bind].
  pose proof (blocks_length (str "PACKET_ANALYZE") packet ts 0 (ca_addr c) gap Hgap) as Hl.
  pose proof (blocks_bytes (str "PACKET_ANALYZE") packet ts 0 (ca_addr c) gap Hk Hgb Hb) as Hbb.
  rewrite enqueue_short by (done || lia).
  change (job_len (str "PACKET_ANALYZE") packet) with (order_len o) in *.
  set (bytes := concat _) in *. set (e := Queue.MkEntry bytes (ca_pad c)).
  assert (Hlen : Queue.e_len e = Z.of_nat (order_len o)) by (unfold Queue.e_len; cbn [Queue.e_data e]; by rewrite Hl).
  assert (Hee : Queue.entry_ok e) by (split; [done|]; rewrite Hlen; split; [lia|done]).
  set (q1 := Queue.set_clients q (Queue.consumers q) (s32 (Queue.producers q + 1)) true).
  pose proof (QueueProps.queue_write_ok N q1 es e (ca_waits c) (holds_clients _ _ _ _ _ _ Hh) Hee) as Hw.
  change (Queue.too_big q1 (Queue.e_len e)) with (Queue.too_big q (Queue.e_len e)) in Hw.
  rewrite <- Hlen in Htb. rewrite Htb in Hw.
  destruct (Hw (held_room N q es os e o Hh H2 Hee Hl Hroom Htb)) as (q2 & Ew & Hh2). clear Hw.
  rewrite Hlen, s32_small in Ew by lia.
  unfold job_enqueue, queue_of. rewrite (rd_lookup _ _ _ Hq). cbn [mbind res_bind deref].
  unfold Queue.queue_producer_new. rewrite Hact. fold q1. cbv iota beta. cbn [j_bytes].
  rewrite decide_True by (rewrite Hl; lia). rewrite Nat2Z.id, take_ge by lia. cbn [Queue.e_data Queue.e_pad e] in Ew. rewrite Ew.
  cbn [mbind res_bind]. rewrite Z.eqb_refl, (proj2 (Z.ltb_lt 0 _)) by (unfold order_len, job_len, sizeof_job; lia). cbn [andb].
  change (negb (KSUCCESS KSTATUS_SUCCESS)) with false. cbv iota. rewrite Timer.watch_stop_ok by done. cbn [mbind res_bind].
  set (k1 := set_queue k _ _).
  destruct (kstats_keeps k1 (c_enqTime counters) (Timer.ns (ca_stop c) - Timer.ns (ca_start c))) as (k2 & -> & Q2 & G2 & R2); [apply Ht..|].
  cbn [mbind res_bind]. destruct (kstats_keeps k2 (c_enq counters) 1) as (k3 & -> & Q3 & G3 & R3); [apply R2, He|apply He|].
  cbn [mbind res_bind]. eexists. split; [done|]. assert (registers (k_world k) (k_world k3)) as R by (etrans; [exact R2|exact R3]).
  split.
  - exists (Queue.queue_producer_free q2), (es ++ [e]). rewrite Q3, Q2. split.
    { apply list_lookup_insert_eq. by eapply lookup_lt_Some. }
    split; [by apply holds_clients|]. apply Forall2_app; [done|]. constructor; [|constructor]. by exists 0, (ca_addr c), gap.
  - apply list.Forall_app. split; [done|]. constructor; [|constructor]. exact (conj Hk (conj Hb (conj Hts Hn))).
  - by rewrite G3, G2.
  - eapply list.Forall_impl; [exact Hst|]. cbv beta. intros a [? ?]. split; [done|]. by apply R.
  - split; [apply R, He|apply He].
  - split; [apply R, Ht|apply Ht].
Qed.

(** The iterations that capture: the service runs, there is a packet, and its
    job is allocated. *)
Definition captures (c : capture) : Prop :=
  capture_ok N c /\ svcKernelIsRunning (ca_status c) = true /\ ca_packet c <> None /\ ca_addr c <> 0.

Lemma pcap_stores k cs os :
  pipe k os -> Forall captures cs -> undisturbed k cs -> room N (os ++ orders cs) ->
  exists k', pcap_loop column_int64 exec_fn fuel counters k cs = Ok (Runs k') /\ pipe k' (os ++ orders cs).
Proof.
  intros Hp Hc. revert k os Hp. induction Hc as [|c cs (Hok & Hrun & Hpk & Ha) _ IH]; intros k os Hp Hu Hr; cbn [pcap_loop].
  { exists k. split; [done|]. unfold orders. cbn. by rewrite app_nil_r. }
  destruct Hu as [Hq Hu]. cbn [pcap_loop] in Hu. set (k0 := set_queue _ _ _) in *.
  change (k_status k0) with (ca_status c) in *. rewrite Hrun in *. cbn [negb] in *.
  destruct (ca_packet c) as [[ts packet]|] eqn:Ep; [|done].
  assert (Eo : orders (c :: cs) = packet_order (ts, packet) :: orders cs) by (unfold orders; cbn [omap list_omap]; by rewrite Ep).
  rewrite Eo in *. rewrite (cons_middle _ os), app_assoc in *.
  assert (Hp0 : pipe k0 os).
  { destruct Hp as [(q & es & Hq1 & Hh & H2) Hos Hg Hst He Ht]. split; try done. exists q, es. split; [|done].
    cbn. rewrite list_lookup_insert_eq by (by eapply lookup_lt_Some). congruence. }
  destruct (capture_stores k0 c ts packet os Hp0 Hok Ep Ha) as (k1 & E & Hp1).
  { cbn. apply list_lookup_insert_eq. by eapply lookup_lt_Some. }
  { unfold room in *. rewrite sum_list_with_app in Hr. lia. }
  rewrite E in *. cbn [mbind res_bind] in *. by apply IH; [|apply Hu|].
Qed.

Lemma pipe_serves k os buf iters :
  pipe k os -> Forall (fits buf) os -> (length iters <= length os)%nat ->
  Forall (fun it => svcKernelIsRunning it.1 = true) iters -> 0 < j_addr buf -> Forall is_byte (j_bytes buf) ->
  let r := executor_loop column_int64 exec_fn fuel k CMD_MANAGER_QUEUE_SHORTOPS buf stats iters in
  served column_int64 exec_fn fuel CMD_MANAGER_QUEUE_SHORTOPS stats k (take (length iters) os) r /\
  forall k', r = Ok (Runs k') -> pipe k' (drop (length iters) os).
Proof.
  intros [(q & es & Hq & Hh & H2) Hos Hg Hst He Ht] Hf Hl Hrun Ha Hb.
  destruct (loop_serves column_int64 exec_fn fuel N CMD_MANAGER_QUEUE_SHORTOPS stats iters os es k q buf H2 Hos Hf Hl Hrun Ha Hb Hg Hq Hh Hst)
    as [Hs Hend]. split; [exact Hs|]. intros k' Ek. destruct (Hend k' Ek) as (Hg' & R & q' & Hq' & Hh').
  split; [|by apply list.Forall_drop|done| |split; [apply R, He|apply He]|split; [apply R, Ht|apply Ht]].
  - exists q', (drop (length iters) es). split; [done|]. split; [done|]. by apply Forall2_drop.
  - eapply list.Forall_impl; [exact Hst|]. cbv beta. intros a [? ?]. split; [done|]. by apply R.
Qed.
End rounds.

(** C5: a round of the service, from the wire to the packet command: while no
    other thread uses the queue, packets that are captured are stored behind
    the orders that still wait, and the executor of the queue then executes
    the oldest orders, one per iteration, each once; the rest waits for the
    next round.  Executing the order of a packet is running the packet command
    on its time stamp and bytes, once the table of commands has led to it. *)
Theorem pipeline_round (S T : Type) (SQ : Sqlite S) (SM : StringMap T) (column_int64 column_int : S -> Z -> nat -> Z)
    (column_text column_name : S -> Z -> nat -> option (list Z)) (column_count : S -> Z -> nat)
    (ether_ntoa : list Z -> list Z) (inet_ntoa : Z -> list Z) (gethostbyaddr : Z -> option (list Z))
    (real_time : nat -> S -> Timer.timespec) (pcap_open_offline : list Z -> option (list (timeval * list Z)))
    (file_open : list Z -> option file_t) (fuel : nat) (mem : bool) (counters : main_counters) (stats : Z) (N : nat)
    (k : @kernel S T (@globals S T)) os cs :
  let exec := Commands.exec_fn column_int column_text column_name column_count ether_ntoa inet_ntoa gethostbyaddr real_time
                pcap_open_offline file_open fuel mem in
  pipe exec counters stats N k os -> Forall (captures N) cs ->
  undisturbed column_int64 exec fuel counters k cs -> room N (os ++ orders cs) ->
  exists k1, pcap_loop column_int64 exec fuel counters k cs = Ok (Runs k1) /\
    (forall buf iters, Forall (fits buf) (os ++ orders cs) -> (length iters <= length (os ++ orders cs))%nat ->
       Forall (fun it => svcKernelIsRunning it.1 = true) iters -> 0 < j_addr buf -> Forall is_byte (j_bytes buf) ->
       let r := executor_loop column_int64 exec fuel k1 CMD_MANAGER_QUEUE_SHORTOPS buf stats iters in
       served column_int64 exec fuel CMD_MANAGER_QUEUE_SHORTOPS stats k1 (take (length iters) (os ++ orders cs)) r /\
       forall k', r = Ok (Runs k') -> pipe exec counters stats N k' (drop (length iters) (os ++ orders cs))) /\
    (forall k2 k3 ts packet, svcKernelIsRunning (k_status k2) = true ->
       i_cmdmgrFindExec column_int64 fuel k2 (lit "PACKET_ANALYZE") = Ok (exec_addr PacketAnalyzeCmd, k3) ->
       exec_order column_int64 exec fuel k2 (packet_order (ts, packet)) =
         '(r, k4) ← packet_exec column_int ether_ntoa inet_ntoa gethostbyaddr real_time fuel mem k3 ts packet;
         Ok (if r =? 0 then KSTATUS_SUCCESS else KSTATUS_UNSUCCESS, k4)).
Proof.
  intros exec Hp Hc Hu Hr. destruct (pcap_stores column_int64 exec fuel counters stats N k cs os Hp Hc Hu Hr) as (k1 & E & Hp1).
  exists k1. split; [exact E|]. split.
  - intros buf iters. by apply pipe_serves.
  - intros k2 k3 ts packet Hrun Hfind. unfold exec_order, exec_view. rewrite Hrun. cbn [negb].
    change (term (o_cmd (packet_order (ts, packet)))) with (lit "PACKET_ANALYZE"). by rewrite Hfind.
Qed.

(** ** A round: one packet waits, a second one arrives *)

Definition waiting_packet : order := packet_order (MkTv 1 2, Mapper.sample_frame).

Definition packet_queue : Queue.queue_t :=
  match Queue.queue_write sample_queue (Queue.e_data (entry_of waiting_packet)) [0; 0; 0; 0] [] with
  | Ok (Queue.Returned _ _ q) => q
  | _ => sample_queue
  end.

Lemma packet_held : QueueSpec.holds 256 packet_queue [entry_of waiting_packet].
Proof.
  assert (Hh : QueueSpec.holds 256 sample_queue []) by (apply QueueProps.fresh_holds; reflexivity).
  destruct (QueueProps.queue_write_ok 256 sample_queue [] (entry_of waiting_packet) [] Hh ltac:(decide_closed) eq_refl) as (q1 & E1 & H1).
  vm_compute in E1. injection E1 as E1. assert (packet_queue = q1) as -> by (rewrite <- E1; vm_compute; reflexivity). exact H1.
Qed.

Definition next_packet : capture :=
  MkCapture SVC_KERNEL_STATUS_RUNNING (Some packet_queue) (Some (MkTv 7 8, Mapper.sample_frame)) (Timer.MkTs 1 0) (Timer.MkTs 1 50)
    9000 (fun _ => 9) [0; 0; 0; 0] [].

Definition pipe_handler : Bst.handler (@world mock ArtOps.art_tree) :=
  i_cmdPacketAnalyzeCacheIPExpireCheck (fun _ _ _ => 7) (fun _ => []) (fun _ => None) 5000 400.

Definition pipe_kernel : @kernel mock ArtOps.art_tree (@globals mock ArtOps.art_tree) :=
  MkKernel
    (MkWorld ∅ (MkStats ∅ 4096 ∅
       (list_to_map ((fun a => (a, MkCounter STATS_FLAGS_TYPE_LAST 0)) <$> counter_addrs 600 6)
        ∪ (<[100 := MkCounter STATS_FLAGS_TYPE_SUM 5]> (<[116 := MkCounter STATS_FLAGS_TYPE_SUM 0]> (st_mem (w_stats sample_world)))))) 0
       (w_dbs sample_world))
    SVC_KERNEL_STATUS_RUNNING 5000 0 [Some packet_queue; None]
    (MkGlobals 5000 (MkCaches (Some (Bst.MkBst PacketSpec.sample_cache pipe_handler))
       (Some (Bst.MkBst PacketSpec.sample_cache i_cmdPacketAnalyzeCacheEthExpireCheck))) ∅).

Definition pipe_exec := Commands.exec_fn (T := ArtOps.art_tree) (fun (_ : mock) _ _ => 7) (fun _ _ _ => None) (fun _ _ _ => None) (fun _ _ => O) Datatypes.id
  (fun _ => []) (fun _ => None) (fun _ _ => Timer.MkTs 1000 500000000) (fun _ => None) (fun _ => None) 400 true.

Lemma pipe_kernel_ok : pipe pipe_exec sample_counters_at 600 256 pipe_kernel [waiting_packet].
Proof.
  split.
  - exists packet_queue, [entry_of waiting_packet]. split; [done|]. split; [apply packet_held|].
    constructor; [|constructor]. exists 0, 1000, [9; 9; 9; 9]. by split_and!; [|decide_closed|].
  - decide_closed.
  - by apply (command_caches_ok (fun _ _ _ => 7) (fun _ => []) (fun _ => None) 400 5000).
  - decide_closed.
  - decide_closed.
  - decide_closed.
Qed.

Lemma next_packet_ok : captures 256 next_packet.
Proof.
  split; [|done]. unfold capture_ok. cbn [ca_packet next_packet ca_junk ca_pad ca_addr ca_start ca_stop ca_queue ca_waits].
  assert (Hn : Z.of_nat (job_len (str "PACKET_ANALYZE") Mapper.sample_frame) = 99) by reflexivity. rewrite Hn.
  split; [decide_closed|]. split; [intros; decide_closed|]. split; [done|]. split; [decide_closed|].
  split; [lia|]. split; [lia|]. split; [lia|]. split; [decide_closed|]. split; [decide_closed|]. split; [decide_closed|].
  split; [|constructor]. exists packet_queue. split; [done|]. split; [|by vm_compute]. exists [entry_of waiting_packet]. apply packet_held.
Qed.

Lemma pipeline_round_witness :
  let it := (SVC_KERNEL_STATUS_RUNNING, [] : list Queue.wait_t) in
  let find := fun (_ : mock) (_ : Z) (_ : nat) => exec_addr PacketAnalyzeCmd in
  exists k1 k2, pcap_loop find pipe_exec 400 sample_counters_at pipe_kernel [next_packet] = Ok (Runs k1) /\
    executor_loop find pipe_exec 400 k1 CMD_MANAGER_QUEUE_SHORTOPS (MkJob 9000 (replicate 100 7)) 600 [it; it] = Ok (Runs k2) /\
    served find pipe_exec 400 CMD_MANAGER_QUEUE_SHORTOPS 600 k1 [waiting_packet; packet_order (MkTv 7 8, Mapper.sample_frame)] (Ok (Runs k2)).
Proof.
  intros it find.
  destruct (pipeline_round mock ArtOps.art_tree _ _ find (fun _ _ _ => 7) (fun _ _ _ => None) (fun _ _ _ => None) (fun _ _ => O) Datatypes.id
    (fun _ => []) (fun _ => None) (fun _ _ => Timer.MkTs 1000 500000000) (fun _ => None) (fun _ => None) 400 true sample_counters_at 600 256
    pipe_kernel [waiting_packet] [next_packet]) as (k1 & E1 & Hserve & _).
  - exact pipe_kernel_ok.
  - constructor; [exact next_packet_ok|constructor].
  - split; [reflexivity|]. intros; exact I.
  - unfold room. vm_compute. lia.
  - destruct (Hserve (MkJob 9000 (replicate 100 7)) [it; it]) as [Hs _].
    + constructor; [|constructor; [|constructor]]; split; vm_compute; (lia || reflexivity).
    + cbn. lia.
    + repeat constructor.
    + cbn. lia.
    + decide_closed.
    + fold pipe_exec in *. cbn [length take app] in Hs.
      assert (Hx : match pcap_loop find pipe_exec 400 sample_counters_at pipe_kernel [next_packet] with
        | Ok (Runs k1) => match executor_loop find pipe_exec 400 k1 CMD_MANAGER_QUEUE_SHORTOPS (MkJob 9000 (replicate 100 7)) 600 [it; it] with
            | Ok (Runs _) => True | _ => False end
        | _ => False end) by (vm_compute; exact I).
      rewrite E1 in Hx. destruct (executor_loop _ _ _ _ _ _ _ _) as [[| |k2]|] eqn:E2; try contradiction.
      exists k1, k2. split; [exact E1|]. split; [exact E2|exact Hs].
Defined.

End Pipeline.
