(* ===== verification/Shutdown.v ===== *)
(** * Running and shutting down the service

    The three lists of the service (threads, databases, statistics) share one
    heap.  The main loop ends when the service is told to stop, and has dumped
    the statistics once every 61 seconds until then.  The exit path then frees
    the entries of all three lists, each exactly once, and nothing else. *)

From Stdlib Require Import Ascii String.
From stdpp Require Import gmap.
From S2P Require Import Prelude CString ArtTree ArtMap DList DListSpec DListProps DListQuery DListFrame Timer Queue Svc Stats StatsSpec StatsDump Database DatabaseSpec Journal CmdManager Psmgr PacketAnalyze PacketSpec CmdStop Commands Main.

Module Shutdown.
Import CStr ArtMap DList DListSpec DListProps DListQuery DListFrame Svc Stats StatsSpec StatsDump Database DatabaseSpec Journal CmdManager Psmgr PacketAnalyze PacketSpec CmdStop Commands Main.

(** ** The threads *)

(** The entries of threads: a thread in the list refers to its entry, and the
    records fit the buffer of the dump. *)
Definition threads_ok (act del : entries) : Prop :=
  Forall (fun e => body_typed e.2 /\ b_key e.2 <> 0) (act ++ del) /\ Forall (fun e => 0 < b_references e.2) act /\
  (records_size (act ++ del) + 8 <= 4096)%nat.

(** What the other threads do while the main thread sleeps: at least [n] of them
    (if there are as many) mark their entries deleted, references change, none
    enters the list, and nothing else in the heap changes. *)
Definition second (n : nat) (L : Z) (f : heap -> res heap) : Prop :=
  forall h act del, dll_ok h L act del -> threads_ok act del -> act <> [] ->
  exists h' act' del', f h = Ok h' /\ dll_ok h' L act' del' /\ threads_ok act' del' /\
    (act' ++ del').*1 ≡ₚ (act ++ del).*1 /\ (length act' <= length act - n)%nat /\ framed (nodes_of L act del) h h'.

Lemma records_filter P `{!forall e : Z * body, Decision (P e)} es : (records_size (filter P es) <= records_size es)%nat.
Proof.
  induction es as [|e es IH]; [done|]. rewrite filter_cons, records_size_cons. destruct (decide (P e)); rewrite ?records_size_cons; lia.
Qed.

Lemma threads_purge act del : threads_ok act del -> threads_ok act (filter in_use del).
Proof.
  intros (Ht & Hr & Hs). apply list.Forall_app in Ht as [H1 H2]. split_and!; [apply list.Forall_app; split; [done|]|done|].
  - apply list.Forall_forall. intros e He. apply list_elem_of_filter in He as [_ He]. by apply (proj1 (list.Forall_forall _ _) H2).
  - rewrite !records_size_app in *. pose proof (records_filter in_use del). lia.
Qed.

(** Both ways to sleep. *)
Lemma sleep_ok n L f h act del zs :
  second n L f -> zones h ((L, act, del) :: zs) -> threads_ok act del -> act <> [] ->
  exists h' act' del', f h = Ok h' /\ evolves h ((L, act, del) :: zs) h' ((L, act', del') :: zs) /\ threads_ok act' del' /\
    (length act' <= length act - n)%nat.
Proof.
  intros Hf Hz Ht Hne. destruct (zones_head _ _ _ _ _ Hz) as [HL Hd].
  destruct (Hf h act del Hd Ht Hne) as (h' & act' & del' & E & Hd' & Ht' & Hs & Hl & Fr).
  exists h', act', del'. split_and!; try done. by apply evolves_same.
Qed.

Lemma idle_ok L f h act del zs :
  second 0 L f -> zones h ((L, act, del) :: zs) -> threads_ok act del ->
  exists h' act' del', psmgrIdle h L f = Ok (KSTATUS_SUCCESS, h') /\
    evolves h ((L, act, del) :: zs) h' ((L, act', del') :: zs) /\ threads_ok act' del' /\ (length act' <= length act)%nat /\
    Forall in_use del'.
Proof.
  intros Hf Hz Ht. unfold psmgrIdle. destruct (zones_head _ _ _ _ _ Hz) as [HL Hd]. rewrite (empty_ok h L act del Hd). cbn [mbind res_bind].
  assert (exists h1 act1 del1, (if bool_decide (act = []) then Ok h else f h) = Ok h1 /\
    evolves h ((L, act, del) :: zs) h1 ((L, act1, del1) :: zs) /\ threads_ok act1 del1 /\ (length act1 <= length act)%nat)
    as (h1 & act1 & del1 & -> & V1 & Ht1 & L1).
  { case_bool_decide; [exists h, act, del; split_and!; try done; by apply evolves_refl|].
    destruct (sleep_ok 0 L f h act del zs Hf Hz Ht) as (h1 & act1 & del1 & ? & ? & ? & ?); [done|].
    exists h1, act1, del1. split_and!; try done. lia. }
  cbn [mbind res_bind]. destruct (evolves_purge h1 L act1 del1 zs) as (h2 & -> & V2); [apply V1|]. cbn [mbind res_bind].
  exists h2, act1, (filter in_use del1). split_and!; [done|by eapply evolves_trans|by apply threads_purge|done|apply list.Forall_forall; by intros e [? _]%list_elem_of_filter].
Qed.

Lemma stop_threads_zones L sleeps h act del zs :
  Forall (second 1 L) sleeps -> zones h ((L, act, del) :: zs) -> threads_ok act del -> (length act <= length sleeps)%nat ->
  exists h' del', psmgrStopUserThreads h L sleeps = Ok (Some h') /\
    evolves h ((L, act, del) :: zs) h' ((L, [], del') :: zs) /\ threads_ok [] del'.
Proof.
  intros Hs. revert h act del. induction Hs as [|f sleeps Hf _ IH]; intros h act del Hz Ht Hl; destruct (zones_head _ _ _ _ _ Hz) as [HL Hd];
    cbn [psmgrStopUserThreads]; rewrite (proj2 (Z.eqb_neq L 0)), (empty_ok h L act del Hd) by done; cbn [mbind res_bind];
    destruct act as [|e act]; cbn [length] in Hl; try (exists h, del; split_and!; try done; by apply evolves_refl); [lia|].
  rewrite bool_decide_eq_false_2 by done.
  destruct (sleep_ok 1 L f h _ del zs Hf Hz Ht ltac:(done)) as (h1 & act1 & del1 & -> & V1 & Ht1 & L1).
  cbn [mbind res_bind length] in *. destruct (IH h1 act1 del1 (ev_zones _ _ _ _ V1) Ht1 ltac:(lia)) as (h2 & del2 & -> & V2 & Ht2).
  exists h2, del2. split_and!; try done. by eapply evolves_trans.
Qed.

(** The end of the manager of the threads, when all have ended. *)
Lemma psmgr_stop_zones h L del buff base zs :
  zones h ((L, [], del) :: zs) -> threads_ok [] del -> length buff = 4096%nat ->
  exists h', psmgrStop h L buff base = Ok h' /\ evolves h ((L, [], del) :: zs) h' zs.
Proof.
  intros Hz (Ht & _ & Hs) Hb. destruct (zones_head _ _ _ _ _ Hz) as [HL Hd]. unfold psmgrStop.
  rewrite (dump_list_ok h L [] del buff base Hd HL Hb Ht Hs). cbn [mbind res_bind].
  destruct (evolves_stop h L [] del zs Hz) as (h1 & h2 & -> & E & V). cbn [mbind res_bind]. by exists h2.
Qed.

(** ** The main loop *)

Section service.
Context {S T : Type} `{SQ : Sqlite S} `{SM : StringMap T}.
Abbreviation kernel := (@kernel S T (@globals S T)).
Abbreviation stats := (@stats_mgr_t T).

(** The statistics lists, which fit the buffer of their dump. *)
Definition dumpable (st : stats) (sa : entries) : Prop := Forall (listed st) sa /\ (records_size sa + 8 <= 4096)%nat.

Definition tick_ok (L : Z) (t : tick) : Prop := second 0 L (tk_sleep t) /\ length (tk_buff t) = 4096%nat.
Definition seen_running (t : tick) : Prop := svcKernelIsRunning (tk_status t) = true.

(** A dump that reports every counter of the lists [sa]. *)
Definition dumped (st : stats) (sa : entries) (d : Z * list (Z * list line)) : Prop :=
  d.1 = KSTATUS_SUCCESS /\ Forall2 (reports st) sa.*1 d.2.

(** The loop told to stop after the seconds [ts] has dumped [ds], and left the
    threads [act'] and [del']; a deleted thread it left is still in use. *)
Definition stops_after (k : kernel) L i act del zs (ts : list tick) t rest ds act' del' : Prop :=
  exists h', main_loop k L i (ts ++ t :: rest) = Ok (Some (set_status (with_heap k h') (tk_status t)), ds) /\
    evolves (heap_of k) ((L, act, del) :: zs) h' ((L, act', del') :: zs) /\ (ts <> [] -> Forall in_use del').

(** One second more. *)
Lemma stops_later (k : kernel) L i i' act del zs t1 ts t rest ds (dd : list (Z * list (Z * list line))) h1 act1 del1 act' del' :
  let k1 := with_heap (set_status k (tk_status t1)) h1 in
  evolves (heap_of k) ((L, act, del) :: zs) h1 ((L, act1, del1) :: zs) -> Forall in_use del1 ->
  (forall r, main_loop k1 L i' (ts ++ t :: rest) = Ok r -> main_loop k L i (t1 :: ts ++ t :: rest) = Ok (r.1, dd ++ r.2)) ->
  stops_after k1 L i' act1 del1 zs ts t rest ds act' del' -> (ts = [] -> del' = del1) ->
  stops_after k L i act del zs (t1 :: ts) t rest (dd ++ ds) act' del'.
Proof.
  intros k1 V1 Hu Hk (h' & E & V & Hd) H0. exists h'. split_and!; [exact (Hk _ E)|by eapply evolves_trans|].
  intros _. destruct ts as [|t2 ts]; [by rewrite H0|by apply Hd].
Qed.

Lemma main_loop_ok (run : list tick) t rest (k : kernel) L i act del zs sa :
  Forall (tick_ok L) run -> Forall seen_running run -> svcKernelIsRunning (tk_status t) = false -> (i <= 60)%nat ->
  zones (heap_of k) ((L, act, del) :: zs) -> (st_list (w_stats (k_world k)), sa, []) ∈ zs ->
  threads_ok act del -> dumpable (w_stats (k_world k)) sa ->
  exists ds, length ds = ((i + length run) `div` 61)%nat /\ Forall (dumped (w_stats (k_world k)) sa) ds /\
    forall m, (m <= length run)%nat -> exists act' del',
      stops_after k L i act del zs (take m run) t rest (take ((i + m) `div` 61) ds) act' del' /\
      threads_ok act' del' /\ (length act' <= length act)%nat /\ (m = 0%nat -> del' = del).
Proof.
  intros Hrun. revert k i act del. induction Hrun as [|t1 run [Hsl Hb] _ IH]; intros k i act del Hr Hst Hi Hz Hin Ht Hs.
  all: assert (Hnow : forall run ds, stops_after k L i act del zs (take 0 run) t rest (take ((i + 0) `div` 61) ds) act del).
  1,3: intros rs ds; rewrite Nat.add_0_r, Nat.div_small by lia; exists (heap_of k); rewrite !take_0; cbn [app main_loop k_status set_status]; rewrite Hst;
    split_and!; [destruct k as [[? [] ? ?] ? ? ? ? ?]; done|by apply evolves_refl|done].
  { exists []. split_and!; [|done|].
    - cbn [length]. rewrite Nat.add_0_r. symmetry. apply Nat.div_small. lia.
    - intros m Hm. cbn [length] in Hm. assert (m = 0%nat) as -> by lia. exists act, del. split_and!; try done; apply Hnow. }
  apply list.Forall_cons in Hr as [Hr1 Hr]. red in Hr1.
  destruct (idle_ok L _ _ act del zs Hsl Hz Ht) as (h1 & act1 & del1 & Ei & V1 & Ht1 & L1 & Hu1).
  set (k1 := with_heap (set_status k (tk_status t1)) h1). pose proof (ev_zones _ _ _ _ V1) as Hz1.
  assert (exists i' dd, (i' <= 60)%nat /\ (forall n, (i + Datatypes.S n) `div` 61 = length dd + (i' + n) `div` 61)%nat /\
    Forall (dumped (w_stats (k_world k)) sa) dd /\
    forall ts r, main_loop k1 L i' ts = Ok r -> main_loop k L i (t1 :: ts) = Ok (r.1, dd ++ r.2)) as (i' & dd & Hi' & Hdiv & Hdd & Hstep).
  { destruct (Nat.ltb_spec 60 (Datatypes.S i)) as [Hlt|Hge].
    - destruct (zones_elem _ _ _ _ _ Hz1 (list_elem_of_further _ _ _ Hin)) as [HL Hd]. destruct Hs as [Hs1 Hs2].
      destruct (dump_ok (w_stats (k_world k1)) sa (tk_buff t1) (tk_base t1) HL Hd Hs1 Hb Hs2) as (d & Ed & Hrep).
      exists 0%nat, [(KSTATUS_SUCCESS, d)]. split_and!; [lia| |by constructor|].
      + intros n. replace (i + Datatypes.S n)%nat with (1 * 61 + (0 + n))%nat by lia. by rewrite Nat.div_add_l by lia.
      + intros ts [o ds] E. cbn [main_loop k_status set_status]. rewrite Hr1. cbn [negb].
        change (heap_of (set_status k (tk_status t1))) with (heap_of k). rewrite Ei. cbn [mbind res_bind].
        rewrite (proj2 (Nat.ltb_lt _ _) Hlt). fold k1. rewrite Ed. cbn [mbind res_bind]. by rewrite E.
    - exists (Datatypes.S i), []. split_and!; [lia| |done|].
      + intros n. cbn [length]. rewrite Nat.add_0_l. f_equal. lia.
      + intros ts [o ds] E. cbn [main_loop k_status set_status]. rewrite Hr1. cbn [negb].
        change (heap_of (set_status k (tk_status t1))) with (heap_of k). rewrite Ei. cbn [mbind res_bind].
        rewrite (proj2 (Nat.ltb_ge _ _) Hge). exact E. }
  destruct (IH k1 i' act1 del1 Hr Hst Hi' Hz1 Hin Ht1 Hs) as (ds & Hn & Hds & Hm). exists (dd ++ ds). split_and!.
  - rewrite length_app, Hn. cbn [length]. by rewrite Hdiv.
  - by apply list.Forall_app.
  - intros [|m] Hle; [exists act, del; split_and!; try done; apply Hnow|]. cbn [length] in Hle.
    destruct (Hm m ltac:(lia)) as (act' & del' & St & Ht' & L' & H0). exists act', del'. split_and!; try done; [|lia].
    cbn [take]. rewrite Hdiv, take_app_add. eapply stops_later; try done; [by intros r; apply Hstep|].
    intros E0. apply H0. destruct m; [done|]. destruct run; [cbn in Hle; lia|discriminate E0].
Qed.

(** ** The parts of the exit *)

Lemma destroy_zones (st : stats) a1 p b a2 del t M zs :
  zones (st_heap st) ((st_list st, a1 ++ (p, b) :: a2, del) :: zs) -> movePtrToUserData p <> 0 -> 0 < b_references b ->
  st_trees st !! movePtrToUserData p = Some t -> sm_rep t M ->
  exists h' b', statsDestroy st (movePtrToUserData p) =
      Ok (MkStats h' (st_list st) (delete (movePtrToUserData p) (st_trees st)) (st_mem st)) /\
    evolves (st_heap st) ((st_list st, a1 ++ (p, b) :: a2, del) :: zs) h' ((st_list st, a1 ++ a2, (p, b') :: del) :: zs).
Proof.
  intros Hz Hp Hb Ht Hr. unfold statsDestroy. rewrite (tree_of_ok st _ t Hp Ht). cbn [mbind res_bind].
  destruct (evolves_delete (st_heap st) _ a1 p b a2 del zs Hz Hb) as (h1 & h2 & b' & -> & E2 & V). cbn [mbind res_bind].
  destruct (sm_free_rep t M Hr) as (kvs & -> & _). cbn [mbind res_bind]. rewrite E2. cbn [mbind res_bind]. by exists h2, b'.
Qed.
End service.

Section databases.
Context {S T : Type} `{SQ : Sqlite S} `{JL : !Journal S} `{SM : StringMap T}.
Abbreviation world := (@world S T).
Abbreviation heap_in w := (st_heap (w_stats w)).

(** A database behind [dbClose]: it is mounted and has no connection. *)
Definition closed (w : world) (p : Z) : Prop :=
  exists db, w_dbs w !! p = Some db /\ db_state db = DB_FLAGS_STATE_MOUNTED /\ db_db db = 0.

Lemma close_zones (w : world) a1 p b a2 del zs :
  usable w (movePtrToUserData p) -> zones (heap_in w) ((w_DBList w, a1 ++ (p, b) :: a2, del) :: zs) ->
  exists w', dbClose w (movePtrToUserData p) = Ok w' /\ closed w' (movePtrToUserData p) /\
    evolves (heap_in w) ((w_DBList w, a1 ++ (p, b) :: a2, del) :: zs)
      (heap_in w') ((w_DBList w, a1 ++ (p, add_references b (-1)) :: a2, del) :: zs) /\
    w_DBList w' = w_DBList w /\ st_list (w_stats w') = st_list (w_stats w) /\ st_trees (w_stats w') = st_trees (w_stats w) /\
    st_mem (w_stats w') = st_mem (w_stats w) /\
    journal (w_sqlite w') = journal (w_sqlite w) ++ [CClose (conn_of w (movePtrToUserData p))] /\ forall q, q <> movePtrToUserData p -> w_dbs w' !! q = w_dbs w !! q.
Proof.
  intros Hu Hz. unfold dbClose. rewrite (usable_check w _ Hu). cbn [mbind res_bind negb].
  destruct (usable_db w _ Hu) as (db & -> & Ec). cbn [mbind res_bind].
  destruct (evolves_release _ _ a1 p b a2 del zs Hz) as (h' & E & V).
  destruct (db_dropOnClose db); cbn; rewrite E; cbn [mbind res_bind]; (eexists; split; [done|]; split_and!; try done;
    [eexists; split; [apply lookup_insert_eq|done]|cbn; rewrite ?journal_remove, journal_close, Ec; done|intros q Hq; cbn; by rewrite lookup_insert_ne]).
Qed.
End databases.

(** ** The exit *)

(** [ptr] is the user data of an entry of the list. *)
Definition entry_of (es : entries) (ptr : Z) : Prop := exists p b, (p, b) ∈ es /\ ptr = movePtrToUserData p.
(** Of an entry that one owner refers to. *)
Definition owned (es : entries) (ptr : Z) : Prop := exists p b, (p, b) ∈ es /\ ptr = movePtrToUserData p /\ 0 < b_references b.

Section exit.
Context {S T : Type} `{SQ : Sqlite S} `{SL : !SqliteLaws S} `{QL : !QueryLaws S} `{JL : !Journal S} `{SM : StringMap T}.
Abbreviation kernel := (@kernel S T (@globals S T)).
Abbreviation service := (@service S T).
Context (column_int64 : S -> Z -> nat -> Z) (column_text : S -> Z -> nat -> list Z) (column_count : S -> Z -> nat).
Context (call_fn : Z -> kernel -> res (Z * kernel)) (Hcall : destructors column_int64 call_fn).

Abbreviation stats_of s := (w_stats (k_world (s_k s))).
Abbreviation heap_at s := (heap_of (s_k s)).
Abbreviation journal_of s := (journal (w_sqlite (k_world (s_k s)))).
Abbreviation conn_at s p := (conn_of (k_world (s_k s)) p).

(** A statistics list that can be destroyed. *)
Definition has_tree (st : @stats_mgr_t T) (p : Z) : Prop := p <> 0 /\ exists t M, st_trees st !! p = Some t /\ sm_rep t M.

(** [svcKernelExit] with all threads gone. *)
Lemma kernel_exit_ok (s : service) td da sa sd ws q0 q1 buff base :
  zones (heap_at s) [(w_DBList (k_world (s_k s)), da, []); (st_list (stats_of s), sa, sd); (s_threadList s, [], td)] ->
  threads_ok [] td -> usable (k_world (s_k s)) (k_db (s_k s)) -> entry_of da (k_db (s_k s)) ->
  has_tree (stats_of s) (k_stats (s_k s)) -> owned sa (k_stats (s_k s)) ->
  alone ws -> k_queues (s_k s) = [q0; q1] ->
  leaves q0 (ws CMD_MANAGER_QUEUE_SHORTOPS) -> leaves q1 (ws CMD_MANAGER_QUEUE_LONGOPS) -> length buff = 4096%nat ->
  exists fuel0 s', evolves (heap_at s) [(w_DBList (k_world (s_k s)), da, []); (st_list (stats_of s), sa, sd); (s_threadList s, [], td)] (heap_at s') [] /\
    closed (k_world (s_k s')) (k_db (s_k s)) /\ k_queues (s_k s') = [None; None] /\
    st_trees (stats_of s') = delete (k_stats (s_k s)) (st_trees (stats_of s)) /\
    (forall q, q <> k_db (s_k s) -> w_dbs (k_world (s_k s')) !! q = w_dbs (k_world (s_k s)) !! q) /\
    (exists j, journal_of s' = journal_of s ++ j ++ [CClose (conn_at s (k_db (s_k s)))] /\ Forall (query_on (conn_at s (k_db (s_k s)))) j) /\
    forall fuel, (fuel0 <= fuel)%nat ->
      svcKernelExit column_int64 column_text column_count call_fn fuel s ws buff base = Ok (Some s').
Proof.
  intros Hz Ht Hu (pd & bd & Hd & Ed) (Hk0 & t & M & Htree & Hrep) (pk & bk & Hk & Ek & Hbk) Ha Hq H0 H1 Hb.
  destruct (stop_ok column_int64 column_text column_count call_fn Hcall (s_k s) ws q0 q1 Hu Ha Hq H0 H1)
    as (n & k1 & U1 & L1 & Edb & Est & Eq & E1). set (w1 := k_world k1) in *.
  apply list_elem_of_split in Hd as (d1 & d2 & ->). apply list_elem_of_split in Hk as (s1 & s2 & ->). rewrite Ed in U1.
  assert (Hz1 : zones (st_heap (w_stats w1)) [(w_DBList w1, d1 ++ (pd, bd) :: d2, []); (st_list (w_stats w1), s1 ++ (pk, bk) :: s2, sd); (s_threadList s, [], td)]).
  { rewrite (sl_heap _ _ _ L1), (sl_list _ _ _ L1), (sl_stats _ _ _ L1). exact Hz. }
  destruct (close_zones w1 d1 pd bd d2 [] _ U1 Hz1) as (w2 & E2 & C2 & V2 & X1 & X2 & X3 & _ & J2 & D2).
  destruct (evolves_stop _ _ _ _ _ (ev_zones _ _ _ _ V2)) as (h3 & h4 & E3 & E4 & V4).
  pose proof (evolves_trans _ _ _ _ _ _ V2 V4) as V. apply evolves_rot in V. cbn [app] in V. clear V4.
  destruct (psmgr_stop_zones h4 _ td buff base _ (ev_zones _ _ _ _ V) Ht Hb) as (h5 & E5 & V5).
  apply (evolves_trans _ _ _ _ _ _ V) in V5. clear V.
  set (st5 := set_heap (w_stats w2) h5).
  destruct (destroy_zones st5 s1 pk bk s2 sd t M []) as (h6 & b6 & E6 & V6).
  { cbn. rewrite X2. apply V5. } { by rewrite <- Ek. } { done. } { cbn. rewrite X3, (sl_trees _ _ _ L1), <- Ek. done. } { done. }
  cbn in V6. rewrite X2 in V6. apply (evolves_trans _ _ _ _ _ _ V5) in V6.
  destruct (evolves_stop _ _ _ _ _ (ev_zones _ _ _ _ V6)) as (h7 & h8 & E7 & E8 & V8). apply (evolves_trans _ _ _ _ _ _ V6) in V8.
  eexists n, (MkService (set_world (with_heap (set_world k1 (set_stats w2 (set_heap (w_stats w2) h4))) h5) _) (s_threadList s) (s_main_stats s)).
  split_and!; cycle 6.
  { intros fuel Hf. unfold svcKernelExit, stop_parts. rewrite (E1 fuel Hf). cbn [mbind res_bind]. fold w1. rewrite Edb, Ed, E2. cbn [mbind res_bind].
    unfold dbmgrStop. rewrite <- X1 in E3, E4. rewrite E3. cbn [mbind res_bind]. rewrite E4. cbn [mbind res_bind].
    change (heap_of (set_world k1 (set_stats w2 (set_heap (w_stats w2) h4)))) with h4. rewrite E5. cbn [mbind res_bind].
    change (k_stats (with_heap (set_world k1 (set_stats w2 (set_heap (w_stats w2) h4))) h5)) with (k_stats k1).
    change (w_stats (k_world (with_heap (set_world k1 (set_stats w2 (set_heap (w_stats w2) h4))) h5))) with st5.
    rewrite Est, Ek, E6. cbn [mbind res_bind]. unfold statsmgrStop. cbn [st_heap st_list].
    change (st_list st5) with (st_list (w_stats w2)). rewrite X2, E7. cbn [mbind res_bind]. rewrite E8. cbn [mbind res_bind]. reflexivity. }
  - cbn. unfold heap_of. rewrite <- (sl_heap _ _ _ L1), <- (sl_list _ _ _ L1), <- (sl_stats _ _ _ L1). exact V8.
  - rewrite Ed. exact C2.
  - exact Eq.
  - cbn. by rewrite X3, (sl_trees _ _ _ L1), Ek.
  - intros q Hne. cbn. rewrite Ed in Hne. by rewrite D2, (sl_dbs _ _ _ L1).
  - destruct (sl_journal _ _ _ L1) as (j & Ej & Hj). exists j. split; [|done]. cbn. rewrite J2, Ej, (conn_same _ _ _ (sl_dbs _ _ _ L1)), <- Ed.
    by rewrite <- app_assoc.
Qed.

(** The service with its parts: the lists of threads [ta], [td] (active and
    deleted), of databases [da] and of statistics [sa], each apart from the
    others; the two databases in use and the two lists of counters. *)
Record assembled (s : service) (ta td da sa : entries) : Prop := {
  as_zones : zones (heap_at s) [(s_threadList s, ta, td); (w_DBList (k_world (s_k s)), da, []); (st_list (stats_of s), sa, [])];
  as_threads : threads_ok ta td;
  as_lists : dumpable (stats_of s) sa;
  as_kernel_db : usable (k_world (s_k s)) (k_db (s_k s)) /\ entry_of da (k_db (s_k s));
  as_pcap_db : usable (k_world (s_k s)) (getNiuchaczPcapDB (s_k s)) /\ entry_of da (getNiuchaczPcapDB (s_k s));
  as_dbs : k_db (s_k s) <> getNiuchaczPcapDB (s_k s);
  as_kernel_stats : owned sa (k_stats (s_k s));
  as_main_stats : owned sa (s_main_stats s);
  as_stats : k_stats (s_k s) <> s_main_stats s
}.

Abbreviation home s ta td da sa :=
  [(s_threadList s, ta, td); (w_DBList (k_world (s_k s)), da, []); (st_list (stats_of s), sa, [])].

Lemma listed_tree st sa p b : Forall (listed st) sa -> (p, b) ∈ sa -> has_tree st (movePtrToUserData p).
Proof.
  intros Hl Hin. destruct (proj1 (list.Forall_forall _ _) Hl _ Hin) as (_ & _ & Hp & _ & _ & t & M & Ht & Hr & _). split; [done|]. by exists t, M.
Qed.

(** What is left when the service has ended. *)
Record ended (s s' : service) : Prop := {
  en_kernel_db : closed (k_world (s_k s')) (k_db (s_k s));
  en_pcap_db : closed (k_world (s_k s')) (getNiuchaczPcapDB (s_k s));
  en_queues : k_queues (s_k s') = [None; None];
  en_trees : st_trees (stats_of s') = delete (k_stats (s_k s)) (delete (s_main_stats s) (st_trees (stats_of s)));
  (* SQLite was asked to close the connection to the packets, for queries on
     that of the kernel, and to close that one. *)
  en_journal : exists j, journal_of s' = journal_of s ++ [CClose (conn_at s (getNiuchaczPcapDB (s_k s)))] ++ j ++ [CClose (conn_at s (k_db (s_k s)))] /\
    Forall (query_on (conn_at s (k_db (s_k s)))) j
}.

Lemma usable_other (w w' : @world S T) p :
  usable w p -> w_dbs w' !! p = w_dbs w !! p -> st_mem (w_stats w') = st_mem (w_stats w) -> usable w' p.
Proof. intros (Hp & Hd & f & Hc) E Em. split; [done|]. rewrite E. split; [done|]. exists f. intros x. by rewrite Em. Qed.

(** From the label [__free_stats] on, with all threads gone. *)
Lemma free_stats_ok (s : service) td da sa l q0 q1 :
  assembled s [] td da sa -> alone (la_stop l) -> k_queues (s_k s) = [q0; q1] ->
  leaves q0 (la_stop l CMD_MANAGER_QUEUE_SHORTOPS) -> leaves q1 (la_stop l CMD_MANAGER_QUEUE_LONGOPS) -> length (la_buff l) = 4096%nat ->
  exists fuel0 s', evolves (heap_at s) (home s [] td da sa) (heap_at s') [] /\ ended s s' /\
    forall fuel, (fuel0 <= fuel)%nat -> free_stats column_int64 column_text column_count call_fn fuel l s = Ok (Some s').
Proof.
  intros [Hz Ht [Hl _] (Uk & pd & bd & Hd & Ed) (Up & pp & bp & Hp & Ep) Hdb (pk & bk & Hk & Ek & Rk) (pm & bm & Hm & Em & Rm) Hne] Ha Hq H0 H1 Hb.
  pose proof (listed_tree _ _ _ _ Hl Hk) as Tk. rewrite <- Ek in Tk.
  destruct (listed_tree _ _ _ _ Hl Hm) as (Hm0 & tm & Mm & Tm & Rep).
  apply evolves_refl in Hz as V. apply evolves_rot in V. cbn [app] in V. apply evolves_rot in V. cbn [app] in V.
  apply list_elem_of_split in Hm as (s1 & s2 & ->).
  assert (Hk' : (pk, bk) ∈ s1 ++ s2) by (apply elem_of_app in Hk as [?|[[= -> _]|?]%elem_of_cons]; [by apply elem_of_app; left|congruence|by apply elem_of_app; right]).
  destruct (destroy_zones (stats_of s) s1 pm bm s2 [] tm Mm _ (ev_zones _ _ _ _ V) Hm0 Rm Tm Rep) as (h1 & b1 & E1 & V1).
  apply (evolves_trans _ _ _ _ _ _ V) in V1. apply evolves_rot in V1. cbn [app] in V1. apply evolves_rot in V1. cbn [app] in V1.
  set (st1 := MkStats h1 _ _ _) in E1. set (w1 := set_stats (k_world (s_k s)) st1).
  apply list_elem_of_split in Hp as (d1 & d2 & ->). rewrite Ep in Up.
  destruct (close_zones w1 d1 pp bp d2 [] _ Up (ev_zones _ _ _ _ V1)) as (w2 & E2 & C2 & V2 & X1 & X2 & X3 & X4 & J2 & D2).
  apply (evolves_trans _ _ _ _ _ _ V1) in V2.
  set (s2' := MkService (set_world (set_world (s_k s) w1) w2) (s_threadList s) (s_main_stats s)).
  assert (Hd' : entry_of (d1 ++ (pp, add_references bp (-1)) :: d2) (k_db (s_k s))).
  { exists pd, bd. split; [|done]. apply elem_of_app in Hd as [?|[[= -> _]|?]%elem_of_cons]; [apply elem_of_app; by left|congruence|apply elem_of_app; right; by apply list_elem_of_further]. }
  destruct (kernel_exit_ok s2' td (d1 ++ (pp, add_references bp (-1)) :: d2) (s1 ++ s2) [(pm, b1)] (la_stop l) q0 q1 (la_buff l) (la_base l))
    as (n & s' & V3 & C3 & Q3 & T3 & D3 & (j & Ej & Hj) & E3); try done.
  { cbn. unfold heap_of. cbn. rewrite X1, X2. apply V2. }
  { apply (usable_other w1); [done|apply D2; cbn; by rewrite <- Ep|done]. }
  { cbn. destruct Tk as (Hk0 & t & M & Tk & Rk'). split; [done|]. exists t, M. split; [|done]. cbn. rewrite X3. cbn.
    rewrite lookup_delete_ne; [done|congruence]. }
  { by exists pk, bk. }
  exists n, s'. cbn in V3. unfold heap_of in V3. cbn in V3. rewrite X1, X2 in V3. split; [by eapply evolves_trans|]. split.
  - assert (Ec : conn_at s2' (k_db (s_k s2')) = conn_at s (k_db (s_k s))) by (unfold conn_of; cbn; rewrite D2; [done|congruence]).
    split; [exact C3| |done| |].
    + rewrite Ep. destruct C2 as (db & ? & ?). exists db. split; [|done]. rewrite D3; [done|cbn; congruence].
    + rewrite T3. cbn. rewrite X3. cbn. by rewrite Em.
    + exists j. rewrite Ec in Ej, Hj. split; [|done]. rewrite Ej. cbn. rewrite J2, Ep. by rewrite <- app_assoc.
  - intros fuel Hf. unfold free_stats. rewrite <- Em in E1. rewrite E1. cbn [mbind res_bind]. unfold close_database. cbn [s_k s_threadList s_main_stats].
    change (getNiuchaczPcapDB (set_world (s_k s) (set_stats (k_world (s_k s)) st1))) with (getNiuchaczPcapDB (s_k s)).
    change (k_world (set_world (s_k s) (set_stats (k_world (s_k s)) st1))) with w1. rewrite Ep, E2. cbn [mbind res_bind].
    exact (E3 fuel Hf).
Qed.

(** From the main loop on. *)
Lemma end_service_ok (s : service) ta td da sa l run t rest q0 q1 :
  assembled s ta td da sa ->
  la_ticks l = run ++ t :: rest -> Forall (tick_ok (s_threadList s)) run -> Forall seen_running run ->
  svcKernelIsRunning (tk_status t) = false ->
  Forall (second 1 (s_threadList s)) (la_sleeps l) -> (length ta <= length (la_sleeps l))%nat ->
  alone (la_stop l) -> k_queues (s_k s) = [q0; q1] ->
  leaves q0 (la_stop l CMD_MANAGER_QUEUE_SHORTOPS) -> leaves q1 (la_stop l CMD_MANAGER_QUEUE_LONGOPS) -> length (la_buff l) = 4096%nat ->
  exists fuel0 s', evolves (heap_at s) (home s ta td da sa) (heap_at s') [] /\ ended s s' /\
    forall fuel, (fuel0 <= fuel)%nat -> end_service column_int64 column_text column_count call_fn fuel l s = Ok (Some s').
Proof.
  intros A Hticks Hrun Hseen Hst Hsl Hlen Ha Hq H0 H1 Hb. pose proof A as [Hz Ht Hl Dk Dp Hdb Sk Sm Hne].
  destruct (main_loop_ok run t rest (s_k s) (s_threadList s) 0 ta td _ sa Hrun Hseen Hst ltac:(lia) Hz ltac:(set_solver) Ht Hl)
    as (ds & _ & _ & Hm). destruct (Hm (length run) (le_n _)) as (ta1 & td1 & (h1 & E1 & V1 & _) & Ht1 & L1 & _). rewrite firstn_all in E1.
  set (k1 := set_status (with_heap (s_k s) h1) (tk_status t)) in *.
  destruct (stop_threads_zones _ (la_sleeps l) h1 ta1 td1 _ Hsl (ev_zones _ _ _ _ V1) Ht1 ltac:(lia)) as (h2 & td2 & E2 & V2 & Ht2).
  apply (evolves_trans _ _ _ _ _ _ V1) in V2. set (s2 := MkService (with_heap k1 h2) (s_threadList s) (s_main_stats s)).
  assert (A2 : assembled s2 [] td2 da sa) by (split; try done; apply V2).
  destruct (free_stats_ok s2 td2 da sa l q0 q1 A2 Ha Hq H0 H1 Hb) as (n & s' & V3 & En & E3). exists n, s'. split_and!.
  - eapply evolves_trans; [exact V2|]. exact V3.
  - destruct En. by split.
  - intros fuel Hf. unfold end_service, svcKernelMainLoop. rewrite Hticks, E1. cbn [mbind res_bind].
    change (heap_of k1) with h1. rewrite E2. cbn [mbind res_bind]. exact (E3 fuel Hf).
Qed.
End exit.

(** The functions of the commands that the table can hold. *)
Lemma commands_destructors {S T} `{SQ : Sqlite S} `{SL : !SqliteLaws S} `{QL : !QueryLaws S} `{SM : StringMap T} column_int64
    column_int column_text ether_aton inet_aton inet_ntoa gethostbyaddr real_time fuel mem :
  (forall s st, sql s st = find_destroy -> column_int64 s st 0%nat ∈ 0 :: (destroy_addr <$> [PacketAnalyzeCmd; ImportPcapCmd; ExportFileCmd])) ->
  destructors (G := @globals S T) column_int64
    (Commands.call_fn column_int column_text ether_aton inet_aton inet_ntoa gethostbyaddr real_time fuel mem).
Proof.
  intros Ht s st k Hs Hne. specialize (Ht s st Hs). revert Hne Ht. generalize (column_int64 s st 0%nat). cbn [fmap list_fmap]. intros p Hne Ht.
  repeat (apply elem_of_cons in Ht as [->|Ht]; [|]); [done|..|by apply elem_of_nil in Ht]; by eexists _, _.
Qed.

(** C17: the main loop runs as long as the service does, and ends in the first
    second that does not find it running.  After every number [m] of seconds
    before that, it has dumped the statistics [m / 61] times (a dump at the end
    of seconds 61, 122, ...), each dump with every counter of every list, and the
    list of threads is purged: whatever thread left the list is freed, a deleted
    thread that is still there is in use, and nothing else in the heap has
    changed. *)
Theorem main_loop_dumps (S T : Type) (SQ : Sqlite S) (SM : StringMap T) (k : @kernel S T (@globals S T)) L act del zs sa run t rest :
  zones (heap_of k) ((L, act, del) :: zs) -> (st_list (w_stats (k_world k)), sa, []) ∈ zs ->
  threads_ok act del -> dumpable (w_stats (k_world k)) sa ->
  Forall (tick_ok L) run -> Forall seen_running run -> svcKernelIsRunning (tk_status t) = false ->
  exists ds, length ds = (length run `div` 61)%nat /\ Forall (dumped (w_stats (k_world k)) sa) ds /\
    forall m, (m <= length run)%nat -> exists h' act' del',
      main_loop k L 0 (take m run ++ t :: rest) = Ok (Some (set_status (with_heap k h') (tk_status t)), take (m `div` 61) ds) /\
      evolves (heap_of k) ((L, act, del) :: zs) h' ((L, act', del') :: zs) /\ (m <> 0%nat -> Forall in_use del').
Proof.
  intros Hz Hin Ht Hs Hrun Hseen Hst.
  destruct (main_loop_ok run t rest k L 0 act del zs sa Hrun Hseen Hst ltac:(lia) Hz Hin Ht Hs) as (ds & Hn & Hd & Hm).
  exists ds. split_and!; [done..|]. intros m Hle. destruct (Hm m Hle) as (act' & del' & (h' & E & V & Hu) & _).
  exists h', act', del'. split_and!; [done..|]. intros H0. apply Hu. destruct m; [done|]. by destruct run; [cbn in Hle; lia|].
Qed.

(** C4: the service shuts down completely: when it is told to stop, its threads
    leave their list one by one and the clients of the queues leave these, the
    program gets from the main loop to its end for any SQLite that obeys the rules
    of statements; it has then freed every entry of the lists of threads,
    databases and statistics and the lists themselves, exactly once, and nothing
    else, has destroyed both queues and closed both databases: of SQLite it asked
    to close the connection to the packets, then only for queries on that of the
    kernel, and last to close that one.  The statistics lists of the databases
    are the only trees it does not free.  It is assumed that the table of
    commands holds the addresses of the destructors that the program put there,
    and that the threads leave their list without using an entry that another
    thread has freed, as [psmgr_double_release] says they may. *)
Theorem service_shutdown (S T : Type) (SQ : Sqlite S) (SL : SqliteLaws S) (QL : QueryLaws S) (JL : Journal S) (SM : StringMap T)
    (column_int64 column_int : S -> Z -> nat -> Z) (column_text : S -> Z -> nat -> list Z) (column_count : S -> Z -> nat)
    column_text' ether_aton inet_aton inet_ntoa gethostbyaddr real_time fuel1 mem (s : @service S T) ta td da sa l run t rest q0 q1 :
  (forall s st, sql s st = find_destroy -> column_int64 s st 0%nat ∈ 0 :: (destroy_addr <$> [PacketAnalyzeCmd; ImportPcapCmd; ExportFileCmd])) ->
  assembled s ta td da sa ->
  la_ticks l = run ++ t :: rest -> Forall (tick_ok (s_threadList s)) run -> Forall seen_running run ->
  svcKernelIsRunning (tk_status t) = false ->
  Forall (second 1 (s_threadList s)) (la_sleeps l) -> (length ta <= length (la_sleeps l))%nat ->
  alone (la_stop l) -> k_queues (s_k s) = [q0; q1] ->
  leaves q0 (la_stop l CMD_MANAGER_QUEUE_SHORTOPS) -> leaves q1 (la_stop l CMD_MANAGER_QUEUE_LONGOPS) -> length (la_buff l) = 4096%nat ->
  exists fuel0 s',
    (forall fuel, (fuel0 <= fuel)%nat -> end_service column_int64 column_text column_count
       (Commands.call_fn column_int column_text' ether_aton inet_aton inet_ntoa gethostbyaddr real_time fuel1 mem) fuel l s = Ok (Some s')) /\
    (let nodes := all_nodes [(s_threadList s, ta, td); (w_DBList (k_world (s_k s)), da, []); (st_list (w_stats (k_world (s_k s))), sa, [])] in
     forall z, heap_of (s_k s') !! z = if decide (z ∈ nodes) then None else heap_of (s_k s) !! z) /\
    ended s s'.
Proof.
  intros Hcol A Hticks Hrun Hseen Hst Hsl Hlen Ha Hq H0 H1 Hb.
  destruct (end_service_ok column_int64 column_text column_count _ (commands_destructors column_int64 column_int column_text' ether_aton inet_aton
    inet_ntoa gethostbyaddr real_time fuel1 mem Hcol) s ta td da sa l run t rest q0 q1) as (n & s' & V & En & E); try done.
  exists n, s'. split; [done|]. split; [|done]. intros nodes z. case_decide as Hz; [|by apply V]. apply V; [done|]. by intros ?%elem_of_nil.
Qed.

(** ** A service *)

(** Statements by handle with their texts and the rows each has left. *)
Abbreviation texts := (gmap Z (nat * list Z)).

#[export] Instance texts_sqlite : Sqlite texts := {
  sqlite_prepare m _ q := (SQLITE_OK, fresh (dom m), <[fresh (dom m) := (2%nat, q)]> m);
  sqlite_bind m st i a := (SQLITE_OK, m);
  sqlite_step m st :=
    match m !! st with
    | Some (Datatypes.S n, q) => (SQLITE_ROW, <[st := (n, q)]> m)
    | _ => (SQLITE_DONE, m)
    end;
  sqlite_finalize m st := (SQLITE_OK, delete st m);
  sqlite_exec m _ q := (SQLITE_OK, m);
  sqlite_open m q := (SQLITE_OK, 1, m);
  sqlite_close m c := m;
  sqlite_remove m f := m;
  watch m := 3
}.

#[export] Program Instance texts_laws : SqliteLaws texts := {
  open_stmts m := dom m;
  rows_left m st := from_option fst O (m !! st)
}.
Next Obligation. cbn. intros m c q rc st s' [= <- <- <-]. split; [apply is_fresh|]. apply dom_insert_L. Qed.
Next Obligation. cbn. intros m st i a rc s' [= _ <-]. done. Qed.
Next Obligation.
  cbn. intros m st rc s'. destruct (m !! st) as [[[|n] q]|] eqn:E; intros [= <- <-]; try done.
  split; [apply dom_insert_lookup_L; by eexists|]. intros _. rewrite lookup_insert_eq. cbn. lia.
Qed.
Next Obligation. cbn. intros m st rc s' [= _ <-]. apply dom_delete_L. Qed.

#[export] Program Instance texts_query : QueryLaws texts := { sql m st := from_option snd [] (m !! st) }.
Next Obligation.
  cbn. intros m c q rc st s' [= <- <- <-]. split; [intros _; by rewrite lookup_insert_eq|]. intros o Ho.
  rewrite lookup_insert_ne by (intros <-; by apply (is_fresh (dom m))). done.
Qed.
Next Obligation. cbn. intros m st i a rc s' [= _ <-] o _. done. Qed.
Next Obligation.
  cbn. intros m st rc s' _. destruct (m !! st) as [[[|n] q]|] eqn:E; intros [= _ <-] o _; [done| |done].
  destruct (decide (o = st)) as [->|Hne]; [rewrite lookup_insert_eq, E; done|]. by rewrite lookup_insert_ne.
Qed.
Next Obligation. cbn. intros m st rc s' [= _ <-] o _ Hne. by rewrite lookup_delete_ne. Qed.

Definition ok_or {A} (d : A) (r : res A) : A := match r with Ok a => a | Err _ => d end.

(** One thread, two databases, the lists of the kernel and of the program. *)
Definition sample_threads : heap :=
  ok_or ∅ ('(_, h) ← doublylinkedlistAlloc ∅ 4096; '(_, h) ← doublylinkedlistAdd h 4096 77 [1; 2] 8192; Ok h).
Definition sample_dbs : heap :=
  ok_or ∅ ('(_, h) ← doublylinkedlistAlloc ∅ 16384; '(_, h) ← doublylinkedlistAdd h 16384 5 [1] 20480;
           '(_, h) ← doublylinkedlistAdd h 16384 6 [1] 24576; Ok h).

Definition sample_mem : gmap Z stats_entry_t :=
  list_to_map ((fun s => (stat_addr (movePtrToUserData 20480) s, MkCounter STATS_FLAGS_TYPE_SUM 0)) <$> all_stats) ∪
  list_to_map ((fun s => (stat_addr (movePtrToUserData 24576) s, MkCounter STATS_FLAGS_TYPE_SUM 0)) <$> all_stats).

Definition kernel_name : list Z := term (str "KERNEL") ++ [0].
Definition sample_stats : @stats_mgr_t ArtOps.art_tree :=
  let st0 := MkStats ∅ 0 ∅ sample_mem in
  ok_or st0 ('(_, st) ← statsmgrStart st0 32768; '(_, st) ← statsCreate st kernel_name 64 36864; '(_, st) ← statsCreate st (term name_main) 64 40960; Ok st).

Lemma sample_threads_ok : dll_ok sample_threads 4096 [(8192, new_body 77 [1; 2])] [].
Proof.
  unfold sample_threads. destruct (alloc_ok ∅ 4096 ltac:(lia)) as (h & E & Hd). rewrite E. cbn [mbind res_bind].
  assert (Hfr : h !! 8192 = None) by (vm_compute in E; injection E as <-; vm_compute; reflexivity).
  destruct (add_ok h 4096 [] [] 77 [1; 2] 8192 Hd ltac:(lia) Hfr) as (h1 & -> & Hd1 & _). exact Hd1.
Qed.

Lemma sample_dbs_ok : dll_ok sample_dbs 16384 [(24576, new_body 6 [1]); (20480, new_body 5 [1])] [].
Proof.
  unfold sample_dbs. destruct (alloc_ok ∅ 16384 ltac:(lia)) as (h & E & Hd). rewrite E. cbn [mbind res_bind].
  assert (Hfr : h !! 20480 = None /\ h !! 24576 = None) by (vm_compute in E; injection E as <-; vm_compute; done). destruct Hfr as [Hf1 Hf2].
  destruct (add_ok h 16384 [] [] 5 [1] 20480 Hd ltac:(lia) Hf1) as (h1 & -> & Hd1 & W1). cbn [mbind res_bind].
  assert (Hf3 : h1 !! 24576 = None) by (apply eq_None_not_Some; rewrite W1, Hf2; intros [?|[? ?]]; done).
  destruct (add_ok h1 16384 _ [] 6 [1] 24576 Hd1 ltac:(lia) Hf3) as (h2 & -> & Hd2 & _). exact Hd2.
Qed.

Lemma sample_stats_ok :
  exists b1 b2, dll_ok (st_heap sample_stats) 32768 [(40960, b2); (36864, b1)] [] /\ st_list sample_stats = 32768 /\
    st_mem sample_stats = sample_mem /\ Forall (listed sample_stats) [(40960, b2); (36864, b1)] /\
    b_references b1 = 1 /\ b_references b2 = 1 /\ (b_size b1 + b_size b2 < 200)%nat.
Proof.
  unfold sample_stats. destruct (alloc_ok ∅ 32768 ltac:(lia)) as (h & E & Hd). unfold statsmgrStart. cbn [st_heap]. rewrite E. cbn [mbind res_bind].
  assert (Hfr : h !! 36864 = None) by (vm_compute in E; injection E as <-; vm_compute; reflexivity).
  destruct (create_ok (MkStats h 32768 ∅ sample_mem : @stats_mgr_t ArtOps.art_tree) [] [] kernel_name (str "KERNEL") 64 36864 Hd ltac:(decide_closed)
    ltac:(cbn; lia) ltac:(cbn; lia) ltac:(lia) ltac:(lia) Hfr) as (st1 & b1 & E1 & Hd1 & L1 & Hb1 & Ht1 & Hm1 & Hk1 & Hs1 & Hdata1).
  assert (Hfr2 : st_heap st1 !! 40960 = None).
  { vm_compute in E; injection E as <-. vm_compute in E1. injection E1 as <-. vm_compute. reflexivity. }
  cbn [st_trees st_mem] in *. rewrite E1. cbn [mbind res_bind].
  destruct (create_ok st1 _ [] (term name_main) name_main 64 40960 Hd1 ltac:(decide_closed)
    ltac:(cbn; lia) ltac:(cbn; lia) ltac:(lia) ltac:(lia) Hfr2) as (st2 & b2 & -> & Hd2 & L2 & Hb2 & Ht2 & Hm2 & Hk2 & Hs2 & Hdata2).
  cbn [mbind res_bind ok_or]. exists b1, b2. rewrite L1 in L2. cbn [st_list] in L2. rewrite L2 in Hd2. split_and!; try done; [congruence| |].
  - constructor; [|constructor; [|constructor]].
    + apply (created_listed st2 (term name_main) name_main 40960 b2 sm_init ∅); try done; [decide_closed|cbn; lia|..].
      * intros E0. rewrite E0 in Hk2. vm_compute in Hk2. discriminate Hk2.
      * rewrite Ht2. apply lookup_insert_eq.
    + apply (created_listed st2 kernel_name (str "KERNEL") 36864 b1 sm_init ∅); try done; [decide_closed|..].
      * intros E0. rewrite E0 in Hk1. vm_compute in Hk1. discriminate Hk1.
      * rewrite Ht2, Ht1. rewrite lookup_insert_ne by done. apply lookup_insert_eq.
  - rewrite Hs1, Hs2, Hdata1, Hdata2. vm_compute. lia.
Qed.

Definition sample_heap : heap := sample_threads ∪ (sample_dbs ∪ st_heap sample_stats).

(** A queue with [n] consumers. *)
Definition open_queue (n : Z) : Queue.queue_t := Queue.MkQueue [] 0 0 n 0 true 0 0 0 0 0.

Definition running_service : @service (logged texts) ArtOps.art_tree :=
  let db := MkDb 1 0 false DB_FLAGS_STATE_OPEN [] [] in
  MkService
    (MkKernel (MkWorld (MkLogged ∅ []) (set_heap sample_stats sample_heap) 16384 {[ movePtrToUserData 20480 := db; movePtrToUserData 24576 := db ]})
       SVC_KERNEL_STATUS_RUNNING (movePtrToUserData 20480) (movePtrToUserData 36864) [Some (open_queue 1); Some (open_queue 1)]
       (MkGlobals (movePtrToUserData 24576) (MkCaches None None) ∅))
    4096 (movePtrToUserData 40960).

(** The first thread of the list at 4096 deletes its entry. *)
Definition first_leaves (h : heap) : res heap :=
  n ← load h (activeEntries 4096); doublylinkedlistDel h 4096 (movePtrToUserData (n_next n)).

Definition sample_tick (status : Z) : tick := MkTick status (fun h => Ok h) (replicate 4096 0) 65536.
Definition sample_ticks : list tick := replicate 61 (sample_tick SVC_KERNEL_STATUS_RUNNING).

Definition stopping_launch : @launch (logged texts) ArtOps.art_tree :=
  MkLaunch [] true false 0 0 0 0 0 (fun _ => 0) (fun _ => 0) (MkTv 0 0) (sample_ticks ++ [sample_tick SVC_KERNEL_STATUS_STOP_PENDING])
    [first_leaves] (fun _ => MkDestroyWaits [] [open_queue 0] (fun k => Ok k)) (replicate 4096 0) 65536.

(** A list in the heap of the service. *)
Ltac in_sample_heap := eapply lists_frame; [eassumption|]; unfold nodes; cbn [fmap list_fmap fst app]; intros z Hz;
  repeat match type of Hz with _ ∈ _ :: _ => apply elem_of_cons in Hz as [->|Hz]; [vm_compute; reflexivity|] end;
  apply elem_of_nil in Hz; destruct Hz.

Lemma sample_assembled :
  exists b1 b2, assembled running_service [(8192, new_body 77 [1; 2])] [] [(24576, new_body 6 [1]); (20480, new_body 5 [1])] [(40960, b2); (36864, b1)].
Proof.
  destruct sample_stats_ok as (b1 & b2 & Hs & Ls & Hm & Hl & R1 & R2 & Hsz). pose proof sample_threads_ok as Ht. pose proof sample_dbs_ok as Hd.
  exists b1, b2. assert (Hu : forall p, p = 20480 \/ p = 24576 -> usable (k_world (s_k running_service)) (movePtrToUserData p)).
  { intros p [-> | ->]; (split; [done|]; split; [eexists; split; [vm_compute; reflexivity|reflexivity]|]; exists (fun _ => 0); intros x;
      change (w_stats (k_world (s_k running_service))) with (set_heap sample_stats sample_heap); cbn [st_mem set_heap]; rewrite Hm; by destruct x). }
  split; cbn [s_k s_threadList s_main_stats k_world k_db k_stats w_DBList w_stats running_service getNiuchaczPcapDB k_globals g_db st_list set_heap].
  - rewrite Ls. split; [|apply (bool_decide_unpack _); vm_compute; exact I].
    apply list.Forall_cons; split; [split; [lia|in_sample_heap]|]. apply list.Forall_cons; split; [split; [lia|in_sample_heap]|].
    apply list.Forall_cons; split; [split; [lia|in_sample_heap]|constructor].
  - split_and!; [repeat constructor; done|repeat constructor|cbn; lia].
  - split; [exact Hl|]. cbn. unfold sizeof_query. lia.
  - split; [apply Hu; by left|]. eexists _, _. split; [|reflexivity]. apply list_elem_of_further, list_elem_of_here.
  - split; [apply Hu; by right|]. eexists _, _. split; [|reflexivity]. apply list_elem_of_here.
  - done.
  - eexists _, _. split; [apply list_elem_of_further, list_elem_of_here|]. split; [reflexivity|]. rewrite R1. lia.
  - eexists _, _. split; [apply list_elem_of_here|]. split; [reflexivity|]. rewrite R2. lia.
  - done.
Qed.

Lemma sample_ticks_ok : Forall (tick_ok 4096) sample_ticks /\ Forall seen_running sample_ticks.
Proof.
  split; apply list.Forall_replicate; [|done]. split; [|apply length_replicate]. intros h act del Hd Ht _.
  exists h, act, del. split_and!; try done. cbn. lia.
Qed.

Lemma first_leaves_ok : second 1 4096 first_leaves.
Proof.
  intros h [|[p b] act] del Hd (Ht & Hr & Hs) Hne; [done|]. apply list.Forall_cons in Hr as [Hb Hr]. cbn [snd] in Hb.
  unfold first_leaves. destruct (ring_first _ _ _ _ (do_act _ _ _ _ _ _ _ Hd)) as [Hn _]. destruct (load_nxt _ _ _ Hn) as (n & -> & En).
  cbn [mbind res_bind]. rewrite En. cbn [first_of fmap list_fmap hd fst].
  destruct (del_framed h 4096 [] p b act del Hd Hb) as (h' & -> & Hd' & Fr). cbn [app] in *.
  assert (Hp : act ++ (p, mark_deleted b) :: del ≡ₚ (p, mark_deleted b) :: act ++ del) by (by rewrite <- Permutation_middle).
  exists h', act, ((p, mark_deleted b) :: del). split_and!; try done; [|by rewrite Hp|cbn; lia].
  apply list.Forall_cons in Ht as [Hp' Ht]. split_and!; [rewrite Hp; by constructor|done|].
  rewrite records_size_app, records_size_cons. cbn [app] in Hs. rewrite records_size_cons, records_size_app in Hs.
  cbn [snd mark_deleted b_size] in *. lia.
Qed.

Lemma main_loop_dumps_witness :
  exists b1 b2 ds, length ds = 1%nat /\ Forall (dumped (w_stats (k_world (s_k running_service))) [(40960, b2); (36864, b1)]) ds /\
    (exists h', main_loop (s_k running_service) 4096 0 (sample_ticks ++ [sample_tick SVC_KERNEL_STATUS_STOP_PENDING]) =
      Ok (Some (set_status (with_heap (s_k running_service) h') SVC_KERNEL_STATUS_STOP_PENDING), ds)) /\
    (exists h', main_loop (s_k running_service) 4096 0 (take 60 sample_ticks ++ [sample_tick SVC_KERNEL_STATUS_STOP_PENDING]) =
      Ok (Some (set_status (with_heap (s_k running_service) h') SVC_KERNEL_STATUS_STOP_PENDING), [])).
Proof.
  destruct sample_assembled as (b1 & b2 & A). destruct sample_ticks_ok as [H1 H2].
  destruct (main_loop_dumps (logged texts) ArtOps.art_tree _ _ (s_k running_service) 4096 _ _ _ _ sample_ticks (sample_tick SVC_KERNEL_STATUS_STOP_PENDING) []
    (as_zones _ _ _ _ _ A) ltac:(apply list_elem_of_further, list_elem_of_here) (as_threads _ _ _ _ _ A) (as_lists _ _ _ _ _ A) H1 H2 eq_refl)
    as (ds & Hn & Hd & Hm).
  exists b1, b2, ds. split; [exact Hn|]. split; [exact Hd|]. split.
  - destruct (Hm 61%nat ltac:(apply Nat.leb_le; reflexivity)) as (h' & act' & del' & E & _). exists h'. rewrite firstn_all2 in E by (cbn; lia).
    rewrite firstn_all2 in E by (rewrite Hn; apply Nat.leb_le; reflexivity). exact E.
  - destruct (Hm 60%nat ltac:(apply Nat.leb_le; reflexivity)) as (h' & act' & del' & E & _). exists h'. exact E.
Defined.

Lemma service_shutdown_witness :
  exists fuel0 s', (forall fuel, (fuel0 <= fuel)%nat -> end_service (fun _ _ _ => destroy_addr ImportPcapCmd) (fun _ _ _ => []) (fun _ _ => 1%nat)
      (Commands.call_fn (fun _ _ _ => 0) (fun _ _ _ => None) (fun _ => None) (fun _ => None) (fun _ => []) (fun _ => None)
         (fun _ _ => Timer.MkTs 0 0) 10 true) fuel stopping_launch running_service = Ok (Some s')) /\ ended running_service s'.
Proof.
  destruct sample_assembled as (b1 & b2 & A). destruct sample_ticks_ok as [H1 H2].
  destruct (service_shutdown (logged texts) ArtOps.art_tree _ _ _ _ _ (fun _ _ _ => destroy_addr ImportPcapCmd) (fun _ _ _ => 0) (fun _ _ _ => []) (fun _ _ => 1%nat)
    (fun _ _ _ => None) (fun _ => None) (fun _ => None) (fun _ => []) (fun _ => None) (fun _ _ => Timer.MkTs 0 0) 10 true running_service _ _ _ _
    stopping_launch sample_ticks (sample_tick SVC_KERNEL_STATUS_STOP_PENDING) [] (Some (open_queue 1)) (Some (open_queue 1))
    ltac:(intros; apply list_elem_of_further, list_elem_of_further, list_elem_of_here) A eq_refl H1 H2 eq_refl)
    as (n & s' & E & _ & En).
  - constructor; [exact first_leaves_ok|constructor].
  - cbn. lia.
  - intros i k. reflexivity.
  - reflexivity.
  - split; [constructor; cbn; lia|left; constructor; cbn; lia].
  - split; [constructor; cbn; lia|left; constructor; cbn; lia].
  - apply length_replicate.
  - exists n, s'. split; [exact E|exact En].
Defined.
End Shutdown.
